(* ===== verification/_CoqProject ===== *)
-Q . S2P
Prelude.v
State.v
Spinlock.v
Sched.v
Sleeplock.v
Ring.v
Bio.v
BioSpec.v
Balloc.v
CString.v
Inode.v
Dir.v
FileMap.v
InodeSpec.v
FileSpec.v
InodeCache.v
Kalloc.v
Pipe.v
File.v
FileRead.v
DirSpec.v
Vm.v
PageTable.v
VmSpec.v
VmFree.v
VmAlloc.v
VmCopy.v
Font.v
Gop.v
Kbd.v
Console.v
Proc.v
SchedSpec.v
Fork.v
Umem.v
Exec.v
Sysfile.v
Syscall.v
ConsoleSpec.v
ConsoleInput.v
Usys.v
FdSpec.v
Ulib.v
UlibSpec.v
Nsh.v
NshSpec.v
NshParse.v
NshRun.v
NshWire.v
Malloc.v
MallocSpec.v
Programs.v
ProgramsSpec.v
Mkfs.v
MkfsFile.v
MkfsSpec.v
ImageBoot.v
Seg.v
SegSpec.v
Dev.v
DevSpec.v
ApicSpec.v
Boot.v
BootSpec.v
