(* ===== verification/Prelude.v ===== *)
(** * A verified model of the xv6_64 kernel and its user space

    The development translates the C code of the kernel (src/kernel) and of the
    user programs (src/user), and the builder of the disk image (src/tools),
    into Rocq definitions and proves what the parts promise each other.  A definition bears the name of the C function it
    translates; loops and the arms of long functions are definitions of their
    own, named after the function.

    ** The program and its model

    The kernel runs on one processor.  Interrupts stay off from the entry of a
    system call to its end, so kernel code is interrupted nowhere and loses the
    processor only in [sched].  Locks and switching do not take that for
    granted: the definitions of Spinlock and Sched that switch interrupts on or
    off run a handler ([Irq]) wherever interrupts are on.  With a handler, the
    order of the steps inside a run matters (no wakeup may come between the
    test of a condition and the sleep); all other files use them without one
    ([no_irq]).  The model follows: a kernel function is a run
    on one state of all kernel globals ([kstate] of State), in the monad [M] of
    this file; a run ends with [Done], with a [Panic] and its message, with
    [Spin] (a spin lock that can never be had), with [NoFuel], or with [Susp],
    which hands the state to the scheduler together with the rest of the
    thread.  Pointers into kernel tables are indices; the pages kalloc hands
    out, page tables, kernel stacks and user memory are bytes of [m_pages] at
    physical addresses.  C integers are [Z], with the width written out where
    the code stores them.

    User programs are interaction trees over the system calls of user.h (Usys),
    at the level of the bytes passed; the memory of a program that walks its
    own pointers (the shell's line and nodes, the allocator's blocks) is a
    state of the model of that program.  Code that talks to devices is an
    interaction tree as well (Dev): its events are accesses to ports, to model
    specific registers and to mapped registers, and runs of the code above on
    the kernel's state.  The image builder is a run on the array it fills.

    ** The files

    Locks and switching: State (the globals), Spinlock (spinlock.c: nested
    interrupt disabling, acquire, release), Sched (proc.c: sched, yield, sleep,
    wakeup, kill), Sleeplock (sleeplock.c).

    Storage: Ring (doubly linked rings, generic), Bio and BioSpec (bio.c,
    ramdisk.c: the buffer cache is an array of blocks; recycling order), Balloc
    (fs.c: bitmap), CString (string.c), Inode (fs.c: the inode operations), Dir
    (fs.c: directories and paths), FileMap, InodeSpec, FileSpec (bmap, readi,
    writei: a file is an array of bytes), InodeCache (iget, ilock, iupdate),
    DirSpec (a directory is a finite map, a path a list of components).

    Memory: Kalloc (kalloc.c, bump.c), Vm (vm.c), PageTable (page tables as
    trees), VmSpec (walking and mapping), VmFree, VmAlloc, VmCopy (what
    dealloc_uvm, alloc_uvm - with and without enough memory - and copy_uvm do
    to an address space).

    Pipes and open files: Pipe (pipe.c: a bounded queue), File, FileRead
    (file.c, pipe_alloc).

    Devices: Font, Gop (gop.c), Kbd (kbd.c), Console (console.c), ConsoleSpec
    (the screen is a scrolling terminal), ConsoleInput (the ring of the
    keyboard is a line editor).

    Processes and system calls: Proc (proc.c), SchedSpec (no starvation), Fork
    (fork), Umem (user memory through the page tables), Exec (exec.c), Sysfile
    (sysfile.c), Syscall (syscall.c, sysproc.c, trap.c).

    User space: Usys (user.h), FdSpec (the kernel's descriptors are those the
    programs are verified against), Ulib, UlibSpec (ulib.c), Nsh, NshSpec,
    NshParse (the parser of nsh.c against a grammar), NshRun, NshWire (the
    processes, pipes and redirections of a command line), Malloc, MallocSpec
    (malloc.c), Programs, ProgramsSpec (cat.c, echo.c, mkdir.c, rm.c, ls.c,
    init.c, sh.c).

    The image: Mkfs (tools/mkfs.c), MkfsFile (files in the image under
    construction), MkfsSpec (the image that is written), ImageBoot (the kernel
    running on it).

    Booting: Seg, SegSpec (descriptor tables: seg.h, seg_init, tv_init), Dev
    (uart.c, debug.c, lapic.c, ioapic.c, cpu.c, syscall_init, kbd_init),
    DevSpec, ApicSpec (what these leave in the devices), Boot, BootSpec (main.c,
    mb2.c and the boot information).

    ** How the parts meet

    Bio promises the file system an array of blocks: [bio_inv] and [bio_at]
    say that a buffer, the disk and the pending writes agree on the contents of
    each block, and the lemmas of InodeSpec use the cache only through them.
    Inode builds files on it, Dir directories on files, and File open files on
    both; each layer is used by the next through its specification ([readi_run],
    [writei_run], [dir_lookup_run], [iget_ok]).  Vm uses Kalloc through
    [kalloc]'s and [kfree]'s specifications, and Fork uses Vm through
    [copy_uvm_run].  The shell is verified against a table of descriptors that
    hands out the lowest free one; FdSpec proves that the kernel's fd_alloc,
    sys_dup and sys_close are that table.  printf of the user library is
    compared with the formatter that cprintf of the kernel refines.  The image
    of mkfs is judged by the kernel's own notions: the block maps by [file_ok]
    of FileMap, the root directory by [entries] of DirSpec.  [main] of Boot runs
    the drivers of Dev and the initialisers of the other files in their order.

    ** What the theorems show

    - Refinement of an abstract machine: the buffer cache and an array of
      blocks, pipes and a bounded queue, cprintf and a terminal, keyboard
      interrupts and a line editor, the shell and the wiring of a command.
    - Contents: files as byte arrays that other writes do not touch,
      directories as maps, address spaces through alloc, dealloc, copy and fork.
    - Allocators: the bitmap, the page list and malloc hand out only what is
      free, keep what is handed out, and give back.
    - The image: well formed, with every program's bytes in its file, which the
      kernel that boots on it finds by path and reads through its caches.
    - Devices: the serial line carries the formatted text, busy waiting ends,
      the I/O APIC routes what was enabled and nothing else, descriptors and
      gates read back as what they were made from, STAR and the descriptor
      table agree.
    - Concurrency: interrupts are off under a spin lock, no wakeup is lost to a
      handler that interrupts sleep, no runnable process starves.
    - Languages: the shell's parser decides its grammar and inverts printing.
    - Errors: every operation's failing branches, including the ones the code
      gets wrong (see the findings named in the doc comments).

    ** Bounds and fuel

    Loops over a fixed table recurse over the table.  Loops along a list in
    memory take a fuel that the calling definition computes from the state
    (the number of buffers, [page_fuel], [ring_fuel], the length of the line),
    and the theorems show it suffices: their conclusions are [wp] statements,
    which exclude [NoFuel].  Runs that may wait without bound (sleep in a loop,
    wait, reading the console) are [Susp] runs, one suspension at a time, or
    take a fuel for the number of wakeups that the theorem quantifies over.
    Widths: sizes, offsets and the counters of a pipe are 64 bits, the ring
    indices of the console 32 bits, and their wrap-around is in the definitions.

    ** Not modelled

    Assembly (boot, trap entry, swtch.asm: a switch is the point where sched
    and scheduler hand over; entry points are addresses given to the
    definitions); test_bcache of bio.c, a self test that nothing calls.
    What the kernel traces on the serial line (the calls of serial_printf in
    syscall.c and trap.c, the copy of each character under console_putc) has
    no effect on the state and is left out of its runs.  Of sh.c the trial
    of malloc at the start of main is left out; of mkfs.c a read error half
    way through a file of the host.  The kernel half of an address space is
    not reachable through a user pointer in Umem, although the code does not
    check for it.  sys_write copies the user bytes before the call.  In the
    shell malloc of a node is taken to succeed, as in the code. *)
From Stdlib Require Export ZArith Lia Init.Byte.
From stdpp Require Export base gmap strings numbers countable functions.
From stdpp Require Export list_basics list_relations list_monad list_misc list_tactics list_numbers list.
#[global] Open Scope Z_scope.

(** * Machine integers

    C integers are [Z]; the width is written out where the code stores a
    value into a variable of that width. *)

Definition u64 (x : Z) : Z := x `mod` 2 ^ 64.
Definition u32 (x : Z) : Z := x `mod` 2 ^ 32.
Definition u8 (x : Z) : Z := x `mod` 2 ^ 8.

(** Two's complement reading of the low [w] bits. *)
Definition sgn (w x : Z) : Z :=
  let y := x `mod` 2 ^ w in if decide (y < 2 ^ (w - 1)) then y else y - 2 ^ w.
Definition s16 (x : Z) : Z := sgn 16 x.
Definition s32 (x : Z) : Z := sgn 32 x.
Definition s64 (x : Z) : Z := sgn 64 x.

Lemma u64_small x : 0 ≤ x < 2 ^ 64 → u64 x = x.
Proof. apply Z.mod_small. Qed.
Lemma u64_range x : 0 ≤ u64 x < 2 ^ 64.
Proof. apply Z.mod_pos_bound. lia. Qed.
Lemma u32_small x : 0 ≤ x < 2 ^ 32 → u32 x = x.
Proof. apply Z.mod_small. Qed.
Lemma u32_range x : 0 ≤ u32 x < 2 ^ 32.
Proof. apply Z.mod_pos_bound. lia. Qed.

Lemma sgn_small w x : 0 < w → - 2 ^ (w - 1) ≤ x < 2 ^ (w - 1) → sgn w x = x.
Proof.
  intros Hw Hx. unfold sgn.
  assert (2 ^ w = 2 * 2 ^ (w - 1)) as E.
  { rewrite <- Z.pow_succ_r by lia. f_equal; lia. }
  destruct (decide (0 ≤ x)).
  - rewrite Z.mod_small by lia. rewrite decide_True by lia. done.
  - assert (x `mod` 2 ^ w = x + 2 ^ w) as ->.
    { symmetry. apply Z.mod_unique with (q := -1); lia. }
    rewrite decide_False by lia. lia.
Qed.

Lemma sgn_mod w x : 0 < w → sgn w (x `mod` 2 ^ w) = sgn w x.
Proof.
  intros Hw. unfold sgn. rewrite Z.mod_mod; [done|].
  pose proof (Z.pow_pos_nonneg 2 w). lia.
Qed.

(** * Bytes *)

Definition b2z (b : byte) : Z := Z.of_N (Byte.to_N b).
Definition z2b (z : Z) : byte :=
  match Byte.of_N (Z.to_N (z `mod` 256)) with Some b => b | None => x00 end.

Lemma b2z_range b : 0 ≤ b2z b < 256.
Proof. unfold b2z. pose proof (Byte.to_N_bounded b). lia. Qed.

Lemma b2z_z2b z : b2z (z2b z) = z `mod` 256.
Proof.
  unfold b2z, z2b. pose proof (Z.mod_pos_bound z 256 ltac:(lia)).
  destruct (Byte.of_N _) as [b|] eqn:E.
  - apply Byte.to_of_N in E. rewrite E. lia.
  - apply Byte.of_N_None_iff in E. lia.
Qed.

Lemma z2b_b2z b : z2b (b2z b) = b.
Proof.
  unfold z2b. rewrite Z.mod_small by apply b2z_range.
  unfold b2z. rewrite N2Z.id, Byte.of_to_N. done.
Qed.

Lemma b2z_inj a b : b2z a = b2z b → a = b.
Proof. intros H. rewrite <- (z2b_b2z a), <- (z2b_b2z b), H. done. Qed.

#[export] Instance byte_eq_dec : EqDecision byte := Byte.byte_eq_dec.

Lemma z2b_mod z : z2b (z `mod` 256) = z2b z.
Proof. unfold z2b. rewrite Z.mod_mod; done. Qed.


(** * Little-endian words *)

Fixpoint le_get (l : list byte) : Z :=
  match l with
  | [] => 0
  | b :: l' => b2z b + 256 * le_get l'
  end.

Fixpoint le_put (n : nat) (z : Z) : list byte :=
  match n with
  | O => []
  | S n' => z2b z :: le_put n' (z / 256)
  end.

Lemma le_put_length n z : length (le_put n z) = n.
Proof. revert z; induction n; intros; simpl; auto. Qed.

Lemma le_get_put n z : le_get (le_put n z) = z `mod` 256 ^ Z.of_nat n.
Proof.
  revert z; induction n as [|n IH]; intros z; cbn [le_put le_get].
  - rewrite Z.mod_1_r. done.
  - rewrite IH, b2z_z2b, Nat2Z.inj_succ, Z.pow_succ_r by lia.
    rewrite Z.rem_mul_r; [lia| |lia]; lia.
Qed.

Lemma le_put_get l : le_put (length l) (le_get l) = l.
Proof.
  induction l as [|b l IH]; [done|]. cbn [length le_put le_get].
  pose proof (b2z_range b). f_equal.
  - rewrite <- (z2b_mod (b2z b + _)).
    replace ((b2z b + 256 * le_get l) `mod` 256) with (b2z b).
    + apply z2b_b2z.
    + rewrite Z.mul_comm, Z.mod_add by lia. rewrite Z.mod_small; lia.
  - replace ((b2z b + 256 * le_get l) / 256) with (le_get l); [done|].
    rewrite Z.mul_comm, Z.div_add by lia. rewrite Z.div_small; lia.
Qed.

Lemma le_get_range l : 0 ≤ le_get l < 256 ^ Z.of_nat (length l).
Proof.
  rewrite <- (le_put_get l) at 1 2. rewrite le_get_put.
  apply Z.mod_pos_bound. lia.
Qed.

(** * Slices of byte arrays

    [slice off n l] is [l[off .. off+n)]; [splice off new l] is [l] after
    [memcpy(l + off, new, length new)]. *)

Definition slice {A} (off n : nat) (l : list A) : list A := take n (drop off l).
Definition splice {A} (off : nat) (new l : list A) : list A :=
  take off l ++ new ++ drop (off + length new) l.

Section Slices.
Context {A : Type}.
Implicit Types l new : list A.

Lemma slice_length off n l :
  (off + n ≤ length l)%nat → length (slice off n l) = n.
Proof. intros. unfold slice. rewrite length_take, length_drop. lia. Qed.

Lemma splice_length off new l :
  (off + length new ≤ length l)%nat → length (splice off new l) = length l.
Proof.
  intros. unfold splice. rewrite !length_app, length_take, length_drop. lia.
Qed.

Lemma slice_lookup off n l i :
  (i < n)%nat → slice off n l !! i = l !! (off + i)%nat.
Proof. intros. unfold slice. rewrite lookup_take_lt by done. apply lookup_drop. Qed.

Lemma splice_lookup_in off new l i :
  (off ≤ length l)%nat → (off ≤ i < off + length new)%nat →
  splice off new l !! i = new !! (i - off)%nat.
Proof.
  intros Hl Hi. unfold splice.
  rewrite lookup_app_r by (rewrite length_take; lia).
  rewrite length_take, Nat.min_l by lia.
  rewrite lookup_app_l by lia. done.
Qed.

Lemma splice_lookup_out off new l i :
  (off + length new ≤ length l)%nat → (i < off ∨ off + length new ≤ i)%nat →
  splice off new l !! i = l !! i.
Proof.
  intros Hl Hi. unfold splice. destruct (decide (i < off)%nat).
  - rewrite lookup_app_l by (rewrite length_take; lia).
    apply lookup_take_lt; lia.
  - rewrite lookup_app_r by (rewrite length_take; lia).
    rewrite length_take, Nat.min_l by lia.
    rewrite lookup_app_r by lia. rewrite lookup_drop. f_equal. lia.
Qed.

Lemma slice_splice_eq off new l :
  (off + length new ≤ length l)%nat → slice off (length new) (splice off new l) = new.
Proof.
  intros Hl. apply list_eq; intros i. destruct (decide (i < length new)%nat).
  - rewrite slice_lookup by done. rewrite splice_lookup_in by lia. f_equal; lia.
  - rewrite !lookup_ge_None_2; [done|lia|].
    rewrite slice_length; [lia|rewrite splice_length; lia].
Qed.

Lemma slice_splice_ne off new l off' n' :
  (off + length new ≤ length l)%nat →
  (off' + n' ≤ off ∨ off + length new ≤ off')%nat →
  slice off' n' (splice off new l) = slice off' n' l.
Proof.
  intros Hl Hd. apply list_eq; intros i. destruct (decide (i < n')%nat).
  - rewrite !slice_lookup by done. apply splice_lookup_out; lia.
  - unfold slice. rewrite !lookup_take_ge by lia. done.
Qed.

Lemma splice_slice_id off n l :
  (off + n ≤ length l)%nat → splice off (slice off n l) l = l.
Proof.
  intros Hl. unfold splice. rewrite slice_length by lia. unfold slice.
  rewrite <- drop_drop, take_drop, take_drop. done.
Qed.

Lemma slice_app off n m l :
  slice off (n + m) l = slice off n l ++ slice (off + n) m l.
Proof.
  unfold slice. rewrite <- drop_drop. 
  revert l; induction off as [|off IH]; intros l; simpl.
  - rewrite !drop_0. revert l; induction n as [|n IHn]; intros [|x l]; simpl; try done.
    + by rewrite take_nil.
    + f_equal. apply IHn.
  - destruct l as [|x l]; simpl; [|apply IH].
    by rewrite !drop_nil, !take_nil.
Qed.

Lemma splice_full new l : length new = length l → splice 0 new l = new.
Proof.
  intros E. unfold splice. rewrite take_0, E. simpl.
  rewrite drop_all, app_nil_r. done.
Qed.
End Slices.

(** Byte [i] of an array, as a number. *)
Definition dbyte (i : Z) (l : list byte) : Z := b2z (default x00 (l !! Z.to_nat i)).

Lemma dbyte_range i l : 0 ≤ dbyte i l < 256.
Proof. apply b2z_range. Qed.

Lemma dbyte_splice1 i j v l :
  0 ≤ i < Z.of_nat (length l) → 0 ≤ j →
  dbyte j (splice (Z.to_nat i) [z2b v] l) = if decide (i = j) then v `mod` 256 else dbyte j l.
Proof.
  intros Hi Hj. unfold dbyte. case_decide as E.
  - subst j. rewrite splice_lookup_in by (simpl; lia). rewrite Nat.sub_diag. simpl. apply b2z_z2b.
  - rewrite splice_lookup_out; [done|simpl; lia|simpl; lia].
Qed.

(** Reading and writing an [n]-byte little-endian field. *)
Definition get_le (n off : nat) (l : list byte) : Z := le_get (slice off n l).
Definition set_le (n off : nat) (z : Z) (l : list byte) : list byte :=
  splice off (le_put n z) l.

Lemma set_le_length n off z l :
  (off + n ≤ length l)%nat → length (set_le n off z l) = length l.
Proof. intros. apply splice_length. rewrite le_put_length. lia. Qed.

Lemma get_set_le_eq n off z l :
  (off + n ≤ length l)%nat → get_le n off (set_le n off z l) = z `mod` 256 ^ Z.of_nat n.
Proof.
  intros. unfold get_le, set_le.
  replace n with (length (le_put n z)) at 1 by apply le_put_length.
  rewrite slice_splice_eq by (rewrite le_put_length; lia). apply le_get_put.
Qed.

Lemma get_set_le_ne n off z l n' off' :
  (off + n ≤ length l)%nat → (off' + n' ≤ off ∨ off + n ≤ off')%nat →
  get_le n' off' (set_le n off z l) = get_le n' off' l.
Proof.
  intros. unfold get_le, set_le. rewrite slice_splice_ne; [done| |];
    rewrite le_put_length; lia.
Qed.

Lemma get_le_range n off l :
  (off + n ≤ length l)%nat → 0 ≤ get_le n off l < 256 ^ Z.of_nat n.
Proof.
  intros. unfold get_le. pose proof (le_get_range (slice off n l)) as R.
  rewrite slice_length in R by lia. done.
Qed.

(** The first element of a list with a property, if there is one. *)
Lemma split_first {A} (P : A → Prop) `{!∀ x, Decision (P x)} (l : list A) :
  (∃ l1 a l2, l = l1 ++ a :: l2 ∧ P a ∧ ∀ c, c ∈ l1 → ¬ P c) ∨ (∀ c, c ∈ l → ¬ P c).
Proof.
  induction l as [|x l IH]; [right; set_solver|].
  destruct (decide (P x)) as [Hx|Hx].
  - left. exists [], x, l. split_and!; [done..|set_solver].
  - destruct IH as [(l1 & a & l2 & -> & Ha & Hl)|Hl]; [left|right; set_solver].
    exists (x :: l1), a, l2. split_and!; [done..|set_solver].
Qed.

(** An element occurs at one place of a list without duplicates. *)
Lemma NoDup_split_unique {A} (l1 l2 m1 m2 : list A) a :
  NoDup (l1 ++ a :: l2) → l1 ++ a :: l2 = m1 ++ a :: m2 → l1 = m1 ∧ l2 = m2.
Proof.
  revert m1. induction l1 as [|x l1 IH]; intros [|y m1] Hnd E; simpl in *.
  - by injection E as ->.
  - injection E as <- E. apply NoDup_cons in Hnd. rewrite E in Hnd. set_solver.
  - injection E as -> E. apply NoDup_cons in Hnd. set_solver.
  - injection E as -> E. apply NoDup_cons in Hnd as [_ Hnd]. apply IH in E as [-> ->]; done.
Qed.

(** * Results and the kernel monad

    A piece of C code run on a state either returns, calls [panic] (the
    machine halts), gives up the CPU inside [sched] (the rest of the code is
    the continuation that [swtch] resumes), spins for ever on a spin lock that
    is never released, or has used up the bound a loop was given. *)

Inductive res (S A : Type) : Type :=
| Done (a : A) (s : S)
| Panic (msg : string)
| Susp (s : S) (k : S → res S A)
| Spin
| NoFuel.
Arguments Done {S A} a s.
Arguments Panic {S A} msg.
Arguments Susp {S A} s k.
Arguments Spin {S A}.
Arguments NoFuel {S A}.

Definition M (S A : Type) : Type := S → res S A.

Fixpoint rbind {S A B} (r : res S A) (f : A → M S B) : res S B :=
  match r with
  | Done a s => f a s
  | Panic m => Panic m
  | Susp s k => Susp s (λ s', rbind (k s') f)
  | Spin => Spin
  | NoFuel => NoFuel
  end.

Definition ret {S A} (a : A) : M S A := λ s, Done a s.
Definition bind {S A B} (m : M S A) (f : A → M S B) : M S B := λ s, rbind (m s) f.
Definition gets {S A} (f : S → A) : M S A := λ s, Done (f s) s.
Definition modify {S} (f : S → S) : M S unit := λ s, Done tt (f s).
Definition panic {S A} (msg : string) : M S A := λ _, Panic msg.
Definition spin {S A} : M S A := λ _, Spin.
Definition no_fuel {S A} : M S A := λ _, NoFuel.
Definition suspend {S} : M S unit := λ s, Susp s (λ s', Done tt s').
Definition when {S} (b : bool) (m : M S unit) : M S unit := if b then m else ret tt.

Declare Scope kernel_scope.
Delimit Scope kernel_scope with K.
Notation "'let!' x ':=' m 'in' k" := (bind m (λ x, k))
  (at level 10, x pattern, m at level 100, k at level 200) : kernel_scope.
Notation "m ';;;' k" := (bind m (λ _, k))
  (at level 100, k at level 200, right associativity) : kernel_scope.
#[global] Open Scope kernel_scope.

(** [for(i : l) body], where the body may leave the loop with a value. *)
Fixpoint for_return {S I R} (l : list I) (body : I → M S (option R)) : M S (option R) :=
  match l with
  | [] => ret None
  | i :: l' => let! o := body i in
               match o with Some r => ret (Some r) | None => for_return l' body end
  end.

Fixpoint for_each {S I} (l : list I) (body : I → M S unit) : M S unit :=
  match l with
  | [] => ret tt
  | i :: l' => body i ;;; for_each l' body
  end.

(** The first answer of [g] on a list. *)
Fixpoint find_map {I R} (g : I → option R) (l : list I) : option R :=
  match l with
  | [] => None
  | i :: l' => match g i with Some r => Some r | None => find_map g l' end
  end.

Lemma find_map_Some {I R} (g : I → option R) l r :
  find_map g l = Some r →
  ∃ n i, l !! n = Some i ∧ g i = Some r ∧
         ∀ n' i', (n' < n)%nat → l !! n' = Some i' → g i' = None.
Proof.
  induction l as [|i l IH]; simpl; [done|].
  destruct (g i) as [r'|] eqn:E; intros H.
  - injection H as ->. exists 0%nat, i. split_and!; [done..|lia].
  - destruct (IH H) as (n & j & Hn & Hj & Hb). exists (S n), j. split_and!; [done..|].
    intros [|n'] i' Hlt Hi'; simpl in Hi'; [congruence|]. eapply Hb; [|done]. lia.
Qed.

Lemma find_map_None {I R} (g : I → option R) l i :
  find_map g l = None → i ∈ l → g i = None.
Proof.
  induction l as [|j l IH]; simpl; intros H Hi.
  - by apply not_elem_of_nil in Hi.
  - destruct (g j) eqn:E; [done|]. apply elem_of_cons in Hi as [->|Hi]; auto.
Qed.

(** * Total correctness

    [wp r Q]: the run [r] returns (no panic, no suspension, no spinning, fuel
    left) and the value and state it returns satisfy [Q]. *)

Definition wp {S A} (r : res S A) (Q : A → S → Prop) : Prop :=
  match r with Done a s => Q a s | _ => False end.

(** [panics r msg]: the run ends in [panic(msg)]. *)
Definition panics {S A} (r : res S A) (msg : string) : Prop := r = Panic msg.

Section Wp.
Context {S : Type}.

Lemma wp_ret {A} (a : A) (s : S) (Q : A → S → Prop) : Q a s → wp (ret a s) Q.
Proof. done. Qed.

Lemma wp_rbind {A B} (r : res S A) (f : A → M S B) Q :
  wp (rbind r f) Q ↔ wp r (λ a s, wp (f a s) Q).
Proof. destruct r; simpl; done. Qed.

Lemma wp_bind {A B} (m : M S A) (f : A → M S B) s Q :
  wp (m s) (λ a s', wp (f a s') Q) → wp (bind m f s) Q.
Proof. unfold bind. by rewrite wp_rbind. Qed.

Lemma wp_bind_inv {A B} (m : M S A) (f : A → M S B) s Q :
  wp (bind m f s) Q → wp (m s) (λ a s', wp (f a s') Q).
Proof. unfold bind. by rewrite wp_rbind. Qed.

Lemma wp_mono {A} (r : res S A) (Q Q' : A → S → Prop) :
  wp r Q → (∀ a s, Q a s → Q' a s) → wp r Q'.
Proof. destruct r; simpl; auto. Qed.

Lemma wp_assoc3 {A B C D} (a : M S A) (b : M S B) (c : M S C) (k : M S D) s Q :
  wp ((a ;;; b ;;; c) s) (λ _ s', wp (k s') Q) → wp ((a ;;; b ;;; c ;;; k) s) Q.
Proof.
  intros H. apply wp_bind. apply wp_bind_inv in H. eapply wp_mono; [exact H|].
  intros ? s1 H1. apply wp_bind. apply wp_bind_inv in H1. eapply wp_mono; [exact H1|].
  intros ? s2 H2. by apply wp_bind.
Qed.

Lemma wp_done {A} (r : res S A) Q : wp r Q → ∃ a s, r = Done a s ∧ Q a s.
Proof. destruct r; simpl; intros; try done. eauto. Qed.

Lemma wp_and {A} (r : res S A) Q Q' : wp r Q → wp r Q' → wp r (λ a s, Q a s ∧ Q' a s).
Proof. destruct r; simpl; auto. Qed.

Lemma wp_gets {A} (f : S → A) (s : S) (Q : A → S → Prop) : Q (f s) s → wp (gets f s) Q.
Proof. done. Qed.

Lemma wp_modify (f : S → S) (s : S) (Q : unit → S → Prop) :
  Q tt (f s) → wp (modify f s) Q.
Proof. done. Qed.

Lemma bind_ret_l {A B} (a : A) (f : A → M S B) s : bind (ret a) f s = f a s.
Proof. done. Qed.

Lemma bind_gets {A B} (g : S → A) (f : A → M S B) s : bind (gets g) f s = f (g s) s.
Proof. done. Qed.

Lemma bind_modify {B} (g : S → S) (f : unit → M S B) s :
  bind (modify g) f s = f tt (g s).
Proof. done. Qed.

Lemma bind_done {A B} (m : M S A) (f : A → M S B) s a s' :
  m s = Done a s' → bind m f s = f a s'.
Proof. unfold bind. intros ->. done. Qed.

Lemma bind_susp {A B} (m : M S A) (f : A → M S B) s s' k :
  m s = Susp s' k → bind m f s = Susp s' (λ x, rbind (k x) f).
Proof. unfold bind. intros ->. done. Qed.

Lemma bind_panic {A B} (m : M S A) (f : A → M S B) s msg :
  m s = Panic msg → bind m f s = Panic msg.
Proof. unfold bind. intros ->. done. Qed.

Lemma panics_bind {A B} (m : M S A) (f : A → M S B) s Q msg :
  wp (m s) Q → (∀ a s', Q a s' → panics (f a s') msg) → panics (bind m f s) msg.
Proof. unfold bind. destruct (m s); simpl; try done. auto. Qed.

(** A scan whose body only reads: it answers what [find_map] answers. *)
Lemma for_return_pure {I R} (l : list I) (body : I → M S (option R)) (g : I → option R) s :
  (∀ i, i ∈ l → body i s = Done (g i) s) →
  for_return l body s = Done (find_map g l) s.
Proof.
  induction l as [|i l IH]; intros H; simpl; [done|].
  unfold bind. rewrite H by left. simpl. destruct (g i); simpl; [done|].
  apply IH. intros. apply H. by right.
Qed.

(** A scan that finds nothing, and one whose first answer is at index [n]:
    the iterations before [n] neither answer nor change the state. *)
Lemma for_return_none {I R} (l : list I) (body : I → M S (option R)) s :
  (∀ i, i ∈ l → body i s = Done None s) → for_return l body s = Done None s.
Proof.
  induction l as [|i l IH]; intros H; simpl; [done|].
  erewrite bind_done by (apply H; left). apply IH. intros. apply H. by right.
Qed.

Lemma for_return_skip {I R} (l1 l2 : list I) (body : I → M S (option R)) s :
  (∀ i, i ∈ l1 → body i s = Done None s) →
  for_return (l1 ++ l2) body s = for_return l2 body s.
Proof.
  induction l1 as [|i l1 IH]; intros H; simpl; [done|].
  erewrite bind_done by (apply H; left). apply IH. intros. apply H. by right.
Qed.

Lemma for_return_first {R} (m len n : nat) (body : nat → M S (option R)) s r s' :
  (m ≤ n < m + len)%nat → (∀ i, (m ≤ i < n)%nat → body i s = Done None s) →
  body n s = Done (Some r) s' → for_return (seq m len) body s = Done (Some r) s'.
Proof.
  revert m. induction len as [|len IH]; intros m Hn H Hb; [lia|]. simpl.
  destruct (decide (m = n)) as [->|].
  - erewrite bind_done by exact Hb. done.
  - erewrite bind_done by (apply H; lia). apply IH; [lia| |done]. intros; apply H; lia.
Qed.
End Wp.

(** [kstep] runs the pure steps of a goal [wp (m s) Q]: binds, reads and writes. *)
Ltac kstep :=
  lazymatch goal with
  | |- wp (bind (ret _) _ _) _ => rewrite bind_ret_l
  | |- wp (bind (gets _) _ _) _ => rewrite bind_gets
  | |- wp (bind (modify _) _ _) _ => rewrite bind_modify
  | |- wp (bind _ _ _) _ => apply wp_bind
  | |- wp (ret _ _) _ => apply wp_ret
  | |- wp (gets _ _) _ => apply wp_gets
  | |- wp (modify _ _) _ => apply wp_modify
  end; cbv beta.
Ltac ksteps := repeat kstep.

(** [kuse H] closes a goal [wp (m s) Q] with a specification [H] of [m] and
    leaves what follows from its postcondition. *)
Tactic Notation "kuse" uconstr(H) := eapply wp_mono; [eapply H|cbv beta].

(** Loops: the invariant [I], which may depend on the index. *)
Lemma wp_for_each_seqZ {S} (I : Z → S → Prop) m n (body : Z → M S unit) s :
  0 ≤ n → I m s → (∀ i s, m ≤ i < m + n → I i s → wp (body i s) (λ _ s', I (i + 1) s')) →
  wp (for_each (seqZ m n) body s) (λ _ s', I (m + n) s').
Proof.
  intros Hn. revert m s. pattern n. apply natlike_ind; [|clear n Hn; intros n Hn IH|done].
  - intros m s Hm _. simpl. by rewrite Z.add_0_r.
  - intros m s Hm Hb. rewrite seqZ_cons by lia. rewrite Z.pred_succ. simpl. apply wp_bind. kuse (Hb m s); [lia|done|].
    intros _ s1 H1. replace (m + Z.succ n) with (Z.succ m + n) by lia. apply IH; [done|].
    intros i s' Hi. apply Hb. lia.
Qed.

Lemma wp_for_each {S I} (J : S → Prop) (l : list I) (body : I → M S unit) s :
  J s → (∀ i s, i ∈ l → J s → wp (body i s) (λ _ s', J s')) → wp (for_each l body s) (λ _ s', J s').
Proof.
  revert s; induction l as [|i l IH]; intros s Hs Hb; simpl; [done|]. apply wp_bind. kuse (Hb i s); [left|done|].
  intros _ s1 H1. apply IH; [done|]. intros j s2 Hj. apply Hb. by right.
Qed.

Lemma wp_for_each_app {S I} (l1 l2 : list I) (body : I → M S unit) (Q : unit → S → Prop) : ∀ s,
  wp (for_each l1 body s) (λ _ s', wp (for_each l2 body s') Q) → wp (for_each (l1 ++ l2) body s) Q.
Proof.
  induction l1 as [|i l1 IH]; intros s; simpl; [done|]. intros H%wp_bind_inv. apply wp_bind.
  eapply wp_mono; [exact H|]. cbv beta. intros _ s1. apply IH.
Qed.

(** Induction two elements at a time. *)
Lemma list_ind2 {A} (P : list A → Prop) :
  P [] → (∀ x l, P l → (∀ y l', l = y :: l' → P l') → P (x :: l)) → ∀ l, P l.
Proof.
  intros H0 H1 l. cut (P l ∧ ∀ y l', l = y :: l' → P l'); [tauto|].
  induction l as [|x l [IH1 IH2]]; [done|]. split; [by apply H1|]. by intros ?? [= <- <-].
Qed.

(** * Equality of runs

    Two runs are the same when they end alike, or give up the CPU in the same
    state with the same continuations; continuations are functions, so this is
    coarser than Leibniz equality. *)
Inductive req {S A} : res S A → res S A → Prop :=
| req_same r : req r r
| req_susp s k k' : (∀ s', req (k s') (k' s')) → req (Susp s k) (Susp s k').
#[export] Hint Constructors req : core.

#[export] Instance req_equiv {S A} : Equivalence (@req S A).
Proof.
  split.
  - intros r. constructor.
  - intros r r' H. induction H; auto.
  - intros r1 r2 r3 H. revert r3. induction H as [|s k k' H IH]; intros r3 H3; [done|].
    inversion H3; subst; auto.
Qed.

Definition meq {S A} (m m' : M S A) : Prop := ∀ s, req (m s) (m' s).
Infix "≋" := meq (at level 70, no associativity) : stdpp_scope.
#[export] Instance meq_equiv {S A} : Equivalence (@meq S A).
Proof.
  split.
  - by intros m s.
  - intros m m' H s. symmetry. apply H.
  - intros m1 m2 m3 H H' s. etrans; [apply H|apply H'].
Qed.

Lemma rbind_req {S A B} (r r' : res S A) (f f' : A → M S B) :
  req r r' → (∀ a, f a ≋ f' a) → req (rbind r f) (rbind r' f').
Proof.
  intros H Hf. induction H as [r|s k k' H IH]; [|by constructor].
  induction r; simpl; auto. by apply Hf.
Qed.
#[export] Instance bind_proper {S A B} : Proper (meq ==> pointwise_relation A meq ==> meq) (@bind S A B).
Proof. intros m m' Hm f f' Hf s. apply rbind_req; [apply Hm|exact Hf]. Qed.

Lemma req_bind {S A B} (m : M S A) (f f' : A → M S B) s : (∀ a, f a ≋ f' a) → req (bind m f s) (bind m f' s).
Proof. intros Hf. by apply rbind_req. Qed.

Lemma wp_req {S A} (r r' : res S A) Q : req r r' → wp r Q ↔ wp r' Q.
Proof. by intros []. Qed.

Lemma rbind_assoc {S A B C} (r : res S A) (f : A → M S B) (g : B → M S C) :
  req (rbind (rbind r f) g) (rbind r (λ a, bind (f a) g)).
Proof. induction r; simpl; auto. Qed.
Lemma bind_assoc {S A B C} (m : M S A) (f : A → M S B) (g : B → M S C) :
  bind (bind m f) g ≋ bind m (λ a, bind (f a) g).
Proof. intros s. apply rbind_assoc. Qed.
