(* ===== verification/State.v ===== *)
(** * The kernel's global data

    One record per C structure and one field of [kstate] per kernel global.
    Pointers into a global table ([struct buf *], [struct inode *],
    [struct file *], [struct proc *]) are indices of that table, the null
    pointer is [None] where it can occur.  The spin lock inside a structure is
    kept in the table [k_locks], under the name of the structure it is in. *)
From S2P Require Import Prelude.

(** ** Constants (params.h, fs.h, file.h, stat.h, mmu.h) *)
Definition NPROC : nat := 64.
Definition NBUF : nat := 30.
Definition NINODE : nat := 30.
Definition NDEV : Z := 10.
Definition NFILE : nat := 100.
Definition NOFILE : nat := 16.
Definition KSTACKSIZE : Z := 4096.
Definition PGSIZE_4KB : Z := 4096.

Definition BSIZE : Z := 4096.
Definition BSIZE_nat : nat := 4096.
Definition ROOTINO : Z := 1.
Definition DISK_SIZE : Z := 16 * 1024 * 1024.
Definition NBLOCKS : Z := DISK_SIZE / BSIZE.
Definition DEV_RAMDISK : Z := 0.
Definition ROOTDEV : Z := DEV_RAMDISK.
Definition B_VALID : Z := 2.
Definition B_DIRTY : Z := 4.
Definition NDIRECT : Z := 13.
Definition NINDIRECT : Z := BSIZE / 8.
Definition MAXFILEBLK : Z := NDIRECT + NINDIRECT.
Definition BPB : Z := BSIZE * 8.
Definition DINODE_SIZE : Z := 128.
Definition IPB : Z := BSIZE / DINODE_SIZE.
Definition DIRSIZ : nat := 24.
Definition DIRENT_SIZE : Z := 32.
Definition T_DIR : Z := 1.
Definition T_FILE : Z := 2.
Definition T_DEV : Z := 3.
Definition O_RDONLY : Z := 0.
Definition O_WRONLY : Z := 1.
Definition O_RDWR : Z := 2.
Definition O_CREATE : Z := 512.

(** [ksize] replaces the size constants by their values, for [lia]. *)
Ltac ksize :=
  unfold MAXFILEBLK in *;
  change NINDIRECT with 512 in *; change NDIRECT with 13 in *; change BPB with 32768 in *;
  change IPB with 32 in *; change DINODE_SIZE with 128 in *; change DIRENT_SIZE with 32 in *;
  unfold BSIZE, BSIZE_nat, DIRSIZ, NBUF, NINODE, NPROC, NFILE, NOFILE in *.

(** ** Locks (spinlock.h, sleeplock.h)

    Which spin lock and which sleep lock of the kernel; the [name] strings are
    for debugging only and are left out.  [sp_cpu] is the holder, [None] for
    the null pointer. *)
Inductive slid := SlBuf (i : nat) | SlInode (i : nat).
Inductive lockid :=
| LkPtable | LkBcache | LkIcache | LkFtable | LkCons
| LkSleep (l : slid) | LkPipe (a : Z).

#[export] Instance slid_eq_dec : EqDecision slid.
Proof. solve_decision. Defined.
#[export] Instance lockid_eq_dec : EqDecision lockid.
Proof. solve_decision. Defined.
#[export] Instance lockid_countable : Countable lockid.
Proof.
  refine (inj_countable'
    (λ l, match l with
          | LkPtable => inl 0%nat | LkBcache => inl 1%nat | LkIcache => inl 2%nat
          | LkFtable => inl 3%nat | LkCons => inl 4%nat
          | LkSleep (SlBuf i) => inr (inl (inl i))
          | LkSleep (SlInode i) => inr (inl (inr i))
          | LkPipe a => inr (inr a) end)
    (λ c, match c with
          | inl 0%nat => LkPtable | inl 1%nat => LkBcache | inl 2%nat => LkIcache
          | inl 3%nat => LkFtable | inl _ => LkCons
          | inr (inl (inl i)) => LkSleep (SlBuf i)
          | inr (inl (inr i)) => LkSleep (SlInode i)
          | inr (inr a) => LkPipe a end) _).
  by intros [| | | | |[]|].
Defined.

Record spin_lock := mk_spin { sp_locked : Z; sp_cpu : option nat }.
#[export] Instance spin_lock_eq_dec : EqDecision spin_lock.
Proof. solve_decision. Defined.
Record sleep_lock := mk_sleep { sl_locked : Z; sl_pid : Z }.

(** ** Processor (cpu.h) with the interrupt flag and [cr3] *)
Record cpu := mk_cpu {
  c_ncli : Z;
  c_int_ena : bool;
  c_proc : option nat;
  c_rsp0 : Z;          (** ts.rsp[0] *)
  c_kernel_stack : Z;
  c_if : bool;         (** FL_IF of rflags *)
  c_cr3 : Z
}.

(** ** Processes (proc.h) *)
Inductive proc_state := UNUSED | EMBRYO | SLEEPING | RUNNABLE | RUNNING | ZOMBIE.
#[export] Instance proc_state_eq_dec : EqDecision proc_state.
Proof. solve_decision. Defined.

(** A sleep channel is the address of a kernel object. *)
Inductive chan :=
| ChSleep (l : slid) | ChProc (p : nat) | ChPipeRead (a : Z) | ChPipeWrite (a : Z) | ChInput.
#[export] Instance chan_eq_dec : EqDecision chan.
Proof. solve_decision. Defined.

(** The registers a system call saves on the kernel stack ([struct regi_pile]):
    [p_rp] is the address of sixteen words in the page [p_kstack], [p_context]
    the address of the words [swtch] restores; this record is the decoded view. *)
Record regi_pile := mk_regs {
  r_r15 : Z; r_r14 : Z; r_r13 : Z; r_r12 : Z; r_r11 : Z; r_r10 : Z; r_r9 : Z; r_r8 : Z;
  r_rbp : Z; r_rdi : Z; r_rsi : Z; r_rdx : Z; r_rcx : Z; r_rbx : Z; r_rax : Z; r_rsp : Z
}.

Record proc := mk_proc {
  p_sz : Z;
  p_pml4 : Z;
  p_kstack : Z;
  p_state : proc_state;
  p_pid : Z;
  p_parent : option nat;
  p_rp : Z;
  p_context : Z;
  p_chan : option chan;
  p_killed : Z;
  p_ofile : list (option nat);
  p_cwd : option nat;
  p_name : list byte
}.
Definition proc0 : proc :=
  mk_proc 0 0 0 UNUSED 0 None 0 0 None 0 (replicate NOFILE None) None (replicate 32 x00).

(** ** Buffer cache and ram disk (fs.h, ramdisk.c)

    [b_prev] and [b_next] are links of the circular list: index [NBUF] is
    [bcache.head].  The disk image is an array of blocks; an index that the
    map leaves out is a block of zeros. *)
Record buf := mk_buf {
  b_flags : Z;
  b_dev : Z;
  b_blockno : Z;
  b_lk : sleep_lock;
  b_refcnt : Z;
  b_prev : nat;
  b_next : nat;
  b_data : list byte
}.
Definition zero_block : list byte := replicate BSIZE_nat x00.
Definition buf0 : buf := mk_buf 0 0 0 (mk_sleep 0 0) 0 0 0 zero_block.

Record ramdisk := mk_disk { d_blocks : gmap Z (list byte); d_size : Z }.
Definition disk_block (d : ramdisk) (b : Z) : list byte := default zero_block (d_blocks d !! b).

Record super_block := mk_sb {
  sb_size : Z; sb_n_blocks : Z; sb_n_inodes : Z; sb_inode_start : Z; sb_bmap_start : Z
}.

(** ** Inodes and open files (file.h) *)
Record inode := mk_inode {
  i_dev : Z;
  i_inum : Z;
  i_ref : Z;
  i_lock : sleep_lock;
  i_valid : Z;
  i_type : Z;
  i_major : Z;
  i_minor : Z;
  i_nlink : Z;
  i_size : Z;
  i_addrs : list Z
}.
Definition inode0 : inode :=
  mk_inode 0 0 0 (mk_sleep 0 0) 0 0 0 0 0 0 (replicate 14 0).

Inductive fd_type := FD_NONE | FD_PIPE | FD_INODE.
#[export] Instance fd_type_eq_dec : EqDecision fd_type.
Proof. solve_decision. Defined.
Record file := mk_file {
  f_type : fd_type;
  f_ref : Z;
  f_readable : bool;
  f_writable : bool;
  f_pipe : Z;
  f_ip : option nat;
  f_off : Z
}.
Definition file0 : file := mk_file FD_NONE 0 false false 0 None 0.

(** ** Pipes (pipe.c): the object in a page that [kalloc] returned *)
Record pipe := mk_pipe {
  pi_data : list byte;
  pi_nread : Z;
  pi_nwrite : Z;
  pi_read_open : bool;
  pi_write_open : bool
}.

(** ** Physical memory (kalloc.c, bump.c)

    [m_pages] holds the contents of the 4 KiB pages of physical memory, keyed
    by physical address; a page the map leaves out is a page of zeros.
    [m_free_list] is [kmem.free_list], 0 for the null pointer. *)
Record kmem := mk_kmem {
  m_free_list : Z;
  m_pages : gmap Z (list byte);
  m_bump_ptr : Z;
  m_bump_enable : bool
}.

(** ** Address spaces (vm.c): the kernel's page table and the next address of
    [io_remap] *)
Record vm_globals := mk_vm { v_kpml4 : Z; v_io_bump : Z }.

(** ** Devices (gop.h, console.h, console.c, kbd.c)

    The frame buffer is memory of its own, keyed by virtual address; the cells
    of [cons.buffer] are keyed by [y * MAX_COLS + x].  [d_kbd] is the static
    [kbd_status] of [kbd_getc], [d_ps2] the bytes waiting in the keyboard
    controller. *)
Record gop_fb := mk_gop {
  g_base : Z; g_width : Z; g_height : Z; g_pitch : Z; g_bpp : Z; g_type : Z
}.
Record console := mk_cons {
  cn_buffer : gmap Z byte;
  cn_cur_y : Z;
  cn_cur_x : Z;
  cn_max_cols : Z;
  cn_max_rows : Z;
  cn_fg : Z;
  cn_bg : Z;
  cn_pixels_per_scanline : Z;
  cn_font_w : Z;
  cn_font_h : Z;
  cn_locking : bool
}.
Record input := mk_input { in_buf : list byte; in_r : Z; in_w : Z; in_e : Z }.
Record devices := mk_dev {
  d_gop : gop_fb;
  d_fb : gmap Z byte;
  d_cons : console;
  d_input : input;
  d_kbd : Z;
  d_ps2 : list Z
}.
Definition INPUT_BUF : nat := 128.
Definition devices0 : devices :=
  mk_dev (mk_gop 0 0 0 0 0 0) ∅ (mk_cons ∅ 0 0 0 0 0 0 0 0 0 false)
    (mk_input (replicate INPUT_BUF x00) 0 0 0) 0 [].

(** ** The global state *)
Record kstate := mk_kstate {
  k_cpu : cpu;
  k_locks : gmap lockid spin_lock;
  k_procs : list proc;
  k_next_pid : Z;
  k_init : option nat;
  k_bufs : list buf;
  k_disk : ramdisk;
  k_sb : super_block;
  k_inodes : list inode;
  k_files : list file;
  k_pipes : gmap Z pipe;
  k_kmem : kmem;
  k_vm : vm_globals;
  k_dev : devices
}.

Definition set_k_cpu (f : cpu → cpu) (s : kstate) : kstate :=
  mk_kstate (f (k_cpu s)) (k_locks s) (k_procs s) (k_next_pid s) (k_init s) (k_bufs s) (k_disk s) (k_sb s) (k_inodes s) (k_files s) (k_pipes s) (k_kmem s) (k_vm s) (k_dev s).
Definition set_k_locks (f : gmap lockid spin_lock → gmap lockid spin_lock) (s : kstate) : kstate :=
  mk_kstate (k_cpu s) (f (k_locks s)) (k_procs s) (k_next_pid s) (k_init s) (k_bufs s) (k_disk s) (k_sb s) (k_inodes s) (k_files s) (k_pipes s) (k_kmem s) (k_vm s) (k_dev s).
Definition set_k_procs (f : list proc → list proc) (s : kstate) : kstate :=
  mk_kstate (k_cpu s) (k_locks s) (f (k_procs s)) (k_next_pid s) (k_init s) (k_bufs s) (k_disk s) (k_sb s) (k_inodes s) (k_files s) (k_pipes s) (k_kmem s) (k_vm s) (k_dev s).
Definition set_k_next_pid (f : Z → Z) (s : kstate) : kstate :=
  mk_kstate (k_cpu s) (k_locks s) (k_procs s) (f (k_next_pid s)) (k_init s) (k_bufs s) (k_disk s) (k_sb s) (k_inodes s) (k_files s) (k_pipes s) (k_kmem s) (k_vm s) (k_dev s).
Definition set_k_init (f : option nat → option nat) (s : kstate) : kstate :=
  mk_kstate (k_cpu s) (k_locks s) (k_procs s) (k_next_pid s) (f (k_init s)) (k_bufs s) (k_disk s) (k_sb s) (k_inodes s) (k_files s) (k_pipes s) (k_kmem s) (k_vm s) (k_dev s).
Definition set_k_bufs (f : list buf → list buf) (s : kstate) : kstate :=
  mk_kstate (k_cpu s) (k_locks s) (k_procs s) (k_next_pid s) (k_init s) (f (k_bufs s)) (k_disk s) (k_sb s) (k_inodes s) (k_files s) (k_pipes s) (k_kmem s) (k_vm s) (k_dev s).
Definition set_k_disk (f : ramdisk → ramdisk) (s : kstate) : kstate :=
  mk_kstate (k_cpu s) (k_locks s) (k_procs s) (k_next_pid s) (k_init s) (k_bufs s) (f (k_disk s)) (k_sb s) (k_inodes s) (k_files s) (k_pipes s) (k_kmem s) (k_vm s) (k_dev s).
Definition set_k_sb (f : super_block → super_block) (s : kstate) : kstate :=
  mk_kstate (k_cpu s) (k_locks s) (k_procs s) (k_next_pid s) (k_init s) (k_bufs s) (k_disk s) (f (k_sb s)) (k_inodes s) (k_files s) (k_pipes s) (k_kmem s) (k_vm s) (k_dev s).
Definition set_k_inodes (f : list inode → list inode) (s : kstate) : kstate :=
  mk_kstate (k_cpu s) (k_locks s) (k_procs s) (k_next_pid s) (k_init s) (k_bufs s) (k_disk s) (k_sb s) (f (k_inodes s)) (k_files s) (k_pipes s) (k_kmem s) (k_vm s) (k_dev s).
Definition set_k_files (f : list file → list file) (s : kstate) : kstate :=
  mk_kstate (k_cpu s) (k_locks s) (k_procs s) (k_next_pid s) (k_init s) (k_bufs s) (k_disk s) (k_sb s) (k_inodes s) (f (k_files s)) (k_pipes s) (k_kmem s) (k_vm s) (k_dev s).
Definition set_k_pipes (f : gmap Z pipe → gmap Z pipe) (s : kstate) : kstate :=
  mk_kstate (k_cpu s) (k_locks s) (k_procs s) (k_next_pid s) (k_init s) (k_bufs s) (k_disk s) (k_sb s) (k_inodes s) (k_files s) (f (k_pipes s)) (k_kmem s) (k_vm s) (k_dev s).
Definition set_k_kmem (f : kmem → kmem) (s : kstate) : kstate :=
  mk_kstate (k_cpu s) (k_locks s) (k_procs s) (k_next_pid s) (k_init s) (k_bufs s) (k_disk s) (k_sb s) (k_inodes s) (k_files s) (k_pipes s) (f (k_kmem s)) (k_vm s) (k_dev s).
Definition set_k_vm (f : vm_globals → vm_globals) (s : kstate) : kstate :=
  mk_kstate (k_cpu s) (k_locks s) (k_procs s) (k_next_pid s) (k_init s) (k_bufs s) (k_disk s) (k_sb s) (k_inodes s) (k_files s) (k_pipes s) (k_kmem s) (f (k_vm s)) (k_dev s).
Definition set_k_dev (f : devices → devices) (s : kstate) : kstate :=
  mk_kstate (k_cpu s) (k_locks s) (k_procs s) (k_next_pid s) (k_init s) (k_bufs s) (k_disk s) (k_sb s) (k_inodes s) (k_files s) (k_pipes s) (k_kmem s) (k_vm s) (f (k_dev s)).


(** ** Field updates ([r->field = v]) *)
Definition set_sl_locked (v : Z) (r : sleep_lock) : sleep_lock :=
  mk_sleep v (sl_pid r).
Definition set_sl_pid (v : Z) (r : sleep_lock) : sleep_lock :=
  mk_sleep (sl_locked r) v.

Definition set_c_ncli (v : Z) (r : cpu) : cpu :=
  mk_cpu v (c_int_ena r) (c_proc r) (c_rsp0 r) (c_kernel_stack r) (c_if r) (c_cr3 r).
Definition set_c_int_ena (v : bool) (r : cpu) : cpu :=
  mk_cpu (c_ncli r) v (c_proc r) (c_rsp0 r) (c_kernel_stack r) (c_if r) (c_cr3 r).
Definition set_c_proc (v : option nat) (r : cpu) : cpu :=
  mk_cpu (c_ncli r) (c_int_ena r) v (c_rsp0 r) (c_kernel_stack r) (c_if r) (c_cr3 r).
Definition set_c_rsp0 (v : Z) (r : cpu) : cpu :=
  mk_cpu (c_ncli r) (c_int_ena r) (c_proc r) v (c_kernel_stack r) (c_if r) (c_cr3 r).
Definition set_c_kernel_stack (v : Z) (r : cpu) : cpu :=
  mk_cpu (c_ncli r) (c_int_ena r) (c_proc r) (c_rsp0 r) v (c_if r) (c_cr3 r).
Definition set_c_if (v : bool) (r : cpu) : cpu :=
  mk_cpu (c_ncli r) (c_int_ena r) (c_proc r) (c_rsp0 r) (c_kernel_stack r) v (c_cr3 r).
Definition set_c_cr3 (v : Z) (r : cpu) : cpu :=
  mk_cpu (c_ncli r) (c_int_ena r) (c_proc r) (c_rsp0 r) (c_kernel_stack r) (c_if r) v.

Definition set_p_sz (v : Z) (r : proc) : proc :=
  mk_proc v (p_pml4 r) (p_kstack r) (p_state r) (p_pid r) (p_parent r) (p_rp r) (p_context r) (p_chan r) (p_killed r) (p_ofile r) (p_cwd r) (p_name r).
Definition set_p_pml4 (v : Z) (r : proc) : proc :=
  mk_proc (p_sz r) v (p_kstack r) (p_state r) (p_pid r) (p_parent r) (p_rp r) (p_context r) (p_chan r) (p_killed r) (p_ofile r) (p_cwd r) (p_name r).
Definition set_p_kstack (v : Z) (r : proc) : proc :=
  mk_proc (p_sz r) (p_pml4 r) v (p_state r) (p_pid r) (p_parent r) (p_rp r) (p_context r) (p_chan r) (p_killed r) (p_ofile r) (p_cwd r) (p_name r).
Definition set_p_state (v : proc_state) (r : proc) : proc :=
  mk_proc (p_sz r) (p_pml4 r) (p_kstack r) v (p_pid r) (p_parent r) (p_rp r) (p_context r) (p_chan r) (p_killed r) (p_ofile r) (p_cwd r) (p_name r).
Definition set_p_pid (v : Z) (r : proc) : proc :=
  mk_proc (p_sz r) (p_pml4 r) (p_kstack r) (p_state r) v (p_parent r) (p_rp r) (p_context r) (p_chan r) (p_killed r) (p_ofile r) (p_cwd r) (p_name r).
Definition set_p_parent (v : option nat) (r : proc) : proc :=
  mk_proc (p_sz r) (p_pml4 r) (p_kstack r) (p_state r) (p_pid r) v (p_rp r) (p_context r) (p_chan r) (p_killed r) (p_ofile r) (p_cwd r) (p_name r).
Definition set_p_rp (v : Z) (r : proc) : proc :=
  mk_proc (p_sz r) (p_pml4 r) (p_kstack r) (p_state r) (p_pid r) (p_parent r) v (p_context r) (p_chan r) (p_killed r) (p_ofile r) (p_cwd r) (p_name r).
Definition set_p_context (v : Z) (r : proc) : proc :=
  mk_proc (p_sz r) (p_pml4 r) (p_kstack r) (p_state r) (p_pid r) (p_parent r) (p_rp r) v (p_chan r) (p_killed r) (p_ofile r) (p_cwd r) (p_name r).
Definition set_p_chan (v : option chan) (r : proc) : proc :=
  mk_proc (p_sz r) (p_pml4 r) (p_kstack r) (p_state r) (p_pid r) (p_parent r) (p_rp r) (p_context r) v (p_killed r) (p_ofile r) (p_cwd r) (p_name r).
Definition set_p_killed (v : Z) (r : proc) : proc :=
  mk_proc (p_sz r) (p_pml4 r) (p_kstack r) (p_state r) (p_pid r) (p_parent r) (p_rp r) (p_context r) (p_chan r) v (p_ofile r) (p_cwd r) (p_name r).
Definition set_p_ofile (v : list (option nat)) (r : proc) : proc :=
  mk_proc (p_sz r) (p_pml4 r) (p_kstack r) (p_state r) (p_pid r) (p_parent r) (p_rp r) (p_context r) (p_chan r) (p_killed r) v (p_cwd r) (p_name r).
Definition set_p_cwd (v : option nat) (r : proc) : proc :=
  mk_proc (p_sz r) (p_pml4 r) (p_kstack r) (p_state r) (p_pid r) (p_parent r) (p_rp r) (p_context r) (p_chan r) (p_killed r) (p_ofile r) v (p_name r).
Definition set_p_name (v : list byte) (r : proc) : proc :=
  mk_proc (p_sz r) (p_pml4 r) (p_kstack r) (p_state r) (p_pid r) (p_parent r) (p_rp r) (p_context r) (p_chan r) (p_killed r) (p_ofile r) (p_cwd r) v.

Definition set_b_flags (v : Z) (r : buf) : buf :=
  mk_buf v (b_dev r) (b_blockno r) (b_lk r) (b_refcnt r) (b_prev r) (b_next r) (b_data r).
Definition set_b_dev (v : Z) (r : buf) : buf :=
  mk_buf (b_flags r) v (b_blockno r) (b_lk r) (b_refcnt r) (b_prev r) (b_next r) (b_data r).
Definition set_b_blockno (v : Z) (r : buf) : buf :=
  mk_buf (b_flags r) (b_dev r) v (b_lk r) (b_refcnt r) (b_prev r) (b_next r) (b_data r).
Definition set_b_lk (v : sleep_lock) (r : buf) : buf :=
  mk_buf (b_flags r) (b_dev r) (b_blockno r) v (b_refcnt r) (b_prev r) (b_next r) (b_data r).
Definition set_b_refcnt (v : Z) (r : buf) : buf :=
  mk_buf (b_flags r) (b_dev r) (b_blockno r) (b_lk r) v (b_prev r) (b_next r) (b_data r).
Definition set_b_prev (v : nat) (r : buf) : buf :=
  mk_buf (b_flags r) (b_dev r) (b_blockno r) (b_lk r) (b_refcnt r) v (b_next r) (b_data r).
Definition set_b_next (v : nat) (r : buf) : buf :=
  mk_buf (b_flags r) (b_dev r) (b_blockno r) (b_lk r) (b_refcnt r) (b_prev r) v (b_data r).
Definition set_b_data (v : list byte) (r : buf) : buf :=
  mk_buf (b_flags r) (b_dev r) (b_blockno r) (b_lk r) (b_refcnt r) (b_prev r) (b_next r) v.

Definition set_i_dev (v : Z) (r : inode) : inode :=
  mk_inode v (i_inum r) (i_ref r) (i_lock r) (i_valid r) (i_type r) (i_major r) (i_minor r) (i_nlink r) (i_size r) (i_addrs r).
Definition set_i_inum (v : Z) (r : inode) : inode :=
  mk_inode (i_dev r) v (i_ref r) (i_lock r) (i_valid r) (i_type r) (i_major r) (i_minor r) (i_nlink r) (i_size r) (i_addrs r).
Definition set_i_ref (v : Z) (r : inode) : inode :=
  mk_inode (i_dev r) (i_inum r) v (i_lock r) (i_valid r) (i_type r) (i_major r) (i_minor r) (i_nlink r) (i_size r) (i_addrs r).
Definition set_i_lock (v : sleep_lock) (r : inode) : inode :=
  mk_inode (i_dev r) (i_inum r) (i_ref r) v (i_valid r) (i_type r) (i_major r) (i_minor r) (i_nlink r) (i_size r) (i_addrs r).
Definition set_i_valid (v : Z) (r : inode) : inode :=
  mk_inode (i_dev r) (i_inum r) (i_ref r) (i_lock r) v (i_type r) (i_major r) (i_minor r) (i_nlink r) (i_size r) (i_addrs r).
Definition set_i_type (v : Z) (r : inode) : inode :=
  mk_inode (i_dev r) (i_inum r) (i_ref r) (i_lock r) (i_valid r) v (i_major r) (i_minor r) (i_nlink r) (i_size r) (i_addrs r).
Definition set_i_major (v : Z) (r : inode) : inode :=
  mk_inode (i_dev r) (i_inum r) (i_ref r) (i_lock r) (i_valid r) (i_type r) v (i_minor r) (i_nlink r) (i_size r) (i_addrs r).
Definition set_i_minor (v : Z) (r : inode) : inode :=
  mk_inode (i_dev r) (i_inum r) (i_ref r) (i_lock r) (i_valid r) (i_type r) (i_major r) v (i_nlink r) (i_size r) (i_addrs r).
Definition set_i_nlink (v : Z) (r : inode) : inode :=
  mk_inode (i_dev r) (i_inum r) (i_ref r) (i_lock r) (i_valid r) (i_type r) (i_major r) (i_minor r) v (i_size r) (i_addrs r).
Definition set_i_size (v : Z) (r : inode) : inode :=
  mk_inode (i_dev r) (i_inum r) (i_ref r) (i_lock r) (i_valid r) (i_type r) (i_major r) (i_minor r) (i_nlink r) v (i_addrs r).
Definition set_i_addrs (v : list Z) (r : inode) : inode :=
  mk_inode (i_dev r) (i_inum r) (i_ref r) (i_lock r) (i_valid r) (i_type r) (i_major r) (i_minor r) (i_nlink r) (i_size r) v.

Definition set_f_type (v : fd_type) (r : file) : file :=
  mk_file v (f_ref r) (f_readable r) (f_writable r) (f_pipe r) (f_ip r) (f_off r).
Definition set_f_ref (v : Z) (r : file) : file :=
  mk_file (f_type r) v (f_readable r) (f_writable r) (f_pipe r) (f_ip r) (f_off r).
Definition set_f_readable (v : bool) (r : file) : file :=
  mk_file (f_type r) (f_ref r) v (f_writable r) (f_pipe r) (f_ip r) (f_off r).
Definition set_f_writable (v : bool) (r : file) : file :=
  mk_file (f_type r) (f_ref r) (f_readable r) v (f_pipe r) (f_ip r) (f_off r).
Definition set_f_pipe (v : Z) (r : file) : file :=
  mk_file (f_type r) (f_ref r) (f_readable r) (f_writable r) v (f_ip r) (f_off r).
Definition set_f_ip (v : option nat) (r : file) : file :=
  mk_file (f_type r) (f_ref r) (f_readable r) (f_writable r) (f_pipe r) v (f_off r).
Definition set_f_off (v : Z) (r : file) : file :=
  mk_file (f_type r) (f_ref r) (f_readable r) (f_writable r) (f_pipe r) (f_ip r) v.

Definition set_pi_data (v : list byte) (r : pipe) : pipe :=
  mk_pipe v (pi_nread r) (pi_nwrite r) (pi_read_open r) (pi_write_open r).
Definition set_pi_nread (v : Z) (r : pipe) : pipe :=
  mk_pipe (pi_data r) v (pi_nwrite r) (pi_read_open r) (pi_write_open r).
Definition set_pi_nwrite (v : Z) (r : pipe) : pipe :=
  mk_pipe (pi_data r) (pi_nread r) v (pi_read_open r) (pi_write_open r).
Definition set_pi_read_open (v : bool) (r : pipe) : pipe :=
  mk_pipe (pi_data r) (pi_nread r) (pi_nwrite r) v (pi_write_open r).
Definition set_pi_write_open (v : bool) (r : pipe) : pipe :=
  mk_pipe (pi_data r) (pi_nread r) (pi_nwrite r) (pi_read_open r) v.

Definition set_m_free_list (v : Z) (r : kmem) : kmem :=
  mk_kmem v (m_pages r) (m_bump_ptr r) (m_bump_enable r).
Definition set_m_pages (v : gmap Z (list byte)) (r : kmem) : kmem :=
  mk_kmem (m_free_list r) v (m_bump_ptr r) (m_bump_enable r).
Definition set_m_bump_ptr (v : Z) (r : kmem) : kmem :=
  mk_kmem (m_free_list r) (m_pages r) v (m_bump_enable r).
Definition set_m_bump_enable (v : bool) (r : kmem) : kmem :=
  mk_kmem (m_free_list r) (m_pages r) (m_bump_ptr r) v.

Definition set_v_kpml4 (v : Z) (r : vm_globals) : vm_globals := mk_vm v (v_io_bump r).
Definition set_v_io_bump (v : Z) (r : vm_globals) : vm_globals := mk_vm (v_kpml4 r) v.

Definition set_cn_buffer (v : gmap Z byte) (r : console) : console :=
  mk_cons v (cn_cur_y r) (cn_cur_x r) (cn_max_cols r) (cn_max_rows r) (cn_fg r) (cn_bg r) (cn_pixels_per_scanline r) (cn_font_w r) (cn_font_h r) (cn_locking r).
Definition set_cn_cur_y (v : Z) (r : console) : console :=
  mk_cons (cn_buffer r) v (cn_cur_x r) (cn_max_cols r) (cn_max_rows r) (cn_fg r) (cn_bg r) (cn_pixels_per_scanline r) (cn_font_w r) (cn_font_h r) (cn_locking r).
Definition set_cn_cur_x (v : Z) (r : console) : console :=
  mk_cons (cn_buffer r) (cn_cur_y r) v (cn_max_cols r) (cn_max_rows r) (cn_fg r) (cn_bg r) (cn_pixels_per_scanline r) (cn_font_w r) (cn_font_h r) (cn_locking r).
Definition set_cn_max_cols (v : Z) (r : console) : console :=
  mk_cons (cn_buffer r) (cn_cur_y r) (cn_cur_x r) v (cn_max_rows r) (cn_fg r) (cn_bg r) (cn_pixels_per_scanline r) (cn_font_w r) (cn_font_h r) (cn_locking r).
Definition set_cn_max_rows (v : Z) (r : console) : console :=
  mk_cons (cn_buffer r) (cn_cur_y r) (cn_cur_x r) (cn_max_cols r) v (cn_fg r) (cn_bg r) (cn_pixels_per_scanline r) (cn_font_w r) (cn_font_h r) (cn_locking r).
Definition set_cn_fg (v : Z) (r : console) : console :=
  mk_cons (cn_buffer r) (cn_cur_y r) (cn_cur_x r) (cn_max_cols r) (cn_max_rows r) v (cn_bg r) (cn_pixels_per_scanline r) (cn_font_w r) (cn_font_h r) (cn_locking r).
Definition set_cn_bg (v : Z) (r : console) : console :=
  mk_cons (cn_buffer r) (cn_cur_y r) (cn_cur_x r) (cn_max_cols r) (cn_max_rows r) (cn_fg r) v (cn_pixels_per_scanline r) (cn_font_w r) (cn_font_h r) (cn_locking r).
Definition set_cn_pixels_per_scanline (v : Z) (r : console) : console :=
  mk_cons (cn_buffer r) (cn_cur_y r) (cn_cur_x r) (cn_max_cols r) (cn_max_rows r) (cn_fg r) (cn_bg r) v (cn_font_w r) (cn_font_h r) (cn_locking r).
Definition set_cn_font_w (v : Z) (r : console) : console :=
  mk_cons (cn_buffer r) (cn_cur_y r) (cn_cur_x r) (cn_max_cols r) (cn_max_rows r) (cn_fg r) (cn_bg r) (cn_pixels_per_scanline r) v (cn_font_h r) (cn_locking r).
Definition set_cn_font_h (v : Z) (r : console) : console :=
  mk_cons (cn_buffer r) (cn_cur_y r) (cn_cur_x r) (cn_max_cols r) (cn_max_rows r) (cn_fg r) (cn_bg r) (cn_pixels_per_scanline r) (cn_font_w r) v (cn_locking r).
Definition set_cn_locking (v : bool) (r : console) : console :=
  mk_cons (cn_buffer r) (cn_cur_y r) (cn_cur_x r) (cn_max_cols r) (cn_max_rows r) (cn_fg r) (cn_bg r) (cn_pixels_per_scanline r) (cn_font_w r) (cn_font_h r) v.

Definition set_in_buf (v : list byte) (r : input) : input :=
  mk_input v (in_r r) (in_w r) (in_e r).
Definition set_in_r (v : Z) (r : input) : input :=
  mk_input (in_buf r) v (in_w r) (in_e r).
Definition set_in_w (v : Z) (r : input) : input :=
  mk_input (in_buf r) (in_r r) v (in_e r).
Definition set_in_e (v : Z) (r : input) : input :=
  mk_input (in_buf r) (in_r r) (in_w r) v.

Definition set_d_gop (v : gop_fb) (r : devices) : devices :=
  mk_dev v (d_fb r) (d_cons r) (d_input r) (d_kbd r) (d_ps2 r).
Definition set_d_fb (v : gmap Z byte) (r : devices) : devices :=
  mk_dev (d_gop r) v (d_cons r) (d_input r) (d_kbd r) (d_ps2 r).
Definition set_d_cons (v : console) (r : devices) : devices :=
  mk_dev (d_gop r) (d_fb r) v (d_input r) (d_kbd r) (d_ps2 r).
Definition set_d_input (v : input) (r : devices) : devices :=
  mk_dev (d_gop r) (d_fb r) (d_cons r) v (d_kbd r) (d_ps2 r).
Definition set_d_kbd (v : Z) (r : devices) : devices :=
  mk_dev (d_gop r) (d_fb r) (d_cons r) (d_input r) v (d_ps2 r).
Definition set_d_ps2 (v : list Z) (r : devices) : devices :=
  mk_dev (d_gop r) (d_fb r) (d_cons r) (d_input r) (d_kbd r) v.



(** ** Access to the tables

    Reading or writing through a pointer to an element of a table. *)
Definition the_buf (i : nat) (s : kstate) : buf := default buf0 (k_bufs s !! i).
Definition the_inode (i : nat) (s : kstate) : inode := default inode0 (k_inodes s !! i).
Definition the_proc (i : nat) (s : kstate) : proc := default proc0 (k_procs s !! i).
Definition the_file (i : nat) (s : kstate) : file := default file0 (k_files s !! i).

Definition upd_buf (i : nat) (f : buf → buf) : kstate → kstate := set_k_bufs (alter f i).
Definition upd_inode (i : nat) (f : inode → inode) : kstate → kstate := set_k_inodes (alter f i).
Definition upd_proc (i : nat) (f : proc → proc) : kstate → kstate := set_k_procs (alter f i).
Definition upd_file (i : nat) (f : file → file) : kstate → kstate := set_k_files (alter f i).

(** [ksimpl] computes projections of updated states without unfolding the
    updates themselves. *)
Arguments set_k_cpu f s : simpl never.
Arguments set_k_locks f s : simpl never.
Arguments set_k_procs f s : simpl never.
Arguments set_k_next_pid f s : simpl never.
Arguments set_k_init f s : simpl never.
Arguments set_k_bufs f s : simpl never.
Arguments set_k_disk f s : simpl never.
Arguments set_k_sb f s : simpl never.
Arguments set_k_inodes f s : simpl never.
Arguments set_k_files f s : simpl never.
Arguments set_k_pipes f s : simpl never.
Arguments set_k_kmem f s : simpl never.
Arguments set_k_vm f s : simpl never.
Arguments set_k_dev f s : simpl never.
Arguments upd_buf i f s : simpl never.
Arguments upd_inode i f s : simpl never.
Arguments upd_proc i f s : simpl never.
Arguments upd_file i f s : simpl never.

Ltac kfield p set :=
  match goal with
  | |- context [p (set ?f ?s)] => change (p (set f s)) with (f (p s))
  | |- context [p (?u ?f ?s)] => change (p (u f s)) with (p s)
  | |- context [p (?u ?i ?f ?s)] => change (p (u i f s)) with (alter f i (p s))
  end; cbv beta.
Ltac kfield_in p set H :=
  match type of H with
  | context [p (set ?f ?s)] => change (p (set f s)) with (f (p s)) in H
  | context [p (?u ?f ?s)] => change (p (u f s)) with (p s) in H
  | context [p (?u ?i ?f ?s)] => change (p (u i f s)) with (alter f i (p s)) in H
  end; cbv beta in H.
Ltac kelem p :=
  match goal with
  | |- context [p ?i (?u ?f ?s)] => change (p i (u f s)) with (p i s)
  end.
Ltac kelem_in p H :=
  match type of H with
  | context [p ?i (?u ?f ?s)] => change (p i (u f s)) with (p i s) in H
  end.
Ltac ksimpl := repeat first
  [ kfield k_cpu set_k_cpu
  | kfield k_locks set_k_locks
  | kfield k_procs set_k_procs
  | kfield k_next_pid set_k_next_pid
  | kfield k_init set_k_init
  | kfield k_bufs set_k_bufs
  | kfield k_disk set_k_disk
  | kfield k_sb set_k_sb
  | kfield k_inodes set_k_inodes
  | kfield k_files set_k_files
  | kfield k_pipes set_k_pipes
  | kfield k_kmem set_k_kmem
  | kfield k_vm set_k_vm
  | kfield k_dev set_k_dev
  | kelem the_buf
  | kelem the_inode
  | kelem the_proc
  | kelem the_file ].
Ltac ksimpl_in H := repeat first
  [ kfield_in k_cpu set_k_cpu H
  | kfield_in k_locks set_k_locks H
  | kfield_in k_procs set_k_procs H
  | kfield_in k_next_pid set_k_next_pid H
  | kfield_in k_init set_k_init H
  | kfield_in k_bufs set_k_bufs H
  | kfield_in k_disk set_k_disk H
  | kfield_in k_sb set_k_sb H
  | kfield_in k_inodes set_k_inodes H
  | kfield_in k_files set_k_files H
  | kfield_in k_pipes set_k_pipes H
  | kfield_in k_kmem set_k_kmem H
  | kfield_in k_vm set_k_vm H
  | kfield_in k_dev set_k_dev H
  | kelem_in the_buf H
  | kelem_in the_inode H
  | kelem_in the_proc H
  | kelem_in the_file H ].

(** Two states are equal when all their fields are; [kext] leaves the fields
    that differ syntactically. *)
Lemma kstate_ext s s' :
  k_cpu s = k_cpu s' →
  k_locks s = k_locks s' →
  k_procs s = k_procs s' →
  k_next_pid s = k_next_pid s' →
  k_init s = k_init s' →
  k_bufs s = k_bufs s' →
  k_disk s = k_disk s' →
  k_sb s = k_sb s' →
  k_inodes s = k_inodes s' →
  k_files s = k_files s' →
  k_pipes s = k_pipes s' →
  k_kmem s = k_kmem s' →
  k_vm s = k_vm s' →
  k_dev s = k_dev s' →
  s = s'.
Proof. destruct s, s'; simpl; by intros; subst. Qed.
Ltac kext := apply kstate_ext; ksimpl; try reflexivity.

Section Tables.
Implicit Types s : kstate.

Lemma the_buf_upd_eq i f s :
  (i < length (k_bufs s))%nat → the_buf i (upd_buf i f s) = f (the_buf i s).
Proof.
  intros H. unfold the_buf, upd_buf; ksimpl. rewrite list_lookup_alter, decide_True by done.
  destruct (lookup_lt_is_Some_2 _ _ H) as [b ->]. done.
Qed.
Lemma the_buf_upd_ne i j f s : i ≠ j → the_buf j (upd_buf i f s) = the_buf j s.
Proof. intros H. unfold the_buf, upd_buf; ksimpl. by rewrite list_lookup_alter_ne. Qed.

Lemma the_inode_upd_eq i f s :
  (i < length (k_inodes s))%nat → the_inode i (upd_inode i f s) = f (the_inode i s).
Proof.
  intros H. unfold the_inode, upd_inode; ksimpl. rewrite list_lookup_alter, decide_True by done.
  destruct (lookup_lt_is_Some_2 _ _ H) as [b ->]. done.
Qed.
Lemma the_inode_upd_ne i j f s : i ≠ j → the_inode j (upd_inode i f s) = the_inode j s.
Proof. intros H. unfold the_inode, upd_inode; ksimpl. by rewrite list_lookup_alter_ne. Qed.

Lemma the_proc_upd_eq i f s :
  (i < length (k_procs s))%nat → the_proc i (upd_proc i f s) = f (the_proc i s).
Proof.
  intros H. unfold the_proc, upd_proc; ksimpl. rewrite list_lookup_alter, decide_True by done.
  destruct (lookup_lt_is_Some_2 _ _ H) as [b ->]. done.
Qed.
Lemma the_proc_upd_ne i j f s : i ≠ j → the_proc j (upd_proc i f s) = the_proc j s.
Proof. intros H. unfold the_proc, upd_proc; ksimpl. by rewrite list_lookup_alter_ne. Qed.

Lemma the_file_upd_eq i f s :
  (i < length (k_files s))%nat → the_file i (upd_file i f s) = f (the_file i s).
Proof.
  intros H. unfold the_file, upd_file; ksimpl. rewrite list_lookup_alter, decide_True by done.
  destruct (lookup_lt_is_Some_2 _ _ H) as [b ->]. done.
Qed.
Lemma the_file_upd_ne i j f s : i ≠ j → the_file j (upd_file i f s) = the_file j s.
Proof. intros H. unfold the_file, upd_file; ksimpl. by rewrite list_lookup_alter_ne. Qed.
End Tables.

(** The zero-initialised globals the kernel starts from ([next_pid] starts at 1);
    the boot loader hands over with interrupts off. [io_bump] starts at IOREMAP_BASE. *)
Definition kstate0 : kstate :=
  mk_kstate (mk_cpu 0 false None 0 0 false 0) ∅ (replicate NPROC proc0) 1 None
    (replicate (S NBUF) buf0) (mk_disk ∅ 0) (mk_sb 0 0 0 0 0) (replicate NINODE inode0)
    (replicate NFILE file0) ∅ (mk_kmem 0 ∅ 0 false) (mk_vm 0 0xFFFFC00000000000) devices0.
