(* ===== verification/Spinlock.v ===== *)
(** * Spin locks and interrupt nesting (kernel/spinlock.c)

    One processor runs (main.c starts no other): [mycpu()] is processor 0.
    [push_cli]/[pop_cli] count nested requests to keep interrupts off, and a
    spin lock keeps them off for as long as it is held. *)
From S2P Require Import Prelude State.

Definition mycpu : nat := 0.

(** An interrupt handler: a run of kernel code between the hardware's clearing
    of the interrupt flag and [iretq].  The definitions below take a handler and
    run it wherever one can come in between: when [sti] has set the flag, and
    as long as the flag is set, before the next [cli] clears it.  Without a
    handler they are the runs in which no interrupt arrives, the ones the rest
    of the kernel is built from. *)
Class Irq := irq : M kstate unit.
#[export] Instance no_irq : Irq | 100 := ret tt.

(** [struct spin_lock] in memory; all zeros until the lock is first taken.
    [put_lock] keeps the table free of all-zero entries, so that a table of
    free locks is the empty table. *)
Definition spin_free : spin_lock := mk_spin 0 None.
Definition get_lock (l : lockid) (s : kstate) : spin_lock := default spin_free (k_locks s !! l).
Definition put_lock (l : lockid) (v : spin_lock) : kstate → kstate :=
  set_k_locks (λ m, if decide (v = spin_free) then delete l m else <[l := v]> m).

Definition read_if : M kstate bool := gets (λ s, c_if (k_cpu s)).
Definition cli : M kstate unit := modify (set_k_cpu (set_c_if false)).
Definition init_lock (l : lockid) : M kstate unit := modify (put_lock l spin_free).

(** [xchg(&lk->locked, v)] returns the old value. *)
Definition xchg_locked (l : lockid) (v : Z) : M kstate Z :=
  let! k := gets (get_lock l) in
  modify (put_lock l (mk_spin v (sp_cpu k))) ;;;
  ret (sp_locked k).

Section Interrupts.
Context {q : Irq}.

Definition interrupts : M kstate unit := let! f := read_if in when f irq.
Definition sti : M kstate unit :=
  modify (set_k_cpu (set_c_if true)) ;;;
  interrupts.

Definition push_cli : M kstate unit :=
  interrupts ;;;
  let! rflags := read_if in
  cli ;;;
  let! c := gets k_cpu in
  when (bool_decide (c_ncli c = 0)) (modify (set_k_cpu (set_c_int_ena rflags))) ;;;
  modify (set_k_cpu (λ c, set_c_ncli (c_ncli c + 1) c)).

Definition pop_cli : M kstate unit :=
  let! rflags := read_if in
  if rflags then panic "popcli - Interrupt is already enabled" else
  modify (set_k_cpu (λ c, set_c_ncli (c_ncli c - 1) c)) ;;;
  let! c := gets k_cpu in
  if bool_decide (c_ncli c < 0) then panic "popcli - ncli negative" else
  when (bool_decide (c_ncli c = 0) && c_int_ena c) sti.

Definition holding (l : lockid) : M kstate bool :=
  push_cli ;;;
  let! k := gets (get_lock l) in
  let r := bool_decide (sp_locked k ≠ 0) && bool_decide (sp_cpu k = Some mycpu) in
  pop_cli ;;;
  ret r.

(** With interrupts off on the only processor nothing can clear the lock
    word, so a first exchange that finds it set repeats for ever. *)
Definition acquire (l : lockid) : M kstate unit :=
  push_cli ;;;
  let! h := holding l in
  if h then panic "acquire again" else
  let! old := xchg_locked l 1 in
  if bool_decide (old ≠ 0) then spin else
  let! k := gets (get_lock l) in
  modify (put_lock l (mk_spin (sp_locked k) (Some mycpu))).

Definition release (l : lockid) : M kstate unit :=
  let! h := holding l in
  if negb h then panic "release what?" else
  let! k := gets (get_lock l) in
  modify (put_lock l (mk_spin (sp_locked k) None)) ;;;
  let! k := gets (get_lock l) in
  modify (put_lock l (mk_spin 0 (sp_cpu k))) ;;;
  pop_cli.

(** [myproc()]: the process this processor runs, if any. *)
Definition myproc : M kstate (option nat) :=
  push_cli ;;;
  let! p := gets (λ s, c_proc (k_cpu s)) in
  pop_cli ;;;
  ret p.

End Interrupts.

(** A dereference of a null pointer faults, and [trap] panics on a page fault
    of the kernel (trap.c). *)
Definition deref {A} (p : option A) : M kstate A :=
  match p with Some i => ret i | None => panic "kernel page fault" end.

(** ** What the operations do *)

Definition spin_held : spin_lock := mk_spin 1 (Some mycpu).

Definition cpu_push (c : cpu) : cpu :=
  set_c_ncli (c_ncli c + 1)
    (set_c_if false (if decide (c_ncli c = 0) then set_c_int_ena (c_if c) c else c)).
Definition cpu_pop (c : cpu) : cpu :=
  set_c_if (if decide (c_ncli c = 1) then c_int_ena c else c_if c)
    (set_c_ncli (c_ncli c - 1) c).

(** The nesting counter is not negative, and interrupts are off while it is
    positive. *)
Definition cpu_ok (c : cpu) : Prop := 0 ≤ c_ncli c ∧ (0 < c_ncli c → c_if c = false).

(** Between kernel entries [int_ena] agrees with the flag (it does after any
    [push_cli]/[pop_cli] pair), so that taking and releasing a lock leaves no trace. *)
Definition settled (c : cpu) : Prop :=
  cpu_ok c ∧ (c_ncli c = 0 → c_int_ena c = c_if c).

Lemma cpu_push_ncli c : c_ncli (cpu_push c) = c_ncli c + 1.
Proof. done. Qed.
Lemma cpu_push_ok c : cpu_ok c → cpu_ok (cpu_push c).
Proof. destruct c. unfold cpu_ok, cpu_push. case_decide; simpl in *; intuition lia. Qed.

Lemma cpu_pop_push c : settled c → cpu_pop (cpu_push c) = c.
Proof.
  destruct c as [n i p r k f c3]. unfold settled, cpu_ok, cpu_push, cpu_pop; simpl.
  intros [[? H1] H2].
  destruct (decide (n = 0)) as [->|]; simpl.
  - by rewrite H2.
  - rewrite decide_False by lia. unfold set_c_ncli, set_c_if; simpl. f_equal; [lia|].
    rewrite H1; [done|lia].
Qed.

Lemma cpu_push_settled c : cpu_ok c → settled (cpu_push c).
Proof.
  destruct c. unfold settled, cpu_ok, cpu_push; case_decide; simpl in *; intuition lia.
Qed.

Lemma set_k_cpu_ext f g s : f (k_cpu s) = g (k_cpu s) → set_k_cpu f s = set_k_cpu g s.
Proof. unfold set_k_cpu. by intros ->. Qed.

Lemma set_k_cpu_id f s : f (k_cpu s) = k_cpu s → set_k_cpu f s = s.
Proof. unfold set_k_cpu. intros ->. by destruct s. Qed.

Lemma no_interrupts s : interrupts s = Done tt s.
Proof. unfold interrupts, read_if. rewrite bind_gets. by destruct (c_if (k_cpu s)). Qed.

Lemma sti_run s : sti s = Done tt (set_k_cpu (set_c_if true) s).
Proof. unfold sti. rewrite bind_modify. apply no_interrupts. Qed.

Lemma push_cli_run s : push_cli s = Done tt (set_k_cpu cpu_push s).
Proof.
  unfold push_cli. rewrite (bind_done _ _ _ _ _ (no_interrupts s)).
  unfold read_if, cli. rewrite bind_gets, bind_modify, bind_gets. unfold when.
  destruct (decide (c_ncli (k_cpu s) = 0)) as [E|E].
  - rewrite bool_decide_true by exact E.
    rewrite (set_k_cpu_ext cpu_push (λ c, set_c_ncli (c_ncli c + 1)
      (set_c_if false (set_c_int_ena (c_if c) c)))); [done|].
    unfold cpu_push. by rewrite decide_True.
  - rewrite bool_decide_false by exact E.
    rewrite (set_k_cpu_ext cpu_push (λ c, set_c_ncli (c_ncli c + 1) (set_c_if false c))); [done|].
    unfold cpu_push. by rewrite decide_False.
Qed.

Lemma pop_cli_run s :
  c_if (k_cpu s) = false → 1 ≤ c_ncli (k_cpu s) → pop_cli s = Done tt (set_k_cpu cpu_pop s).
Proof.
  intros Hif Hn. unfold pop_cli, read_if. rewrite bind_gets, Hif, bind_modify, bind_gets; ksimpl.
  change (c_ncli (set_c_ncli ?n _)) with n. change (c_int_ena (set_c_ncli _ ?c)) with (c_int_ena c).
  rewrite bool_decide_false by lia. unfold when, sti.
  destruct (decide (c_ncli (k_cpu s) = 1)) as [E|E].
  - rewrite bool_decide_true by lia.
    rewrite (set_k_cpu_ext cpu_pop (λ c, set_c_if (c_int_ena c) (set_c_ncli (c_ncli c - 1) c)))
      by (unfold cpu_pop; by rewrite decide_True).
    destruct (c_int_ena (k_cpu s)) eqn:Hi; simpl; [|rewrite <- Hif in Hi]; unfold modify, ret; f_equal.
    + unfold set_k_cpu; simpl. by rewrite Hi.
    + unfold set_k_cpu. rewrite Hi. by destruct (k_cpu s).
  - rewrite bool_decide_false by lia.
    rewrite (set_k_cpu_ext cpu_pop (λ c, set_c_ncli (c_ncli c - 1) c)); [done|].
    unfold cpu_pop. rewrite decide_False by done. by destruct (k_cpu s).
Qed.

Lemma push_pop_settled s :
  settled (k_cpu s) → set_k_cpu cpu_pop (set_k_cpu cpu_push s) = s.
Proof. intros. unfold set_k_cpu; simpl. rewrite cpu_pop_push by done. by destruct s. Qed.

Lemma pop_after_push_run s s' :
  k_cpu s' = cpu_push (k_cpu s) → cpu_ok (k_cpu s) → pop_cli s' = Done tt (set_k_cpu cpu_pop s').
Proof.
  intros E [Hn _]. apply pop_cli_run; rewrite E; unfold cpu_push; case_decide; simpl; lia || done.
Qed.

Definition lock_held (l : lockid) (s : kstate) : bool :=
  let k := get_lock l s in
  bool_decide (sp_locked k ≠ 0) && bool_decide (sp_cpu k = Some mycpu).

Lemma lock_held_free l s : get_lock l s = spin_free → lock_held l s = false.
Proof. unfold lock_held. by intros ->. Qed.
Lemma lock_held_held l s : get_lock l s = spin_held → lock_held l s = true.
Proof. unfold lock_held. by intros ->. Qed.

(** Asking whether a lock is held leaves a settled processor as it was. *)
Lemma holding_run l s : settled (k_cpu s) → holding l s = Done (lock_held l s) s.
Proof.
  intros Hc. unfold holding. erewrite bind_done by apply push_cli_run. rewrite bind_gets.
  erewrite bind_done by (eapply (pop_after_push_run s); [done|apply Hc]).
  rewrite push_pop_settled by done. done.
Qed.

Lemma myproc_run s : settled (k_cpu s) → myproc s = Done (c_proc (k_cpu s)) s.
Proof.
  intros Hc. unfold myproc. erewrite bind_done by apply push_cli_run. rewrite bind_gets.
  erewrite bind_done by (eapply (pop_after_push_run s); [done|apply Hc]).
  rewrite push_pop_settled by done. simpl. unfold cpu_push. case_decide; done.
Qed.

(** ** Acquire and release *)

Lemma put_lock_held l s :
  put_lock l spin_held s = set_k_locks (insert l spin_held) s.
Proof. unfold put_lock, set_k_locks. by rewrite decide_False. Qed.

Lemma put_lock_free l s : put_lock l spin_free s = set_k_locks (delete l) s.
Proof. unfold put_lock, set_k_locks. by rewrite decide_True. Qed.

Lemma get_put_lock l v s : get_lock l (put_lock l v s) = v.
Proof.
  unfold get_lock, put_lock. ksimpl. case_decide as E.
  - by rewrite lookup_delete_eq, E.
  - by rewrite lookup_insert_eq.
Qed.

Lemma put_put_lock l v w s : put_lock l w (put_lock l v s) = put_lock l w s.
Proof.
  unfold put_lock, set_k_locks; simpl. f_equal. repeat case_decide; try done.
  - by rewrite delete_delete_eq.
  - by rewrite delete_insert_eq.
  - by rewrite insert_delete_eq.
  - by rewrite insert_insert_eq.
Qed.

(** A free lock is taken: interrupts go off, one level deeper. *)
Lemma acquire_run l s :
  cpu_ok (k_cpu s) → k_locks s !! l = None →
  acquire l s = Done tt (set_k_locks (insert l spin_held) (set_k_cpu cpu_push s)).
Proof.
  intros Hc Hl. unfold acquire. erewrite bind_done by apply push_cli_run.
  erewrite bind_done by (apply holding_run, cpu_push_settled, Hc).
  assert (get_lock l (set_k_cpu cpu_push s) = spin_free) as Hg.
  { unfold get_lock. ksimpl. by rewrite Hl. }
  rewrite lock_held_free by done. unfold xchg_locked.
  erewrite bind_done.
  2:{ rewrite bind_gets, bind_modify. unfold ret. by rewrite Hg. }
  cbv beta. rewrite bool_decide_false by (by intros []). rewrite bind_gets, get_put_lock. unfold modify. cbn [sp_locked].
  by rewrite put_put_lock, put_lock_held.
Qed.

(** A held lock is given back. *)
Lemma release_run l s :
  cpu_ok (k_cpu s) → 1 ≤ c_ncli (k_cpu s) → k_locks s !! l = Some spin_held →
  release l s = Done tt (set_k_cpu cpu_pop (set_k_locks (delete l) s)).
Proof.
  intros Hc Hn Hl. assert (settled (k_cpu s)) by (split; [done|lia]).
  unfold release. erewrite bind_done by (by apply holding_run).
  assert (get_lock l s = spin_held) as Hg by (unfold get_lock; by rewrite Hl).
  rewrite lock_held_held by done. cbn [negb].
  rewrite bind_gets, bind_modify, bind_gets, bind_modify, Hg, get_put_lock, put_put_lock.
  cbn [sp_cpu]. change (mk_spin 0 None) with spin_free. rewrite put_lock_free.
  apply pop_cli_run; [|done]. apply Hc. lia.
Qed.

Lemma acquire_held_run l s :
  cpu_ok (k_cpu s) → k_locks s !! l = Some spin_held → acquire l s = Panic "acquire again".
Proof.
  intros Hc Hl. unfold acquire. erewrite bind_done by apply push_cli_run.
  erewrite bind_done by (apply holding_run, cpu_push_settled, Hc).
  assert (get_lock l (set_k_cpu cpu_push s) = spin_held) as Hg.
  { unfold get_lock. ksimpl. by rewrite Hl. }
  by rewrite lock_held_held.
Qed.

Lemma release_free_run l s :
  settled (k_cpu s) → k_locks s !! l = None → release l s = Panic "release what?".
Proof.
  intros Hc Hl. unfold release. erewrite bind_done by (by apply holding_run).
  assert (get_lock l s = spin_free) as Hg by (unfold get_lock; by rewrite Hl).
  by rewrite lock_held_free.
Qed.

(** ** Interrupts are masked in critical sections

    With the flag off and at least one [push_cli] outstanding, no handler runs:
    whatever the handler is, an operation does what it does without one. *)
Section Masked.
Context (h : M kstate unit).

Lemma push_cli_masked s : c_if (k_cpu s) = false → @push_cli h s = push_cli s.
Proof.
  intros Hif. assert (E : @interrupts h s = Done tt s) by (unfold interrupts, read_if; by rewrite bind_gets, Hif).
  unfold push_cli. by rewrite (bind_done _ _ _ _ _ E), (bind_done _ _ _ _ _ (no_interrupts s)).
Qed.

Lemma pop_cli_masked s : 2 ≤ c_ncli (k_cpu s) → @pop_cli h s = pop_cli s.
Proof.
  intros Hn. unfold pop_cli, read_if. rewrite !bind_gets. destruct (c_if (k_cpu s)); [done|].
  rewrite !bind_modify, !bind_gets. ksimpl. change (c_ncli (set_c_ncli ?n _)) with n.
  rewrite (bool_decide_false (_ < 0)), (bool_decide_false (_ = 0)) by lia. done.
Qed.

(** Inside a [push_cli] and [pop_cli] of its own. *)
Lemma nested_masked {A} (k : M kstate A) s : c_if (k_cpu s) = false → 1 ≤ c_ncli (k_cpu s) →
  (∀ s', k_cpu s' = cpu_push (k_cpu s) → ∃ a, k s' = Done a s') →
  (@push_cli h ;;; let! a := k in @pop_cli h ;;; ret a) s = (push_cli ;;; let! a := k in pop_cli ;;; ret a) s.
Proof.
  intros Hif Hn Hk. assert (E : @push_cli h s = Done tt (set_k_cpu cpu_push s)) by (by rewrite push_cli_masked, push_cli_run).
  rewrite (bind_done _ _ _ _ _ E), (bind_done _ _ _ _ _ (push_cli_run s)).
  destruct (Hk (set_k_cpu cpu_push s)) as [a Ha]; [done|]. rewrite !(bind_done _ _ _ _ _ Ha).
  unfold bind. rewrite pop_cli_masked; [done|]. ksimpl. rewrite cpu_push_ncli. lia.
Qed.

Lemma holding_masked l s : c_if (k_cpu s) = false → 1 ≤ c_ncli (k_cpu s) → @holding h l s = holding l s.
Proof. intros. unfold holding. apply (nested_masked (gets (lock_held l)) s); [done..|]. intros s' _. by eexists. Qed.

Lemma myproc_masked s : c_if (k_cpu s) = false → 1 ≤ c_ncli (k_cpu s) → @myproc h s = myproc s.
Proof. intros. unfold myproc. apply (nested_masked (gets (λ s, c_proc (k_cpu s))) s); [done..|]. intros s' _. by eexists. Qed.

(** Taking a lock with the flag off. *)
Lemma acquire_masked l s : cpu_ok (k_cpu s) → c_if (k_cpu s) = false → @acquire h l s = acquire l s.
Proof.
  intros Hc Hif. unfold acquire. assert (E : @push_cli h s = Done tt (set_k_cpu cpu_push s)) by (by rewrite push_cli_masked, push_cli_run).
  rewrite (bind_done _ _ _ _ _ E), (bind_done _ _ _ _ _ (push_cli_run s)). unfold bind at 1 3.
  rewrite holding_masked; [done|..]; ksimpl; [apply cpu_push_ok; [done|]|]; rewrite ?cpu_push_ncli; destruct Hc; lia.
Qed.

(** Taking a lock otherwise: handlers run before the flag goes off, and not after. *)
Lemma wp_acquire_irq l s Q : wp (@interrupts h s) (λ _ s1, cpu_ok (k_cpu s1) ∧ wp (acquire l s1) Q) → wp (@acquire h l s) Q.
Proof.
  intros H. unfold acquire at 1. apply wp_bind. unfold push_cli. apply wp_bind. eapply wp_mono; [exact H|]. cbv beta.
  intros _ s1 [Hc Ha]. pose proof (push_cli_run s1) as E. unfold push_cli in E. rewrite (bind_done _ _ _ _ _ (no_interrupts s1)) in E.
  rewrite E. cbn [wp]. unfold acquire in Ha. rewrite (bind_done _ _ _ _ _ (push_cli_run s1)) in Ha. unfold bind at 1 in Ha. unfold bind at 1.
  rewrite holding_masked; [exact Ha|..]; ksimpl; [apply cpu_push_ok; [done|]|]; rewrite ?cpu_push_ncli; destruct Hc; lia.
Qed.

(** Giving one back while another is held. *)
Lemma release_masked l s : cpu_ok (k_cpu s) → 2 ≤ c_ncli (k_cpu s) → @release h l s = release l s.
Proof.
  intros Hc Hn. assert (Hset : settled (k_cpu s)) by (split; [done|lia]). unfold release.
  assert (E : @holding h l s = Done (lock_held l s) s) by (rewrite holding_masked by (try apply Hc; lia); by apply holding_run).
  rewrite (bind_done _ _ _ _ _ E), (bind_done _ _ _ _ _ (holding_run l s Hset)). destruct (lock_held l s); [|done].
  cbn [negb]. rewrite !bind_gets, !bind_modify, !bind_gets, !bind_modify. apply pop_cli_masked. done.
Qed.

(** Giving the last one back: handlers run when the flag comes on again. *)
Lemma wp_release_last l s Q : c_ncli (k_cpu s) = 1 → c_if (k_cpu s) = false → k_locks s !! l = Some spin_held →
  (let s1 := set_k_cpu cpu_pop (set_k_locks (delete l) s) in wp (@interrupts h s1) Q) → wp (@release h l s) Q.
Proof.
  intros Hn Hif Hl H. assert (Hset : settled (k_cpu s)) by (split; [split; [lia|done]|lia]). unfold release.
  assert (E : @holding h l s = Done (lock_held l s) s) by (rewrite holding_masked by (done || lia); by apply holding_run).
  assert (Hg : get_lock l s = spin_held) by (unfold get_lock; by rewrite Hl).
  rewrite (bind_done _ _ _ _ _ E), lock_held_held by done. cbn [negb].
  rewrite bind_gets, bind_modify, bind_gets, bind_modify, Hg, get_put_lock, put_put_lock.
  cbn [sp_cpu]. change (mk_spin 0 None) with spin_free. rewrite put_lock_free.
  unfold pop_cli, read_if. rewrite bind_gets. ksimpl. rewrite Hif, bind_modify, bind_gets. ksimpl.
  change (c_ncli (set_c_ncli ?n _)) with n. rewrite Hn, bool_decide_false by lia.
  set (s1 := set_k_cpu cpu_pop (set_k_locks (delete l) s)) in H. rewrite bool_decide_true by done. cbn [andb].
  destruct (c_int_ena (k_cpu s)) eqn:Hi; cbn [c_int_ena set_c_ncli]; rewrite Hi; cbn [when].
  - unfold sti. rewrite bind_modify. match goal with |- wp (_ ?t) _ => replace t with s1; [exact H|] end.
    unfold s1. kext. unfold cpu_pop. rewrite decide_True by done. rewrite Hi. reflexivity.
  - match goal with |- wp (_ ?t) _ => replace t with s1 end.
    + unfold interrupts, read_if in H. rewrite bind_gets in H. unfold s1 at 1, cpu_pop in H. ksimpl_in H.
      rewrite decide_True in H by done. cbn [c_if set_c_if] in H. rewrite Hi in H. exact H.
    + unfold s1. kext. unfold cpu_pop. rewrite decide_True, Hi by done. unfold set_c_if, set_c_ncli. cbn. by rewrite Hif, Hn.
Qed.
End Masked.

(** Between two kernel entries: no spin lock is held and the processor is settled. *)
Definition calm (s : kstate) : Prop := k_locks s = ∅ ∧ settled (k_cpu s).

Lemma release_after_acquire l s s' :
  settled (k_cpu s) → k_locks s !! l = None →
  k_cpu s' = cpu_push (k_cpu s) → k_locks s' = <[l := spin_held]> (k_locks s) →
  release l s' = Done tt (set_k_cpu (λ _, k_cpu s) (set_k_locks (λ _, k_locks s) s')).
Proof.
  intros Hc Hl E1 E2. rewrite release_run.
  - f_equal. kext; rewrite ?E1, ?E2.
    + by apply cpu_pop_push.
    + by rewrite delete_insert_eq, delete_id.
  - rewrite E1. by apply cpu_push_ok, Hc.
  - rewrite E1. destruct Hc as [[? _] _]. unfold cpu_push. case_decide; simpl; lia.
  - by rewrite E2, lookup_insert_eq.
Qed.

(** ** The discipline over whole executions *)

(** Every lock in the table is held by this processor, and the nesting counter
    covers all of them. *)
Definition lock_inv (s : kstate) : Prop :=
  cpu_ok (k_cpu s) ∧ map_Forall (λ _ k, k = spin_held) (k_locks s) ∧
  Z.of_nat (size (k_locks s)) ≤ c_ncli (k_cpu s).

(** One use of the interface.  A bare [pop_cli] pairs with a bare [push_cli],
    so it never eats into the count of a held lock; interrupts are switched on
    by hand only when nothing is pushed ([scheduler]). *)
Inductive lock_step : kstate → kstate → Prop :=
| ls_push s s' : push_cli s = Done tt s' → lock_step s s'
| ls_pop s s' : Z.of_nat (size (k_locks s)) < c_ncli (k_cpu s) →
    pop_cli s = Done tt s' → lock_step s s'
| ls_acquire l s s' : acquire l s = Done tt s' → lock_step s s'
| ls_release l s s' : release l s = Done tt s' → lock_step s s'
| ls_sti s s' : c_ncli (k_cpu s) = 0 → sti s = Done tt s' → lock_step s s'
| ls_holding l b s s' : holding l s = Done b s' → lock_step s s'.

Lemma cpu_pop_ok c : cpu_ok c → 1 ≤ c_ncli c → cpu_ok (cpu_pop c).
Proof.
  destruct c. unfold cpu_ok, cpu_pop. intros [? Hf] ?. case_decide; simpl in *;
    (split; [lia|]); intros; [lia|]. apply Hf. lia.
Qed.

Lemma holding_cpu l s s' b :
  cpu_ok (k_cpu s) → holding l s = Done b s' →
  k_locks s' = k_locks s ∧ b = lock_held l s ∧ cpu_ok (k_cpu s') ∧
  c_ncli (k_cpu s') = c_ncli (k_cpu s).
Proof.
  intros Hc. unfold holding. erewrite bind_done by apply push_cli_run. rewrite bind_gets.
  erewrite bind_done by (by eapply (pop_after_push_run s)).
  unfold ret. intros [= <- <-]. ksimpl. split_and!; [done|done| |].
  - apply cpu_pop_ok; [by apply cpu_push_ok|]. destruct Hc. rewrite cpu_push_ncli. lia.
  - unfold cpu_pop. simpl. lia.
Qed.

Lemma acquire_inv l s s' :
  lock_inv s → acquire l s = Done tt s' →
  k_locks s !! l = None ∧ s' = set_k_locks (insert l spin_held) (set_k_cpu cpu_push s).
Proof.
  intros (Hc & Hf & _) H. destruct (k_locks s !! l) as [k|] eqn:E.
  - assert (k = spin_held) as -> by by eapply Hf.
    rewrite acquire_held_run in H by done. done.
  - rewrite acquire_run in H by done. by injection H as <-.
Qed.

Lemma release_inv l s s' :
  lock_inv s → release l s = Done tt s' →
  k_locks s !! l = Some spin_held ∧ s' = set_k_cpu cpu_pop (set_k_locks (delete l) s).
Proof.
  intros (Hc & Hf & Hs) H. destruct (k_locks s !! l) as [k|] eqn:E.
  - assert (k = spin_held) as -> by by eapply Hf.
    assert (1 ≤ c_ncli (k_cpu s)).
    { assert (size (k_locks s) ≠ 0%nat); [|lia]. intros H0. apply map_size_empty_inv in H0.
      rewrite H0 in E. done. }
    rewrite release_run in H by done. by injection H as <-.
  - exfalso. unfold release in H. unfold bind at 1 in H.
    destruct (holding l s) as [b s1| | | |] eqn:Eh; simpl in H; try done.
    apply holding_cpu in Eh as (_ & -> & _); [|done].
    rewrite lock_held_free in H; [done|]. unfold get_lock. by rewrite E.
Qed.

Lemma pop_cli_inv s s' :
  cpu_ok (k_cpu s) → pop_cli s = Done tt s' →
  1 ≤ c_ncli (k_cpu s) ∧ s' = set_k_cpu cpu_pop s.
Proof.
  intros Hc H. destruct (decide (1 ≤ c_ncli (k_cpu s))) as [Hn|Hn].
  - rewrite pop_cli_run in H by (try apply Hc; lia). by injection H as <-.
  - exfalso. unfold pop_cli, read_if in H. rewrite bind_gets in H.
    destruct (c_if (k_cpu s)); [done|]. rewrite bind_modify, bind_gets in H. ksimpl_in H.
    change (c_ncli (set_c_ncli ?n _)) with n in H. rewrite bool_decide_true in H by lia. done.
Qed.

Lemma lock_inv_step s s' : lock_inv s → lock_step s s' → lock_inv s'.
Proof.
  intros Hi Hs. pose proof Hi as (Hc & Hf & Hz). inversion Hs as
    [? ? H|? ? Hlt H|l ? ? H|l ? ? H|? ? Hn H|l b ? ? H]; subst.
  - rewrite push_cli_run in H. injection H as <-. unfold lock_inv; ksimpl.
    rewrite cpu_push_ncli. split_and!; [by apply cpu_push_ok|done|lia].
  - apply pop_cli_inv in H as [Hn ->]; [|done]. unfold lock_inv; ksimpl.
    split_and!; [by apply cpu_pop_ok|done|]. unfold cpu_pop; simpl. lia.
  - apply acquire_inv in H as [E ->]; [|done]. unfold lock_inv; ksimpl.
    rewrite cpu_push_ncli, map_size_insert_None by done.
    split_and!; [by apply cpu_push_ok| |lia]. by apply map_Forall_insert_2.
  - apply release_inv in H as [E ->]; [|done]. unfold lock_inv; ksimpl.
    rewrite map_size_delete_Some by eauto.
    assert (size (k_locks s) ≠ 0%nat).
    { intros H0. apply map_size_empty_inv in H0. by rewrite H0 in E. }
    split_and!; [apply cpu_pop_ok; [done|lia]|by apply map_Forall_delete|].
    unfold cpu_pop; simpl. lia.
  - injection H as <-. unfold lock_inv; ksimpl. split_and!; [|done|simpl; lia].
    unfold cpu_ok; simpl. lia.
  - apply holding_cpu in H as (E & _ & Hc' & Hn); [|done]. unfold lock_inv.
    rewrite E, Hn. by split_and!.
Qed.

(** C5. On any sequence of uses of the lock interface, a processor that holds a
    spin lock has its interrupts off and a nesting count of at least one per
    lock held, so no interrupt handler can run inside a critical section; and
    an attempt to take a held lock panics instead of spinning for ever. *)
Theorem critical_sections_uninterruptible s0 s l k :
  lock_inv s0 → rtc lock_step s0 s → k_locks s !! l = Some k →
  c_if (k_cpu s) = false ∧ Z.of_nat (size (k_locks s)) ≤ c_ncli (k_cpu s) ∧
  acquire l s = Panic "acquire again".
Proof.
  intros H0 Hs Hl. assert (lock_inv s) as (Hc & Hf & Hz).
  { clear Hl. induction Hs; [done|]. apply IHHs. by eapply lock_inv_step. }
  assert (k = spin_held) as -> by by eapply Hf.
  assert (size (k_locks s) ≠ 0%nat).
  { intros E. apply map_size_empty_inv in E. by rewrite E in Hl. }
  split_and!; [apply Hc; lia|lia|by apply acquire_held_run].
Qed.

(** [acquire] followed by [release] of a free lock is the identity on the
    whole kernel state: the interrupt flag, the nesting count and the saved flag
    come back, at any nesting depth. *)
Theorem acquire_release_id l s :
  settled (k_cpu s) → k_locks s !! l = None → (acquire l ;;; release l) s = Done tt s.
Proof.
  intros Hc Hl. erewrite bind_done by (apply acquire_run; [apply Hc|done]).
  rewrite (release_after_acquire l s); [|done..]. f_equal. by kext.
Qed.

(** ** Witnesses *)

(** The starting state with interrupts enabled. *)
Definition kstate_if : kstate := set_k_cpu (set_c_if true) kstate0.

Lemma kstate_if_lock_inv : lock_inv kstate_if.
Proof. unfold lock_inv. split_and!; [by split|apply map_Forall_empty|done]. Qed.

Lemma kstate0_calm : calm kstate0.
Proof. done. Qed.

Lemma critical_sections_uninterruptible_witness :
  ∃ s, acquire LkBcache kstate_if = Done tt s ∧ c_if (k_cpu s) = false ∧
       acquire LkBcache s = Panic "acquire again".
Proof.
  pose (s := set_k_locks (insert LkBcache spin_held) (set_k_cpu cpu_push kstate_if)).
  assert (acquire LkBcache kstate_if = Done tt s) as Hs by (vm_compute; reflexivity).
  exists s. split; [exact Hs|].
  destruct (critical_sections_uninterruptible kstate_if s LkBcache spin_held
    kstate_if_lock_inv (rtc_once _ _ (ls_acquire _ _ _ Hs)) eq_refl) as (H1 & _ & H2).
  split; [exact H1|exact H2].
Defined.

Lemma acquire_release_id_witness :
  (acquire LkIcache ;;; release LkIcache) kstate0 = Done tt kstate0.
Proof. apply (acquire_release_id LkIcache kstate0); [apply kstate0_calm|reflexivity]. Defined.
