(* ===== verification/Sched.v ===== *)
(** * Giving up the processor (kernel/proc.c)

    [sched], [yield], [sleep], [wakeup], [kill] and one pass of the scheduler's
    scan.  [swtch] into the scheduler suspends the running kernel thread: the
    rest of its code is the continuation of the [Susp] result, which the
    scheduler resumes when it next picks the process. *)
From S2P Require Import Prelude State Spinlock.

(** How often a [while(cond) sleep(...)] loop re-checks its condition. *)
Class WakeFuel := wake_fuel : nat.

Section Switch.
Context {q : Irq}.

Definition sched : M kstate unit :=
  let! p := myproc in
  let! h := holding LkPtable in
  if negb h then panic "sched ptable.lock not holded" else
  let! c := gets k_cpu in
  if bool_decide (c_ncli c ≠ 1) then panic "sched locks" else
  let! i := deref p in
  let! st := gets (λ s, p_state (the_proc i s)) in
  if bool_decide (st = RUNNING) then panic "sched running" else
  let! rflags := read_if in
  if rflags then panic "sched interruptible" else
  let! int_ena := gets (λ s, c_int_ena (k_cpu s)) in
  suspend ;;;
  modify (set_k_cpu (set_c_int_ena int_ena)).

Definition yield : M kstate unit :=
  acquire LkPtable ;;;
  let! p := myproc in
  let! i := deref p in
  modify (upd_proc i (set_p_state RUNNABLE)) ;;;
  sched ;;;
  release LkPtable.

Definition sleep (c : chan) (lk : lockid) : M kstate unit :=
  let! p := myproc in
  match p with
  | None => panic "sleep in scheduler"
  | Some i =>
    when (bool_decide (lk ≠ LkPtable)) (acquire LkPtable ;;; release lk) ;;;
    modify (upd_proc i (set_p_chan (Some c))) ;;;
    modify (upd_proc i (set_p_state SLEEPING)) ;;;
    sched ;;;
    modify (upd_proc i (set_p_chan None)) ;;;
    when (bool_decide (lk ≠ LkPtable)) (release LkPtable ;;; acquire lk)
  end.

Definition wakeup_pure (c : option chan) : M kstate unit :=
  for_each (seq 0 NPROC) (λ i,
    let! p := gets (the_proc i) in
    when (bool_decide (p_state p = SLEEPING) && bool_decide (p_chan p = c))
      (modify (upd_proc i (set_p_state RUNNABLE)))).

Definition wakeup (c : chan) : M kstate unit :=
  acquire LkPtable ;;;
  wakeup_pure (Some c) ;;;
  release LkPtable.

Definition kill (pid : Z) : M kstate Z :=
  acquire LkPtable ;;;
  let! r := for_return (seq 0 NPROC) (λ i,
    let! p := gets (the_proc i) in
    if bool_decide (p_pid p = pid) then
      modify (upd_proc i (set_p_killed 1)) ;;;
      let! p := gets (the_proc i) in
      when (bool_decide (p_state p = SLEEPING)) (modify (upd_proc i (set_p_state RUNNABLE))) ;;;
      release LkPtable ;;;
      ret (Some 0)
    else ret None) in
  match r with
  | Some v => ret v
  | None => release LkPtable ;;; ret (-1)
  end.

End Switch.

(** ** Functional behaviour *)

(** What [wakeup_pure] and [wakeup] do to one process. *)
Definition wake_on (c : option chan) (p : proc) : proc :=
  if bool_decide (p_state p = SLEEPING) && bool_decide (p_chan p = c)
  then set_p_state RUNNABLE p else p.
Definition wake_proc (c : chan) : proc → proc := wake_on (Some c).

Lemma alter_seq_fmap {A} (f : A → A) (l : list A) n m :
  (n + m = length l)%nat →
  foldl (λ l i, alter f i l) l (seq n m) = take n l ++ (f <$> drop n l).
Proof.
  revert n l; induction m as [|m IH]; intros n l E; simpl.
  - by rewrite take_ge, drop_ge, app_nil_r by lia.
  - destruct (lookup_lt_is_Some_2 l n) as [x Hx]; [lia|].
    rewrite IH by (rewrite length_alter; lia).
    rewrite (drop_S l x n) by done. simpl.
    assert (alter f n l !! n = Some (f x)) as Hx' by (rewrite list_lookup_alter_eq, Hx; done).
    rewrite (take_S_r _ n (f x)) by done.
    rewrite take_alter_ge by lia. rewrite drop_alter_lt by lia. by rewrite <- app_assoc.
Qed.

Lemma alter_noop {A} (f : A → A) (l : list A) i :
  (∀ x, l !! i = Some x → f x = x) → alter f i l = l.
Proof.
  intros H. apply list_eq; intros j. destruct (decide (i = j)) as [<-|].
  - rewrite list_lookup_alter_eq. destruct (l !! i) eqn:E; simpl; [|done]. by rewrite H.
  - by rewrite list_lookup_alter_ne.
Qed.

Lemma alter_alter {A} (f g : A → A) (l : list A) i :
  alter f i (alter g i l) = alter (f ∘ g) i l.
Proof. revert i. induction l as [|x l IH]; intros [|i]; simpl; f_equal; auto. apply IH. Qed.

Lemma set_k_procs_id f s : f (k_procs s) = k_procs s → set_k_procs f s = s.
Proof. intros H. kext. done. Qed.

Lemma wakeup_pure_run c s :
  length (k_procs s) = NPROC →
  wakeup_pure c s = Done tt (set_k_procs (fmap (wake_on c)) s).
Proof.
  intros Hl. unfold wakeup_pure.
  assert (∀ l s, for_each l (λ i,
    let! p := gets (the_proc i) in
    when (bool_decide (p_state p = SLEEPING) && bool_decide (p_chan p = c))
      (modify (upd_proc i (set_p_state RUNNABLE)))) s =
    Done tt (set_k_procs (λ ps, foldl (λ ps i, alter (wake_on c) i ps) ps l) s)) as H.
  { clear. intros l. induction l as [|i l IH]; intros s; simpl.
    - unfold ret. f_equal. symmetry. by apply set_k_procs_id.
    - erewrite (bind_done _ _ s tt (upd_proc i (wake_on c) s)).
      { rewrite IH. f_equal. }
      rewrite bind_gets. unfold the_proc. destruct (k_procs s !! i) as [p|] eqn:E; simpl.
      + unfold when, modify, upd_proc, ret.
        destruct (bool_decide _ && bool_decide _) eqn:B; simpl; f_equal.
        * unfold set_k_procs. f_equal. refine (list_alter_ext _ _ _ _ _ _ eq_refl).
          intros x Hx. rewrite E in Hx. injection Hx as <-. unfold wake_on. by rewrite B.
        * symmetry. apply set_k_procs_id, alter_noop. intros x Hx.
          rewrite E in Hx. injection Hx as <-. unfold wake_on. by rewrite B.
      + unfold ret. f_equal. symmetry. apply set_k_procs_id, alter_noop. intros x Hx. congruence. }
  rewrite H. f_equal. unfold set_k_procs. f_equal. rewrite alter_seq_fmap; [|done].
  by rewrite take_0, drop_0.
Qed.

Lemma wakeup_run c s :
  settled (k_cpu s) → k_locks s !! LkPtable = None → length (k_procs s) = NPROC →
  wakeup c s = Done tt (set_k_procs (fmap (wake_proc c)) s).
Proof.
  intros Hc Hl Hn. unfold wakeup. erewrite bind_done by (apply acquire_run; [apply Hc|done]).
  erewrite bind_done by by apply wakeup_pure_run.
  rewrite (release_after_acquire LkPtable s) by done. done.
Qed.

(** ** Sleeping

    The state a process leaves behind when it sleeps on [c] having held [lk],
    and the state it finds itself in when the scheduler resumes it. *)
Definition sleeping_state (i : nat) (c : chan) (lk : lockid) (s : kstate) : kstate :=
  upd_proc i (λ p, set_p_state SLEEPING (set_p_chan (Some c) p))
    (set_k_locks (λ m, delete lk (<[LkPtable := spin_held]> m)) s).

Definition resumed (i : nat) (s : kstate) : Prop :=
  k_locks s = {[LkPtable := spin_held]} ∧ c_ncli (k_cpu s) = 1 ∧ c_if (k_cpu s) = false ∧
  c_proc (k_cpu s) = Some i.

Lemma delete_lk_singleton lk :
  lk ≠ LkPtable →
  delete lk (<[LkPtable := spin_held]> ({[lk := spin_held]} : gmap lockid spin_lock)) =
  {[LkPtable := spin_held]}.
Proof.
  intros Hne. apply map_eq; intros k. rewrite lookup_delete. repeat case_decide; subst.
  - by rewrite lookup_singleton_ne.
  - destruct (decide (k = LkPtable)) as [->|].
    + by rewrite lookup_insert_eq, lookup_singleton_eq.
    + by rewrite lookup_insert_ne, !lookup_singleton_ne by done.
Qed.

(** [sched] called with exactly [ptable.lock] held, by a process that is no
    longer running, hands the processor over and restores [int_ena]. *)
Lemma sched_irq_run (h : M kstate unit) i s :
  k_locks s = {[LkPtable := spin_held]} → c_ncli (k_cpu s) = 1 → c_if (k_cpu s) = false →
  c_proc (k_cpu s) = Some i → p_state (the_proc i s) ≠ RUNNING →
  @sched h s = Susp s (λ s', Done tt (set_k_cpu (set_c_int_ena (c_int_ena (k_cpu s))) s')).
Proof.
  intros Hl Hn Hif Hp Hst. unfold sched.
  assert (settled (k_cpu s)) as Hc by (split; [split; [lia|done]|lia]).
  erewrite bind_done by (rewrite myproc_masked by (done || lia); by apply myproc_run).
  erewrite bind_done by (rewrite holding_masked by (done || lia); by apply holding_run).
  rewrite lock_held_held by (unfold get_lock; by rewrite Hl, lookup_singleton_eq).
  cbn [negb]. rewrite bind_gets, bool_decide_false by lia. rewrite Hp. cbn [deref].
  rewrite bind_ret_l, bind_gets, bool_decide_false by done.
  unfold read_if. rewrite bind_gets, Hif, bind_gets. done.
Qed.

Lemma sched_run i s :
  k_locks s = {[LkPtable := spin_held]} → c_ncli (k_cpu s) = 1 → c_if (k_cpu s) = false →
  c_proc (k_cpu s) = Some i → p_state (the_proc i s) ≠ RUNNING →
  sched s = Susp s (λ s', Done tt (set_k_cpu (set_c_int_ena (c_int_ena (k_cpu s))) s')).
Proof. apply sched_irq_run. Qed.

(** Trading [lk] for [ptable.lock] leaves the processor as it was. *)
Lemma trade_locks (h : M kstate unit) lk s :
  lk ≠ LkPtable → k_locks s = {[lk := spin_held]} → c_ncli (k_cpu s) = 1 →
  c_if (k_cpu s) = false →
  (@acquire h LkPtable ;;; @release h lk) s =
    Done tt (set_k_locks (λ m, delete lk (<[LkPtable := spin_held]> m)) s).
Proof.
  intros Hne Hl Hn Hif.
  assert (settled (k_cpu s)) as Hc by (split; [split; [lia|done]|lia]).
  erewrite bind_done.
  2:{ rewrite acquire_masked by (done || apply Hc). apply acquire_run; [apply Hc|]. rewrite Hl. by apply lookup_singleton_ne. }
  assert (Hc1 : cpu_ok (cpu_push (k_cpu s))) by apply cpu_push_ok, Hc.
  rewrite release_masked; ksimpl; [|done|rewrite cpu_push_ncli; lia]. rewrite release_run; ksimpl; [|done|rewrite cpu_push_ncli; lia|].
  - f_equal. kext. by apply cpu_pop_push.
  - rewrite lookup_insert_ne, Hl by done. by rewrite lookup_singleton_eq.
Qed.

Lemma trade_back lk s :
  lk ≠ LkPtable → k_locks s = {[LkPtable := spin_held]} → c_ncli (k_cpu s) = 1 →
  c_if (k_cpu s) = false →
  ∃ s', (release LkPtable ;;; acquire lk) s = Done tt s' ∧
        k_locks s' = {[lk := spin_held]} ∧ k_procs s' = k_procs s.
Proof.
  intros Hne Hl Hn Hif. assert (cpu_ok (k_cpu s)) as Hc by (split; [lia|done]).
  eexists. split; [|split].
  - erewrite bind_done by (apply release_run; [done|lia|by rewrite Hl, lookup_singleton_eq]).
    apply acquire_run; ksimpl; [apply cpu_pop_ok; [done|lia]|].
    by rewrite Hl, lookup_delete_ne, lookup_singleton_ne by done.
  - ksimpl. by rewrite Hl, delete_singleton_eq.
  - by ksimpl.
Qed.

(** A handler that runs between two kernel entries and returns with the
    processor and the locks as it found them. *)
Definition handler_ok (h : M kstate unit) : Prop := ∀ s,
  calm s → length (k_procs s) = NPROC → wp (h s) (λ _ s', k_locks s' = ∅ ∧ k_cpu s' = k_cpu s ∧ length (k_procs s') = NPROC).

Lemma interrupts_ok h s : handler_ok h → calm s → length (k_procs s) = NPROC →
  wp (@interrupts h s) (λ _ s', calm s' ∧ k_cpu s' = k_cpu s ∧ length (k_procs s') = NPROC).
Proof.
  intros Hh [Hl Hc] Hn. unfold interrupts, read_if. rewrite bind_gets. destruct (c_if (k_cpu s)); [|done].
  unfold when, irq. kuse (Hh s); [done|done|]. intros _ s' (El & Ec & En). unfold calm. by rewrite El, Ec.
Qed.

(** Handlers may run between the two steps, and lk is held after them. *)
Lemma retake_ok h lk s : handler_ok h → k_locks s = {[LkPtable := spin_held]} → c_ncli (k_cpu s) = 1 →
  c_if (k_cpu s) = false → length (k_procs s) = NPROC →
  wp ((@release h LkPtable ;;; @acquire h lk) s) (λ _ s', k_locks s' = {[lk := spin_held]} ∧ c_if (k_cpu s') = false).
Proof.
  intros Hh Hl Hn Hif HN. apply wp_bind. apply wp_release_last; [done|done|by rewrite Hl, lookup_singleton_eq|].
  set (s1 := set_k_cpu cpu_pop _). assert (Hc1 : calm s1).
  { split; [unfold s1; ksimpl; by rewrite Hl, delete_singleton_eq|].
    split; [change (cpu_ok (cpu_pop (k_cpu s))); apply cpu_pop_ok; [split; [lia|done]|lia]|]. intros _. unfold s1, cpu_pop. ksimpl. by rewrite decide_True. }
  kuse (interrupts_ok h s1 Hh Hc1 HN). intros _ s2 (Hc2 & _ & HN2).
  apply wp_acquire_irq. kuse (interrupts_ok h s2 Hh Hc2 HN2). intros _ s3 ([Hl3 Hc3] & _). split; [apply Hc3|].
  rewrite acquire_run; [|apply Hc3|by rewrite Hl3]. apply (wp_ret tt). split; [|done]. ksimpl. by rewrite Hl3.
Qed.

Section Sleep.
Variables (h : M kstate unit) (i : nat) (c : chan) (lk : lockid) (s : kstate).
Hypothesis Hne : lk ≠ LkPtable.
Hypothesis Hl : k_locks s = {[lk := spin_held]}.
Hypothesis Hn : c_ncli (k_cpu s) = 1.
Hypothesis Hif : c_if (k_cpu s) = false.
Hypothesis Hp : c_proc (k_cpu s) = Some i.
Hypothesis Hi : (i < length (k_procs s))%nat.

(** What is left of [sleep] after the switch: first the channel is cleared
    under [ptable.lock], then the locks are traded back, and between these two
    steps interrupts may come. *)
Definition waking_state (s' : kstate) : kstate :=
  upd_proc i (set_p_chan None) (set_k_cpu (set_c_int_ena (c_int_ena (k_cpu s))) s').
Definition sleep_rest (s' : kstate) : res kstate unit :=
  (@release h LkPtable ;;; @acquire h lk) (waking_state s').

Lemma sleep_irq_susp : ∃ k, @sleep h c lk s = Susp (sleeping_state i c lk s) k ∧ ∀ s', k s' = sleep_rest s'.
Proof.
  assert (settled (k_cpu s)) as Hc by (split; [split; [lia|done]|lia]).
  unfold sleep. erewrite bind_done by (rewrite myproc_masked by (done || lia); by apply myproc_run). rewrite Hp.
  rewrite (bool_decide_true (lk ≠ LkPtable)) by done. unfold when.
  erewrite bind_done by by apply trade_locks. rewrite !bind_modify.
  eexists. split.
  - erewrite bind_susp.
    2:{ apply (sched_irq_run h i); ksimpl; try done.
        - by rewrite Hl, delete_lk_singleton.
        - rewrite !the_proc_upd_eq; [done|..]; unfold upd_proc; ksimpl; rewrite ?length_alter; done. }
    unfold sleeping_state, upd_proc. f_equal. kext. apply alter_alter.
  - done.
Qed.

(** C6. No wakeup comes between the test of a condition and the sleep.  A
    process that calls [sleep(c, lk)] with only [lk] held gives up the processor
    without an interrupt handler having run, whatever handler is pending: in
    the state the scheduler sees, the process is recorded as SLEEPING on [c],
    [lk] is free, [ptable.lock] - which every [wakeup] takes - is held, and
    nothing else has changed.  A [wakeup(c)] that runs from there finds the
    process and makes it RUNNABLE.  When the process is resumed it clears its
    channel while [ptable.lock] is held, trades the locks back, and ends with
    [lk] held and interrupts off, whatever well-behaved handlers run meanwhile. *)
Theorem sleep_no_lost_wakeup (HN : length (k_procs s) = NPROC) :
  ∃ k, @sleep h c lk s = Susp (sleeping_state i c lk s) k ∧
  wp (wakeup_pure (Some c) (sleeping_state i c lk s)) (λ _ s1, p_state (the_proc i s1) = RUNNABLE) ∧
  ∀ s', resumed i s' →
    k s' = (@release h LkPtable ;;; @acquire h lk) (waking_state s') ∧
    (handler_ok h → length (k_procs s') = NPROC →
     wp (k s') (λ _ s'', k_locks s'' = {[lk := spin_held]} ∧ c_if (k_cpu s'') = false)).
Proof.
  destruct sleep_irq_susp as (k & Hk & Hr). exists k. split; [done|]. split.
  - rewrite wakeup_pure_run by (unfold sleeping_state, upd_proc; ksimpl; by rewrite length_alter). apply (wp_ret tt).
    unfold the_proc. ksimpl. unfold sleeping_state, upd_proc. ksimpl. rewrite list_lookup_fmap, list_lookup_alter_eq.
    destruct (lookup_lt_is_Some_2 _ _ Hi) as [p ->]. cbn. unfold wake_on. by rewrite !bool_decide_true.
  - intros s' (Hl' & Hn' & Hif' & Hp'). rewrite Hr. split; [done|]. intros Hh HN'.
    apply retake_ok; try done. unfold waking_state, upd_proc. ksimpl. by rewrite length_alter.
Qed.
End Sleep.

(** The same without a handler. *)
Lemma sleep_susp i c lk s :
  lk ≠ LkPtable → k_locks s = {[lk := spin_held]} → c_ncli (k_cpu s) = 1 → c_if (k_cpu s) = false →
  c_proc (k_cpu s) = Some i → (i < length (k_procs s))%nat →
  ∃ k, sleep c lk s = Susp (sleeping_state i c lk s) k ∧ ∀ s', k s' = sleep_rest no_irq i lk s s'.
Proof. apply sleep_irq_susp. Qed.

(** ** Killing *)

Definition kill_proc (p : proc) : proc :=
  let p := set_p_killed 1 p in
  if bool_decide (p_state p = SLEEPING) then set_p_state RUNNABLE p else p.

Lemma the_proc_lookup i p s : k_procs s !! i = Some p → the_proc i s = p.
Proof. unfold the_proc. by intros ->. Qed.

Lemma kill_scan_hit pid i p s :
  length (k_procs s) = NPROC → settled (k_cpu s) → k_locks s !! LkPtable = None →
  k_procs s !! i = Some p → p_pid p = pid →
  (∀ j q, (j < i)%nat → k_procs s !! j = Some q → p_pid q ≠ pid) →
  kill pid s = Done 0 (upd_proc i kill_proc s).
Proof.
  intros Hlen Hc Hl Hi Hpid Hfirst. pose proof (lookup_lt_Some _ _ _ Hi) as Hlt. unfold kill.
  erewrite bind_done by (apply acquire_run; [apply Hc|done]).
  set (s1 := set_k_locks _ _).
  assert (∀ j q, k_procs s !! j = Some q → the_proc j s1 = q) as Hs1.
  { intros j q Hq. unfold s1. ksimpl. by apply the_proc_lookup. }
  rewrite (bind_done _ _ _ (Some 0) (upd_proc i kill_proc s)); [done|]. eapply (for_return_first _ _ i); [lia|..].
  - intros j Hj. destruct (lookup_lt_is_Some_2 (k_procs s) j) as [q Hq]; [lia|].
    rewrite bind_gets, (Hs1 j q Hq), bool_decide_false; [done|]. by eapply Hfirst; [|done]; lia.
  - rewrite bind_gets, (Hs1 i p Hi), bool_decide_true, bind_modify, bind_gets by done.
    rewrite the_proc_upd_eq, (Hs1 i p Hi) by done.
    set (s2 := upd_proc _ _ _).
    assert (when (bool_decide (p_state (set_p_killed 1 p) = SLEEPING))
             (modify (upd_proc i (set_p_state RUNNABLE))) s2 = Done tt (upd_proc i kill_proc s1)) as Hw.
    { unfold when, kill_proc, s2, modify, ret. case_bool_decide as B; f_equal; kext.
      - rewrite alter_alter. apply (list_alter_ext _ _ _ _ _); [|done].
        intros x Hx. assert (x = p) as -> by (unfold s1 in Hx; ksimpl_in Hx; congruence).
        unfold compose.         by rewrite bool_decide_true.
      - apply (list_alter_ext _ _ _ _ _); [|done]. intros x Hx.
        assert (x = p) as -> by (unfold s1 in Hx; ksimpl_in Hx; congruence).
        by rewrite bool_decide_false. }
    erewrite bind_done by exact Hw.
    erewrite bind_done by by apply (release_after_acquire LkPtable s).
    unfold ret. by f_equal; kext.
Qed.

(** [kill(pid)] returns 0 and affects one process only, the first in the
    table with that pid: it is marked killed and, if it sleeps, made runnable;
    when no process has the pid it returns -1 and changes nothing. *)
Theorem kill_spec pid s :
  calm s → length (k_procs s) = NPROC →
  kill pid s = match list_find (λ p, p_pid p = pid) (k_procs s) with
               | Some (i, _) => Done 0 (upd_proc i kill_proc s)
               | None => Done (-1) s
               end.
Proof.
  intros [Hl Hc] Hlen. assert (k_locks s !! LkPtable = None) as Hlk by by rewrite Hl.
  destruct (list_find _ _) as [[i p]|] eqn:E.
  - apply list_find_Some in E as (Hi & Hpid & Hf). eapply kill_scan_hit; eauto.
  - unfold kill. erewrite bind_done by (apply acquire_run; [apply Hc|done]).
    erewrite bind_done.
    2:{ apply for_return_none. intros i [_ Hi]%elem_of_seq. rewrite bind_gets.
        destruct (lookup_lt_is_Some_2 (k_procs s) i) as [q Hq]; [lia|].
        rewrite bool_decide_false; [done|]. unfold the_proc; ksimpl. rewrite Hq.
        apply list_find_None in E. rewrite Forall_lookup in E. by eapply E. }
    cbv beta iota.
    erewrite bind_done by by apply (release_after_acquire LkPtable s).
    unfold ret. by f_equal; kext.
Qed.

(** ** Witnesses *)

(** Process 1 is running, every other slot is free; process 2 sleeps on the
    console input. *)
Definition kstate_run : kstate :=
  upd_proc 2 (λ p, set_p_chan (Some ChInput) (set_p_state SLEEPING (set_p_pid 2 p)))
    (upd_proc 1 (λ p, set_p_state RUNNING (set_p_pid 1 p))
      (set_k_cpu (set_c_proc (Some 1%nat)) kstate0)).

(** Process 1 inside a critical section of the console lock, which it entered
    with interrupts on. *)
Definition kstate_cons : kstate :=
  set_k_locks (λ _, {[LkCons := spin_held]}) (set_k_cpu (λ c, cpu_push (set_c_if true c)) kstate_run).

(** The pending interrupt is one that wakes the sleepers on the console input. *)
Lemma wakeup_handler : handler_ok (wakeup ChInput).
Proof.
  intros s [Hl Hc] Hn. rewrite wakeup_run; [|done|by rewrite Hl|done]. apply (wp_ret tt). split; [done|].
  split; [done|]. ksimpl. by rewrite length_fmap.
Qed.

Lemma sleep_no_lost_wakeup_witness :
  c_int_ena (k_cpu kstate_cons) = true ∧
  ∃ k, @sleep (wakeup ChInput) ChInput LkCons kstate_cons = Susp (sleeping_state 1 ChInput LkCons kstate_cons) k ∧
    wp (k (set_k_locks (λ _, {[LkPtable := spin_held]}) kstate_cons)) (λ _ s'', k_locks s'' = {[LkCons := spin_held]}).
Proof.
  split; [reflexivity|].
  destruct (sleep_no_lost_wakeup (wakeup ChInput) 1 ChInput LkCons kstate_cons) as (k & H & _ & Hk);
    [done|reflexivity|reflexivity|reflexivity|reflexivity|vm_compute; lia|reflexivity|].
  exists k. split; [exact H|]. destruct (Hk (set_k_locks (λ _, {[LkPtable := spin_held]}) kstate_cons)) as [_ W]; [by split_and!|].
  eapply wp_mono; [exact (W wakeup_handler eq_refl)|]. intros _ s'' [E _]. exact E.
Defined.

Lemma kill_spec_witness :
  kill 2 kstate_run = Done 0 (upd_proc 2 kill_proc kstate_run) ∧
  p_state (kill_proc (the_proc 2 kstate_run)) = RUNNABLE.
Proof. split; [apply (kill_spec 2 kstate_run); done|reflexivity]. Defined.
