(* ===== verification/Sleeplock.v ===== *)
(** * Sleep locks (kernel/sleeplock.c)

    A sleep lock is a flag protected by a spin lock; a process that finds it
    set sleeps on the lock's address until [release_sleep] wakes it. *)
From S2P Require Import Prelude State Spinlock Sched.

Section Sleeplock.
Context {wf : WakeFuel}.

Definition the_slk (l : slid) (s : kstate) : sleep_lock :=
  match l with
  | SlBuf i => b_lk (the_buf i s)
  | SlInode i => i_lock (the_inode i s)
  end.
Definition upd_slk (l : slid) (f : sleep_lock → sleep_lock) : kstate → kstate :=
  match l with
  | SlBuf i => upd_buf i (λ b, set_b_lk (f (b_lk b)) b)
  | SlInode i => upd_inode i (λ p, set_i_lock (f (i_lock p)) p)
  end.

Definition init_sleep_lock (l : slid) : M kstate unit :=
  init_lock (LkSleep l) ;;;
  modify (upd_slk l (set_sl_locked 0)) ;;;
  modify (upd_slk l (set_sl_pid 0)).

(** [while(lk->locked) sleep(lk, &lk->lk);] *)
Fixpoint sleep_while_locked (fuel : nat) (l : slid) : M kstate unit :=
  let! k := gets (the_slk l) in
  if bool_decide (sl_locked k ≠ 0) then
    match fuel with
    | O => no_fuel
    | S fuel' => sleep (ChSleep l) (LkSleep l) ;;; sleep_while_locked fuel' l
    end
  else ret tt.

Definition acquire_sleep (l : slid) : M kstate unit :=
  acquire (LkSleep l) ;;;
  sleep_while_locked wake_fuel l ;;;
  modify (upd_slk l (set_sl_locked 1)) ;;;
  release (LkSleep l).

Definition release_sleep (l : slid) : M kstate unit :=
  acquire (LkSleep l) ;;;
  modify (upd_slk l (set_sl_locked 0)) ;;;
  modify (upd_slk l (set_sl_pid 0)) ;;;
  wakeup (ChSleep l) ;;;
  release (LkSleep l).

Definition holding_sleep (l : slid) : M kstate bool :=
  acquire (LkSleep l) ;;;
  let! k := gets (the_slk l) in
  let r := bool_decide (sl_locked k ≠ 0) in
  release (LkSleep l) ;;;
  ret r.

(** ** Functional behaviour *)

(** The frame of every operation on a sleep lock: only the lock changes. *)
Lemma upd_slk_cpu l f s : k_cpu (upd_slk l f s) = k_cpu s.
Proof. by destruct l. Qed.
Lemma upd_slk_locks l f s : k_locks (upd_slk l f s) = k_locks s.
Proof. by destruct l. Qed.
Lemma upd_slk_procs l f s : k_procs (upd_slk l f s) = k_procs s.
Proof. by destruct l. Qed.
Lemma the_slk_other l g h s : the_slk l (set_k_locks g (set_k_cpu h s)) = the_slk l s.
Proof. by destruct l. Qed.

Lemma acquire_sleep_run l s :
  settled (k_cpu s) → k_locks s !! LkSleep l = None → sl_locked (the_slk l s) = 0 →
  acquire_sleep l s = Done tt (upd_slk l (set_sl_locked 1) s).
Proof.
  intros Hc Hl Hfree. unfold acquire_sleep.
  erewrite bind_done by (apply acquire_run; [apply Hc|done]).
  set (s1 := set_k_locks _ _).
  assert (sleep_while_locked wake_fuel l s1 = Done tt s1) as Hw.
  { destruct wake_fuel; simpl; rewrite bind_gets; unfold s1;
      rewrite the_slk_other, Hfree, bool_decide_false; auto. }
  erewrite bind_done by exact Hw. rewrite bind_modify.
  rewrite (release_after_acquire (LkSleep l) s); [|done|done|..].
  - f_equal. destruct l; kext.
  - by rewrite upd_slk_cpu.
  - by rewrite upd_slk_locks.
Qed.

Lemma holding_sleep_run l s :
  settled (k_cpu s) → k_locks s !! LkSleep l = None →
  holding_sleep l s = Done (bool_decide (sl_locked (the_slk l s) ≠ 0)) s.
Proof.
  intros Hc Hl. unfold holding_sleep.
  erewrite bind_done by (apply acquire_run; [apply Hc|done]). rewrite bind_gets.
  erewrite bind_done by by apply (release_after_acquire (LkSleep l) s).
  rewrite the_slk_other. unfold ret. f_equal. kext.
Qed.

Lemma release_sleep_run l s :
  settled (k_cpu s) → k_locks s !! LkSleep l = None → k_locks s !! LkPtable = None →
  length (k_procs s) = NPROC →
  release_sleep l s =
    Done tt (set_k_procs (fmap (wake_proc (ChSleep l)))
              (upd_slk l (λ _, mk_sleep 0 0) s)).
Proof.
  intros Hc Hl Hpt Hn. unfold release_sleep.
  erewrite bind_done by (apply acquire_run; [apply Hc|done]).
  rewrite !bind_modify.
  erewrite bind_done.
  2:{ apply wakeup_run; rewrite ?upd_slk_cpu, ?upd_slk_locks, ?upd_slk_procs; ksimpl.
      - by apply cpu_push_settled, Hc.
      - by rewrite lookup_insert_ne.
      - done. }
  rewrite (release_after_acquire (LkSleep l) s); [|done|done|..].
  - f_equal. destruct l; simpl; kext; rewrite alter_alter; by apply list_alter_ext.
  - ksimpl. by rewrite !upd_slk_cpu.
  - ksimpl. by rewrite !upd_slk_locks.
Qed.

(** A process that asks for a sleep lock another process holds does not
    take it: it releases the inner spin lock and is recorded as sleeping on
    the lock in one step, so that the [wakeup] of [release_sleep] finds it. *)
Theorem acquire_sleep_contended l i s fuel :
  wake_fuel = S fuel → k_locks s = ∅ → c_ncli (k_cpu s) = 0 →
  c_if (k_cpu s) = false → c_proc (k_cpu s) = Some i → (i < length (k_procs s))%nat →
  sl_locked (the_slk l s) ≠ 0 →
  ∃ s1 k, acquire_sleep l s = Susp s1 k ∧
    the_slk l s1 = the_slk l s ∧ k_locks s1 = {[LkPtable := spin_held]} ∧
    k_procs s1 = alter (λ p, set_p_state SLEEPING (set_p_chan (Some (ChSleep l)) p)) i (k_procs s) ∧
    p_state (wake_proc (ChSleep l) (the_proc i s1)) = RUNNABLE.
Proof.
  intros Hwf Hl Hn Hif Hp Hi Hlk. unfold acquire_sleep.
  assert (cpu_ok (k_cpu s)) as Hc by (split; [lia|done]).
  erewrite bind_done by (apply acquire_run; [done|by rewrite Hl]).
  set (s1 := set_k_locks _ _).
  destruct (sleep_susp i (ChSleep l) (LkSleep l) s1) as (k & Hk & _); try done.
  { unfold s1; ksimpl. by rewrite Hl. }
  { unfold s1; ksimpl. rewrite cpu_push_ncli. lia. }
  { unfold s1; ksimpl. unfold cpu_push; simpl. by case_decide. }
  eexists _, _. split.
  - eapply bind_susp. rewrite Hwf. simpl. rewrite bind_gets.
    rewrite bool_decide_true by (unfold s1; by rewrite the_slk_other).
    apply bind_susp, Hk.
  - unfold sleeping_state. split_and!.
    + by destruct l.
    + unfold upd_proc; ksimpl. unfold s1; ksimpl. rewrite Hl. by apply delete_lk_singleton.
    + done.
    + rewrite the_proc_upd_eq by done. unfold wake_proc, wake_on. simpl. by rewrite bool_decide_true.
Qed.
End Sleeplock.

(** ** Witnesses *)

(** Process 1 runs, and another process holds buffer 0. *)
Definition kstate_buf0_held : kstate := upd_slk (SlBuf 0) (set_sl_locked 1) kstate_run.

Lemma acquire_sleep_contended_witness :
  ∃ s1 k, @acquire_sleep 3%nat (SlBuf 0) kstate_buf0_held = Susp s1 k ∧
          p_state (the_proc 1 s1) = SLEEPING.
Proof.
  destruct (@acquire_sleep_contended 3%nat (SlBuf 0) 1 kstate_buf0_held 2)
    as (s1 & k & H & _ & _ & Hp & _); try reflexivity; [vm_compute; lia|done|].
  exists s1, k. split; [exact H|]. unfold the_proc. rewrite Hp. reflexivity.
Defined.
