(* ===== verification/Ring.v ===== *)
(** * Circular doubly linked lists

    [seg nx pv x l y]: following [nx] from [x] visits the nodes [l] and ends in
    [y], and [pv] leads back.  A ring with sentinel [h] is [seg nx pv h l h].
    The links are functions of the node, so that a pointer assignment is a
    function update; the buffer cache instantiates them with its arrays. *)
From S2P Require Import Prelude.

Section Ring.
Implicit Types (nx pv : nat → nat) (l : list nat).

Fixpoint seg nx pv (x : nat) l (y : nat) : Prop :=
  match l with
  | [] => nx x = y ∧ pv y = x
  | z :: l' => nx x = z ∧ pv z = x ∧ seg nx pv z l' y
  end.

Definition ring nx pv (h : nat) l : Prop := NoDup (h :: l) ∧ seg nx pv h l h.

Lemma seg_app nx pv x l1 z l2 y :
  seg nx pv x (l1 ++ z :: l2) y ↔ seg nx pv x l1 z ∧ seg nx pv z l2 y.
Proof.
  revert x; induction l1 as [|w l1 IH]; intros x; simpl; [tauto|]. rewrite IH. tauto.
Qed.

Lemma seg_frame nx pv nx' pv' x l y :
  (∀ i, i ∈ x :: l → nx' i = nx i) → (∀ i, i ∈ y :: l → pv' i = pv i) →
  seg nx pv x l y → seg nx' pv' x l y.
Proof.
  revert x; induction l as [|z l IH]; intros x Hn Hp; simpl.
  - rewrite Hn, Hp by set_solver. done.
  - rewrite Hn, (Hp z) by set_solver. intros (? & ? & ?). split_and!; [done..|].
    apply IH; [intros; apply Hn; set_solver|intros; apply Hp; set_solver|done].
Qed.

Lemma seg_first nx pv x l y : seg nx pv x l y → nx x = hd y l.
Proof. destruct l; simpl; tauto. Qed.

Ltac ring_disj_with Hnd Hi :=
  intros ->; simpl in *;
  repeat match goal with
  | H : NoDup (_ :: _) |- _ => apply NoDup_cons in H as [? ?]
  | H : NoDup (_ ++ _) |- _ => apply NoDup_app in H as (? & ? & ?)
  end; set_solver.

(** [b->next->prev = b->prev; b->prev->next = b->next]. *)
Lemma seg_unlink nx pv h l1 b l2 :
  NoDup (h :: l1 ++ b :: l2) → seg nx pv h (l1 ++ b :: l2) h →
  seg (<[pv b := nx b]> nx) (<[nx b := pv b]> pv) h (l1 ++ l2) h.
Proof.
  intros Hnd [H1 H2]%seg_app.
  assert (∃ p m1, pv b = p ∧ ((l1 = [] ∧ p = h ∧ m1 = []) ∨ (l1 = m1 ++ [p] ∧ seg nx pv h m1 p)))
    as (p & m1 & Hp & Hl1).
  { destruct l1 as [|w l1' _] using rev_ind.
    - exists h, []. split; [apply H1|by left].
    - apply seg_app in H1 as [H1 Hw]. exists w, l1'. split; [apply Hw|by right]. }
  assert (∃ n m2, nx b = n ∧ ((l2 = [] ∧ n = h ∧ m2 = []) ∨ (l2 = n :: m2 ∧ seg nx pv n m2 h)))
    as (n & m2 & Hn & Hl2).
  { destruct l2 as [|w l2'].
    - exists h, []. split; [apply H2|by left].
    - exists w, l2'. destruct H2 as (? & ? & ?). split; [done|by right]. }
  rewrite Hp, Hn.
  destruct Hl1 as [(-> & -> & ->)|[-> S1]], Hl2 as [(-> & -> & ->)|[-> S2]]; simpl.
  - by rewrite !fn_lookup_insert.
  - rewrite !fn_lookup_insert. split_and!; [done..|].
    eapply seg_frame; [..|exact S2]; intros i Hi; apply fn_lookup_insert_ne; ring_disj_with Hnd Hi.
  - rewrite app_nil_r. apply seg_app. split; [|by simpl; rewrite !fn_lookup_insert].
    eapply seg_frame; [..|exact S1]; intros i Hi; apply fn_lookup_insert_ne; ring_disj_with Hnd Hi.
  - rewrite <- app_assoc. simpl. apply seg_app. split; [|apply (seg_app _ _ p [])].
    + eapply seg_frame; [..|exact S1]; intros i Hi; apply fn_lookup_insert_ne; ring_disj_with Hnd Hi.
    + split; [by simpl; rewrite !fn_lookup_insert|].
      eapply seg_frame; [..|exact S2]; intros i Hi; apply fn_lookup_insert_ne; ring_disj_with Hnd Hi.
Qed.

(** [b->next = h->next; b->prev = h; h->next->prev = b; h->next = b]. *)
Lemma seg_push nx pv h b l :
  NoDup (h :: b :: l) → seg nx pv h l h →
  seg (<[h := b]> (<[b := nx h]> nx)) (<[nx h := b]> (<[b := h]> pv)) h (b :: l) h.
Proof.
  intros Hnd Hs. simpl. rewrite fn_lookup_insert.
  assert (h ≠ b ∧ b ∉ l ∧ h ∉ l) as (Hhb & Hbl & Hhl).
  { revert Hnd. rewrite !NoDup_cons. set_solver. }
  pose proof (seg_first _ _ _ _ _ Hs) as Hf.
  split_and!; [done|..].
  - rewrite fn_lookup_insert_ne, fn_lookup_insert; [done|]. rewrite Hf.
    destruct l; simpl; set_solver.
  - destruct l as [|z l]; simpl in *.
    + rewrite fn_lookup_insert_ne, fn_lookup_insert by done. rewrite Hf, fn_lookup_insert. done.
    + destruct Hs as (_ & _ & Hs). rewrite fn_lookup_insert_ne, fn_lookup_insert by done.
      rewrite Hf, fn_lookup_insert. split_and!; [done..|].
      eapply seg_frame; [..|exact Hs]; intros i Hi.
      * rewrite !fn_lookup_insert_ne; [done|ring_disj_with Hnd Hi..].
      * rewrite !fn_lookup_insert_ne; [done|ring_disj_with Hnd Hi..].
Qed.

(** Read backwards, a segment is a segment of the other links. *)
Lemma seg_reverse nx pv x l y : seg nx pv x l y → seg pv nx y (reverse l) x.
Proof.
  revert x; induction l as [|z l IH]; intros x; simpl; [tauto|].
  intros (? & ? & H). rewrite reverse_cons. apply seg_app. split; [by apply IH|done].
Qed.

(** Walking [nx] from the node after [x] meets the nodes in order. *)
Lemma seg_next nx pv x l y i a :
  seg nx pv x l y → l !! i = Some a → nx a = default y (l !! S i).
Proof.
  revert x i; induction l as [|z l IH]; intros x [|i]; simpl; [done..| |].
  - intros (_ & _ & H) [= ->]. apply seg_first in H. by destruct l.
  - intros (_ & _ & H). by eapply IH.
Qed.
End Ring.
