(* ===== verification/Bio.v ===== *)
(** * Ram disk and buffer cache (kernel/driver/ramdisk.c, kernel/bio.c)

    The cache is a circular doubly linked list threaded through [bcache.bufs]
    with [bcache.head] (index [NBUF]) as its sentinel, most recently released
    buffer first. *)
From S2P Require Import Prelude State Spinlock Sched Sleeplock Ring.

(** ** The driver *)

Definition rd_init (image : gmap Z (list byte)) (size : Z) : M kstate unit :=
  modify (set_k_disk (λ _, mk_disk image size)).

Definition rd_rw (i : nat) : M kstate unit :=
  let! b := gets (the_buf i) in
  if bool_decide (Z.land (b_flags b) (Z.lor B_VALID B_DIRTY) = B_VALID)
  then panic "rd_rw: nothing to do" else
  if bool_decide (b_dev b ≠ DEV_RAMDISK) then panic "rd_rw: request not for rd" else
  let! size := gets (λ s, d_size (k_disk s)) in
  if bool_decide (size / BSIZE ≤ b_blockno b) then panic "rd_rw: block out of range" else
  (if bool_decide (Z.land (b_flags b) B_DIRTY ≠ 0) then
     modify (upd_buf i (λ b, set_b_flags (Z.ldiff (b_flags b) B_DIRTY) b)) ;;;
     modify (set_k_disk (λ d, mk_disk (<[b_blockno b := b_data b]> (d_blocks d)) (d_size d)))
   else
     let! d := gets k_disk in
     modify (upd_buf i (set_b_data (disk_block d (b_blockno b))))) ;;;
  modify (upd_buf i (λ b, set_b_flags (Z.lor (b_flags b) B_VALID) b)).

(** ** The cache *)
Section Bio.
Context {wf : WakeFuel}.

Definition bcache_init : M kstate unit :=
  init_lock LkBcache ;;;
  modify (upd_buf NBUF (set_b_prev NBUF)) ;;;
  modify (upd_buf NBUF (set_b_next NBUF)) ;;;
  for_each (seq 0 NBUF) (λ i,
    let! h := gets (the_buf NBUF) in
    modify (upd_buf i (set_b_next (b_next h))) ;;;
    modify (upd_buf i (set_b_prev NBUF)) ;;;
    init_sleep_lock (SlBuf i) ;;;
    let! h := gets (the_buf NBUF) in
    modify (upd_buf (b_next h) (set_b_prev i)) ;;;
    modify (upd_buf NBUF (set_b_next i))).

(** [for(b = start; b != &bcache.head; b = b->link) if(P b) return act(b);] *)
Fixpoint walk (link : buf → nat) (P : buf → bool) (act : nat → M kstate nat)
    (fuel : nat) (b : nat) : M kstate (option nat) :=
  if decide (b = NBUF) then ret None else
  match fuel with
  | O => no_fuel
  | S fuel' =>
    let! x := gets (the_buf b) in
    if P x then let! r := act b in ret (Some r) else walk link P act fuel' (link x)
  end.

Definition bget_hit (b : nat) : M kstate nat :=
  modify (upd_buf b (λ x, set_b_refcnt (u32 (b_refcnt x + 1)) x)) ;;;
  release LkBcache ;;;
  acquire_sleep (SlBuf b) ;;;
  ret b.

Definition bget_evict (dev block_no : Z) (b : nat) : M kstate nat :=
  modify (upd_buf b (set_b_refcnt 1)) ;;;
  release LkBcache ;;;
  acquire_sleep (SlBuf b) ;;;
  let! x := gets (the_buf b) in
  when (bool_decide (Z.land (b_flags x) B_DIRTY ≠ 0)) (rd_rw b) ;;;
  modify (upd_buf b (set_b_dev dev)) ;;;
  modify (upd_buf b (set_b_blockno block_no)) ;;;
  modify (upd_buf b (set_b_flags 0)) ;;;
  ret b.

Definition bget (dev block_no : Z) : M kstate nat :=
  acquire LkBcache ;;;
  let! h := gets (the_buf NBUF) in
  let! r := walk b_next
    (λ x, bool_decide (b_dev x = dev) && bool_decide (b_blockno x = block_no))
    bget_hit NBUF (b_next h) in
  match r with
  | Some b => ret b
  | None =>
    let! h := gets (the_buf NBUF) in
    let! r := walk b_prev (λ x, bool_decide (b_refcnt x = 0))
      (bget_evict dev block_no) NBUF (b_prev h) in
    match r with
    | Some b => ret b
    | None => panic "bget: no buffers available"
    end
  end.

Definition bread (dev blk_no : Z) : M kstate nat :=
  let! b := bget dev blk_no in
  let! x := gets (the_buf b) in
  when (bool_decide (Z.land (b_flags x) B_VALID = 0)) (rd_rw b) ;;;
  ret b.

Definition bwrite (b : nat) : M kstate unit :=
  let! h := holding_sleep (SlBuf b) in
  if negb h then panic "bwrite : no sleeplk holded" else
  modify (upd_buf b (λ x, set_b_flags (Z.lor (b_flags x) B_DIRTY) x)).

(** [brelse] unlinks an unreferenced buffer and links it in after the sentinel. *)
Definition move_to_front (b : nat) : M kstate unit :=
  let! x := gets (the_buf b) in
  modify (upd_buf (b_next x) (set_b_prev (b_prev x))) ;;;
  let! x := gets (the_buf b) in
  modify (upd_buf (b_prev x) (set_b_next (b_next x))) ;;;
  let! h := gets (the_buf NBUF) in
  modify (upd_buf b (set_b_next (b_next h))) ;;;
  modify (upd_buf b (set_b_prev NBUF)) ;;;
  let! h := gets (the_buf NBUF) in
  modify (upd_buf (b_next h) (set_b_prev b)) ;;;
  modify (upd_buf NBUF (set_b_next b)).

Definition brelse (b : nat) : M kstate unit :=
  let! h := holding_sleep (SlBuf b) in
  if negb h then panic "brelease: wtf" else
  release_sleep (SlBuf b) ;;;
  acquire LkBcache ;;;
  modify (upd_buf b (λ x, set_b_refcnt (u32 (b_refcnt x - 1)) x)) ;;;
  let! x := gets (the_buf b) in
  when (bool_decide (b_refcnt x = 0)) (move_to_front b) ;;;
  release LkBcache.

(** The client's store [b->data[off..] = bytes] into a buffer it holds. *)
Definition bstore (b : nat) (off : nat) (bytes : list byte) : M kstate unit :=
  modify (upd_buf b (λ x, set_b_data (splice off bytes (b_data x)) x)).
End Bio.

(** ** What the operations do, run by run *)

Lemma rd_rw_read b s :
  b_flags (the_buf b s) = 0 → b_dev (the_buf b s) = 0 →
  b_blockno (the_buf b s) < d_size (k_disk s) / BSIZE →
  rd_rw b s = Done tt (upd_buf b (λ x, set_b_flags B_VALID
                 (set_b_data (disk_block (k_disk s) (b_blockno (the_buf b s))) x)) s).
Proof.
  intros Hf Hd Hn. unfold rd_rw. rewrite bind_gets, Hf, Hd.
  rewrite bool_decide_false by done. rewrite bool_decide_false by (by intros []).
  rewrite bind_gets. rewrite bool_decide_false by lia.
  rewrite bool_decide_false by (by intros []). erewrite bind_done by reflexivity.
  unfold modify. f_equal. kext. unfold upd_buf. ksimpl.
  rewrite alter_alter. apply list_alter_ext; [|done].
  intros x Hx. unfold the_buf in Hf. rewrite Hx in Hf. simpl in Hf. unfold compose, set_b_flags, set_b_data; simpl. by rewrite Hf.
Qed.

Lemma rd_rw_write b s :
  b_flags (the_buf b s) = 6 → b_dev (the_buf b s) = 0 →
  b_blockno (the_buf b s) < d_size (k_disk s) / BSIZE →
  rd_rw b s = Done tt (set_k_disk (λ d, mk_disk (<[b_blockno (the_buf b s) := b_data (the_buf b s)]>
                                            (d_blocks d)) (d_size d))
                         (upd_buf b (set_b_flags B_VALID) s)).
Proof.
  intros Hf Hd Hn. unfold rd_rw. rewrite bind_gets, Hf, Hd.
  rewrite bool_decide_false by done. rewrite bool_decide_false by (by intros []).
  rewrite bind_gets. rewrite bool_decide_false by lia.
  rewrite bool_decide_true by done. erewrite bind_done by reflexivity.
  unfold modify. f_equal. kext. unfold upd_buf. ksimpl.
  rewrite alter_alter. apply list_alter_ext; [|done].
  intros x Hx. unfold the_buf in Hf. rewrite Hx in Hf. simpl in Hf. unfold compose, set_b_flags; simpl. by rewrite Hf.
Qed.

(** [chain f l]: following [f] from the head of [l] visits [l] and ends at the
    sentinel. *)
Definition chain (f : nat → nat) (l : list nat) : Prop :=
  ∀ i a, l !! i = Some a → a ≠ NBUF ∧ f a = default NBUF (l !! S i).

Lemma chain_cons f a l : chain f (a :: l) → a ≠ NBUF ∧ f a = hd NBUF l ∧ chain f l.
Proof.
  intros H. destruct (H 0%nat a eq_refl) as [Ha Hf]. split_and!; [done| |].
  - rewrite Hf. by destruct l.
  - intros i x Hx. apply (H (S i) x Hx).
Qed.

Section Walk.
Context (link : buf → nat) (P : buf → bool) (act : nat → M kstate nat) (s : kstate).

Lemma walk_none l fuel :
  chain (λ a, link (the_buf a s)) l → (length l ≤ fuel)%nat →
  (∀ a, a ∈ l → P (the_buf a s) = false) →
  walk link P act fuel (hd NBUF l) s = Done None s.
Proof.
  revert fuel; induction l as [|a l IH]; intros fuel Hc Hn HP; destruct fuel as [|fuel];
    simpl in *; try lia; try done.
  apply chain_cons in Hc as (Ha & Hf & Hc).
  rewrite decide_False by done. rewrite bind_gets, (HP a) by left. rewrite Hf.
  apply IH; [done|lia|]. intros; apply HP; by right.
Qed.

Lemma walk_first l1 a l2 fuel :
  chain (λ a, link (the_buf a s)) (l1 ++ a :: l2) → (length l1 < fuel)%nat →
  (∀ a, a ∈ l1 → P (the_buf a s) = false) → P (the_buf a s) = true →
  walk link P act fuel (hd NBUF (l1 ++ a :: l2)) s = (let! r := act a in ret (Some r)) s.
Proof.
  revert fuel; induction l1 as [|c l1 IH]; intros fuel Hc Hn HP Ha; destruct fuel as [|fuel];
    simpl in *; try lia; apply chain_cons in Hc as (Hc1 & Hf & Hc);
    rewrite decide_False by done; rewrite bind_gets.
  - by rewrite Ha.
  - rewrite (HP c) by left. rewrite Hf. apply IH; [done|lia| |done]. intros; apply HP; by right.
Qed.
End Walk.

Section BioRuns.
Context {wf : WakeFuel}.

Definition bcache_locked (s : kstate) : kstate :=
  set_k_locks (insert LkBcache spin_held) (set_k_cpu cpu_push s).

Lemma acquire_bcache_run s : calm s → acquire LkBcache s = Done tt (bcache_locked s).
Proof. intros [Hl Hc]. apply acquire_run; [apply Hc|]. by rewrite Hl. Qed.

(** Leaving the critical section of the cache lock after changing buffers. *)
Lemma release_bcache_run s s' :
  calm s → k_cpu s' = cpu_push (k_cpu s) → k_locks s' = <[LkBcache := spin_held]> (k_locks s) →
  release LkBcache s' = Done tt (set_k_cpu (λ _, k_cpu s) (set_k_locks (λ _, k_locks s) s')).
Proof. intros [Hl Hc] E1 E2. apply (release_after_acquire LkBcache s); [done|by rewrite Hl|done|done]. Qed.

(** The buffer [bget] returns: referenced once and locked. *)
Definition grab (x : buf) : buf := set_b_lk (set_sl_locked 1 (b_lk x)) (set_b_refcnt 1 x).

Lemma bget_grab_run {A} b f s (k : M kstate A) :
  calm s → (b < length (k_bufs s))%nat → sl_locked (b_lk (the_buf b s)) = 0 →
  (∀ x, b_lk (f x) = b_lk x) →
  (modify (upd_buf b f) ;;; release LkBcache ;;; acquire_sleep (SlBuf b) ;;; k) (bcache_locked s) =
  k (upd_buf b (λ x, set_b_lk (set_sl_locked 1 (b_lk x)) (f x)) s).
Proof.
  intros Hc Hb Hfree Hf. rewrite bind_modify. 
  erewrite bind_done by by apply (release_bcache_run s).
  set (s1 := set_k_cpu _ _). assert (s1 = upd_buf b f s) as -> by (subst s1; by kext).
  erewrite bind_done; [|apply acquire_sleep_run].
  - f_equal. kext. unfold upd_slk, upd_buf. ksimpl. rewrite alter_alter.
    apply list_alter_ext; [|done]. intros x _. unfold compose. by rewrite Hf.
  - apply Hc.
  - ksimpl. destruct Hc as [-> _]. done.
  - unfold the_slk. rewrite the_buf_upd_eq by done. by rewrite Hf.
Qed.
End BioRuns.

(** ** The abstract block store and the cache invariant

    Clients see a store [V] of blocks.  [H] lists the buffers that are held:
    [H !! b = Some (blk, c)] when buffer [b] holds block [blk] and is locked;
    [c] tells that its bytes are the block's current contents, which stops
    being so when the holder stores into the buffer and is so again once it
    has called [bwrite]. *)
Notation store := (Z → list byte).
Notation holders := (gmap nat (Z * bool)).

(** What the kernel keeps between system calls, whatever the file system does. *)
Definition kinv (s : kstate) : Prop := calm s ∧ length (k_procs s) = NPROC.

(** Sleepers may have been woken; nothing else happened to the process table. *)
Definition woken_proc (p p' : proc) : Prop :=
  p' = p ∨ (p_state p = SLEEPING ∧ p' = set_p_state RUNNABLE p).
Definition woken : list proc → list proc → Prop := Forall2 woken_proc.

#[export] Instance woken_proc_preorder : PreOrder woken_proc.
Proof.
  split; [by left|]. intros p q r [->|[Hs ->]]; [done|].
  intros [->|[Hs' ->]]; [by right|by right].
Qed.
#[export] Instance woken_preorder : PreOrder woken.
Proof. unfold woken. split; apply _. Qed.

Lemma woken_wake c ps : woken ps (wake_proc c <$> ps).
Proof.
  apply Forall2_fmap_r, Forall2_same_length_lookup. split; [done|].
  intros i x y Hx Hy. rewrite Hx in Hy. injection Hy as <-. unfold wake_proc, wake_on. simpl.
  case_bool_decide; simpl; [|by left].
  case_bool_decide; [by right|by left].
Qed.

(** The frame of the cache's operations: they touch buffers, the disk's blocks
    and the state of sleepers. *)
Record bio_frame (s s' : kstate) : Prop := {
  bf_cpu : k_cpu s' = k_cpu s;
  bf_locks : k_locks s' = k_locks s;
  bf_procs : woken (k_procs s) (k_procs s');
  bf_pid : k_next_pid s' = k_next_pid s;
  bf_init : k_init s' = k_init s;
  bf_size : d_size (k_disk s') = d_size (k_disk s);
  bf_sb : k_sb s' = k_sb s;
  bf_inodes : k_inodes s' = k_inodes s;
  bf_files : k_files s' = k_files s;
  bf_pipes : k_pipes s' = k_pipes s;
  bf_kmem : k_kmem s' = k_kmem s;
  bf_vm : k_vm s' = k_vm s;
  bf_dev : k_dev s' = k_dev s
}.
#[export] Instance bio_frame_preorder : PreOrder bio_frame.
Proof.
  split; [by intros s; split|].
  intros s1 s2 s3 [] []. split; try congruence. by etrans.
Qed.

Lemma kinv_frame s s' : bio_frame s s' → kinv s → kinv s'.
Proof.
  intros F [[Hl Hc] Hn]. split; [split|].
  - by rewrite (bf_locks _ _ F).
  - by rewrite (bf_cpu _ _ F).
  - rewrite <- Hn. symmetry. apply (Forall2_length _ _ _ (bf_procs _ _ F)).
Qed.

Definition nblk (s : kstate) : Z := d_size (k_disk s) / BSIZE.

Record buf_ok (V : store) (d : ramdisk) (h : option (Z * bool)) (x : buf) : Prop := {
  bo_len : length (b_data x) = BSIZE_nat;
  bo_flags : b_flags x = 0 ∨ b_flags x = 2 ∨ b_flags x = 6;
  bo_dev : b_dev x = 0;
  bo_blk : 0 ≤ b_blockno x < d_size d / BSIZE;
  bo_held : match h with
            | None => b_refcnt x = 0 ∧ sl_locked (b_lk x) = 0
            | Some (blk, _) => b_refcnt x = 1 ∧ sl_locked (b_lk x) = 1 ∧
                               b_blockno x = blk ∧ b_flags x ≠ 0
            end;
  bo_data : b_flags x ≠ 0 → (∀ blk, h ≠ Some (blk, false)) →
            b_data x = V (b_blockno x) ∧
            (b_flags x = 2 → disk_block d (b_blockno x) = b_data x)
}.

Definition nx (s : kstate) (b : nat) : nat := b_next (the_buf b s).
Definition pv (s : kstate) (b : nat) : nat := b_prev (the_buf b s).

(** [L] is the list from most to least recently used; of two buffers that name
    the same block, the later one has never been filled. *)
Record bio_at (L : list nat) (V : store) (H : holders) (s : kstate) : Prop := {
  bi_kinv : kinv s;
  bi_len : length (k_bufs s) = S NBUF;
  bi_perm : L ≡ₚ seq 0 NBUF;
  bi_ring : seg (nx s) (pv s) NBUF L NBUF;
  bi_bufs : ∀ b, (b < NBUF)%nat → buf_ok V (k_disk s) (H !! b) (the_buf b s);
  bi_uniq : ∀ i j a c, (i < j)%nat → L !! i = Some a → L !! j = Some c →
            b_blockno (the_buf a s) = b_blockno (the_buf c s) → b_flags (the_buf c s) = 0;
  bi_disk : ∀ blk, 0 ≤ blk < nblk s →
            (∀ b, (b < NBUF)%nat → b_blockno (the_buf b s) = blk → b_flags (the_buf b s) = 0) →
            disk_block (k_disk s) blk = V blk;
  bi_V : ∀ blk, 0 ≤ blk < nblk s → length (V blk) = BSIZE_nat;
  bi_H : ∀ b x, H !! b = Some x → (b < NBUF)%nat
}.
Definition bio_inv (V : store) (H : holders) (s : kstate) : Prop := ∃ L, bio_at L V H s.

Lemma the_buf_upd i j f s :
  (i < length (k_bufs s))%nat →
  the_buf j (upd_buf i f s) = if decide (i = j) then f (the_buf j s) else the_buf j s.
Proof.
  intros. case_decide as E; [subst; by apply the_buf_upd_eq|by apply the_buf_upd_ne].
Qed.

Lemma bio_elem L V H s b : bio_at L V H s → b ∈ L ↔ (b < NBUF)%nat.
Proof. intros I. rewrite (bi_perm _ _ _ _ I), elem_of_seq. lia. Qed.
Lemma bio_nodup L V H s : bio_at L V H s → NoDup L.
Proof. intros I. rewrite (bi_perm _ _ _ _ I). apply NoDup_seq. Qed.
Lemma bio_length L V H s : bio_at L V H s → length L = NBUF.
Proof. intros I. rewrite (bi_perm _ _ _ _ I). apply length_seq. Qed.

Lemma bio_chain L V H s : bio_at L V H s → chain (nx s) L ∧ chain (pv s) (reverse L).
Proof.
  intros I. pose proof (bio_elem _ _ _ _ NBUF I) as Hn.
  split; intros i a Ha; (split; [intros ->; apply list_elem_of_lookup_2 in Ha|]).
  - apply Hn in Ha. lia.
  - by eapply seg_next, Ha; apply (bi_ring _ _ _ _ I).
  - apply elem_of_reverse, Hn in Ha. lia.
  - by eapply seg_next, Ha; apply seg_reverse, (bi_ring _ _ _ _ I).
Qed.

(** ** Finding a buffer *)
Section Bget.
Context {wf : WakeFuel}.

(** The disk after the old contents of a buffer were written back. *)
Definition flushed (x : buf) (d : ramdisk) : ramdisk :=
  if decide (b_flags x = 6) then mk_disk (<[b_blockno x := b_data x]> (d_blocks d)) (d_size d) else d.

(** The state [bread] leaves: buffer [a] is held, filled with [data], and the
    disk is [d]. *)
Definition loaded (a : nat) (blk f : Z) (data : list byte) (d : ramdisk) (s : kstate) : kstate :=
  set_k_disk (λ _, d) (upd_buf a (λ x,
    mk_buf f 0 blk (set_sl_locked 1 (b_lk x)) 1 (b_prev x) (b_next x) data) s).

Lemma upd_buf_upd_buf a f g s : upd_buf a f (upd_buf a g s) = upd_buf a (f ∘ g) s.
Proof. kext. apply alter_alter. Qed.

Lemma upd_buf_ext a f g s : f (the_buf a s) = g (the_buf a s) → upd_buf a f s = upd_buf a g s.
Proof.
  intros E. kext. apply list_alter_ext; [|done]. intros x Hx.
  unfold the_buf in E. by rewrite Hx in E.
Qed.

Lemma bio_frame_loaded a blk f data d s :
  d_size d = d_size (k_disk s) → bio_frame s (loaded a blk f data d s).
Proof. intros E. split; try done. Qed.

(** The cache invariant looks at nothing but the buffers and the disk. *)
Lemma bcache_locked_buf b s : the_buf b (bcache_locked s) = the_buf b s.
Proof. done. Qed.

Section At.
Context (L : list nat) (V : store) (H : holders) (s : kstate) (I : bio_at L V H s).

Lemma bio_unheld a : a ∈ L → H !! a = None →
  b_refcnt (the_buf a s) = 0 ∧ sl_locked (b_lk (the_buf a s)) = 0.
Proof.
  intros Ha Hn. apply (bio_elem _ _ _ _ _ I) in Ha.
  pose proof (bo_held _ _ _ _ (bi_bufs _ _ _ _ I a Ha)) as B. by rewrite Hn in B.
Qed.

Lemma bio_refcnt_0 a : a ∈ L → b_refcnt (the_buf a s) = 0 → H !! a = None.
Proof.
  intros Ha Hr. apply (bio_elem _ _ _ _ _ I) in Ha.
  pose proof (bo_held _ _ _ _ (bi_bufs _ _ _ _ I a Ha)) as B.
  destruct (H !! a) as [[? ?]|]; [|done]. destruct B as [B _]. by rewrite Hr in B.
Qed.

Lemma bio_in_bounds a : a ∈ L → (a < length (k_bufs s))%nat.
Proof. intros Ha. apply (bio_elem _ _ _ _ _ I) in Ha. rewrite (bi_len _ _ _ _ I). lia. Qed.

Lemma bget_hit_run blk l1 a l2 :
  L = l1 ++ a :: l2 → (∀ c, c ∈ l1 → b_blockno (the_buf c s) ≠ blk) →
  b_blockno (the_buf a s) = blk → H !! a = None →
  bget 0 blk s = Done a (upd_buf a grab s).
Proof.
  intros EL Hl1 Ha Hn. unfold bget.
  assert (a ∈ L) as HaL by (rewrite EL; set_solver).
  destruct (bio_unheld a HaL Hn) as [Hr Hk].
  erewrite bind_done by (apply acquire_bcache_run, (bi_kinv _ _ _ _ I)). rewrite bind_gets.
  assert (b_next (the_buf NBUF (bcache_locked s)) = hd NBUF (l1 ++ a :: l2)) as ->.
  { rewrite <- EL. apply (seg_first (nx s) (pv s) NBUF L NBUF (bi_ring _ _ _ _ I)). }
  assert (∀ c, c ∈ L → b_dev (the_buf c s) = 0) as Hdev.
  { intros c Hc. apply (bo_dev _ _ _ _ (bi_bufs _ _ _ _ I c (proj1 (bio_elem _ _ _ _ c I) Hc))). }
  erewrite bind_done.
  2:{ rewrite walk_first.
      - erewrite bind_done; [reflexivity|]. unfold bget_hit.
        rewrite bget_grab_run; [reflexivity|apply (bi_kinv _ _ _ _ I)|by apply bio_in_bounds|done|done].
      - rewrite <- EL. apply (bio_chain _ _ _ _ I).
      - pose proof (bio_length _ _ _ _ I) as E. rewrite EL, length_app in E. simpl in E. lia.
      - intros c Hc. rewrite bcache_locked_buf, (bool_decide_false (b_blockno _ = _)) by auto.
        apply andb_false_r.
      - rewrite bcache_locked_buf, !bool_decide_true; auto. }
  cbv beta iota. unfold ret. f_equal. apply upd_buf_ext. unfold grab, set_b_refcnt.
  by rewrite Hr.
Qed.

Lemma bget_evict_run blk l1 a l2 :
  reverse L = l1 ++ a :: l2 → (∀ c, c ∈ L → b_blockno (the_buf c s) ≠ blk) →
  (∀ c, c ∈ l1 → b_refcnt (the_buf c s) ≠ 0) → b_refcnt (the_buf a s) = 0 →
  bget 0 blk s = Done a (loaded a blk 0 (b_data (the_buf a s)) (flushed (the_buf a s) (k_disk s)) s).
Proof.
  intros EL Hmiss Hl1 Ha. unfold bget.
  assert (a ∈ L) as HaL by (rewrite <- elem_of_reverse, EL; set_solver).
  pose proof (bi_bufs _ _ _ _ I a (proj1 (bio_elem _ _ _ _ a I) HaL)) as B.
  destruct (bio_unheld a HaL (bio_refcnt_0 a HaL Ha)) as [Hr Hk].
  pose proof (bio_in_bounds a HaL) as Hb.
  erewrite bind_done by (apply acquire_bcache_run, (bi_kinv _ _ _ _ I)). rewrite bind_gets.
  assert (b_next (the_buf NBUF (bcache_locked s)) = hd NBUF L) as ->.
  { apply (seg_first (nx s) (pv s) NBUF L NBUF (bi_ring _ _ _ _ I)). }
  erewrite bind_done.
  2:{ apply walk_none; [apply (bio_chain _ _ _ _ I)|by rewrite (bio_length _ _ _ _ I)|].
      intros c Hc. rewrite bcache_locked_buf, (bool_decide_false (b_blockno _ = _)) by auto.
      apply andb_false_r. }
  cbv beta iota. rewrite bind_gets.
  assert (b_prev (the_buf NBUF (bcache_locked s)) = hd NBUF (l1 ++ a :: l2)) as ->.
  { rewrite <- EL. eapply (seg_first (pv s) (nx s) NBUF (reverse L) NBUF), seg_reverse, I. }
  erewrite bind_done.
  2:{ rewrite walk_first.
      - erewrite bind_done; [reflexivity|]. unfold bget_evict.
        rewrite bget_grab_run; [|apply (bi_kinv _ _ _ _ I)|done|done|done].
        rewrite bind_gets. set (s1 := upd_buf a _ s).
        erewrite (bind_done _ _ s1 tt (set_k_disk (λ _, flushed (the_buf a s) (k_disk s))
          (upd_buf a (set_b_flags (if decide (b_flags (the_buf a s) = 6) then 2 else b_flags (the_buf a s))) s1))).
        + rewrite !bind_modify. reflexivity.
        + assert (b_flags (the_buf a s1) = b_flags (the_buf a s)) as -> by (subst s1; by rewrite the_buf_upd_eq).
          unfold flushed. case_decide as Hf.
          * rewrite bool_decide_true by (by rewrite Hf). cbn [when].
            unfold s1. rewrite rd_rw_write; rewrite the_buf_upd_eq by done; simpl; try done.
            -- apply B.
            -- apply B.
          * rewrite bool_decide_false. 2:{ destruct (bo_flags _ _ _ _ B) as [-> | [-> | ?]]; [intros F; by apply F..|lia]. }
            unfold when, ret. f_equal. subst s1. kext. rewrite alter_alter.
            apply list_alter_ext; [|done]. intros x Hx. unfold the_buf. by rewrite Hx.
      - rewrite <- EL. apply (bio_chain _ _ _ _ I).
      - pose proof (bio_length _ _ _ _ I) as E. rewrite <- length_reverse, EL, length_app in E. simpl in E. lia.
      - intros c Hc. rewrite bcache_locked_buf, bool_decide_false; auto.
      - rewrite bcache_locked_buf, bool_decide_true; auto. }
  cbv beta iota. unfold ret. f_equal. unfold loaded. kext.
  rewrite !alter_alter. apply list_alter_ext; [|done]. intros x Hx. unfold the_buf. by rewrite Hx.
Qed.

(** Filling an unheld buffer with block [blk] keeps the invariant. *)
Lemma bio_loaded a blk f data d :
  a ∈ L → H !! a = None → 0 ≤ blk < nblk s → d_size d = d_size (k_disk s) →
  f = 2 ∨ f = 6 → data = V blk → (f = 2 → disk_block d blk = data) →
  (∀ b, (b < NBUF)%nat → b ≠ a → b_flags (the_buf b s) ≠ 0 →
    disk_block d (b_blockno (the_buf b s)) = disk_block (k_disk s) (b_blockno (the_buf b s))) →
  (∀ bl, 0 ≤ bl < nblk s → bl ≠ blk →
    (∀ b, (b < NBUF)%nat → b ≠ a → b_blockno (the_buf b s) = bl → b_flags (the_buf b s) = 0) →
    disk_block d bl = V bl) →
  (∀ i j c, L !! i = Some a → L !! j = Some c → c ≠ a → b_blockno (the_buf c s) = blk →
    (i < j)%nat ∧ b_flags (the_buf c s) = 0) →
  bio_at L V (<[a := (blk, true)]> H) (loaded a blk f data d s).
Proof.
  intros HaL Hn Hblk Hd Hf Hdata Hclean Hother Hrest Huniq.
  pose proof (bio_in_bounds a HaL) as Hb.
  assert (∀ b, the_buf b (loaded a blk f data d s) =
    if decide (a = b) then mk_buf f 0 blk (set_sl_locked 1 (b_lk (the_buf b s))) 1
         (b_prev (the_buf b s)) (b_next (the_buf b s)) data else the_buf b s) as E.
  { intros b. unfold loaded. ksimpl. by rewrite the_buf_upd by done. }
  assert (nblk (loaded a blk f data d s) = nblk s) as En by (unfold nblk, loaded; ksimpl; by rewrite Hd).
  split.
  - eapply kinv_frame, I. by apply bio_frame_loaded.
  - unfold loaded, upd_buf. ksimpl. rewrite length_alter. apply I.
  - apply I.
  - eapply seg_frame; [..|apply I]; intros i _; unfold nx, pv; rewrite E; by case_decide; subst.
  - intros b Hlt. rewrite E. case_decide as Eb.
    + subst b. rewrite lookup_insert_eq. pose proof (bi_V _ _ _ _ I blk Hblk).
      split; simpl; subst; auto; [|split_and!; auto; lia]. by rewrite Hd.
    + rewrite lookup_insert_ne by done. destruct (bi_bufs _ _ _ _ I b Hlt) as [????? Hdat].
      change (k_disk (loaded a blk f data d s)) with d.
      split; try done; [by rewrite Hd|]. intros Hfl Hh. rewrite Hother by done. auto.
  - intros i j c e Hij Hc He. rewrite !E. case_decide as E1; case_decide as E2; simpl.
    + subst. assert (i = j) by (eapply NoDup_lookup; eauto using bio_nodup). lia.
    + subst c. intros ->. by eapply Huniq.
    + subst e. intros Hbn. destruct (Huniq j i c) as [? _]; auto. lia.
    + by apply (bi_uniq _ _ _ _ I i j).
  - rewrite En. intros bl Hbl Hv. change (k_disk (loaded a blk f data d s)) with d.
    assert (a < NBUF)%nat as HaN by by apply (bio_elem _ _ _ _ a I).
    apply Hrest; [done| |].
    + intros ->. specialize (Hv a HaN). rewrite E, decide_True in Hv by done. simpl in Hv.
      specialize (Hv eq_refl). lia.
    + intros b Hlt Hne Hbn. specialize (Hv b Hlt). rewrite E, decide_False in Hv by done. auto.
  - rewrite En. apply I.
  - intros b x. rewrite lookup_insert. case_decide as Eb; [|apply I].
    subst. intros _. by apply (bio_elem _ _ _ _ b I).
Qed.

Lemma bio_same_block a c : a ∈ L → c ∈ L → a ≠ c →
  b_flags (the_buf a s) ≠ 0 → b_flags (the_buf c s) ≠ 0 →
  b_blockno (the_buf a s) ≠ b_blockno (the_buf c s).
Proof.
  intros [i Hi]%list_elem_of_lookup_1 [j Hj]%list_elem_of_lookup_1 Hne Ha Hc E.
  destruct (lt_eq_lt_dec i j) as [[Hl| ->]|Hl].
  - apply Hc. by eapply (bi_uniq _ _ _ _ I i j).
  - congruence.
  - apply Ha. by eapply (bi_uniq _ _ _ _ I j i).
Qed.
End At.
End Bget.

(** ** Reading a block *)
Definition blk_free (blk : Z) (H : holders) : Prop := ∀ b x, H !! b = Some x → x.1 ≠ blk.

Section Bread.
Context {wf : WakeFuel}.

Lemma holders_room (H : holders) :
  (size H < NBUF)%nat → ∃ b, (b < NBUF)%nat ∧ H !! b = None.
Proof.
  intros Hs. destruct (split_first (λ b, H !! b = None) (seq 0 NBUF))
    as [(l1 & b & l2 & El & Hb & _)|Hall].
  - exists b. split; [|done]. assert (b ∈ seq 0 NBUF) as Hin by (rewrite El; set_solver).
    apply elem_of_seq in Hin. lia.
  - exfalso. assert (list_to_set (seq 0 NBUF) ⊆ dom H) as Hsub.
    { intros b Hb. apply elem_of_list_to_set in Hb. apply elem_of_dom.
      destruct (H !! b) eqn:E; [done|]. by apply Hall in Hb. }
    apply subseteq_size in Hsub. rewrite size_list_to_set in Hsub by apply NoDup_seq.
    rewrite length_seq, size_dom in Hsub. lia.
Qed.

Lemma holders_full V H s :
  bio_inv V H s → size H = NBUF → ∀ b, (b < NBUF)%nat → is_Some (H !! b).
Proof.
  intros [L I] Hs b Hb. apply not_eq_None_Some. intros E.
  assert (size (dom H) ≤ size (list_to_set (seq 0 NBUF) ∖ {[b]} : gset nat))%nat as Hsz.
  { apply subseteq_size. intros c [x Hc]%elem_of_dom.
    assert (c ≠ b) by congruence. apply (bi_H _ _ _ _ I) in Hc.
    apply elem_of_difference. rewrite elem_of_list_to_set, elem_of_seq. set_solver by lia. }
  rewrite size_dom, size_difference, size_singleton, size_list_to_set in Hsz
    by (apply NoDup_seq || (apply singleton_subseteq_l, elem_of_list_to_set, elem_of_seq; lia)).
  rewrite length_seq in Hsz. unfold NBUF in *. lia.
Qed.

(** What [bread] does once [bget] has returned. *)
Definition bread_fill (b : nat) : M kstate nat :=
  let! x := gets (the_buf b) in
  when (bool_decide (Z.land (b_flags x) B_VALID = 0)) (rd_rw b) ;;;
  ret b.

Lemma bread_fill_valid b s :
  b_flags (the_buf b s) = 2 ∨ b_flags (the_buf b s) = 6 → bread_fill b s = Done b s.
Proof.
  intros Hf. unfold bread_fill. rewrite bind_gets, bool_decide_false; [done|].
  destruct Hf as [-> | ->]; discriminate.
Qed.

Lemma bread_fill_read b s :
  b_flags (the_buf b s) = 0 → b_dev (the_buf b s) = 0 →
  b_blockno (the_buf b s) < d_size (k_disk s) / BSIZE →
  bread_fill b s = Done b (upd_buf b (λ x, set_b_flags B_VALID
               (set_b_data (disk_block (k_disk s) (b_blockno (the_buf b s))) x)) s).
Proof.
  intros Hf Hd Hn. unfold bread_fill. rewrite bind_gets, bool_decide_true by (by rewrite Hf).
  cbn [when]. by erewrite bind_done by by apply rd_rw_read.
Qed.

Lemma bread_hit_ok L V H s blk l1 a l2 :
  bio_at L V H s → 0 ≤ blk < nblk s → blk_free blk H →
  L = l1 ++ a :: l2 → b_blockno (the_buf a s) = blk →
  (∀ c, c ∈ l1 → b_blockno (the_buf c s) ≠ blk) →
  ∃ f, bread 0 blk s = Done a (loaded a blk f (V blk) (k_disk s) s) ∧
  bio_at L V (<[a := (blk, true)]> H) (loaded a blk f (V blk) (k_disk s) s).
Proof.
  intros I Hblk Hfree EL Ha Hl1.
  assert (a ∈ L) as HaL by (rewrite EL; set_solver).
  pose proof (proj1 (bio_elem _ _ _ _ a I) HaL) as HaN.
  pose proof (bio_in_bounds L V H s I a HaL) as Hb.
  pose proof (bi_bufs _ _ _ _ I a HaN) as B.
  assert (H !! a = None) as Hn.
  { destruct (H !! a) as [[k c]|] eqn:E; [|done]. exfalso.
    apply (Hfree _ _ E). simpl. pose proof (bo_held _ _ _ _ B) as B'.
    destruct B' as (_ & _ & <- & _). done. }
  destruct (bio_unheld L V H s I a HaL Hn) as [Hr Hk].
  assert (∀ c, c ∈ l2 → b_blockno (the_buf c s) = blk → b_flags (the_buf c s) = 0) as Hl2.
  { intros c [j Hj]%list_elem_of_lookup Hc.
    apply (bi_uniq _ _ _ _ I (length l1) (length l1 + S j) a c); [lia|..].
    - rewrite EL. by apply list_lookup_middle.
    - rewrite EL, lookup_app_r by lia.
      replace (length l1 + S j - length l1)%nat with (S j) by lia. done.
    - congruence. }
  set (f := if decide (b_flags (the_buf a s) = 0) then 2 else b_flags (the_buf a s)).
  assert (V blk = if decide (b_flags (the_buf a s) = 0) then disk_block (k_disk s) blk
                  else b_data (the_buf a s)) as HV.
  { case_decide as Hf.
    - symmetry. apply (bi_disk _ _ _ _ I); [done|]. intros b Hlt Hbn.
      apply (bio_elem _ _ _ _ b I) in Hlt. rewrite EL in Hlt.
      apply elem_of_app in Hlt as [Hin|Hin]; [by apply Hl1 in Hin|].
      apply elem_of_cons in Hin as [->|Hin]; auto.
    - symmetry. rewrite <- Ha. apply B; [done|]. rewrite Hn. done. }
  exists f. split.
  - unfold bread. erewrite bind_done by (by eapply bget_hit_run).
    change (bread_fill a (upd_buf a grab s) = Done a (loaded a blk f (V blk) (k_disk s) s)).
    pose proof (the_buf_upd_eq a grab s Hb) as Eg. rewrite HV. subst f. case_decide as Hf.
    + rewrite bread_fill_read; rewrite Eg; simpl; try done; [|apply B|rewrite Ha; apply Hblk].
      f_equal. rewrite upd_buf_upd_buf. unfold loaded. kext.
      refine (f_equal k_bufs (upd_buf_ext a _ _ s _)). unfold compose, grab, set_b_flags, set_b_data; simpl.
      rewrite (bo_dev _ _ _ _ B), Ha. done.
    + rewrite bread_fill_valid by (rewrite Eg; simpl; destruct (bo_flags _ _ _ _ B) as [?|?]; [done|tauto]).
      f_equal. unfold loaded. kext. refine (f_equal k_bufs (upd_buf_ext a _ _ s _)).
      unfold grab; simpl. destruct (the_buf a s) eqn:E; simpl in *. pose proof (bo_dev _ _ _ _ B). 
      simpl in *. by subst.
  - apply bio_loaded; try done.
    + subst f. case_decide; [by left|]. destruct (bo_flags _ _ _ _ B); [done|tauto].
    + subst f. rewrite HV. case_decide as Hf; [done|]. intros Hf2. rewrite <- Ha. apply B; [done| |done].
      rewrite Hn. done.
    + intros bl Hbl Hne Hv. apply (bi_disk _ _ _ _ I); [done|]. intros b Hlt Hbn.
      apply Hv; [done| |done]. intros ->. congruence.
    + intros i j c Hi Hj Hca Hc. assert (i = length l1) as ->.
      { eapply NoDup_lookup; [by eapply bio_nodup|exact Hi|]. rewrite EL. by apply list_lookup_middle. }
      rewrite EL in Hj. destruct (decide (j < length l1)%nat).
      { rewrite lookup_app_l in Hj by done. apply list_elem_of_lookup_2 in Hj. by apply Hl1 in Hj. }
      rewrite lookup_app_r in Hj by lia. destruct (j - length l1)%nat as [|j'] eqn:Ej; simpl in Hj; [congruence|].
      split; [lia|]. apply Hl2; [|done]. by eapply list_elem_of_lookup_2.
Qed.

Lemma disk_block_flushed x d bl :
  disk_block (flushed x d) bl =
  if decide (b_flags x = 6 ∧ bl = b_blockno x) then b_data x else disk_block d bl.
Proof.
  unfold flushed, disk_block. destruct (decide (b_flags x = 6)) as [E|E].
  - simpl. rewrite lookup_insert. destruct (decide (b_blockno x = bl)) as [E'|E'].
    + by rewrite decide_True by auto.
    + rewrite decide_False; [done|]. intros [_ ->]. done.
  - rewrite decide_False; [done|]. intros [? _]. done.
Qed.

Lemma d_size_flushed x d : d_size (flushed x d) = d_size d.
Proof. unfold flushed. by case_decide. Qed.

Lemma bread_miss_ok L V H s blk :
  bio_at L V H s → 0 ≤ blk < nblk s → (size H < NBUF)%nat →
  (∀ c, c ∈ L → b_blockno (the_buf c s) ≠ blk) →
  ∃ l1 a l2, reverse L = l1 ++ a :: l2 ∧ H !! a = None ∧ (∀ c, c ∈ l1 → H !! c ≠ None) ∧
  let s' := loaded a blk 2 (V blk) (flushed (the_buf a s) (k_disk s)) s in
  bread 0 blk s = Done a s' ∧ bio_at L V (<[a := (blk, true)]> H) s'.
Proof.
  intros I Hblk Hroom Hmiss.
  destruct (holders_room H Hroom) as (e & He & HeH).
  destruct (split_first (λ c, b_refcnt (the_buf c s) = 0) (reverse L))
    as [(l1 & a & l2 & EL & Ha & Hl1)|Hall].
  2:{ exfalso. apply (bio_elem _ _ _ _ e I) in He.
      destruct (bio_unheld L V H s I e He HeH) as [Hr _]. apply (Hall e); [|done].
      by apply elem_of_reverse. }
  assert (a ∈ L) as HaL by (rewrite <- elem_of_reverse, EL; set_solver).
  pose proof (proj1 (bio_elem _ _ _ _ a I) HaL) as HaN.
  pose proof (bio_in_bounds L V H s I a HaL) as Hb.
  pose proof (bio_refcnt_0 L V H s I a HaL Ha) as Hn.
  pose proof (bi_bufs _ _ _ _ I a HaN) as B.
  set (d := flushed (the_buf a s) (k_disk s)).
  assert (b_flags (the_buf a s) ≠ 0 → b_data (the_buf a s) = V (b_blockno (the_buf a s))) as HaV.
  { intros Hf. apply B; [done|]. by rewrite Hn. }
  assert (disk_block d blk = V blk) as Hdv.
  { unfold d. rewrite disk_block_flushed, decide_False.
    - apply (bi_disk _ _ _ _ I); [done|]. intros b Hlt Hbn.
      apply (bio_elem _ _ _ _ b I) in Hlt. by apply Hmiss in Hlt.
    - intros [_ ->]. by apply (Hmiss a). }
  exists l1, a, l2. cbv zeta. split_and!; [done|done|..].
  { intros c Hc E. apply (Hl1 c Hc), (bio_unheld L V H s I); [|done].
    apply elem_of_reverse. rewrite EL. set_solver. }
  - unfold bread. erewrite bind_done by by eapply bget_evict_run.
    fold d. set (s1 := loaded a blk 0 _ d s).
    change (bread_fill a s1 = Done a (loaded a blk 2 (V blk) d s)). 
    assert (the_buf a s1 = mk_buf 0 0 blk (set_sl_locked 1 (b_lk (the_buf a s))) 1
      (b_prev (the_buf a s)) (b_next (the_buf a s)) (b_data (the_buf a s))) as E1.
    { subst s1. unfold loaded. ksimpl. by rewrite the_buf_upd_eq. }
    rewrite bread_fill_read; rewrite E1; simpl; try done.
    + f_equal. subst s1. unfold loaded. ksimpl. rewrite Hdv. kext.
      rewrite alter_alter. done.
    + subst s1 d. unfold loaded. ksimpl. rewrite d_size_flushed. apply Hblk.
  - apply bio_loaded; try done.
    + by apply d_size_flushed.
    + by left.
    + intros b Hlt Hne Hf. unfold d. rewrite disk_block_flushed, decide_False; [done|].
      intros [H6 E]. apply (bio_same_block L V H s I b a) in E; try done; [|lia].
      by apply (bio_elem _ _ _ _ b I).
    + intros bl Hbl Hne Hv. unfold d. rewrite disk_block_flushed. case_decide as E.
      * destruct E as [H6 ->]. apply HaV. lia.
      * destruct (decide (b_blockno (the_buf a s) = bl)) as [Hba|Hba].
        -- destruct (bo_flags _ _ _ _ B) as [H0|[H2|H6]]; [| |by destruct E].
           ++ apply (bi_disk _ _ _ _ I); [done|]. intros b Hlt Hbn.
              destruct (decide (b = a)) as [->|]; auto.
           ++ rewrite <- Hba, <- HaV by lia. apply B; [lia| |done]. by rewrite Hn.
        -- apply (bi_disk _ _ _ _ I); [done|]. intros b Hlt Hbn.
           destruct (decide (b = a)) as [->|]; [done|auto].
    + intros i j c Hi Hj Hca Hc. apply list_elem_of_lookup_2 in Hj. by apply Hmiss in Hj.
Qed.

(** Writing back a recycled buffer puts its block's contents on the disk. *)
Lemma flushed_block L V H s (I : bio_at L V H s) a :
  a ∈ L → H !! a = None → b_flags (the_buf a s) ≠ 0 →
  disk_block (flushed (the_buf a s) (k_disk s)) (b_blockno (the_buf a s)) = V (b_blockno (the_buf a s)).
Proof.
  intros Ha%(bio_elem _ _ _ _ _ I) Hn Hf. pose proof (bi_bufs _ _ _ _ I a Ha) as B.
  rewrite Hn in B. destruct (bo_data _ _ _ _ B Hf) as [Hd Hc]; [done|].
  rewrite disk_block_flushed, <- Hd. case_decide as E; [done|]. apply Hc.
  destruct (bo_flags _ _ _ _ B) as [|[|]]; tauto.
Qed.

(** Reading a block that nobody holds returns its contents in a held buffer. *)
Lemma bread_ok V H s blk :
  bio_inv V H s → 0 ≤ blk < nblk s → blk_free blk H → (size H < NBUF)%nat →
  wp (bread 0 blk s) (λ b s',
    bio_inv V (<[b := (blk, true)]> H) s' ∧ H !! b = None ∧
    b_data (the_buf b s') = V blk ∧ (∀ c, c ≠ b → the_buf c s' = the_buf c s) ∧ bio_frame s s').
Proof.
  intros [L I] Hblk Hfree Hroom.
  assert (∀ a f d, a ∈ L → H !! a = None → d_size d = d_size (k_disk s) →
    bio_at L V (<[a := (blk, true)]> H) (loaded a blk f (V blk) d s) →
    bread 0 blk s = Done a (loaded a blk f (V blk) d s) →
    wp (bread 0 blk s) (λ b s',
      bio_inv V (<[b := (blk, true)]> H) s' ∧ H !! b = None ∧ 
      b_data (the_buf b s') = V blk ∧ (∀ c, c ≠ b → the_buf c s' = the_buf c s) ∧ bio_frame s s')) as K.
  { intros a f d HaL Hn Hd I' ->. simpl. pose proof (bio_in_bounds L V H s I a HaL).
    split_and!; [by exists L|done|..].
    - unfold loaded. ksimpl. by rewrite the_buf_upd_eq.
    - intros c Hc. unfold loaded. ksimpl. by rewrite the_buf_upd_ne.
    - by apply bio_frame_loaded. }
  destruct (split_first (λ c, b_blockno (the_buf c s) = blk) L)
    as [(l1 & a & l2 & EL & Ha & Hl1)|Hall].
  - destruct (bread_hit_ok L V H s blk l1 a l2) as (f & Hr & I'); try done.
    assert (a ∈ L) as HaL by (rewrite EL; set_solver).
    apply (K a f (k_disk s)); try done.
    pose proof (bo_held _ _ _ _ (bi_bufs _ _ _ _ I a (proj1 (bio_elem _ _ _ _ a I) HaL))) as B.
    destruct (H !! a) as [[k c]|] eqn:E; [|done]. exfalso.
    destruct B as (_ & _ & E' & _). apply (Hfree _ _ E). simpl. congruence.
  - destruct (bread_miss_ok L V H s blk) as (l1 & a & l2 & EL & Hn & _ & Hr & I'); try done.
    apply (K a 2 (flushed (the_buf a s) (k_disk s))); try done; [|by apply d_size_flushed].
    apply elem_of_reverse. rewrite EL. set_solver.
Qed.

(** Every buffer is in use: [bget] gives up. *)
Lemma bget_exhausted V H s blk :
  bio_inv V H s → (∀ b, (b < NBUF)%nat → is_Some (H !! b)) → blk_free blk H →
  bget 0 blk s = Panic "bget: no buffers available".
Proof.
  intros [L I] Hall Hfree. unfold bget.
  assert (∀ c, c ∈ L → b_refcnt (the_buf c s) = 1 ∧ b_blockno (the_buf c s) ≠ blk) as Hb.
  { intros c Hc. apply (bio_elem _ _ _ _ c I) in Hc. destruct (Hall c Hc) as [[k v] E].
    pose proof (bo_held _ _ _ _ (bi_bufs _ _ _ _ I c Hc)) as B. rewrite E in B.
    destruct B as (? & _ & <- & _). split; [done|]. by apply (Hfree _ _ E). }
  erewrite bind_done by (apply acquire_bcache_run, I). rewrite bind_gets.
  assert (b_next (the_buf NBUF (bcache_locked s)) = hd NBUF L) as ->.
  { apply (seg_first (nx s) (pv s) NBUF L NBUF (bi_ring _ _ _ _ I)). }
  erewrite bind_done.
  2:{ apply walk_none; [apply (bio_chain _ _ _ _ I)|by rewrite (bio_length _ _ _ _ I)|].
      intros c Hc. rewrite bcache_locked_buf, (bool_decide_false (b_blockno _ = _)) by by apply Hb.
      apply andb_false_r. }
  cbv beta iota. rewrite bind_gets.
  assert (b_prev (the_buf NBUF (bcache_locked s)) = hd NBUF (reverse L)) as ->.
  { eapply (seg_first (pv s) (nx s) NBUF (reverse L) NBUF), seg_reverse, I. }
  erewrite bind_done; [|apply walk_none; [apply (bio_chain _ _ _ _ I)|..]].
  - done.
  - by rewrite length_reverse, (bio_length _ _ _ _ I).
  - intros c Hc. apply elem_of_reverse, Hb in Hc as [Hc _].
    rewrite bcache_locked_buf, Hc. done.
Qed.
End Bread.

(** ** Writing and releasing *)
Section Brelse.
Context {wf : WakeFuel}.

(** A change to the contents of a held buffer. *)
Lemma bio_held_upd L V V' H s b f blk c c' :
  bio_at L V H s → H !! b = Some (blk, c) →
  (∀ x, b_dev (f x) = b_dev x ∧ b_blockno (f x) = b_blockno x ∧ b_lk (f x) = b_lk x ∧
        b_refcnt (f x) = b_refcnt x ∧ b_prev (f x) = b_prev x ∧ b_next (f x) = b_next x) →
  b_flags (f (the_buf b s)) = 2 ∨ b_flags (f (the_buf b s)) = 6 →
  length (b_data (f (the_buf b s))) = BSIZE_nat →
  (c' = true → b_data (f (the_buf b s)) = V' blk ∧
     (b_flags (f (the_buf b s)) = 2 → disk_block (k_disk s) blk = b_data (f (the_buf b s)))) →
  (∀ bl, bl ≠ blk → V' bl = V bl) → length (V' blk) = BSIZE_nat →
  bio_at L V' (<[b := (blk, c')]> H) (upd_buf b f s).
Proof.
  intros I Hh Hf Hfl Hlen Hc HV HV'.
  assert (b < NBUF)%nat as HbN by by eapply (bi_H _ _ _ _ I).
  assert (b < length (k_bufs s))%nat as Hb by (rewrite (bi_len _ _ _ _ I); lia).
  pose proof (bi_bufs _ _ _ _ I b HbN) as B. rewrite Hh in B.
  destruct (bo_held _ _ _ _ B) as (Hr & Hk & Hbn & Hnz).
  assert (∀ e, the_buf e (upd_buf b f s) = if decide (b = e) then f (the_buf e s) else the_buf e s) as E.
  { intros e. by apply the_buf_upd. }
  destruct (Hf (the_buf b s)) as (F1 & F2 & F3 & F4 & F5 & F6).
  split.
  - eapply kinv_frame, I. split; done.
  - unfold upd_buf. ksimpl. rewrite length_alter. apply I.
  - apply I.
  - eapply seg_frame; [..|apply I]; intros i _; unfold nx, pv; rewrite E; case_decide; subst; done.
  - intros e Hlt. rewrite E. change (k_disk (upd_buf b f s)) with (k_disk s). case_decide as Ee.
    + subst e. rewrite lookup_insert_eq.
      split; [done|tauto|rewrite F1; apply B|rewrite F2; apply B|rewrite F4, F3, F2; split_and!; auto; lia|].
      intros _ Hcc. rewrite F2, Hbn. destruct c'; [by apply Hc|]. by destruct (Hcc blk).
    + rewrite lookup_insert_ne by done. pose proof (bi_bufs _ _ _ _ I e Hlt) as Be.
      split; try apply Be. intros Hnze Hce. rewrite HV; [by apply Be|]. rewrite <- Hbn.
      apply (bio_same_block L V H s I); try done; by apply (bio_elem _ _ _ _ _ I).
  - intros i j a e Hij Ha He. rewrite !E. case_decide; case_decide; subst; rewrite ?F2.
    + assert (i = j) by (eapply NoDup_lookup; eauto using bio_nodup). lia.
    + intros. by eapply (bi_uniq _ _ _ _ I i j).
    + intros Hx. exfalso. by apply Hnz, (bi_uniq _ _ _ _ I i j a e).
    + by apply (bi_uniq _ _ _ _ I i j).
  - intros bl Hbl Hv. change (k_disk (upd_buf b f s)) with (k_disk s).
    assert (bl ≠ blk) as Hne.
    { intros ->. specialize (Hv b HbN). rewrite E, decide_True in Hv by done.
      rewrite F2 in Hv. specialize (Hv Hbn). lia. }
    rewrite HV by done. apply (bi_disk _ _ _ _ I); [done|].
    intros e Hlt Hbe. destruct (decide (b = e)) as [<-|Hn]; [congruence|].
    specialize (Hv e Hlt). rewrite E, decide_False in Hv by done. auto.
  - intros bl Hbl. destruct (decide (bl = blk)) as [->|]; [done|]. rewrite HV by done. by apply (bi_V _ _ _ _ I).
  - intros e x. rewrite lookup_insert. case_decide; [by intros; subst|]. apply (bi_H _ _ _ _ I).
Qed.

Lemma bstore_ok V H s b blk c off bytes :
  bio_inv V H s → H !! b = Some (blk, c) → (off + length bytes ≤ BSIZE_nat)%nat →
  wp (bstore b off bytes s) (λ _ s', bio_inv V (<[b := (blk, false)]> H) s' ∧
    b_data (the_buf b s') = splice off bytes (b_data (the_buf b s)) ∧
    (∀ e, e ≠ b → the_buf e s' = the_buf e s) ∧ bio_frame s s').
Proof.
  intros [L I] Hh Hlen.
  assert (b < NBUF)%nat as HbN by by eapply (bi_H _ _ _ _ I).
  assert (b < length (k_bufs s))%nat as Hb by (rewrite (bi_len _ _ _ _ I); lia).
  pose proof (bi_bufs _ _ _ _ I b HbN) as B. rewrite Hh in B.
  destruct (bo_held _ _ _ _ B) as (Hr & Hk & Hbn & Hnz).
  split_and!.
  - exists L. eapply (bio_held_upd L V V); try done; simpl.
    + destruct (bo_flags _ _ _ _ B); [done|tauto].
    + rewrite splice_length; [apply B|]. by rewrite (bo_len _ _ _ _ B).
    + apply (bi_V _ _ _ _ I). unfold nblk. rewrite <- Hbn. apply B.
  - by rewrite the_buf_upd_eq.
  - intros. by apply the_buf_upd_ne.
  - by split.
Qed.

(** [bwrite] makes the buffer's bytes the block's contents. *)
Lemma bwrite_ok V H s b blk c :
  bio_inv V H s → H !! b = Some (blk, c) →
  wp (bwrite b s) (λ _ s',
    bio_inv (<[blk := b_data (the_buf b s)]> V) (<[b := (blk, true)]> H) s' ∧
    b_data (the_buf b s') = b_data (the_buf b s) ∧
    (∀ e, e ≠ b → the_buf e s' = the_buf e s) ∧ bio_frame s s').
Proof.
  intros [L I] Hh.
  assert (b < NBUF)%nat as HbN by by eapply (bi_H _ _ _ _ I).
  assert (b < length (k_bufs s))%nat as Hb by (rewrite (bi_len _ _ _ _ I); lia).
  pose proof (bi_bufs _ _ _ _ I b HbN) as B. rewrite Hh in B.
  destruct (bo_held _ _ _ _ B) as (Hr & Hk & Hbn & Hnz).
  unfold bwrite. apply wp_bind. rewrite holding_sleep_run.
  2:{ apply I. } 2:{ by rewrite (proj1 (proj1 (bi_kinv _ _ _ _ I))). }
  cbn [wp the_slk]. rewrite Hk. cbn [negb bool_decide]. rewrite bool_decide_true by done. cbn [negb].
  apply wp_modify. split_and!.
  - exists L. eapply (bio_held_upd L V); try done; simpl.
    + right. destruct (bo_flags _ _ _ _ B) as [?|[-> | ->]]; done.
    + apply B.
    + rewrite fn_lookup_insert. split; [done|]. destruct (bo_flags _ _ _ _ B) as [?|[-> | ->]]; done.
    + intros. by rewrite fn_lookup_insert_ne.
    + rewrite fn_lookup_insert. apply B.
  - by rewrite the_buf_upd_eq.
  - intros. by apply the_buf_upd_ne.
  - by split.
Qed.

(** Equal up to the links of the list. *)
Definition unlinked (x : buf) : buf := set_b_prev 0 (set_b_next 0 x).

Lemma nx_set_next i v s j : (i < length (k_bufs s))%nat →
  nx (upd_buf i (set_b_next v) s) j = (<[i := v]> (nx s)) j.
Proof.
  intros Hi. unfold nx. rewrite the_buf_upd by done. case_decide; subst.
  - by rewrite fn_lookup_insert.
  - by rewrite fn_lookup_insert_ne.
Qed.
Lemma pv_set_prev i v s j : (i < length (k_bufs s))%nat →
  pv (upd_buf i (set_b_prev v) s) j = (<[i := v]> (pv s)) j.
Proof.
  intros Hi. unfold pv. rewrite the_buf_upd by done. case_decide; subst.
  - by rewrite fn_lookup_insert.
  - by rewrite fn_lookup_insert_ne.
Qed.
Lemma nx_set_prev i v s j : (i < length (k_bufs s))%nat →
  nx (upd_buf i (set_b_prev v) s) j = nx s j.
Proof. intros Hi. unfold nx. rewrite the_buf_upd by done. by case_decide. Qed.
Lemma pv_set_next i v s j : (i < length (k_bufs s))%nat →
  pv (upd_buf i (set_b_next v) s) j = pv s j.
Proof. intros Hi. unfold pv. rewrite the_buf_upd by done. by case_decide. Qed.
Lemma unlinked_set_next i v s j : (i < length (k_bufs s))%nat →
  unlinked (the_buf j (upd_buf i (set_b_next v) s)) = unlinked (the_buf j s).
Proof. intros Hi. rewrite the_buf_upd by done. by case_decide. Qed.
Lemma unlinked_set_prev i v s j : (i < length (k_bufs s))%nat →
  unlinked (the_buf j (upd_buf i (set_b_prev v) s)) = unlinked (the_buf j s).
Proof. intros Hi. rewrite the_buf_upd by done. by case_decide. Qed.

Lemma seg_in_range s L :
  length (k_bufs s) = S NBUF → (∀ b, b ∈ L → (b < NBUF)%nat) →
  seg (nx s) (pv s) NBUF L NBUF →
  ∀ b, b ∈ NBUF :: L → (nx s b < length (k_bufs s))%nat ∧ (pv s b < length (k_bufs s))%nat.
Proof.
  intros Hlen HL Hs b Hb. rewrite Hlen.
  assert (∀ i, (default NBUF (L !! i) < S NBUF)%nat) as HD.
  { intros i. destruct (L !! i) as [x|] eqn:E; simpl; [|lia].
    apply list_elem_of_lookup_2, HL in E. lia. }
  assert (∀ i, (default NBUF (reverse L !! i) < S NBUF)%nat) as HR.
  { intros i. destruct (reverse L !! i) as [x|] eqn:E; simpl; [|lia].
    apply list_elem_of_lookup_2, elem_of_reverse, HL in E. lia. }
  pose proof (seg_reverse _ _ _ _ _ Hs) as Hr.
  apply elem_of_cons in Hb as [->|Hb].
  - rewrite (seg_first _ _ _ _ _ Hs), (seg_first _ _ _ _ _ Hr).
    specialize (HD 0%nat). specialize (HR 0%nat). rewrite <- !head_lookup in *.
    destruct L, (reverse _); simpl in *; lia.
  - split.
    + apply list_elem_of_lookup in Hb as [i Hi]. rewrite (seg_next _ _ _ _ _ i b Hs Hi). apply HD.
    + apply elem_of_reverse, list_elem_of_lookup in Hb as [i Hi].
      rewrite (seg_next _ _ _ _ _ i b Hr Hi). apply HR.
Qed.

Lemma move_to_front_run s l1 b l2 :
  length (k_bufs s) = S NBUF → (∀ e, e ∈ l1 ++ b :: l2 → (e < NBUF)%nat) →
  NoDup (NBUF :: l1 ++ b :: l2) → seg (nx s) (pv s) NBUF (l1 ++ b :: l2) NBUF →
  ∃ s', move_to_front b s = Done tt s' ∧ s' = set_k_bufs (λ _, k_bufs s') s ∧
    length (k_bufs s') = S NBUF ∧ seg (nx s') (pv s') NBUF (b :: l1 ++ l2) NBUF ∧
    ∀ e, unlinked (the_buf e s') = unlinked (the_buf e s).
Proof.
  intros Hlen HL Hnd Hs.
  pose proof (seg_in_range s _ Hlen HL Hs) as Hr.
  destruct (Hr b) as [Hn Hp]; [set_solver|].
  assert (b < length (k_bufs s))%nat as Hb by (rewrite Hlen; specialize (HL b); set_solver by lia).
  assert (NBUF < length (k_bufs s))%nat as HN by (rewrite Hlen; lia).
  assert (NBUF ≠ b) as HNb by (rewrite NoDup_cons in Hnd; set_solver).
  assert (nx s b ≠ b) as Hnb.
  { rewrite (seg_next _ _ _ _ _ (length l1) b Hs) by by apply list_lookup_middle.
    destruct (_ !! S (length l1)) as [z|] eqn:E; simpl; [|done]. intros ->.
    apply NoDup_cons in Hnd as [_ Hnd].
    pose proof (NoDup_lookup _ _ _ _ Hnd E (list_lookup_middle l1 l2 b _ eq_refl)). lia. }
  unfold move_to_front. rewrite bind_gets, bind_modify. fold (pv s b) (nx s b).
  set (s1 := upd_buf (nx s b) _ s).
  assert (length (k_bufs s1) = length (k_bufs s)) as L1 by (subst s1; unfold upd_buf; ksimpl; apply length_alter).
  rewrite bind_gets, bind_modify. fold (pv s1 b) (nx s1 b).
  assert (pv s1 b = pv s b) as E1 by (subst s1; rewrite pv_set_prev by done; by rewrite fn_lookup_insert_ne).
  assert (nx s1 b = nx s b) as E2 by (subst s1; by rewrite nx_set_prev).
  rewrite E1, E2. set (s2 := upd_buf (pv s b) _ s1).
  assert (length (k_bufs s2) = length (k_bufs s)) as L2 by (rewrite <- L1; subst s2; unfold upd_buf; ksimpl; apply length_alter).
  assert (seg (nx s2) (pv s2) NBUF (l1 ++ l2) NBUF) as Hs2.
  { eapply seg_frame; [..|apply (seg_unlink (nx s) (pv s) NBUF l1 b l2 Hnd Hs)]; intros i _; subst s2 s1.
    - rewrite nx_set_next by (by rewrite L1).
      destruct (decide (pv s b = i)) as [->|]; [by rewrite !fn_lookup_insert|].
      by rewrite !fn_lookup_insert_ne, nx_set_prev.
    - rewrite pv_set_next by (by rewrite L1). by rewrite pv_set_prev. }
  rewrite bind_gets, bind_modify. fold (nx s2 NBUF). set (s3 := upd_buf b _ s2).
  assert (length (k_bufs s3) = length (k_bufs s)) as L3 by (rewrite <- L2; subst s3; unfold upd_buf; ksimpl; apply length_alter).
  rewrite bind_modify. set (s4 := upd_buf b _ s3).
  assert (length (k_bufs s4) = length (k_bufs s)) as L4 by (rewrite <- L3; subst s4; unfold upd_buf; ksimpl; apply length_alter).
  rewrite bind_gets, bind_modify. fold (nx s4 NBUF).
  assert (nx s4 NBUF = nx s2 NBUF) as E4.
  { subst s4 s3. rewrite nx_set_prev, nx_set_next by (rewrite ?L3, ?L2; done). by rewrite fn_lookup_insert_ne. }
  rewrite E4. set (s5 := upd_buf (nx s2 NBUF) _ s4).
  assert (length (k_bufs s5) = length (k_bufs s)) as L5 by (rewrite <- L4; subst s5; unfold upd_buf; ksimpl; apply length_alter).
  assert (nx s2 NBUF < length (k_bufs s))%nat as HN2.
  { rewrite <- L2. apply (seg_in_range s2 (l1 ++ l2)); try done; [by rewrite L2| |set_solver].
    intros e He. apply HL. set_solver. }
  eexists. split; [reflexivity|]. set (s6 := upd_buf NBUF _ s5). split_and!.
  - subst s6 s5 s4 s3 s2 s1. by kext.
  - rewrite <- Hlen, <- L5. subst s6. unfold upd_buf; ksimpl. apply length_alter.
  - eapply seg_frame; [..|apply (seg_push (nx s2) (pv s2) NBUF b (l1 ++ l2)); [|done]].
    + intros i _. subst s6 s5 s4 s3. rewrite nx_set_next by (by rewrite L5).
      destruct (decide (NBUF = i)) as [->|]; [by rewrite !fn_lookup_insert|].
      rewrite !fn_lookup_insert_ne by done.
      rewrite nx_set_prev, nx_set_prev, nx_set_next by (rewrite ?L4, ?L3, ?L2; done). done.
    + intros i _. subst s6 s5 s4 s3. rewrite pv_set_next by (by rewrite L5).
      rewrite pv_set_prev by (by rewrite L4). 
      destruct (decide (nx s2 NBUF = i)) as [->|]; [by rewrite !fn_lookup_insert|].
      rewrite !fn_lookup_insert_ne by done.
      rewrite pv_set_prev by (by rewrite L3).
      destruct (decide (b = i)) as [->|]; [by rewrite !fn_lookup_insert|].
      rewrite !fn_lookup_insert_ne by done. by rewrite pv_set_next by (by rewrite L2).
    + revert Hnd. rewrite !NoDup_cons, !NoDup_app, !NoDup_cons. set_solver.
  - intros e. subst s6 s5 s4 s3 s2 s1.
    rewrite unlinked_set_next, unlinked_set_prev, unlinked_set_prev, unlinked_set_next,
      unlinked_set_next, unlinked_set_prev by (rewrite ?L5, ?L4, ?L3, ?L2, ?L1; done). done.
Qed.

(** The buffer [brelse] leaves behind, up to its links. *)
Definition dropped (x : buf) : buf := set_b_refcnt 0 (set_b_lk (mk_sleep 0 0) x).

Lemma unlinked_fields x y : unlinked x = unlinked y →
  b_flags x = b_flags y ∧ b_dev x = b_dev y ∧ b_blockno x = b_blockno y ∧
  b_lk x = b_lk y ∧ b_refcnt x = b_refcnt y ∧ b_data x = b_data y.
Proof. destruct x, y. unfold unlinked. simpl. intros [=]. by subst. Qed.

Lemma buf_ok_unlinked V d h x y : unlinked x = unlinked y → buf_ok V d h x → buf_ok V d h y.
Proof.
  intros (E1 & E2 & E3 & E4 & E5 & E6)%unlinked_fields [].
  split; rewrite <- ?E1, <- ?E2, <- ?E3, <- ?E4, <- ?E5, <- ?E6; done.
Qed.

Lemma bio_released L V H s l1 b l2 blk s' :
  bio_at L V H s → L = l1 ++ b :: l2 → H !! b = Some (blk, true) →
  kinv s' → length (k_bufs s') = S NBUF → k_disk s' = k_disk s →
  seg (nx s') (pv s') NBUF (b :: l1 ++ l2) NBUF →
  (∀ e, unlinked (the_buf e s') =
        unlinked (if decide (b = e) then dropped (the_buf e s) else the_buf e s)) →
  bio_at (b :: l1 ++ l2) V (delete b H) s'.
Proof.
  intros I EL Hh Hk Hlen Hd Hs E.
  assert (b < NBUF)%nat as HbN by by eapply (bi_H _ _ _ _ I).
  pose proof (bi_bufs _ _ _ _ I b HbN) as B. rewrite Hh in B.
  destruct (bo_held _ _ _ _ B) as (Hr & Hkl & Hbn & Hnz).
  assert (∀ e, b_flags (the_buf e s') = b_flags (the_buf e s) ∧
               b_blockno (the_buf e s') = b_blockno (the_buf e s)) as Ef.
  { intros e. destruct (unlinked_fields _ _ (E e)) as (E1 & _ & E3 & _).
    rewrite E1, E3. by case_decide. }
  assert (b :: l1 ++ l2 ≡ₚ L) as HP by (rewrite EL; apply Permutation_middle).
  split.
  - done.
  - done.
  - rewrite HP. apply I.
  - done.
  - intros e He. eapply buf_ok_unlinked; [symmetry; apply E|]. rewrite Hd.
    case_decide as Ee.
    + subst e. rewrite lookup_delete_eq. split; simpl; try apply B; [split; done|].
      intros _ _. apply B; [done|]. done.
    + rewrite lookup_delete_ne by done. by apply (bi_bufs _ _ _ _ I).
  - assert (NoDup L) as Hnd by by eapply bio_nodup.
    assert (∀ c, c ∈ l1 ++ l2 → b_blockno (the_buf b s) = b_blockno (the_buf c s) →
      b_flags (the_buf c s) = 0) as Hb.
    { intros c Hc Hx. destruct (decide (b_flags (the_buf c s) = 0)) as [|Hf]; [done|exfalso].
      revert Hx. apply (bio_same_block L V H s I); try done; rewrite ?EL; [set_solver..|].
      rewrite EL in Hnd. apply NoDup_app in Hnd as (_ & Hd1 & Hd2%NoDup_cons).
      intros <-. apply elem_of_app in Hc as [Hc|Hc]; [|set_solver]. apply Hd1 in Hc. set_solver. }
    intros i j a c Hij Ha Hc Hx. destruct (Ef a) as [_ Ea], (Ef c) as [Efc Ec].
    rewrite Efc. rewrite Ea, Ec in Hx.
    destruct j as [|j]; [lia|]. simpl in Hc.
    destruct i as [|i]; simpl in Ha.
    + injection Ha as <-. apply Hb; [by eapply list_elem_of_lookup_2|done].
    + assert (∀ k, (l1 ++ l2) !! k = L !! (if decide (k < length l1) then k else S k)%nat) as Hat.
      { intros k. rewrite EL. case_decide.
        - by rewrite !lookup_app_l.
        - rewrite lookup_app_r by lia. rewrite lookup_app_r by lia.
          replace (S k - length l1)%nat with (S (k - length l1)) by lia. done. }
      rewrite Hat in Ha, Hc. eapply (bi_uniq _ _ _ _ I _ _ a c); [|exact Ha|exact Hc|done].
      repeat case_decide; lia.
  - unfold nblk. rewrite Hd. intros bl Hbl Hv. apply (bi_disk _ _ _ _ I); [done|].
    intros e He Hbe. destruct (Ef e) as [E1 E2]. rewrite <- E1. apply Hv; [done|congruence].
  - unfold nblk. rewrite Hd. apply I.
  - intros e x [_ Hx]%lookup_delete_Some. by eapply (bi_H _ _ _ _ I).
Qed.

(** Releasing a buffer keeps every block's contents and makes the buffer the
    most recently used one. *)
Lemma brelse_at L V H s b blk :
  bio_at L V H s → H !! b = Some (blk, true) →
  wp (brelse b s) (λ _ s',
    (∃ l1 l2, L = l1 ++ b :: l2 ∧ bio_at (b :: l1 ++ l2) V (delete b H) s') ∧
    (∀ e, b_data (the_buf e s') = b_data (the_buf e s)) ∧ bio_frame s s').
Proof.
  intros I Hh.
  assert (b < NBUF)%nat as HbN by by eapply (bi_H _ _ _ _ I).
  assert (b < length (k_bufs s))%nat as Hb by (rewrite (bi_len _ _ _ _ I); lia).
  pose proof (bi_bufs _ _ _ _ I b HbN) as B. rewrite Hh in B.
  destruct (bo_held _ _ _ _ B) as (Hr & Hk & Hbn & Hnz).
  pose proof (bi_kinv _ _ _ _ I) as [[Hl Hc] Hp].
  pose proof (proj2 (bio_elem _ _ _ _ b I) HbN) as [l1 [l2 EL]]%list_elem_of_split.
  unfold brelse. apply wp_bind. rewrite holding_sleep_run by (by rewrite ?Hl).
  cbn [wp the_slk]. rewrite Hk, bool_decide_true by done. cbn [negb].
  apply wp_bind. rewrite release_sleep_run by (by rewrite ?Hl). cbn [wp].
  set (s1 := set_k_procs _ _).
  assert (kinv s1) as K1. { split; [by split|]. subst s1. ksimpl. by rewrite length_fmap. }
  apply wp_bind. rewrite acquire_bcache_run by apply K1. cbn [wp].
  rewrite bind_modify. rewrite bind_gets. set (s2 := upd_buf b _ _).
  set (s0 := upd_buf b dropped s).
  assert (k_bufs s2 = k_bufs s0) as Eb.
  { subst s2 s0. unfold bcache_locked. ksimpl. subst s1. ksimpl. unfold upd_slk, upd_buf. ksimpl.
    rewrite alter_alter. apply list_alter_ext; [|done]. intros x Hx.
    unfold the_buf in Hr. rewrite Hx in Hr. simpl in Hr. unfold compose, dropped; simpl. by rewrite Hr. }
  assert (∀ e, the_buf e s2 = if decide (b = e) then dropped (the_buf e s) else the_buf e s) as E2.
  { intros e. unfold the_buf at 1. rewrite Eb. fold (the_buf e s0). by apply the_buf_upd. }
  rewrite E2, decide_True by done. rewrite bool_decide_true by done. cbn [when].
  destruct (move_to_front_run s2 l1 b l2) as (s3 & Hm & Es3 & L3 & Hs3 & U3).
  - rewrite Eb. subst s0. unfold upd_buf; ksimpl. rewrite length_alter. apply I.
  - rewrite <- EL. intros e. apply (bio_elem _ _ _ _ e I).
  - rewrite <- EL. apply NoDup_cons. split; [|by eapply bio_nodup].
    rewrite (bio_elem _ _ _ _ _ I). lia.
  - rewrite <- EL. eapply seg_frame; [..|apply I]; intros e _; unfold nx, pv; rewrite E2; by case_decide.
  - erewrite bind_done by exact Hm.
    rewrite (release_bcache_run s1 s3) by first [apply K1|by rewrite Es3].
    cbn [wp]. split_and!.
    + exists l1, l2. split; [done|]. eapply bio_released; try done.
      * rewrite Es3. ksimpl. destruct K1 as [[? ?] ?]. by split.
      * rewrite Es3. done.
      * intros e. ksimpl. rewrite U3, E2. done.
    + intros e. ksimpl. destruct (unlinked_fields _ _ (U3 e)) as (_ & _ & _ & _ & _ & ->).
      rewrite E2. by case_decide.
    + rewrite Es3. split; try done. apply woken_wake.
Qed.

Lemma brelse_ok V H s b blk :
  bio_inv V H s → H !! b = Some (blk, true) →
  wp (brelse b s) (λ _ s', bio_inv V (delete b H) s' ∧
    (∀ e, b_data (the_buf e s') = b_data (the_buf e s)) ∧ bio_frame s s').
Proof.
  intros [L I] Hh. eapply wp_mono; [by eapply brelse_at|]. simpl.
  intros _ s' ((l1 & l2 & _ & I') & HD & HF). split_and!; try done. by eexists.
Qed.
End Brelse.

(** A block can be read when nobody holds it and a buffer is left. *)
Definition can_read (H : holders) (blk : Z) (s : kstate) : Prop :=
  0 ≤ blk < nblk s ∧ blk_free blk H ∧ (size H < NBUF)%nat.

Lemma can_read_frame H blk s s' : bio_frame s s' → can_read H blk s → can_read H blk s'.
Proof. intros F. unfold can_read, nblk. by rewrite (bf_size _ _ F). Qed.


(** ** Whole transactions on one block *)
Section Transactions.
Context {wf : WakeFuel}.

Definition read_block (blk : Z) : M kstate (list byte) :=
  let! b := bread 0 blk in
  let! x := gets (the_buf b) in
  brelse b ;;;
  ret (b_data x).

Definition write_block (blk : Z) (off : nat) (bytes : list byte) : M kstate unit :=
  let! b := bread 0 blk in
  bstore b off bytes ;;;
  bwrite b ;;;
  brelse b.

Lemma read_block_ok V H s blk :
  bio_inv V H s → can_read H blk s →
  wp (read_block blk s) (λ d s', d = V blk ∧ bio_inv V H s' ∧ bio_frame s s').
Proof.
  intros I (Hb & Hf & Hn). unfold read_block. apply wp_bind.
  kuse bread_ok; [exact I|exact Hb|exact Hf|exact Hn|]. intros b s1 (I1 & HH & Hd & _ & F1).
  rewrite bind_gets. apply wp_bind. kuse brelse_ok; [exact I1|apply lookup_insert_eq|].
  intros _ s2 (I2 & _ & F2). apply wp_ret. split_and!; [done| |by etrans].
  by rewrite delete_insert_id in I2.
Qed.

Lemma write_block_ok V H s blk off bytes :
  bio_inv V H s → can_read H blk s → (off + length bytes ≤ BSIZE_nat)%nat →
  wp (write_block blk off bytes s) (λ _ s',
    bio_inv (<[blk := splice off bytes (V blk)]> V) H s' ∧ bio_frame s s').
Proof.
  intros I (Hb & Hf & Hn) Hlen. unfold write_block. apply wp_bind.
  kuse bread_ok; [exact I|exact Hb|exact Hf|exact Hn|]. intros b s1 (I1 & HH & Hd & _ & F1).
  apply wp_bind. kuse bstore_ok; [exact I1|apply lookup_insert_eq|done|].
  intros _ s2 (I2 & Hd2 & _ & F2). rewrite insert_insert_eq in I2.
  apply wp_bind. kuse bwrite_ok; [exact I2|apply lookup_insert_eq|].
  intros _ s3 (I3 & Hd3 & _ & F3). rewrite insert_insert_eq in I3.
  kuse brelse_ok; [exact I3|apply lookup_insert_eq|].
  intros _ s4 (I4 & _ & F4). rewrite delete_insert_id in I4 by done.
  rewrite Hd2, Hd in I4. split; [done|]. by do 3 (etrans; [done|]).
Qed.

(** The common tail of an update: store into the held buffer, mark it dirty,
    release it. *)
Lemma store_release_ok V H s b blk off bytes :
  bio_inv V (<[b := (blk, true)]> H) s → H !! b = None → b_data (the_buf b s) = V blk →
  (off + length bytes ≤ BSIZE_nat)%nat →
  wp ((bstore b off bytes ;;; bwrite b ;;; brelse b) s) (λ _ s',
    bio_inv (<[blk := splice off bytes (V blk)]> V) H s' ∧ bio_frame s s').
Proof.
  intros I1 HH Hd Hlen.
  apply wp_bind. kuse bstore_ok; [exact I1|apply lookup_insert_eq|done|].
  intros _ s2 (I2 & Hd2 & _ & F2). rewrite insert_insert_eq in I2.
  apply wp_bind. kuse bwrite_ok; [exact I2|apply lookup_insert_eq|].
  intros _ s3 (I3 & Hd3 & _ & F3). rewrite insert_insert_eq in I3.
  kuse brelse_ok; [exact I3|apply lookup_insert_eq|].
  intros _ s4 (I4 & _ & F4). rewrite delete_insert_id in I4 by done.
  rewrite Hd2, Hd in I4. split; [done|]. by do 2 (etrans; [done|]).
Qed.

(** The same when something follows. *)
Lemma wp_store_release {A} V H s b blk off bytes (k : M kstate A) Q :
  bio_inv V (<[b := (blk, true)]> H) s → H !! b = None → b_data (the_buf b s) = V blk →
  (off + length bytes ≤ BSIZE_nat)%nat →
  (∀ s', bio_inv (<[blk := splice off bytes (V blk)]> V) H s' → bio_frame s s' → wp (k s') Q) →
  wp ((bstore b off bytes ;;; bwrite b ;;; brelse b ;;; k) s) Q.
Proof.
  intros I1 HH Hd Hlen HQ. apply wp_assoc3.
  kuse store_release_ok; [exact I1|done..|]. intros _ s' []. by apply HQ.
Qed.

(** The common tail of a read. *)
Lemma wp_release {A} V H s b blk (k : M kstate A) Q :
  bio_inv V (<[b := (blk, true)]> H) s → H !! b = None →
  (∀ s', bio_inv V H s' → bio_frame s s' → wp (k s') Q) →
  wp ((brelse b ;;; k) s) Q.
Proof.
  intros I1 HH HQ. apply wp_bind. kuse brelse_ok; [exact I1|apply lookup_insert_eq|].
  intros _ s4 (I4 & _ & F4). rewrite delete_insert_id in I4 by done. by apply HQ.
Qed.

(** Reading a block, as the first step of a computation. *)
Lemma wp_bread {A} V H s blk (f : nat → M kstate A) Q :
  bio_inv V H s → can_read H blk s →
  (∀ b s', bio_inv V (<[b := (blk, true)]> H) s' → H !! b = None →
     b_data (the_buf b s') = V blk → (∀ c, c ≠ b → the_buf c s' = the_buf c s) →
     bio_frame s s' → wp (f b s') Q) →
  wp (bind (bread 0 blk) f s) Q.
Proof.
  intros I (Hb & Hf & Hn) HQ. apply wp_bind. kuse bread_ok; [exact I|done..|].
  intros b s' (? & ? & ? & ? & ?). by apply HQ.
Qed.
End Transactions.
