(* ===== verification/BioSpec.v ===== *)
(** * The buffer cache implements a store of blocks

    The theorems about [kernel/bio.c]: what [bcache_init] sets up, that any
    sequence of reads and writes through the cache behaves like direct access
    to an array of blocks, the recycling order, and the failure when every
    buffer is in use. *)
From S2P Require Import Prelude State Spinlock Sched Sleeplock Ring Bio.

(** ** Initialisation *)

(** The table [bcache_init] builds: buffer 29 is first, buffer 0 last. *)
Definition init_buf (i : nat) : buf :=
  mk_buf 0 0 0 (mk_sleep 0 0) 0 (if decide (i = 29)%nat then NBUF else S i)
    (if decide (i = 0)%nat then NBUF else pred i) zero_block.
Definition init_bufs : list buf :=
  (init_buf <$> seq 0 NBUF) ++ [mk_buf 0 0 0 (mk_sleep 0 0) 0 0 29 zero_block].

Definition lru_order : list nat := reverse (seq 0 NBUF).

Lemma init_bufs_seg s :
  k_bufs s = init_bufs → seg (nx s) (pv s) NBUF lru_order NBUF.
Proof. intros E. unfold nx, pv, the_buf. rewrite E. cbv -[zero_block]. repeat split. Qed.

Lemma init_bufs_lookup s b :
  k_bufs s = init_bufs → (b < NBUF)%nat → the_buf b s = init_buf b.
Proof.
  intros E Hb. unfold the_buf. rewrite E. unfold init_bufs.
  rewrite lookup_app_l by (by rewrite length_fmap, length_seq).
  by rewrite list_lookup_fmap, lookup_seq_lt.
Qed.

Lemma init_bufs_inv s :
  kinv s → k_bufs s = init_bufs → 0 < nblk s →
  (∀ blk, 0 ≤ blk < nblk s → length (disk_block (k_disk s) blk) = BSIZE_nat) →
  bio_at lru_order (disk_block (k_disk s)) ∅ s.
Proof.
  intros Hk E Hn Hlen.
  assert (∀ b, (b < NBUF)%nat → the_buf b s = init_buf b) as Eb by (intros; by apply init_bufs_lookup).
  split; try done.
  - by rewrite E.
  - apply reverse_Permutation.
  - by apply init_bufs_seg.
  - intros b Hb. rewrite Eb by done. rewrite lookup_empty. split; simpl; try done. by left.
  - intros i j a c _ _ Hc _. rewrite Eb; [done|].
    apply list_elem_of_lookup_2, elem_of_reverse, elem_of_seq in Hc. lia.
Qed.

(** The zero-initialised table of [bio.c]. *)
Definition zero_bufs : list buf := replicate (S NBUF) buf0.

Section BioSpec.
Context {wf : WakeFuel}.

Lemma bcache_init_run s :
  k_locks s = ∅ → k_bufs s = zero_bufs →
  bcache_init s = Done tt (set_k_bufs (λ _, init_bufs) s).
Proof.
  intros E1 E2. destruct s; simpl in E1, E2. subst.
  lazy -[zero_block]. reflexivity.
Qed.

(** [bcache_init] on the zeroed table leaves a well-formed cache that
    represents the blocks on the disk, with no buffer held. *)
Theorem bcache_init_establishes s :
  kinv s → k_bufs s = zero_bufs → 0 < nblk s →
  (∀ blk, 0 ≤ blk < nblk s → length (disk_block (k_disk s) blk) = BSIZE_nat) →
  wp (bcache_init s) (λ _ s', bio_inv (disk_block (k_disk s)) ∅ s' ∧ bio_frame s s').
Proof.
  intros Hk E Hn Hlen. rewrite bcache_init_run by first [done|apply Hk].
  split; [|by split]. exists lru_order.
  assert (bio_frame s (set_k_bufs (λ _, init_bufs) s)) as F by by split.
  by apply (init_bufs_inv (set_k_bufs (λ _, init_bufs) s)); [apply (kinv_frame _ _ F)|..].
Qed.

(** ** Recycling *)

(** C7. A block that is not cached takes the place of the least recently
    released buffer that nobody holds, and the contents that buffer had are on
    the disk afterwards; releasing a buffer puts it at the recently used end
    of the list and keeps the order of the others. *)
Theorem bcache_lru L V H s blk :
  bio_at L V H s → can_read H blk s →
  (∀ c, c ∈ L → b_blockno (the_buf c s) ≠ blk) →
  ∃ newer a busy, L = newer ++ a :: busy ∧ H !! a = None ∧
    (∀ c, c ∈ busy → is_Some (H !! c)) ∧
    wp (bread 0 blk s) (λ b s1, b = a ∧
      (b_flags (the_buf a s) ≠ 0 →
       disk_block (k_disk s1) (b_blockno (the_buf a s)) = V (b_blockno (the_buf a s))) ∧
      wp (brelse b s1) (λ _ s2, bio_at (a :: newer ++ busy) V H s2)).
Proof.
  intros I (Hb & Hf & Hn) Hmiss.
  destruct (bread_miss_ok L V H s blk) as (l1 & a & l2 & EL & Ha & Hl1 & Hr & I1); try done.
  assert (L = reverse l2 ++ a :: reverse l1) as EL'.
  { rewrite <- (reverse_involutive L), EL, reverse_app, reverse_cons, <- app_assoc. done. }
  exists (reverse l2), a, (reverse l1). split_and!; [done|done|..].
  { intros c Hc%elem_of_reverse%Hl1. by apply not_eq_None_Some. }
  rewrite Hr. split_and!; [done|..].
  - intros Hfl. apply (flushed_block L V H s I); [|done|done]. rewrite EL'. set_solver.
  - kuse brelse_at; [exact I1|apply lookup_insert_eq|].
    intros _ s2 ((m1 & m2 & EL2 & I2) & _ & _). rewrite delete_insert_id in I2 by done.
    rewrite EL' in EL2. apply NoDup_split_unique in EL2 as [-> ->]; [done|].
    rewrite <- EL'. by eapply bio_nodup.
Qed.

(** When all the buffers are held, [bget] on another block panics. *)
Theorem bget_no_buffers V H s blk :
  bio_inv V H s → size H = NBUF → blk_free blk H →
  panics (bget 0 blk s) "bget: no buffers available".
Proof.
  intros I Hs Hf. eapply bget_exhausted; [done| |done]. by apply (holders_full V H s).
Qed.

(** ** Sequences of transactions against the abstract store *)

Inductive blk_op := BlkRead (blk : Z) | BlkWrite (blk : Z) (off : nat) (bytes : list byte).

Definition run_op (o : blk_op) : M kstate (list byte) :=
  match o with
  | BlkRead blk => read_block blk
  | BlkWrite blk off bytes => write_block blk off bytes ;;; ret []
  end.
Fixpoint run_ops (os : list blk_op) : M kstate (list (list byte)) :=
  match os with
  | [] => ret []
  | o :: os' => let! d := run_op o in let! ds := run_ops os' in ret (d :: ds)
  end.

(** The specification: an array of blocks. *)
Definition spec_op (o : blk_op) (V : store) : list byte * store :=
  match o with
  | BlkRead blk => (V blk, V)
  | BlkWrite blk off bytes => ([], <[blk := splice off bytes (V blk)]> V)
  end.
Fixpoint spec_ops (os : list blk_op) (V : store) : list (list byte) * store :=
  match os with
  | [] => ([], V)
  | o :: os' => let '(d, V1) := spec_op o V in
                let '(ds, V2) := spec_ops os' V1 in (d :: ds, V2)
  end.

Definition op_ok (n : Z) (o : blk_op) : Prop :=
  match o with
  | BlkRead blk => 0 ≤ blk < n
  | BlkWrite blk off bytes => 0 ≤ blk < n ∧ (off + length bytes ≤ BSIZE_nat)%nat
  end.
#[export] Instance op_ok_dec n o : Decision (op_ok n o).
Proof. destruct o; apply _. Defined.

Lemma can_read_free blk s : 0 ≤ blk < nblk s → can_read ∅ blk s.
Proof. intros. split_and!; [lia..|by intros ? ?|rewrite map_size_empty; unfold NBUF; lia]. Qed.

Lemma run_op_ok V s o :
  bio_inv V ∅ s → op_ok (nblk s) o →
  wp (run_op o s) (λ d s', d = (spec_op o V).1 ∧ bio_inv (spec_op o V).2 ∅ s' ∧ bio_frame s s').
Proof.
  intros I Ho. destruct o as [blk|blk off bytes]; simpl in *.
  - kuse read_block_ok; [exact I|by apply can_read_free|]. intros; tauto.
  - destruct Ho. apply wp_bind. kuse write_block_ok; [exact I|by apply can_read_free|assumption|].
    intros _ s' []. by apply wp_ret.
Qed.

(** C1. The buffer cache, with its recycling of buffers and delayed
    write-back, is indistinguishable from an array of blocks: any sequence
    of reads and writes of blocks that starts with no buffer held runs
    without panicking or sleeping, returns what direct access to the array
    would return, and ends with the cache representing the updated array. *)
Theorem bcache_refines_store V s os :
  bio_inv V ∅ s → Forall (op_ok (nblk s)) os →
  wp (run_ops os s) (λ ds s', ds = (spec_ops os V).1 ∧ bio_inv (spec_ops os V).2 ∅ s').
Proof.
  revert V s. induction os as [|o os IH]; intros V s I Hos; simpl.
  - by apply wp_ret.
  - apply Forall_cons in Hos as [Ho Hos]. apply wp_bind.
    kuse run_op_ok; [exact I|exact Ho|]. intros d s1 (Hd & I1 & F).
    apply wp_bind. kuse IH; [exact I1|by unfold nblk; rewrite (bf_size _ _ F)|].
    intros ds s2 (-> & I2). apply wp_ret. destruct (spec_op o V) as [d' V1]. simpl in *.
    destruct (spec_ops os V1). simpl in *. by subst.
Qed.
End BioSpec.

(** A kernel after [bcache_init] with a ram disk of 64 zero blocks. *)
Definition kstate_bio : kstate :=
  set_k_bufs (λ _, init_bufs) (set_k_disk (λ _, mk_disk ∅ (64 * BSIZE)) kstate0).

Lemma kstate0_kinv : kinv kstate0.
Proof. repeat split; by vm_compute. Qed.

Lemma disk_block_empty sz blk : disk_block (mk_disk ∅ sz) blk = zero_block.
Proof. done. Qed.

Lemma kstate_bio_inv : bio_inv (disk_block (mk_disk ∅ (64 * BSIZE))) ∅ kstate_bio.
Proof.
  exists lru_order. apply (init_bufs_inv kstate_bio); [|done|done|].
  - destruct kstate0_kinv as [[? ?] ?]. by split.
  - intros. unfold disk_block. apply length_replicate.
Qed.

Lemma bcache_refines_store_witness :
  wp (@run_ops 1%nat [BlkWrite 5 2 [x01; x02]; BlkRead 5] kstate_bio) (λ ds _,
    slice 0 5 <$> ds = [[]; [x00; x00; x01; x02; x00]]).
Proof.
  eapply wp_mono.
  - apply (@bcache_refines_store 1%nat); [apply kstate_bio_inv|].
    repeat constructor; simpl; [lia|lia|vm_compute; lia..].
  - intros ds s' [-> _]. reflexivity.
Defined.

Lemma bcache_init_establishes_witness :
  wp (@bcache_init (set_k_disk (λ _, mk_disk ∅ (64 * BSIZE)) kstate0))
    (λ _ s', bio_inv (disk_block (mk_disk ∅ (64 * BSIZE))) ∅ s').
Proof.
  eapply wp_mono.
  - apply bcache_init_establishes; [|done|done|].
    + destruct kstate0_kinv as [[? ?] ?]. by split.
    + intros. apply length_replicate.
  - intros _ s' [I _]. exact I.
Defined.

(** The cache of [kstate_bio] holds block 0 only, so block 7 recycles buffer 0. *)
Lemma bcache_lru_witness :
  can_read ∅ 7 kstate_bio ∧ ∃ newer a busy, lru_order = newer ++ a :: busy ∧
    wp (@bread 1%nat 0 7 kstate_bio) (λ b _, b = a).
Proof.
  assert (can_read ∅ 7 kstate_bio) as Hc by by apply can_read_free.
  split; [exact Hc|].
  destruct (@bcache_lru 1%nat lru_order (disk_block (mk_disk ∅ (64 * BSIZE))) ∅ kstate_bio 7)
    as (newer & a & busy & E & _ & _ & W); [|exact Hc| |].
  - apply (init_bufs_inv kstate_bio); [|done|done|].
    + destruct kstate0_kinv as [[? ?] ?]. by split.
    + intros. apply length_replicate.
  - intros c Hcl. rewrite (init_bufs_lookup kstate_bio); [done|done|].
    apply elem_of_reverse, elem_of_seq in Hcl. lia.
  - exists newer, a, busy. split; [exact E|]. eapply wp_mono; [exact W|]. by intros b s1 [-> _].
Defined.

(** Reading the blocks [0 .. n) without releasing them. *)
Lemma kstate_bio_hold {wf : WakeFuel} n : (n ≤ NBUF)%nat →
  ∃ H s, bio_inv (disk_block (mk_disk ∅ (64 * BSIZE))) H s ∧ nblk s = 64 ∧ size H = n ∧
    ∀ b x, H !! b = Some x → x.1 < Z.of_nat n.
Proof.
  induction n as [|n IH]; intros Hn.
  - exists ∅, kstate_bio. split_and!; [apply kstate_bio_inv|done|done|done].
  - destruct IH as (H & s & I & Hs & Hz & Hf); [lia|].
    destruct (wp_done _ _ (bread_ok _ H s (Z.of_nat n) I ltac:(unfold NBUF in *; lia)
      ltac:(intros b x Hb; apply Hf in Hb; lia) ltac:(lia))) as (b & s' & _ & I' & HH & _ & _ & F).
    exists (<[b := (Z.of_nat n, true)]> H), s'. split_and!.
    + done.
    + unfold nblk. by rewrite (bf_size _ _ F).
    + by rewrite map_size_insert_None, Hz.
    + intros c x. rewrite lookup_insert. case_decide; [intros [= <-]; simpl; lia|].
        intros Hc. apply Hf in Hc. lia.
Qed.

Lemma bget_no_buffers_witness :
  ∃ s, panics (@bget 1%nat 0 63 s) "bget: no buffers available".
Proof.
  destruct (@kstate_bio_hold 1%nat NBUF) as (H & s & I & _ & Hz & Hf); [done|].
  exists s. eapply bget_no_buffers; [exact I|exact Hz|].
  intros b x Hb. apply Hf in Hb. unfold NBUF in Hb. lia.
Defined.
