(* ===== verification/Balloc.v ===== *)
(** * The block allocator (kernel/fs.c: read_sb, bzero, balloc, bfree)

    One bit per block in the bitmap blocks; a block that is handed out is
    zeroed. *)
From S2P Require Import Prelude State Spinlock Sched Sleeplock Ring Bio BioSpec.

Definition BBLOCK (b : Z) (sb : super_block) : Z := b / BPB + sb_bmap_start sb.
Definition SB_SIZE : nat := 40.

Definition sb_bytes (sb : super_block) : list byte :=
  le_put 8 (sb_size sb) ++ le_put 8 (sb_n_blocks sb) ++ le_put 8 (sb_n_inodes sb) ++
  le_put 8 (sb_inode_start sb) ++ le_put 8 (sb_bmap_start sb).
Definition sb_of_bytes (l : list byte) : super_block :=
  mk_sb (get_le 8 0 l) (get_le 8 8 l) (get_le 8 16 l) (get_le 8 24 l) (get_le 8 32 l).

Section Balloc.
Context {wf : WakeFuel}.

Definition read_sb (dev : Z) : M kstate unit :=
  let! bp := bread dev 1 in
  let! x := gets (the_buf bp) in
  modify (set_k_sb (λ _, sb_of_bytes (b_data x))) ;;;
  brelse bp.

Definition bzero (dev bno : Z) : M kstate unit :=
  let! bp := bread dev bno in
  bstore bp 0 zero_block ;;;
  bwrite bp ;;;
  brelse bp.

Definition balloc (dev : Z) : M kstate Z :=
  let! sb := gets k_sb in
  let! r := for_return ((λ k, k * BPB) <$> seqZ 0 ((sb_size sb + BPB - 1) / BPB)) (λ b,
    let! bp := bread dev (BBLOCK b sb) in
    let! r := for_return (seqZ 0 (Z.min BPB (sb_size sb - b))) (λ bi,
      let m := Z.shiftl 1 (bi `mod` 8) in
      let! x := gets (the_buf bp) in
      if bool_decide (Z.land (dbyte (bi / 8) (b_data x)) m ≠ 0) then ret None else
      bstore bp (Z.to_nat (bi / 8)) [z2b (Z.lor (dbyte (bi / 8) (b_data x)) m)] ;;;
      bwrite bp ;;;
      brelse bp ;;;
      bzero dev (b + bi) ;;;
      ret (Some (b + bi))) in
    match r with
    | Some a => ret (Some a)
    | None => brelse bp ;;; ret None
    end) in
  match r with
  | Some a => ret a
  | None => panic "balloc: oob"
  end.

Definition bfree (dev blk : Z) : M kstate unit :=
  let! sb := gets k_sb in
  let! bp := bread dev (BBLOCK blk sb) in
  let bi := blk `mod` BPB in
  let m := Z.shiftl 1 (bi `mod` 8) in
  let! x := gets (the_buf bp) in
  if bool_decide (Z.land (dbyte (bi / 8) (b_data x)) m = 0) then panic "freeing free block" else
  bstore bp (Z.to_nat (bi / 8)) [z2b (Z.land (dbyte (bi / 8) (b_data x)) (Z.lnot m))] ;;;
  bwrite bp ;;;
  brelse bp.
End Balloc.

(** ** Bits of a bitmap block *)
Definition bit_get (b : Z) (d : list byte) : bool := Z.testbit (dbyte (b / 8) d) (b `mod` 8).
Definition bit_set (b : Z) (d : list byte) : list byte :=
  splice (Z.to_nat (b / 8)) [z2b (Z.lor (dbyte (b / 8) d) (Z.shiftl 1 (b `mod` 8)))] d.
Definition bit_clear (b : Z) (d : list byte) : list byte :=
  splice (Z.to_nat (b / 8))
    [z2b (Z.land (dbyte (b / 8) d) (Z.lnot (Z.shiftl 1 (b `mod` 8))))] d.

Lemma land_bit_zero x k : 0 ≤ k → Z.land x (Z.shiftl 1 k) = 0 ↔ Z.testbit x k = false.
Proof.
  intros Hk. rewrite Z.shiftl_mul_pow2, Z.mul_1_l by done. split; intros H.
  - assert (Z.testbit (Z.land x (2 ^ k)) k = false) as E by (rewrite H; apply Z.bits_0).
    rewrite Z.land_spec, Z.pow2_bits_true, andb_true_r in E by done. done.
  - apply Z.bits_inj'. intros n Hn. rewrite Z.land_spec, Z.bits_0.
    destruct (decide (n = k)) as [->|]; [by rewrite H|].
    rewrite Z.pow2_bits_false by lia. apply andb_false_r.
Qed.

Lemma byte_pos_inj b c : b / 8 = c / 8 → b `mod` 8 = c `mod` 8 → b = c.
Proof. intros. rewrite (Z.div_mod b 8), (Z.div_mod c 8) by lia. congruence. Qed.

Lemma testbit_mod_256 v k : 0 ≤ k < 8 → Z.testbit (v `mod` 256) k = Z.testbit v k.
Proof. intros. change 256 with (2 ^ 8). apply Z.mod_pow2_bits_low; lia. Qed.

Lemma testbit_bit k j : 0 ≤ k → Z.testbit (Z.shiftl 1 k) j = bool_decide (j = k).
Proof.
  intros. rewrite Z.shiftl_mul_pow2, Z.mul_1_l, Z.pow2_bits_eqb by done.
  case_bool_decide; [apply Z.eqb_eq|apply Z.eqb_neq]; lia.
Qed.

Section Bits.
Context (b c : Z) (d : list byte).
Context (Hb : 0 ≤ b < 8 * Z.of_nat (length d)) (Hc : 0 ≤ c).

Let Hbl : 0 ≤ b / 8 < Z.of_nat (length d).
Proof. pose proof Hb. split; [apply Z.div_pos; lia|apply Z.div_lt_upper_bound; lia]. Qed.
Let Hcl : 0 ≤ c / 8.
Proof. apply Z.div_pos; lia. Qed.

Lemma bit_get_set : bit_get c (bit_set b d) = bool_decide (c = b) || bit_get c d.
Proof.
  unfold bit_get, bit_set. rewrite dbyte_splice1 by done.
  pose proof (Z.mod_pos_bound b 8 ltac:(lia)). pose proof (Z.mod_pos_bound c 8 ltac:(lia)).
  case_decide as E.
  - rewrite testbit_mod_256, Z.lor_spec, testbit_bit, E, orb_comm by lia. f_equal.
    apply bool_decide_ext. split; [by apply byte_pos_inj|by intros ->].
  - rewrite bool_decide_false; [done|]. by intros ->.
Qed.

Lemma bit_get_clear : bit_get c (bit_clear b d) = negb (bool_decide (c = b)) && bit_get c d.
Proof.
  unfold bit_get, bit_clear. rewrite dbyte_splice1 by done.
  pose proof (Z.mod_pos_bound b 8 ltac:(lia)). pose proof (Z.mod_pos_bound c 8 ltac:(lia)).
  case_decide as E.
  - rewrite testbit_mod_256, Z.land_spec, Z.lnot_spec, testbit_bit, E, andb_comm by lia.
    do 2 f_equal. apply bool_decide_ext. split; [by apply byte_pos_inj|by intros ->].
  - rewrite bool_decide_false; [done|]. by intros ->.
Qed.

Lemma bit_set_length : length (bit_set b d) = length d.
Proof. apply splice_length. simpl. lia. Qed.
Lemma bit_clear_length : length (bit_clear b d) = length d.
Proof. apply splice_length. simpl. lia. Qed.
End Bits.

(** ** The allocator against the block store

    The image has one bitmap block: [NBLOCKS = 4096 <= BPB]. *)
Record geom (s : kstate) : Prop := {
  g_size : 0 < sb_size (k_sb s) ≤ BPB;
  g_disk : sb_size (k_sb s) ≤ nblk s;
  g_bmap : 0 ≤ sb_bmap_start (k_sb s) < sb_size (k_sb s)
}.
Definition bmap_blk (s : kstate) : Z := sb_bmap_start (k_sb s).
Definition used (bm : Z) (V : store) (b : Z) : bool := bit_get b (V bm).

Lemma geom_frame s s' : bio_frame s s' → geom s → geom s'.
Proof. intros F []. split; unfold nblk; by rewrite ?(bf_sb _ _ F), ?(bf_size _ _ F). Qed.

Lemma bmap_frame s s' : bio_frame s s' → bmap_blk s' = bmap_blk s.
Proof. intros F. unfold bmap_blk. by rewrite (bf_sb _ _ F). Qed.

Lemma bio_V_len V H s blk : bio_inv V H s → 0 ≤ blk < nblk s → length (V blk) = BSIZE_nat.
Proof. intros [L I]. apply (bi_V _ _ _ _ I). Qed.

Definition allocated (a bm : Z) (V : store) : store :=
  <[a := zero_block]> (<[bm := bit_set a (V bm)]> V).
Definition freed (a bm : Z) (V : store) : store := <[bm := bit_clear a (V bm)]> V.

Lemma balloc_chunks s :
  geom s → (λ k, k * BPB) <$> seqZ 0 ((sb_size (k_sb s) + BPB - 1) / BPB) = [0].
Proof.
  intros [Gs _ _]. assert ((sb_size (k_sb s) + BPB - 1) / BPB = 1) as ->; [|done].
  symmetry. apply Z.div_unique with (r := sb_size (k_sb s) - 1); unfold BPB, BSIZE in *; lia.
Qed.

Lemma BBLOCK_bm s b : 0 ≤ b < BPB → BBLOCK b (k_sb s) = bmap_blk s.
Proof. intros. unfold BBLOCK. rewrite Z.div_small; [done|lia]. Qed.

Lemma bm_read H s :
  geom s → blk_free (bmap_blk s) H → (size H < NBUF)%nat → can_read H (bmap_blk s) s.
Proof. intros G Hbm Hroom. destruct G. split_and!; try done; unfold bmap_blk; lia. Qed.

Lemma bm_len V H s : bio_inv V H s → geom s → length (V (bmap_blk s)) = BSIZE_nat.
Proof. intros I G. destruct G. eapply bio_V_len; [exact I|]. unfold bmap_blk. lia. Qed.

Lemma bm_bound V H s b :
  bio_inv V H s → geom s → 0 ≤ b < sb_size (k_sb s) →
  0 ≤ b < 8 * Z.of_nat (length (V (bmap_blk s))).
Proof.
  intros I G Hb. rewrite (bm_len V H s I G). destruct G as [Gs _ _].
  unfold BPB, BSIZE in Gs. unfold BSIZE_nat. lia.
Qed.

Lemma bzero_ok {wf : WakeFuel} V H s b :
  bio_inv V H s → can_read H b s →
  wp (bzero 0 b s) (λ _ s', bio_inv (<[b := zero_block]> V) H s' ∧ bio_frame s s').
Proof.
  intros I Hb. change (bzero 0 b s) with (write_block b 0 zero_block s).
  kuse (write_block_ok V H s b 0 zero_block I Hb); [done|].
  intros _ s' [I' F]. rewrite splice_full in I'; [done|].
  rewrite (bio_V_len V H s b I (proj1 Hb)). done.
Qed.

Lemma bitmap_byte_range sz b : sz ≤ BPB → 0 ≤ b < sz → 0 ≤ b / 8 < BSIZE.
Proof.
  unfold BPB, BSIZE. intros. split; [apply Z.div_pos; lia|apply Z.div_lt_upper_bound; lia].
Qed.

Section Alloc.
Context {wf : WakeFuel}.
Context (V : store) (H : holders) (s : kstate).
Context (I : bio_inv V H s) (G : geom s) (Hbm : blk_free (bmap_blk s) H) (Hroom : (size H < NBUF)%nat).

Let bm := bmap_blk s.
Let sz := sb_size (k_sb s).

Lemma data_can_read b : 0 ≤ b < sz → blk_free b H → can_read H b s.
Proof. destruct G. subst sz. intros. split_and!; try done; lia. Qed.

Lemma balloc_ok fb :
  0 ≤ fb < sz → used bm V fb = false → (∀ b, 0 ≤ b < fb → used bm V b = true) →
  blk_free fb H →
  wp (balloc 0 s) (λ a s', a = fb ∧ bio_inv (allocated fb bm V) H s' ∧ bio_frame s s').
Proof.
  intros Hfb Hfree Hused HfH. unfold balloc. rewrite bind_gets.
  rewrite (balloc_chunks s G). apply wp_bind. cbn [for_return].
  apply wp_bind. rewrite (BBLOCK_bm s 0) by done.
  apply (wp_bread V H); [exact I|by apply bm_read|]. intros bp s1 I1 HH Hd _ F1. apply wp_bind.
  rewrite Z.sub_0_r, Z.min_r by apply G. fold sz bm in Hd |- *.
  replace sz with (fb + (1 + (sz - fb - 1))) by lia.
  rewrite seqZ_app by lia. rewrite for_return_skip.
  2:{ intros bi Hbi%elem_of_seqZ. rewrite bind_gets, Hd.
      rewrite bool_decide_true; [done|]. rewrite land_bit_zero by (apply Z.mod_pos_bound; lia).
      intros E. specialize (Hused bi). unfold used, bit_get in Hused. rewrite E in Hused.
      specialize (Hused ltac:(lia)). done. }
  rewrite Z.add_0_l, seqZ_cons by lia. cbn [for_return].
  apply wp_bind. rewrite bind_gets, Hd, bool_decide_false.
  2:{ intros E. apply E. apply land_bit_zero; [apply Z.mod_pos_bound; lia|]. exact Hfree. }
  pose proof (bitmap_byte_range sz fb ltac:(apply G) Hfb).
  apply (wp_store_release V H s1 bp bm); [done..|unfold BSIZE, BSIZE_nat in *; simpl; lia|].
  intros s2 I2 F2. rewrite Z.add_0_l. apply wp_bind.
  kuse (bzero_ok _ H s2 fb I2); [|intros _ s3 [I3 F3]].
  - apply (can_read_frame _ _ s); [by etrans|]. by apply data_can_read.
  - unfold ret; cbn [wp]. split_and!; [done|exact I3|]. by do 2 (etrans; [done|]).
Qed.

(** No free block is left. *)
Lemma balloc_full :
  (∀ b, 0 ≤ b < sz → used bm V b = true) → panics (balloc 0 s) "balloc: oob".
Proof.
  intros Hused. unfold balloc. rewrite bind_gets, (balloc_chunks s G).
  eapply panics_bind with (Q := λ r _, r = None); [|by intros ? ? ->].
  cbn [for_return]. apply wp_bind. rewrite (BBLOCK_bm s 0) by done.
  apply (wp_bread V H); [exact I|by apply bm_read|]. intros bp s1 I1 HH Hd _ F1.
  rewrite Z.sub_0_r, Z.min_r by apply G. erewrite bind_done.
  2:{ apply for_return_none. intros bi Hbi%elem_of_seqZ. rewrite bind_gets, Hd.
      rewrite bool_decide_true; [done|]. rewrite land_bit_zero by (apply Z.mod_pos_bound; lia).
      intros E. specialize (Hused bi). unfold used, bit_get in Hused. subst bm. rewrite E in Hused.
      specialize (Hused ltac:(subst sz; lia)). done. }
  cbv beta iota. apply (wp_release V H s1 bp bm); [done..|]. intros s2 _ _. done.
Qed.

Lemma bfree_ok b :
  0 ≤ b < sz → used bm V b = true →
  wp (bfree 0 b s) (λ _ s', bio_inv (freed b bm V) H s' ∧ bio_frame s s').
Proof.
  intros Hb Hu. unfold bfree. rewrite bind_gets.
  pose proof (g_size _ G). rewrite (BBLOCK_bm s b) by (subst sz; lia).
  apply (wp_bread V H); [exact I|by apply bm_read|]. intros bp s1 I1 HH Hd _ F1.
  rewrite bind_gets, Hd. rewrite Z.mod_small by (subst sz; lia). rewrite bool_decide_false.
  2:{ rewrite land_bit_zero by (apply Z.mod_pos_bound; lia). intros E.
      unfold used, bit_get in Hu. fold bm in E. by rewrite E in Hu. }
  pose proof (bitmap_byte_range sz b ltac:(apply G) Hb).
  kuse (store_release_ok V H s1 bp bm); [done..|unfold BSIZE, BSIZE_nat in *; simpl; lia|].
  intros _ s' [I' F']. split; [exact I'|by etrans].
Qed.

Lemma bfree_free b :
  0 ≤ b < sz → used bm V b = false → panics (bfree 0 b s) "freeing free block".
Proof.
  intros Hb Hu. unfold bfree. rewrite bind_gets.
  pose proof (g_size _ G). rewrite (BBLOCK_bm s b) by (subst sz; lia).
  eapply panics_bind; [apply (bread_ok V H s bm I); [|done..]; by apply (bm_read H s)|].
  intros bp s1 (_ & _ & Hd & _). cbv beta. rewrite bind_gets, Hd.
  rewrite Z.mod_small by (subst sz; lia). rewrite bool_decide_true; [done|].
  apply land_bit_zero; [apply Z.mod_pos_bound; lia|exact Hu].
Qed.
End Alloc.

(** ** The allocator invariant *)
Record alloc_inv (V : store) (H : holders) (s : kstate) : Prop := {
  ai_bio : bio_inv V H s;
  ai_geom : geom s;
  ai_bm : used (bmap_blk s) V (bmap_blk s) = true;
  ai_held : ∀ b x, H !! b = Some x →
    0 ≤ x.1 < sb_size (k_sb s) ∧ x.1 ≠ bmap_blk s ∧ used (bmap_blk s) V x.1 = true
}.

(** How many blocks are free. *)
Definition free_blocks (s : kstate) (V : store) : list Z :=
  filter (λ b, used (bmap_blk s) V b = false) (seqZ 0 (sb_size (k_sb s))).
Definition nfree (s : kstate) (V : store) : nat := length (free_blocks s V).

Lemma nfree_frame s s' V : k_sb s' = k_sb s → nfree s' V = nfree s V.
Proof. intros E. unfold nfree, free_blocks, bmap_blk. by rewrite E. Qed.

Lemma filter_remove_length {A} `{EqDecision A} (P Q : A → Prop) `{!∀ x, Decision (P x), !∀ x, Decision (Q x)} l a :
  NoDup l → a ∈ l → P a → (∀ x, x ∈ l → Q x ↔ P x ∧ x ≠ a) →
  length (filter P l) = S (length (filter Q l)).
Proof.
  intros Hnd Ha HP HQ.
  assert (filter P l ≡ₚ a :: filter Q l) as ->; [|done].
  apply NoDup_Permutation.
  - by apply NoDup_filter.
  - apply NoDup_cons. split; [|by apply NoDup_filter].
    rewrite list_elem_of_filter, HQ by done. tauto.
  - intros x. rewrite elem_of_cons, !list_elem_of_filter. split.
    + intros [Hp Hx]. rewrite HQ by done. destruct (decide (x = a)); tauto.
    + intros [->|[Hq Hx]]; [done|]. apply HQ in Hq; tauto.
Qed.

Section AllocInv.
Context {wf : WakeFuel}.

Lemma alloc_inv_frame V H s s' :
  bio_frame s s' → bio_inv V H s' → alloc_inv V H s → alloc_inv V H s'.
Proof.
  intros F I []. split; [done|by eapply geom_frame|by rewrite (bmap_frame _ _ F)|].
  rewrite (bmap_frame _ _ F), (bf_sb _ _ F). done.
Qed.

Lemma alloc_inv_bm_free V H s : alloc_inv V H s → blk_free (bmap_blk s) H.
Proof. intros [_ _ _ Hh] b x Hb. apply Hh in Hb. tauto. Qed.

Section Used.
Context (V : store) (H : holders) (s : kstate) (A : alloc_inv V H s).
Let bm := bmap_blk s.

Lemma used_allocated a b :
  0 ≤ a < sb_size (k_sb s) → used bm V a = false → 0 ≤ b →
  used bm (allocated a bm V) b = bool_decide (b = a) || used bm V b.
Proof.
  intros Ha Hu Hb. unfold used, allocated.
  assert (a ≠ bm) as Hne by (intros ->; pose proof (ai_bm _ _ _ A); subst bm; congruence).
  rewrite fn_lookup_insert_ne, fn_lookup_insert by done.
  apply bit_get_set; [|done]. by apply (bm_bound V H s); [apply A..|].
Qed.

Lemma used_freed a b :
  0 ≤ a < sb_size (k_sb s) → 0 ≤ b →
  used bm (freed a bm V) b = negb (bool_decide (b = a)) && used bm V b.
Proof.
  intros Ha Hb. unfold used, freed. rewrite fn_lookup_insert.
  apply bit_get_clear; [|done]. by apply (bm_bound V H s); [apply A..|].
Qed.

Lemma allocated_other a b : b ≠ a → b ≠ bm → allocated a bm V b = V b.
Proof. intros. unfold allocated. by rewrite !fn_lookup_insert_ne. Qed.
Lemma allocated_self a : allocated a bm V a = zero_block.
Proof. apply fn_lookup_insert. Qed.
Lemma freed_other a b : b ≠ bm → freed a bm V b = V b.
Proof. intros. unfold freed. by rewrite fn_lookup_insert_ne. Qed.

Lemma nfree_allocated a :
  0 ≤ a < sb_size (k_sb s) → used bm V a = false →
  nfree s V = S (nfree s (allocated a bm V)).
Proof.
  intros Ha Hu. unfold nfree, free_blocks. fold bm. eapply filter_remove_length; try done.
  - apply NoDup_seqZ.
  - apply elem_of_seqZ. lia.
  - intros x Hx%elem_of_seqZ. rewrite used_allocated by (done || lia).
    case_bool_decide; simpl; [|tauto]. split; [done|tauto].
Qed.

Lemma nfree_pos : (0 < nfree s V)%nat →
  ∃ a, 0 ≤ a < sb_size (k_sb s) ∧ used bm V a = false ∧ ∀ b, 0 ≤ b < a → used bm V b = true.
Proof.
  intros Hn. destruct (split_first (λ b, used bm V b = false) (seqZ 0 (sb_size (k_sb s))))
    as [(l1 & a & l2 & El & Ha & Hl1)|Hall].
  - assert (a ∈ seqZ 0 (sb_size (k_sb s))) as Hin%elem_of_seqZ by (rewrite El; set_solver).
    exists a. split_and!; [lia..|done|]. intros b Hb.
    assert (seqZ 0 (sb_size (k_sb s)) !! length l1 = Some a) as Hla by (rewrite El; by apply list_lookup_middle).
    apply lookup_seqZ in Hla as [Hla _].
    destruct (used bm V b) eqn:E; [done|]. exfalso. apply (Hl1 b); [|done].
    apply list_elem_of_lookup. exists (Z.to_nat b).
    assert (seqZ 0 (sb_size (k_sb s)) !! Z.to_nat b = Some b) as Hlb.
    { apply lookup_seqZ. lia. }
    rewrite El, lookup_app_l in Hlb by lia. done.
  - exfalso. unfold nfree, free_blocks in Hn. fold bm in Hn.
    destruct (filter _ _) as [|x l] eqn:E; [simpl in Hn; lia|].
    assert (x ∈ x :: l) as Hx by left. rewrite <- E in Hx.
    apply list_elem_of_filter in Hx as [Hx1 Hx2]. by apply (Hall x).
Qed.

(** Allocation, for clients that keep the allocator invariant. *)
Lemma balloc_inv :
  (size H < NBUF)%nat → (0 < nfree s V)%nat →
  wp (balloc 0 s) (λ a s',
    0 ≤ a < sb_size (k_sb s) ∧ used bm V a = false ∧ a ≠ bm ∧
    (∀ b, 0 ≤ b < a → used bm V b = true) ∧
    alloc_inv (allocated a bm V) H s' ∧ bio_frame s s').
Proof.
  intros Hroom Hn. destruct (nfree_pos Hn) as (a & Ha & Hu & Hleast).
  assert (a ≠ bm) as Hne by (intros ->; pose proof (ai_bm _ _ _ A); subst bm; congruence).
  kuse (balloc_ok V H s (ai_bio _ _ _ A) (ai_geom _ _ _ A) (alloc_inv_bm_free _ _ _ A) Hroom a);
    [done..| |].
  - intros b x Hb E. apply (ai_held _ _ _ A) in Hb. rewrite E in Hb.
    destruct Hb as (_ & _ & Hb). subst bm. congruence.
  - intros r s' (-> & I' & F). do 4 (split; [done|]). split; [|done].
    destruct A as [_ G Hbm Hh]. split; [done|by eapply geom_frame|..].
    + rewrite (bmap_frame _ _ F). fold bm. destruct G. rewrite used_allocated by (done || (subst bm; unfold bmap_blk; lia)).
      subst bm. rewrite Hbm. apply orb_true_r.
    + intros b x Hb. rewrite (bmap_frame _ _ F), (bf_sb _ _ F). fold bm.
      destruct (Hh b x Hb) as (? & ? & Hub). split_and!; [apply H0..|done|].
      rewrite used_allocated by (done || lia). subst bm. rewrite Hub. apply orb_true_r.
Qed.
End Used.
End AllocInv.

(** ** Properties *)
Lemma splice_splice {A} off (x y l : list A) :
  length x = length y → (off + length y ≤ length l)%nat →
  splice off x (splice off y l) = splice off x l.
Proof.
  intros E Hl. apply list_eq; intros i.
  destruct (decide (off ≤ i < off + length x)%nat) as [Hi|Hi].
  - rewrite !splice_lookup_in by (rewrite ?splice_length; lia). done.
  - rewrite splice_lookup_out by (rewrite ?splice_length; lia).
    rewrite !splice_lookup_out by lia. done.
Qed.

Lemma slice_1 {A} off (x : A) l : l !! off = Some x → slice off 1 l = [x].
Proof. intros H. unfold slice. by rewrite (drop_S l x off H), firstn_cons, take_0. Qed.

Lemma byte_clear_set x k :
  0 ≤ x < 256 → 0 ≤ k < 8 → Z.testbit x k = false →
  Z.land (Z.lor x (Z.shiftl 1 k) `mod` 256) (Z.lnot (Z.shiftl 1 k)) = x.
Proof.
  intros Hx Hk Hb. apply Z.bits_inj'. intros n Hn.
  rewrite Z.land_spec, Z.lnot_spec, testbit_bit by lia.
  destruct (decide (n < 8)).
  - rewrite testbit_mod_256, Z.lor_spec, testbit_bit by lia.
    case_bool_decide; subst; simpl; [by rewrite Hb, andb_false_r|].
    by rewrite orb_false_r, andb_true_r.
  - change 256 with (2 ^ 8). rewrite Z.mod_pow2_bits_high by lia. simpl.
    rewrite Z.bits_above_log2; [done|lia|].
    destruct (decide (x = 0)) as [->|]; [simpl; lia|]. apply Z.log2_lt_pow2; [lia|].
    assert (2 ^ 8 ≤ 2 ^ n) by (apply Z.pow_le_mono_r; lia). lia.
Qed.

Lemma bit_clear_set b d :
  0 ≤ b < 8 * Z.of_nat (length d) → bit_get b d = false → bit_clear b (bit_set b d) = d.
Proof.
  intros Hb Hg.
  assert (0 ≤ b / 8 < Z.of_nat (length d)) as Hbl.
  { split; [apply Z.div_pos; lia|apply Z.div_lt_upper_bound; lia]. }
  pose proof (Z.mod_pos_bound b 8 ltac:(lia)) as Hm.
  unfold bit_clear, bit_set. rewrite splice_splice by (simpl; lia).
  rewrite dbyte_splice1, decide_True by (done || lia).
  rewrite byte_clear_set by (done || apply dbyte_range).
  destruct (lookup_lt_is_Some_2 d (Z.to_nat (b / 8))) as [x Hx]; [lia|].
  unfold dbyte. rewrite Hx. simpl. rewrite z2b_b2z. rewrite <- (slice_1 (Z.to_nat (b / 8)) x d Hx).
  apply splice_slice_id. lia.
Qed.

Section AllocProps.
Context {wf : WakeFuel}.

(** C9. [balloc] returns the lowest-numbered free block: afterwards that
    block is marked used and reads as zeros, every other block is as free or
    used as before, and apart from the bitmap no other block's contents have
    changed. *)
Theorem balloc_allocates V H s :
  alloc_inv V H s → (size H < NBUF)%nat → (0 < nfree s V)%nat →
  wp (balloc 0 s) (λ a s', ∃ V',
    0 ≤ a < sb_size (k_sb s) ∧ used (bmap_blk s) V a = false ∧
    (∀ b, 0 ≤ b < a → used (bmap_blk s) V b = true) ∧
    alloc_inv V' H s' ∧ V' a = zero_block ∧
    (∀ b, 0 ≤ b → used (bmap_blk s) V' b = bool_decide (b = a) || used (bmap_blk s) V b) ∧
    (∀ b, b ≠ a → b ≠ bmap_blk s → V' b = V b) ∧ nfree s V = S (nfree s V')).
Proof.
  intros A Hroom Hn. kuse (balloc_inv V H s A Hroom Hn).
  intros a s' (Ha & Hu & Hne & Hl & A' & F). exists (allocated a (bmap_blk s) V).
  do 4 (split; [done|]). split; [apply allocated_self|]. split_and!.
  - intros b Hb. by apply (used_allocated V H s A).
  - intros b. apply allocated_other.
  - by apply (nfree_allocated V H s A).
Qed.

(** Freeing the block [balloc] returned restores the bitmap block bit for
    bit, and the contents of every block that was in use. *)
Theorem balloc_bfree_roundtrip V H s :
  alloc_inv V H s → (size H < NBUF)%nat → (0 < nfree s V)%nat →
  wp ((let! a := balloc 0 in bfree 0 a) s) (λ _ s', ∃ V',
    alloc_inv V' H s' ∧ V' (bmap_blk s) = V (bmap_blk s) ∧
    ∀ b, used (bmap_blk s) V b = true → V' b = V b).
Proof.
  intros A Hroom Hn. apply wp_bind. kuse (balloc_inv V H s A Hroom Hn).
  intros a s1 (Ha & Hu & Hne & _ & A1 & F). 
  pose proof (bmap_frame _ _ F) as Eb.
  assert (used (bmap_blk s) (allocated a (bmap_blk s) V) a = true) as Hu1.
  { rewrite (used_allocated V H s A) by (done || lia). by rewrite bool_decide_true. }
  kuse (bfree_ok _ H s1 (ai_bio _ _ _ A1) (ai_geom _ _ _ A1) (alloc_inv_bm_free _ _ _ A1) Hroom a).
  - by rewrite (bf_sb _ _ F).
  - by rewrite Eb.
  - intros _ s2 [I2 F2]. set (V' := freed a (bmap_blk s1) _) in I2.
    assert (V' (bmap_blk s) = V (bmap_blk s)) as EV.
    { subst V'. rewrite Eb. unfold freed, allocated.
      rewrite fn_lookup_insert, fn_lookup_insert_ne, fn_lookup_insert by done.
      apply bit_clear_set; [|done]. by apply (bm_bound V H s); [apply A..|]. }
    exists V'. split; [|split; [done|]].
    + assert (bio_frame s s2) as F' by by etrans. destruct A as [_ G Hbm Hh].
      split; [done|by eapply geom_frame|..]; rewrite (bmap_frame _ _ F'), ?(bf_sb _ _ F');
        unfold used in *; rewrite EV; done.
    + intros b Hub. destruct (decide (b = bmap_blk s)) as [->|]; [done|].
      subst V'. rewrite Eb, freed_other, allocated_other by (congruence || done). done.
Qed.

(** The allocator's failures: with every block in use [balloc] panics,
    and so does freeing a block that is already free. *)
Theorem alloc_errors V H s :
  alloc_inv V H s → (size H < NBUF)%nat →
  (nfree s V = 0%nat → panics (balloc 0 s) "balloc: oob") ∧
  (∀ b, 0 ≤ b < sb_size (k_sb s) → used (bmap_blk s) V b = false →
     panics (bfree 0 b s) "freeing free block").
Proof.
  intros A Hroom. pose proof (alloc_inv_bm_free _ _ _ A) as Hf. destruct A as [I G _ _]. split.
  - intros Hn. apply (balloc_full V H s); try done. intros b Hb.
    destruct (used (bmap_blk s) V b) eqn:E; [done|].
    apply nil_length_inv in Hn. unfold free_blocks in Hn.
    assert (b ∈ ([] : list Z)) as Hin; [|by apply not_elem_of_nil in Hin].
    rewrite <- Hn. apply list_elem_of_filter. split; [done|]. apply elem_of_seqZ. lia.
  - intros b. by apply (bfree_free V H s).
Qed.
End AllocProps.

(** A freshly made file system: 64 blocks, of which the first six are used. *)
Definition fresh_bitmap : list byte := x3f :: replicate (pred BSIZE_nat) x00.
Definition fs_disk : ramdisk := mk_disk {[2 := fresh_bitmap]} (64 * BSIZE).
Definition kstate_fs : kstate :=
  set_k_sb (λ _, mk_sb 64 58 96 3 2) (set_k_bufs (λ _, init_bufs) (set_k_disk (λ _, fs_disk) kstate0)).

Lemma fs_disk_len blk : length (disk_block fs_disk blk) = BSIZE_nat.
Proof.
  unfold disk_block, fs_disk; simpl. destruct (decide (blk = 2)) as [->|].
  - by rewrite lookup_singleton_eq.
  - rewrite lookup_singleton_ne by done. apply length_replicate.
Qed.

Lemma kstate_fs_inv : alloc_inv (disk_block fs_disk) ∅ kstate_fs.
Proof.
  split.
  - exists lru_order. apply (init_bufs_inv kstate_fs); [|done|done|intros; apply fs_disk_len].
    destruct kstate0_kinv as [[? ?] ?]. by split.
  - split; vm_compute; done || split; done.
  - by vm_compute.
  - done.
Qed.

Lemma balloc_allocates_witness : wp (@balloc 1%nat 0 kstate_fs) (λ a _, a = 6).
Proof.
  eapply wp_mono; [apply balloc_allocates; [apply kstate_fs_inv|vm_compute; lia|vm_compute; lia]|].
  intros a s' (V' & Ha & Hu & Hl & _). cbv beta.
  destruct (decide (a < 6)).
  - exfalso. assert (a = 0 ∨ a = 1 ∨ a = 2 ∨ a = 3 ∨ a = 4 ∨ a = 5) as Hc by lia.
    destruct Hc as [-> | [-> | [-> | [-> | [-> | ->]]]]]; vm_compute in Hu; discriminate.
  - destruct (decide (6 < a)); [|lia]. specialize (Hl 6 ltac:(lia)). vm_compute in Hl. discriminate.
Defined.

Lemma balloc_bfree_roundtrip_witness :
  wp ((let! a := @balloc 1%nat 0 in @bfree 1%nat 0 a) kstate_fs) (λ _ s', ∃ V',
    alloc_inv V' ∅ s' ∧ V' 2 = fresh_bitmap).
Proof.
  eapply wp_mono; [apply balloc_bfree_roundtrip; [apply kstate_fs_inv|vm_compute; lia|vm_compute; lia]|].
  intros _ s' (V' & A & E & _). exists V'. split; [exact A|exact E].
Defined.

Lemma alloc_errors_witness : panics (@bfree 1%nat 0 9 kstate_fs) "freeing free block".
Proof.
  apply (alloc_errors (disk_block fs_disk) ∅); [apply kstate_fs_inv|vm_compute; lia|vm_compute; done|].
  by vm_compute.
Defined.
