(* ===== verification/CString.v ===== *)
(** * Bytes and strings (kernel/string.c)

    A C string argument is the list of bytes from the pointer on; reading past
    the end of the list is out of bounds and answers [None].  A function that
    writes answers the bytes it writes, first one at the destination. *)
From S2P Require Import Prelude.

(** [memcpy] within one array, byte by byte, upwards. *)
Fixpoint memcpy (dst src n : nat) (mem : list byte) : list byte :=
  match n with
  | O => mem
  | S n' =>
    match mem !! src with
    | Some c => memcpy (S dst) (S src) n' (<[dst := c]> mem)
    | None => mem
    end
  end.

Fixpoint memset (dst : nat) (c : Z) (n : nat) (mem : list byte) : list byte :=
  match n with
  | O => mem
  | S n' => memset (S dst) c n' (<[dst := z2b c]> mem)
  end.

Fixpoint strncmp (s t : list byte) (n : nat) : option Z :=
  match n with
  | O => Some 0
  | S n' =>
    match s, t with
    | a :: s', b :: t' =>
      if bool_decide (a ≠ x00) && bool_decide (a = b) then strncmp s' t' n'
      else Some (b2z a - b2z b)
    | _, _ => None
    end
  end.

(** The [n] bytes [strncpy] writes: the string, padded with zeros. *)
Fixpoint strncpy (t : list byte) (n : nat) : option (list byte) :=
  match n with
  | O => Some []
  | S n' =>
    match t with
    | [] => None
    | c :: t' => if bool_decide (c = x00) then Some (replicate n x00) else cons c <$> strncpy t' n'
    end
  end.

(** [while(--n > 0 && ( *s++ = *t++) != 0); *s = 0;] for [n > 0]: after copying
    the terminator the loop has moved on, and one more zero is written. *)
Fixpoint safe_strcpy_loop (t : list byte) (n : nat) : option (list byte) :=
  match n with
  | O => Some [x00]
  | S n' =>
    match t with
    | [] => None
    | c :: t' => if bool_decide (c = x00) then Some [x00; x00] else cons c <$> safe_strcpy_loop t' n'
    end
  end.
Definition safe_strcpy (t : list byte) (n : nat) : option (list byte) :=
  match n with O => Some [] | S n' => safe_strcpy_loop t n' end.

Fixpoint strlen (s : list byte) : option Z :=
  match s with
  | [] => None
  | c :: s' => if bool_decide (c = x00) then Some 0 else Z.succ <$> strlen s'
  end.

(** ** What they compute *)

(** The characters of a C string: the bytes before the first zero. *)
Fixpoint cstr (s : list byte) : list byte :=
  match s with
  | [] => []
  | c :: s' => if decide (c = x00) then [] else c :: cstr s'
  end.

Lemma strlen_cstr s n : strlen s = Some n → n = Z.of_nat (length (cstr s)).
Proof.
  revert n; induction s as [|c s IH]; intros n; simpl; [done|].
  case_bool_decide; case_decide; try done; [by intros [= <-]|].
  destruct (strlen s) as [m|]; [|done]. intros [= <-]. rewrite (IH m) by done. simpl. lia.
Qed.

(** [strncmp] compares the first [n] characters. *)
Lemma strncmp_total s t n :
  (n ≤ length s)%nat → (n ≤ length t)%nat →
  strncmp s t n = Some 0 ∧ take n (cstr s) = take n (cstr t) ∨
  (∃ d, strncmp s t n = Some d ∧ d ≠ 0 ∧ take n (cstr s) ≠ take n (cstr t)).
Proof.
  revert s t; induction n as [|n IH]; intros [|a s] [|b t]; simpl; try lia; auto.
  intros Hs Ht. destruct (decide (a = b)) as [->|Hab].
  - rewrite (bool_decide_true (b = b)) by done. destruct (decide (b = x00)) as [->|Hb].
    + left. by split.
    + rewrite bool_decide_true by done. simpl. 
      destruct (IH s t ltac:(lia) ltac:(lia)) as [[E1 E2]|(d & E1 & E2 & E3)].
      * left. by rewrite E2.
      * right. exists d. split_and!; [done..|]. by intros [=].
  - rewrite (bool_decide_false (a = b)), andb_false_r by done.
    right. exists (b2z a - b2z b). split; [done|]. split.
    + intros E. apply Hab, b2z_inj. lia.
    + repeat case_decide; simpl; congruence.
Qed.

Lemma strncmp_eq s t n :
  (n ≤ length s)%nat → (n ≤ length t)%nat →
  strncmp s t n = Some 0 ↔ take n (cstr s) = take n (cstr t).
Proof.
  intros Hs Ht. destruct (strncmp_total s t n Hs Ht) as [[-> ?]|(d & -> & ? & ?)]; [done|].
  split; [congruence|done].
Qed.

Definition pad (n : nat) (l : list byte) : list byte := take n (l ++ replicate n x00).

Lemma strncpy_pad t n w : strncpy t n = Some w → w = pad n (cstr t).
Proof.
  revert t w; induction n as [|n IH]; intros [|c t] w; simpl; try done.
  - by intros [= <-].
  - by intros [= <-].
  - case_bool_decide; case_decide; try done.
    + intros [= <-]. unfold pad. simpl. by rewrite take_replicate, Nat.min_id.
    + destruct (strncpy t n) as [w'|] eqn:E; [|done]. intros [= <-].
      rewrite (IH _ _ E). unfold pad. simpl. f_equal.
      change (x00 :: replicate n x00) with (replicate (S n) (x00 : byte)).
      rewrite replicate_S_end, app_assoc. symmetry. apply take_app_le.
      rewrite length_app, length_replicate. lia.
Qed.

Lemma strncpy_length t n w : strncpy t n = Some w → length w = n.
Proof.
  revert t w; induction n as [|n IH]; intros [|c t] w; simpl; try done.
  - by intros [= <-].
  - by intros [= <-].
  - case_bool_decide.
    + intros [= <-]. simpl. by rewrite length_replicate.
    + destruct (strncpy t n) as [w'|] eqn:E; [|done]. intros [= <-]. simpl. f_equal. by eapply IH.
Qed.

(** A long enough source is in bounds. *)
Lemma strncpy_Some t n : (n ≤ length t)%nat → is_Some (strncpy t n).
Proof.
  revert t; induction n as [|n IH]; intros [|c t]; simpl; try done; try lia.
  intros H. case_bool_decide; [done|]. destruct (IH t) as [w ->]; [lia|]. done.
Qed.

Lemma cstr_pad n l : (∀ c, c ∈ l → c ≠ x00) → take n (cstr (pad n l)) = take n l.
Proof.
  unfold pad. revert n; induction l as [|c l IH]; intros [|n] Hl; simpl; try done.
  rewrite decide_False by (apply Hl; left). simpl. f_equal.
  assert (take n (l ++ x00 :: replicate n x00) = take n (l ++ replicate n x00)) as ->; [|apply IH; intros; apply Hl; by right].
  change (x00 :: replicate n x00) with (replicate (S n) (x00 : byte)).
  rewrite replicate_S_end, app_assoc. apply take_app_le.
  rewrite length_app, length_replicate. lia.
Qed.

Lemma cstr_nonzero s c : c ∈ cstr s → c ≠ x00.
Proof.
  induction s as [|b s IH]; simpl; [set_solver|]. case_decide; [set_solver|].
  intros [->|]%elem_of_cons; auto.
Qed.

(** A directory entry written by [strncpy] compares equal to its name. *)
Lemma strncmp_strncpy t n w :
  (n ≤ length t)%nat → strncpy t n = Some w → strncmp t w n = Some 0.
Proof.
  intros Hn E. apply strncmp_eq; [done|by rewrite (strncpy_length _ _ _ E)|].
  rewrite (strncpy_pad _ _ _ E), cstr_pad; [done|]. intros c. apply cstr_nonzero.
Qed.

(** [safe_strcpy] writes at most [n] bytes, and what it writes is terminated. *)
Lemma safe_strcpy_bounds t n w :
  safe_strcpy t (S n) = Some w →
  (length w ≤ S n)%nat ∧ cstr w = take n (cstr t) ∧ last w = Some x00.
Proof.
  simpl. revert t w; induction n as [|n IH]; intros [|c t] w; simpl; try done.
  - by intros [= <-].
  - by intros [= <-].
  - case_bool_decide; case_decide; try done.
    + intros [= <-]. simpl. split; [lia|done].
    + destruct (safe_strcpy_loop t n) as [w'|] eqn:E; [|done]. intros [= <-].
      destruct (IH _ _ E) as (H1 & H2 & H3). simpl. rewrite decide_False by done.
      split_and!; [lia|by f_equal|]. rewrite last_cons, H3. done.
Qed.

Lemma safe_strcpy_Some t n : (n ≤ length t)%nat → is_Some (safe_strcpy t (S n)).
Proof.
  simpl. revert t; induction n as [|n IH]; intros [|c t] H; simpl in *; try done; [lia|].
  case_bool_decide; [done|]. destruct (IH t) as [w ->]; [lia|]. done.
Qed.

(** A terminated string reads the same whatever follows it. *)
Lemma cstr_app w t : last w = Some x00 → cstr (w ++ t) = cstr w.
Proof.
  induction w as [|c w IH]; [done|]. intros Hl. simpl. case_decide; [done|]. f_equal.
  destruct w as [|c' w]; [simpl in Hl; congruence|]. by apply IH.
Qed.

(** ** [memcpy] and [memset] *)

Lemma memset_splice dst c n mem :
  (dst + n ≤ length mem)%nat → memset dst c n mem = splice dst (replicate n (z2b c)) mem.
Proof.
  revert dst mem; induction n as [|n IH]; intros dst mem Hl; simpl.
  - unfold splice. simpl. by rewrite Nat.add_0_r, take_drop.
  - rewrite IH by (rewrite length_insert; lia). apply list_eq; intros i.
    assert (length (replicate n (z2b c)) = n) as Hn by apply length_replicate.
    destruct (decide (dst ≤ i < dst + S n)%nat).
    + rewrite (splice_lookup_in dst) by (simpl; rewrite ?length_replicate; lia).
      destruct (decide (i = dst)) as [->|].
      * rewrite splice_lookup_out by (rewrite ?length_insert, ?Hn; lia).
        rewrite list_lookup_insert_eq by lia. by rewrite Nat.sub_diag.
      * rewrite splice_lookup_in by (rewrite ?length_insert, ?Hn; lia).
        rewrite lookup_replicate_2 by lia.
        change (z2b c :: replicate n (z2b c)) with (replicate (S n) (z2b c)).
        by rewrite lookup_replicate_2 by lia.
    + rewrite !splice_lookup_out by (simpl; rewrite ?length_insert, ?length_replicate; lia).
      by rewrite list_lookup_insert_ne by lia.
Qed.

(** Copying upwards is right for disjoint ranges and for moves to a lower address. *)
Lemma memcpy_lookup dst src n mem i :
  (dst + n ≤ length mem)%nat → (src + n ≤ length mem)%nat →
  (dst ≤ src ∨ src + n ≤ dst)%nat →
  memcpy dst src n mem !! i =
    if decide (dst ≤ i < dst + n)%nat then mem !! (src + (i - dst))%nat else mem !! i.
Proof.
  revert dst src mem; induction n as [|n IH]; intros dst src mem Hd Hs Ho; simpl.
  - rewrite decide_False by lia. done.
  - destruct (lookup_lt_is_Some_2 mem src) as [c Hc]; [lia|]. rewrite Hc.
    rewrite IH by (rewrite ?length_insert; lia).
    destruct (decide (S dst ≤ i < S dst + n)%nat).
    + rewrite decide_True by lia. rewrite list_lookup_insert_ne by lia. f_equal. lia.
    + destruct (decide (i = dst)) as [->|].
      * rewrite decide_True by lia. rewrite list_lookup_insert_eq by lia.
        by rewrite Nat.sub_diag, Nat.add_0_r.
      * rewrite decide_False by lia. by rewrite list_lookup_insert_ne by lia.
Qed.

Lemma memcpy_splice dst src n mem :
  (dst + n ≤ length mem)%nat → (src + n ≤ length mem)%nat →
  (dst ≤ src ∨ src + n ≤ dst)%nat →
  memcpy dst src n mem = splice dst (slice src n mem) mem.
Proof.
  intros Hd Hs Ho. apply list_eq; intros i. rewrite memcpy_lookup by done.
  assert (length (slice src n mem) = n) as Hn by by apply slice_length.
  case_decide.
  - rewrite splice_lookup_in, slice_lookup by lia. done.
  - rewrite splice_lookup_out by lia. done.
Qed.
