(* ===== verification/Inode.v ===== *)
(** * Inodes (kernel/fs.c: ialloc, iget, ilock, iput, bmap, readi, writei ...)

    The inode cache is a table of [NINODE] entries; an entry is identified by
    its index.  The contents of a file are reached through [bmap]: 13 direct
    block numbers and one block of 512 indirect ones. *)
From S2P Require Import Prelude State Spinlock Sched Sleeplock Ring Bio Balloc.

Definition IBLOCK (i : Z) (sb : super_block) : Z := i / IPB + sb_inode_start sb.

(** ** The on-disk inode (struct dinode, 128 bytes) *)
Definition dinode_off (inum : Z) : nat := Z.to_nat (DINODE_SIZE * (inum `mod` IPB)).
Definition addrs_bytes (l : list Z) : list byte := concat (le_put 8 <$> l).
Definition dinode_bytes (ip : inode) : list byte :=
  le_put 2 (i_type ip) ++ le_put 2 (i_major ip) ++ le_put 2 (i_minor ip) ++
  le_put 2 (i_nlink ip) ++ le_put 8 (i_size ip) ++ addrs_bytes (i_addrs ip).

Definition dip_type (o : nat) (d : list byte) : Z := s16 (get_le 2 o d).
Definition dip_major (o : nat) (d : list byte) : Z := s16 (get_le 2 (o + 2) d).
Definition dip_minor (o : nat) (d : list byte) : Z := s16 (get_le 2 (o + 4) d).
Definition dip_nlink (o : nat) (d : list byte) : Z := s16 (get_le 2 (o + 6) d).
Definition dip_size (o : nat) (d : list byte) : Z := get_le 8 (o + 8) d.
Definition dip_addrs (o : nat) (d : list byte) : list Z :=
  (λ i, get_le 8 (o + 16 + 8 * i) d) <$> seq 0 14.

(** struct stat; its padding is not written. *)
Record stat := mk_stat { st_type : Z; st_dev : Z; st_ino : Z; st_nlink : Z; st_size : Z }.

(** The device switch [devs[]]: entries installed by the drivers at run time,
    [None] for a null function pointer. *)
Class DevSw := {
  dev_read : Z → option (nat → Z → M kstate (Z * list byte));
  dev_write : Z → option (nat → list byte → Z → M kstate Z)
}.

Section Inode.
Context {wf : WakeFuel} {dsw : DevSw}.

Definition iinit : M kstate unit :=
  init_lock LkIcache ;;;
  for_each (seq 0 NINODE) (λ i, init_sleep_lock (SlInode i)).

Definition fs_init (dev : Z) : M kstate unit :=
  iinit ;;;
  read_sb dev.

(** The scan of [iget]: [inl i] is a hit (already referenced, the lock
    released), [inr e] the first unreferenced entry met. *)
Fixpoint iget_scan (l : list nat) (empty : option nat) (dev inum : Z) : M kstate (nat + option nat) :=
  match l with
  | [] => ret (inr empty)
  | i :: l' =>
    let! ip := gets (the_inode i) in
    if bool_decide (0 < i_ref ip) && bool_decide (i_dev ip = dev) && bool_decide (i_inum ip = inum)
    then
      modify (upd_inode i (λ ip, set_i_ref (u64 (i_ref ip + 1)) ip)) ;;;
      release LkIcache ;;;
      ret (inl i)
    else
      iget_scan l' (if bool_decide (empty = None) && bool_decide (i_ref ip = 0) then Some i else empty)
        dev inum
  end.

Definition iget (dev inum : Z) : M kstate nat :=
  acquire LkIcache ;;;
  let! r := iget_scan (seq 0 NINODE) None dev inum in
  match r with
  | inl i => ret i
  | inr None => panic "iget: no empty slot"
  | inr (Some i) =>
    modify (upd_inode i (set_i_dev dev)) ;;;
    modify (upd_inode i (set_i_inum inum)) ;;;
    modify (upd_inode i (set_i_ref 1)) ;;;
    modify (upd_inode i (set_i_valid 0)) ;;;
    release LkIcache ;;;
    ret i
  end.

Definition ialloc (dev type : Z) : M kstate nat :=
  let! sb := gets k_sb in
  let! r := for_return (seqZ 1 (sb_n_inodes sb - 1)) (λ inum,
    let! bp := bread dev (IBLOCK inum sb) in
    let! x := gets (the_buf bp) in
    if bool_decide (dip_type (dinode_off inum) (b_data x) = 0) then
      bstore bp (dinode_off inum) (replicate (Z.to_nat DINODE_SIZE) x00) ;;;
      bstore bp (dinode_off inum) (le_put 2 type) ;;;
      bwrite bp ;;;
      brelse bp ;;;
      let! ip := iget dev inum in
      ret (Some ip)
    else brelse bp ;;; ret None) in
  match r with
  | Some ip => ret ip
  | None => panic "ialloc: no inodes"
  end.

(** The fields are assigned one by one; together they are the whole dinode. *)
Definition iupdate (i : nat) : M kstate unit :=
  let! ip := gets (the_inode i) in
  let! sb := gets k_sb in
  let! bp := bread (i_dev ip) (IBLOCK (i_inum ip) sb) in
  bstore bp (dinode_off (i_inum ip)) (dinode_bytes ip) ;;;
  bwrite bp ;;;
  brelse bp.

Definition idup (i : nat) : M kstate nat :=
  acquire LkIcache ;;;
  modify (upd_inode i (λ ip, set_i_ref (u64 (i_ref ip + 1)) ip)) ;;;
  release LkIcache ;;;
  ret i.

Definition ilock (p : option nat) : M kstate unit :=
  match p with
  | None => panic "ilock"
  | Some i =>
    let! ip := gets (the_inode i) in
    if bool_decide (i_ref ip < 1) then panic "ilock" else
    acquire_sleep (SlInode i) ;;;
    let! ip := gets (the_inode i) in
    if bool_decide (i_valid ip ≠ 0) then ret tt else
    let! sb := gets k_sb in
    let! bp := bread (i_dev ip) (IBLOCK (i_inum ip) sb) in
    let! x := gets (the_buf bp) in
    let o := dinode_off (i_inum ip) in
    modify (upd_inode i (λ ip,
      set_i_addrs (dip_addrs o (b_data x)) (set_i_size (dip_size o (b_data x))
        (set_i_nlink (dip_nlink o (b_data x)) (set_i_minor (dip_minor o (b_data x))
          (set_i_major (dip_major o (b_data x)) (set_i_type (dip_type o (b_data x)) ip))))))) ;;;
    brelse bp ;;;
    modify (upd_inode i (set_i_valid 1)) ;;;
    let! ip := gets (the_inode i) in
    if bool_decide (i_type ip = 0) then panic "ilock: no type" else ret tt
  end.

Definition iunlock (p : option nat) : M kstate unit :=
  match p with
  | None => panic "iunlock"
  | Some i =>
    let! h := holding_sleep (SlInode i) in
    if negb h then panic "iunlock" else
    let! ip := gets (the_inode i) in
    if bool_decide (i_ref ip < 1) then panic "iunlock" else
    release_sleep (SlInode i)
  end.

Definition itrunc (i : nat) : M kstate unit :=
  for_each (seq 0 (Z.to_nat NDIRECT)) (λ j,
    let! ip := gets (the_inode i) in
    when (bool_decide (i_addrs ip !!! j ≠ 0)) (
      bfree (i_dev ip) (i_addrs ip !!! j) ;;;
      modify (upd_inode i (λ ip, set_i_addrs (<[j := 0]> (i_addrs ip)) ip)))) ;;;
  let! ip := gets (the_inode i) in
  let ind := i_addrs ip !!! Z.to_nat NDIRECT in
  when (bool_decide (ind ≠ 0)) (
    let! bp := bread (i_dev ip) ind in
    for_each (seq 0 (Z.to_nat NINDIRECT)) (λ j,
      let! x := gets (the_buf bp) in
      let a := get_le 8 (8 * j) (b_data x) in
      when (bool_decide (a ≠ 0)) (bfree (i_dev ip) a)) ;;;
    brelse bp ;;;
    bfree (i_dev ip) ind ;;;
    modify (upd_inode i (λ ip, set_i_addrs (<[Z.to_nat NDIRECT := 0]> (i_addrs ip)) ip))) ;;;
  modify (upd_inode i (set_i_size 0)) ;;;
  iupdate i.

Definition iput (i : nat) : M kstate unit :=
  acquire_sleep (SlInode i) ;;;
  let! ip := gets (the_inode i) in
  when (bool_decide (i_valid ip ≠ 0) && bool_decide (i_nlink ip = 0)) (
    acquire LkIcache ;;;
    let! ip := gets (the_inode i) in
    release LkIcache ;;;
    when (bool_decide (i_ref ip = 1)) (
      itrunc i ;;;
      modify (upd_inode i (set_i_type 0)) ;;;
      iupdate i ;;;
      modify (upd_inode i (set_i_valid 0)))) ;;;
  release_sleep (SlInode i) ;;;
  acquire LkIcache ;;;
  modify (upd_inode i (λ ip, set_i_ref (u64 (i_ref ip - 1)) ip)) ;;;
  release LkIcache.

Definition bmap (i : nat) (bn : Z) : M kstate Z :=
  let! ip := gets (the_inode i) in
  if bool_decide (bn < NDIRECT) then
    let addr := i_addrs ip !!! Z.to_nat bn in
    if bool_decide (addr = 0) then
      let! addr := balloc (i_dev ip) in
      modify (upd_inode i (λ ip, set_i_addrs (<[Z.to_nat bn := addr]> (i_addrs ip)) ip)) ;;;
      ret addr
    else ret addr
  else
    let bn := bn - NDIRECT in
    if bool_decide (bn < NINDIRECT) then
      let addr := i_addrs ip !!! Z.to_nat NDIRECT in
      let! addr :=
        if bool_decide (addr = 0) then
          let! addr := balloc (i_dev ip) in
          modify (upd_inode i (λ ip, set_i_addrs (<[Z.to_nat NDIRECT := addr]> (i_addrs ip)) ip)) ;;;
          ret addr
        else ret addr in
      let! bp := bread (i_dev ip) addr in
      let! x := gets (the_buf bp) in
      let addr := get_le 8 (8 * Z.to_nat bn) (b_data x) in
      let! addr :=
        if bool_decide (addr = 0) then
          let! addr := balloc (i_dev ip) in
          bstore bp (8 * Z.to_nat bn) (le_put 8 addr) ;;;
          bwrite bp ;;;
          ret addr
        else ret addr in
      brelse bp ;;;
      ret addr
    else panic "bmap: out of range".

Definition stati (i : nat) : M kstate stat :=
  let! ip := gets (the_inode i) in
  ret (mk_stat (i_type ip) (i_dev ip) (i_inum ip) (i_nlink ip) (i_size ip)).

(** One iteration per block touched. *)
Definition rw_fuel (n : Z) : nat := S (S (Z.to_nat (n / BSIZE))).

Fixpoint readi_loop (fuel : nat) (i : nat) (off n tot : Z) (dst : list byte) : M kstate (Z * list byte) :=
  if bool_decide (tot < n) then
    match fuel with
    | O => no_fuel
    | S fuel' =>
      let! blk := bmap i (off / BSIZE) in
      let! ip := gets (the_inode i) in
      let! bp := bread (i_dev ip) blk in
      let m := Z.min (n - tot) (BSIZE - off `mod` BSIZE) in
      let! x := gets (the_buf bp) in
      brelse bp ;;;
      readi_loop fuel' i (off + m) n (tot + m)
        (dst ++ slice (Z.to_nat (off `mod` BSIZE)) (Z.to_nat m) (b_data x))
    end
  else ret (tot, dst).

(** Answers the return value and the bytes stored at [dst]. *)
Definition readi (i : nat) (off n : Z) : M kstate (Z * list byte) :=
  let! ip := gets (the_inode i) in
  if bool_decide (i_type ip = T_DEV) then
    if bool_decide (i_major ip < 0) || bool_decide (NDEV ≤ i_major ip) then ret (-1, []) else
    match dev_read (i_major ip) with
    | None => ret (-1, [])
    | Some read => read i n
    end
  else
  if bool_decide (i_size ip < off) || bool_decide (u64 (off + n) < off) then ret (-1, []) else
  let n := if bool_decide (i_size ip < off + n) then i_size ip - off else n in
  readi_loop (rw_fuel n) i off n 0 [].

(** Answers the final values of [tot] and [off]. *)
Fixpoint writei_loop (fuel : nat) (i : nat) (src : list byte) (off n tot : Z) : M kstate (Z * Z) :=
  if bool_decide (tot < n) then
    match fuel with
    | O => no_fuel
    | S fuel' =>
      let! blk := bmap i (off / BSIZE) in
      let! ip := gets (the_inode i) in
      let! bp := bread (i_dev ip) blk in
      let m := Z.min (n - tot) (BSIZE - off `mod` BSIZE) in
      bstore bp (Z.to_nat (off `mod` BSIZE)) (slice (Z.to_nat tot) (Z.to_nat m) src) ;;;
      bwrite bp ;;;
      brelse bp ;;;
      writei_loop fuel' i src (off + m) n (tot + m)
    end
  else ret (tot, off).

Definition writei (i : nat) (src : list byte) (off n : Z) : M kstate Z :=
  let! ip := gets (the_inode i) in
  if bool_decide (i_type ip = T_DEV) then
    if bool_decide (i_major ip < 0) || bool_decide (NDEV ≤ i_major ip) then ret (-1) else
    match dev_write (i_major ip) with
    | None => ret (-1)
    | Some write => write i src n
    end
  else
  if bool_decide (i_size ip < off) || bool_decide (u64 (off + n) < off) then ret (-1) else
  if bool_decide (MAXFILEBLK * BSIZE < off + n) then ret (-1) else
  let! r := writei_loop (rw_fuel n) i src off n 0 in
  let '(tot, off) := r in
  let! ip := gets (the_inode i) in
  when (bool_decide (0 < n) && bool_decide (i_size ip < off)) (
    modify (upd_inode i (set_i_size off)) ;;;
    iupdate i) ;;;
  ret tot.
End Inode.
