(* ===== verification/Dir.v ===== *)
(** * Directories and paths (kernel/fs.c: dir_lookup, dir_link, skip_elem, namex, mkfs) *)
From S2P Require Import Prelude State Spinlock Sched Sleeplock Ring Bio Balloc CString Inode.

(** ** Path syntax

    A path is the list of its bytes from the pointer on, including the
    terminator; [None] is an access past the end of the list. *)
Definition slash : byte := x2f.

(** [while( *path == '/') path++;] *)
Fixpoint skip_slashes (path : list byte) : option (list byte) :=
  match path with
  | [] => None
  | c :: path' => if bool_decide (c = slash) then skip_slashes path' else Some path
  end.

(** [while( *path != '/' && *path != 0) path++;], with the bytes passed over. *)
Fixpoint take_elem (path : list byte) : option (list byte * list byte) :=
  match path with
  | [] => None
  | c :: path' =>
    if bool_decide (c ≠ slash) && bool_decide (c ≠ x00) then
      '(s, rest) ← take_elem path'; Some (c :: s, rest)
    else Some ([], path)
  end.

(** [skip_elem path name]: [Some None] for the null pointer, otherwise the rest
    of the path and the new contents of the [name] array. *)
Definition skip_elem (path name : list byte) : option (option (list byte * list byte)) :=
  path ← skip_slashes path;
  c ← head path;
  if bool_decide (c = x00) then Some None else
  '(s, path) ← take_elem path;
  let name :=
    if bool_decide (DIRSIZ ≤ length s)%nat then splice 0 (take DIRSIZ s) name
    else splice 0 (s ++ [x00]) name in
  path ← skip_slashes path;
  Some (Some (path, name)).

(** An access outside an array: undefined in C, an error here. *)
Definition in_bounds {S A} (o : option A) : M S A :=
  match o with Some a => ret a | None => panic "out of bounds" end.

(** ** Directory entries *)
Definition dirent_bytes (inum : Z) (name : list byte) : list byte := le_put 8 inum ++ name.
Definition de_inum (d : list byte) : Z := get_le 8 0 d.
Definition de_name (d : list byte) : list byte := slice 8 DIRSIZ d.

Section Dir.
Context {wf : WakeFuel} {dsw : DevSw}.

(** The loop of [dir_lookup]: the inode found and [*poff]. *)
Fixpoint dir_lookup_loop (fuel : nat) (dp : nat) (name : list byte) (off : Z)
    : M kstate (option (nat * Z)) :=
  let! d := gets (the_inode dp) in
  if bool_decide (off < i_size d) then
    match fuel with
    | O => no_fuel
    | S fuel' =>
      let! r := readi dp off DIRENT_SIZE in
      let '(k, de) := r in
      if bool_decide (k ≠ DIRENT_SIZE) then panic "dir_lookup can't read" else
      if bool_decide (de_inum de = 0) then dir_lookup_loop fuel' dp name (off + DIRENT_SIZE) else
      let! c := in_bounds (strncmp name (de_name de) DIRSIZ) in
      if bool_decide (c = 0) then
        let! d := gets (the_inode dp) in
        let! ip := iget (i_dev d) (de_inum de) in
        ret (Some (ip, off))
      else dir_lookup_loop fuel' dp name (off + DIRENT_SIZE)
    end
  else ret None.

Definition dir_fuel (dp : nat) (s : kstate) : nat := S (Z.to_nat (i_size (the_inode dp s) / DIRENT_SIZE)).

Definition dir_lookup (dp : nat) (name : list byte) : M kstate (option (nat * Z)) :=
  let! d := gets (the_inode dp) in
  if bool_decide (i_type d ≠ T_DIR) then panic "dir_lookup not on dir" else
  let! fuel := gets (dir_fuel dp) in
  dir_lookup_loop fuel dp name 0.

(** The scan of [dir_link] for an empty slot: the final [off]. *)
Fixpoint dir_slot_loop (fuel : nat) (dp : nat) (off : Z) : M kstate Z :=
  let! d := gets (the_inode dp) in
  if bool_decide (off < i_size d) then
    match fuel with
    | O => no_fuel
    | S fuel' =>
      let! r := readi dp off DIRENT_SIZE in
      let '(k, de) := r in
      if bool_decide (k ≠ DIRENT_SIZE) then panic "dir_link can't read" else
      if bool_decide (de_inum de = 0) then ret off else dir_slot_loop fuel' dp (off + DIRENT_SIZE)
    end
  else ret off.

Definition dir_link (dp : nat) (name : list byte) (inum : Z) : M kstate Z :=
  let! r := dir_lookup dp name in
  match r with
  | Some (ip, _) => iput ip ;;; ret (-1)
  | None =>
    let! fuel := gets (dir_fuel dp) in
    let! off := dir_slot_loop fuel dp 0 in
    let! nm := in_bounds (strncpy name DIRSIZ) in
    let! k := writei dp (dirent_bytes inum nm) off DIRENT_SIZE in
    if bool_decide (k ≠ DIRENT_SIZE) then panic "dir_link cant write" else ret 0
  end.

(** [namex]: the inode and the final contents of [name]. *)
Fixpoint namex_loop (fuel : nat) (ip : nat) (path : list byte) (parent : bool) (name : list byte)
    : M kstate (option nat * list byte) :=
  let! e := in_bounds (skip_elem path name) in
  match e with
  | None =>
    if parent then iput ip ;;; ret (None, name) else ret (Some ip, name)
  | Some (path, name) =>
    match fuel with
    | O => no_fuel
    | S fuel' =>
      ilock (Some ip) ;;;
      let! d := gets (the_inode ip) in
      if bool_decide (i_type d ≠ T_DIR) then
        iunlock (Some ip) ;;; iput ip ;;; ret (None, name)
      else if parent && bool_decide (head path = Some x00) then
        iunlock (Some ip) ;;; ret (Some ip, name)
      else
        let! next := dir_lookup ip name in
        match next with
        | None => iunlock (Some ip) ;;; iput ip ;;; ret (None, name)
        | Some (next, _) => iunlock (Some ip) ;;; iput ip ;;; namex_loop fuel' next path parent name
        end
    end
  end.

Definition namex (path : list byte) (parent : bool) (name : list byte) : M kstate (option nat * list byte) :=
  let! c := in_bounds (head path) in
  let! ip :=
    if bool_decide (c = slash) then iget ROOTDEV ROOTINO
    else
      let! p := myproc in
      let! p := deref p in
      let! cwd := gets (λ s, p_cwd (the_proc p s)) in
      let! cwd := deref cwd in
      idup cwd in
  namex_loop (length path) ip path parent name.

(** The local [char name[DIRSIZ]] of [namei] is uninitialised. *)
Definition namei (path name0 : list byte) : M kstate (option nat) :=
  let! r := namex path false name0 in ret (fst r).
Definition namei_parent (path name : list byte) : M kstate (option nat * list byte) :=
  namex path true name.

Definition mkfs (dev : Z) : M kstate unit :=
  modify (set_k_sb (λ _, mk_sb NBLOCKS (NBLOCKS - (1 + 1 + 1 + 3)) (3 * BSIZE / DINODE_SIZE) 3 2)) ;;;
  let! sbp := bread dev 1 in
  let! sb := gets k_sb in
  bstore sbp 0 (sb_bytes sb) ;;;
  bwrite sbp ;;;
  brelse sbp ;;;
  let! bm := bread dev (sb_bmap_start sb) in
  bstore bm 0 [z2b (Z.shiftl 1 6 - 1)] ;;;
  bwrite bm ;;;
  brelse bm ;;;
  let! rooti := ialloc dev T_DIR in
  ilock (Some rooti) ;;;
  modify (upd_inode rooti (set_i_nlink 1)) ;;;
  iupdate rooti ;;;
  dir_link rooti [x2e; x00] ROOTINO ;;;
  dir_link rooti [x2e; x2e; x00] ROOTINO ;;;
  iunlock (Some rooti) ;;;
  iput rooti.
End Dir.
