(* ===== verification/FileMap.v ===== *)
(** * The block map of a file

    The pure side of [bmap]: which disk block holds block [bn] of a file, what
    makes an inode's map well formed, and how the three kinds of allocation
    extend it. *)
From S2P Require Import Prelude State Spinlock Sched Sleeplock Ring Bio Balloc Inode.

(** The block number [bmap] finds for block [bn] of a file, 0 for none. *)
Definition blkno (V : store) (A : list Z) (bn : Z) : Z :=
  if decide (bn < NDIRECT) then A !!! Z.to_nat bn
  else if decide (A !!! 13%nat = 0) then 0
  else get_le 8 (8 * Z.to_nat (bn - NDIRECT)) (V (A !!! 13%nat)).

Definition bn_ok (bn : Z) : Prop := 0 ≤ bn < MAXFILEBLK.

Lemma get_le_zero n off : (off + n ≤ BSIZE_nat)%nat → get_le n off zero_block = 0.
Proof.
  intros H. unfold get_le, slice, zero_block. rewrite drop_replicate, take_replicate.
  generalize (n `min` (BSIZE_nat - off))%nat. intros k.
  induction k as [|k IH]; [done|]. cbn [replicate le_get]. by rewrite IH.
Qed.

Section FileMap.
(** Size of the image, its bitmap block, the inode's own block. *)
Context (sz bm ib : Z).

(** A block that belongs to a file: in range, in use, not a metadata block. *)
Definition data_ok (V : store) (a : Z) : Prop :=
  0 < a < sz ∧ a ≠ bm ∧ a ≠ ib ∧ used bm V a = true ∧ length (V a) = BSIZE_nat.

Record file_ok (V : store) (A : list Z) : Prop := {
  fo_len : length A = 14%nat;
  fo_blk : ∀ bn, bn_ok bn → blkno V A bn ≠ 0 → data_ok V (blkno V A bn);
  fo_ind : A !!! 13%nat ≠ 0 → data_ok V (A !!! 13%nat);
  fo_ind_ne : A !!! 13%nat ≠ 0 → ∀ bn, bn_ok bn → blkno V A bn ≠ A !!! 13%nat;
  fo_inj : ∀ bn bn', bn_ok bn → bn_ok bn' → blkno V A bn ≠ 0 →
           blkno V A bn = blkno V A bn' → bn = bn'
}.

(** [grows V V']: blocks in use stay in use. *)
Definition grows (V V' : store) : Prop := ∀ b, 0 ≤ b → used bm V b = true → used bm V' b = true.

Lemma data_ok_grows V V' a :
  grows V V' → (length (V a) = BSIZE_nat → length (V' a) = BSIZE_nat) → data_ok V a → data_ok V' a.
Proof. intros Hg Hl (? & ? & ? & ? & ?). split_and!; try lia; auto. apply Hg; [lia|done]. Qed.

(** One more data block. *)
Lemma file_ok_blk V A V' A' bn a :
  file_ok V A → bn_ok bn → grows V V' → (∀ b, length (V b) = BSIZE_nat → length (V' b) = BSIZE_nat) →
  length A' = 14%nat → A' !!! 13%nat = A !!! 13%nat → used bm V a = false → data_ok V' a →
  (∀ b, bn_ok b → blkno V' A' b = if decide (b = bn) then a else blkno V A b) →
  file_ok V' A'.
Proof.
  intros F Hbn Hg Hl HA' H13 Hu Ha HM.
  assert (∀ b, bn_ok b → blkno V A b ≠ 0 → blkno V A b ≠ a) as Hold.
  { intros b Hb Hnz E. destruct (fo_blk _ _ F b Hb Hnz) as (_ & _ & _ & Hu' & _). congruence. }
  split; try done.
  - intros b Hb. rewrite HM by done. case_decide; [done|]. intros Hnz.
    eapply data_ok_grows; [done|apply Hl|]. by apply F.
  - rewrite H13. intros Hnz. eapply data_ok_grows; [done|apply Hl|]. by apply F.
  - rewrite H13. intros Hnz b Hb. rewrite HM by done. case_decide.
    + intros ->. destruct (fo_ind _ _ F Hnz) as (_ & _ & _ & Hu' & _). congruence.
    + by apply F.
  - intros b b' Hb Hb'. rewrite !HM by done. repeat case_decide; subst; try done.
    + intros Hnz E. exfalso. destruct (decide (blkno V A b' = 0)); [congruence|].
      by apply (Hold b').
    + intros Hnz E. exfalso. by apply (Hold b).
    + by apply F.
Qed.

(** A new, empty indirect block. *)
Lemma file_ok_ind V A V' A' a :
  file_ok V A → A !!! 13%nat = 0 → grows V V' → (∀ b, length (V b) = BSIZE_nat → length (V' b) = BSIZE_nat) →
  length A' = 14%nat → A' !!! 13%nat = a → used bm V a = false → data_ok V' a →
  (∀ b, bn_ok b → blkno V' A' b = blkno V A b) → file_ok V' A'.
Proof.
  intros F H0 Hg Hl HA' H13 Hu Ha HM. split; try done.
  - intros b Hb. rewrite HM by done. intros Hnz. eapply data_ok_grows; [done|apply Hl|]. by apply F.
  - by rewrite H13.
  - rewrite H13. intros Hnz b Hb. rewrite HM by done. intros E.
    destruct (fo_blk _ _ F b Hb) as (_ & _ & _ & Hu' & _); congruence.
  - intros b b' Hb Hb'. rewrite !HM by done. by apply F.
Qed.

(** A block [balloc] has just handed out. *)
Record fresh (V : store) (a : Z) : Prop := {
  fr_range : 0 < a < sz;
  fr_sz : sz ≤ BPB;
  fr_bm : a ≠ bm;
  fr_ib : a ≠ ib;
  fr_free : used bm V a = false;
  fr_bm_len : length (V bm) = BSIZE_nat;
  fr_used : ∀ b, 0 ≤ b → used bm (allocated a bm V) b = bool_decide (b = a) || used bm V b
}.

Section Fresh.
Context (V : store) (A : list Z) (a : Z) (F : file_ok V A) (Fr : fresh V a).
Let V1 := allocated a bm V.

Lemma fresh_grows : grows V V1.
Proof. intros b Hb Hu. subst V1. rewrite (fr_used _ _ Fr), Hu by done. apply orb_true_r. Qed.

Lemma fresh_len b : length (V b) = BSIZE_nat → length (V1 b) = BSIZE_nat.
Proof.
  intros Hl. subst V1. unfold allocated. destruct (decide (b = a)) as [->|].
  - rewrite fn_lookup_insert. apply length_replicate.
  - rewrite fn_lookup_insert_ne by done. destruct (decide (b = bm)) as [->|].
    + rewrite fn_lookup_insert. rewrite bit_set_length; [done|]. rewrite (fr_bm_len _ _ Fr).
      pose proof (fr_range _ _ Fr). pose proof (fr_sz _ _ Fr).
      ksize; lia.
    + by rewrite fn_lookup_insert_ne.
Qed.

Lemma fresh_other b : b ≠ a → b ≠ bm → V1 b = V b.
Proof. intros. subst V1. unfold allocated. by rewrite !fn_lookup_insert_ne. Qed.

Lemma fresh_data : data_ok V1 a.
Proof.
  destruct Fr as [R ? ? ? ? ? Hu]. split_and!; try lia.
  - rewrite Hu by lia. by rewrite bool_decide_true.
  - subst V1. unfold allocated. rewrite fn_lookup_insert. apply length_replicate.
Qed.

Lemma fresh_ind : A !!! 13%nat ≠ 0 → V1 (A !!! 13%nat) = V (A !!! 13%nat).
Proof.
  intros Hnz. destruct (fo_ind _ _ F Hnz) as (_ & Hbm & _ & Hu & _). apply fresh_other; [|done].
  intros E. rewrite E, (fr_free _ _ Fr) in Hu. done.
Qed.

(** [ip->addrs[bn] = balloc(dev)]. *)
Lemma extend_direct bn : 0 ≤ bn < NDIRECT → A !!! Z.to_nat bn = 0 →
  let A' := <[Z.to_nat bn := a]> A in
  file_ok V1 A' ∧ ∀ b, bn_ok b → blkno V1 A' b = if decide (b = bn) then a else blkno V A b.
Proof.
  intros Hbn H0 A'.  pose proof (fo_len _ _ F) as HL.
  assert (A' !!! 13%nat = A !!! 13%nat) as H13.
  { subst A'. rewrite list_lookup_total_insert_ne by (ksize; lia). done. }
  assert (∀ b, bn_ok b → blkno V1 A' b = if decide (b = bn) then a else blkno V A b) as HM.
  { intros b [Hb _]. unfold blkno. rewrite H13. destruct (decide (b < NDIRECT)) as [Hd|Hd].
    - subst A'. case_decide as E.
      + subst b. apply list_lookup_total_insert_eq. ksize; lia.
      + apply list_lookup_total_insert_ne. lia.
    - rewrite (decide_False (P := b = bn)) by (ksize; lia).
      case_decide; [done|]. by rewrite fresh_ind. }
  split; [|done]. apply (file_ok_blk V A V1 A' bn a); try done.
  - unfold bn_ok; ksize; lia.
  - apply fresh_grows.
  - apply fresh_len.
  - subst A'. by rewrite length_insert.
  - apply Fr.
  - apply fresh_data.
Qed.

(** [ip->addrs[NDIRECT] = balloc(dev)]: a block of zeros maps nothing. *)
Lemma extend_ind : A !!! 13%nat = 0 →
  let A' := <[13%nat := a]> A in
  file_ok V1 A' ∧ ∀ b, bn_ok b → blkno V1 A' b = blkno V A b.
Proof.
  intros H0 A'. pose proof (fo_len _ _ F) as HL.
  assert (A' !!! 13%nat = a) as H13 by (subst A'; apply list_lookup_total_insert_eq; lia).
  assert (∀ b, bn_ok b → blkno V1 A' b = blkno V A b) as HM.
  { intros b [Hb Hb2]. unfold blkno. rewrite H13, H0. destruct (decide (b < NDIRECT)) as [Hd|Hd].
    - subst A'. apply list_lookup_total_insert_ne. ksize; lia.
    - rewrite (decide_True (P := 0 = 0)) by done. rewrite decide_False by (pose proof (fr_range _ _ Fr); lia).
      subst V1. unfold allocated. rewrite fn_lookup_insert. apply get_le_zero.
      ksize; lia. }
  split; [|done]. apply (file_ok_ind V A V1 A' a); try done.
  - apply fresh_grows.
  - apply fresh_len.
  - subst A'. by rewrite length_insert.
  - apply Fr.
  - apply fresh_data.
Qed.

(** [a[bn] = balloc(dev); bwrite(bp)] in the indirect block. *)
Lemma extend_entry bn : NDIRECT ≤ bn < MAXFILEBLK → A !!! 13%nat ≠ 0 → blkno V A bn = 0 →
  let V2 := <[A !!! 13%nat := splice (8 * Z.to_nat (bn - NDIRECT)) (le_put 8 a) (V1 (A !!! 13%nat))]> V1 in
  file_ok V2 A ∧ (∀ b, bn_ok b → blkno V2 A b = if decide (b = bn) then a else blkno V A b) ∧
  (∀ b, b ≠ a → b ≠ bm → b ≠ A !!! 13%nat → V2 b = V b) ∧ V2 a = zero_block ∧
  (∀ b, used bm V2 b = used bm V1 b).
Proof.
  intros Hbn Hnz H0 V2. 
  destruct (fo_ind _ _ F Hnz) as (Hr & Hbm & Hib & Hu & Hl).
  assert (A !!! 13%nat ≠ a) as Hne by (intros E; rewrite E, (fr_free _ _ Fr) in Hu; done).
  assert (∀ b, b ≠ A !!! 13%nat → V2 b = V1 b) as E2 by (intros; subst V2; by rewrite fn_lookup_insert_ne).
  assert (V2 (A !!! 13%nat) = set_le 8 (8 * Z.to_nat (bn - NDIRECT)) a (V (A !!! 13%nat))) as E13.
  { subst V2. rewrite fn_lookup_insert, fresh_ind by done. done. }
  assert (∀ b, NDIRECT ≤ b < MAXFILEBLK → (8 * Z.to_nat (b - NDIRECT) + 8 ≤ length (V (A !!! 13%nat)))%nat) as Hoff.
  { intros b. rewrite Hl. ksize; lia. }
  assert (∀ b, bn_ok b → blkno V2 A b = if decide (b = bn) then a else blkno V A b) as HM.
  { intros b [Hb Hb2]. unfold blkno. destruct (decide (b < NDIRECT)) as [Hd|Hd].
    - rewrite decide_False by lia. done.
    - rewrite !(decide_False (P := A !!! 13%nat = 0)) by done. rewrite E13. case_decide as E.
      + subst b. rewrite get_set_le_eq by (apply Hoff; lia). apply Z.mod_small.
        pose proof (fr_range _ _ Fr). pose proof (fr_sz _ _ Fr). ksize.
        change (256 ^ Z.of_nat 8) with (2 ^ 64). lia.
      + apply get_set_le_ne; [by apply Hoff|]. ksize; lia. }
  assert (∀ b, used bm V2 b = used bm V1 b) as HU by (intros b; unfold used; by rewrite E2).
  split; [|split; [done|split; [|split; [|done]]]].
  - apply (file_ok_blk V A V2 A bn a); try done.
    + unfold bn_ok; ksize; lia.
    + intros b Hb Hub. rewrite HU. by apply fresh_grows.
    + intros b Hlb. destruct (decide (b = A !!! 13%nat)) as [->|].
      * rewrite E13. unfold set_le. rewrite splice_length; [done|].
        rewrite le_put_length. by apply Hoff.
      * rewrite E2 by done. by apply fresh_len.
    + apply F.
    + apply Fr.
    + destruct fresh_data as (? & ? & ? & ? & ?). split_and!; try lia.
      * by rewrite HU.
      * by rewrite E2.
  - intros b Hba Hbb Hbi. rewrite E2 by done. by apply fresh_other.
  - rewrite E2 by done. subst V1. apply fn_lookup_insert.
Qed.
End Fresh.
End FileMap.
