(* ===== verification/InodeSpec.v ===== *)
(** * Files as arrays of bytes

    [bmap], [readi] and [writei] against the block store: reading returns the
    file's bytes, writing replaces them, and no other file's blocks change. *)
From S2P Require Import Prelude State Spinlock Sched Sleeplock Ring Bio BioSpec Balloc Inode FileMap.

(** ** What operations on inode [i] leave alone *)
Record ino_frame (i : nat) (s s' : kstate) : Prop := {
  if_cpu : k_cpu s' = k_cpu s;
  if_locks : k_locks s' = k_locks s;
  if_procs : woken (k_procs s) (k_procs s');
  if_pid : k_next_pid s' = k_next_pid s;
  if_init : k_init s' = k_init s;
  if_size : d_size (k_disk s') = d_size (k_disk s);
  if_sb : k_sb s' = k_sb s;
  if_files : k_files s' = k_files s;
  if_pipes : k_pipes s' = k_pipes s;
  if_kmem : k_kmem s' = k_kmem s;
  if_vm : k_vm s' = k_vm s;
  if_dev : k_dev s' = k_dev s;
  if_len : length (k_inodes s') = length (k_inodes s);
  if_other : ∀ j, j ≠ i → the_inode j s' = the_inode j s
}.
#[export] Instance ino_frame_preorder i : PreOrder (ino_frame i).
Proof.
  split; [by intros s; split|].
  intros s1 s2 s3 [] []. split; try congruence; first [by etrans|idtac].
  intros j Hj. by rewrite if_other1, if_other0.
Qed.

Lemma bio_ino_frame i s s' : bio_frame s s' → ino_frame i s s'.
Proof. intros []. split; try done; [congruence|]. intros j _. unfold the_inode. congruence. Qed.

Lemma bio_the_inode i s s' : bio_frame s s' → the_inode i s' = the_inode i s.
Proof. intros []. unfold the_inode. congruence. Qed.

Lemma upd_ino_frame i f s : ino_frame i s (upd_inode i f s).
Proof.
  split; try done.
  - unfold upd_inode. ksimpl. apply length_alter.
  - intros j Hj. apply the_inode_upd_ne. done.
Qed.

(** ** The invariant of a file whose inode is cached and locked *)
Definition iblk (i : nat) (s : kstate) : Z := IBLOCK (i_inum (the_inode i s)) (k_sb s).

Definition owned (V : store) (A : list Z) (a : Z) : Prop :=
  a ≠ 0 ∧ (a = A !!! 13%nat ∨ ∃ bn, bn_ok bn ∧ blkno V A bn = a).

Record file_inv (V : store) (H : holders) (s : kstate) (i : nat) : Prop := {
  fi_alloc : alloc_inv V H s;
  fi_len : length (k_inodes s) = NINODE;
  fi_i : (i < NINODE)%nat;
  fi_dev : i_dev (the_inode i s) = 0;
  fi_inum : 0 ≤ i_inum (the_inode i s);
  fi_zero : used (bmap_blk s) V 0 = true;
  fi_ib : 0 ≤ iblk i s < sb_size (k_sb s) ∧ iblk i s ≠ bmap_blk s ∧
          used (bmap_blk s) V (iblk i s) = true;
  fi_ib_free : blk_free (iblk i s) H;
  fi_ok : file_ok (sb_size (k_sb s)) (bmap_blk s) (iblk i s) V (i_addrs (the_inode i s));
  fi_free : ∀ a, owned V (i_addrs (the_inode i s)) a → blk_free a H
}.

Section InodeSpec.
Context {wf : WakeFuel} {dsw : DevSw}.

Lemma bio_held_data V H s b blk :
  bio_inv V H s → H !! b = Some (blk, true) → b_data (the_buf b s) = V blk.
Proof.
  intros [L I] Hh. assert (b < NBUF)%nat as Hb by by eapply (bi_H _ _ _ _ I).
  pose proof (bi_bufs _ _ _ _ I b Hb) as B. rewrite Hh in B.
  destruct (bo_held _ _ _ _ B) as (_ & _ & <- & Hnz). by apply B.
Qed.

Lemma alloc_inv_upd_inode V H s i f : alloc_inv V H s → alloc_inv V H (upd_inode i f s).
Proof.
  intros [[L []] [] Hb Hh]. split; [|split; done|done|done]. exists L. by split.
Qed.

Section File.
Context (V : store) (H : holders) (s : kstate) (i : nat) (F : file_inv V H s i).
Let A := i_addrs (the_inode i s).
Let bm := bmap_blk s.
Let sz := sb_size (k_sb s).

Lemma fi_bio : bio_inv V H s.
Proof. apply F. Qed.

Lemma fi_bound : (i < length (k_inodes s))%nat.
Proof. rewrite (fi_len _ _ _ _ F). apply F. Qed.

Lemma sz_nblk : sz ≤ nblk s.
Proof. apply (ai_geom _ _ _ (fi_alloc _ _ _ _ F)). Qed.

Lemma owned_read a : (size H < NBUF)%nat → owned V A a → can_read H a s.
Proof.
  intros Hr Ho. split; [|split; [by apply (fi_free _ _ _ _ F)|done]].
  assert (data_ok sz bm (iblk i s) V a) as (? & _).
  { destruct Ho as [Hnz [->|(bn & Hbn & <-)]]; [by apply (fi_ok _ _ _ _ F)|].
    by apply (fi_ok _ _ _ _ F). }
  pose proof sz_nblk. lia.
Qed.

Lemma owned_ind : A !!! 13%nat ≠ 0 → owned V A (A !!! 13%nat).
Proof. by split; [|left]. Qed.
Lemma owned_blk bn : bn_ok bn → blkno V A bn ≠ 0 → owned V A (blkno V A bn).
Proof. split; [done|right; eauto]. Qed.

(** [bmap] on a block that is there only reads. *)
Lemma bmap_mapped bn :
  bn_ok bn → blkno V A bn ≠ 0 → (size H < NBUF)%nat →
  wp (bmap i bn s) (λ a s', a = blkno V A bn ∧ bio_inv V H s' ∧ bio_frame s s').
Proof.
  intros Hbn Hnz Hroom. unfold bmap. rewrite bind_gets. fold A.
  unfold blkno in *. destruct (decide (bn < NDIRECT)) as [Hd|Hd].
  - rewrite bool_decide_true, bool_decide_false by done. split; [done|].
    split; [apply fi_bio|done].
  - destruct (decide (A !!! 13%nat = 0)) as [|H13]; [done|].
    rewrite bool_decide_false by done. rewrite bool_decide_true by (unfold bn_ok in *; ksize; lia).
    change (Z.to_nat NDIRECT) with 13%nat. rewrite bool_decide_false by done.
    rewrite bind_ret_l, (fi_dev _ _ _ _ F).
    apply (wp_bread V H); [apply fi_bio|by apply owned_read; [|apply owned_ind]|].
    intros bp s1 I1 HH Hdat _ F1. rewrite bind_gets, Hdat, bool_decide_false by done.
    rewrite bind_ret_l. apply (wp_release V H s1 bp (A !!! 13%nat)); [done..|].
    intros s2 I2 F2. split; [done|]. split; [done|by etrans].
Qed.
End File.

Lemma file_inv_step V V' H s s' i A' :
  file_inv V H s i → alloc_inv V' H s' → ino_frame i s s' →
  the_inode i s' = set_i_addrs A' (the_inode i s) → grows (bmap_blk s) V V' →
  file_ok (sb_size (k_sb s)) (bmap_blk s) (iblk i s) V' A' →
  (∀ a, owned V' A' a → owned V (i_addrs (the_inode i s)) a ∨ used (bmap_blk s) V a = false) →
  file_inv V' H s' i.
Proof.
  intros F Al Fr Ei Hg Hok Ho.
  assert (bmap_blk s' = bmap_blk s) as Eb by (unfold bmap_blk; by rewrite (if_sb _ _ _ Fr)).
  assert (iblk i s' = iblk i s) as Eib by (unfold iblk; by rewrite (if_sb _ _ _ Fr), Ei).
  destruct F as [Fa Fl Fi Fd Fn Fz (Hr & Hne & Hu) Fib Fok Ff].
  split; rewrite ?Eb, ?Eib, ?(if_sb _ _ _ Fr), ?Ei; try done.
  - by rewrite (if_len _ _ _ Fr).
  - apply Hg; [lia|done].
  - split; [done|]. split; [done|]. apply Hg; [lia|done].
  - intros a [Hold|Hnew]%Ho; [by apply Ff|].
    intros b x Hb E. apply (ai_held _ _ _ Fa) in Hb as (_ & _ & Hb). congruence.
Qed.

(** What [bmap i bn] promises: the map has grown by at most block [bn]. *)
Record bmap_post (V : store) (H : holders) (s : kstate) (i : nat) (bn a : Z)
    (V' : store) (A' : list Z) (s' : kstate) : Prop := {
  bp_inv : file_inv V' H s' i;
  bp_ino : the_inode i s' = set_i_addrs A' (the_inode i s);
  bp_frame : ino_frame i s s';
  bp_blk : blkno V' A' bn = a ∧ a ≠ 0;
  bp_map : ∀ b, bn_ok b → b ≠ bn → blkno V' A' b = blkno V (i_addrs (the_inode i s)) b;
  bp_old : blkno V (i_addrs (the_inode i s)) bn ≠ 0 → a = blkno V (i_addrs (the_inode i s)) bn;
  bp_new : blkno V (i_addrs (the_inode i s)) bn = 0 → V' a = zero_block;
  bp_data : ∀ b, 0 ≤ b → used (bmap_blk s) V b = true → b ≠ bmap_blk s →
            (i_addrs (the_inode i s) !!! 13%nat ≠ 0 → b ≠ i_addrs (the_inode i s) !!! 13%nat) → V' b = V b;
  bp_owned : ∀ b, owned V' A' b → owned V (i_addrs (the_inode i s)) b ∨ used (bmap_blk s) V b = false;
  bp_ind : bn < NDIRECT ∨ i_addrs (the_inode i s) !!! 13%nat ≠ 0 →
           A' !!! 13%nat = i_addrs (the_inode i s) !!! 13%nat;
  bp_same : blkno V (i_addrs (the_inode i s)) bn ≠ 0 → A' = i_addrs (the_inode i s);
  bp_grows : grows (bmap_blk s) V V';
  bp_nfree : (nfree s V ≤ nfree s V' +
    (if decide (blkno V (i_addrs (the_inode i s)) bn = 0%Z) then 1 else 0) +
    (if decide ((NDIRECT ≤ bn)%Z ∧ i_addrs (the_inode i s) !!! 13%nat = 0%Z ∧ A' !!! 13%nat ≠ 0%Z)
     then 1 else 0))%nat
}.

Lemma owned_pos V H s i a : file_inv V H s i → owned V (i_addrs (the_inode i s)) a → 0 < a.
Proof.
  intros F [Hnz [->|(bn & Hbn & <-)]].
  - destruct (fo_ind _ _ _ _ _ (fi_ok _ _ _ _ F) Hnz) as [? _]. lia.
  - destruct (fo_blk _ _ _ _ _ (fi_ok _ _ _ _ F) bn Hbn Hnz) as [? _]. lia.
Qed.

Section Bmap.
Context (V : store) (H : holders) (s : kstate) (i : nat) (F : file_inv V H s i).
Let A := i_addrs (the_inode i s).
Let bm := bmap_blk s.
Let sz := sb_size (k_sb s).

(** A block [balloc] hands out while more buffers are held. *)
Lemma balloc_fresh H' s1 :
  alloc_inv V H' s1 → bio_frame s s1 → (size H' < NBUF)%nat → (0 < nfree s V)%nat →
  wp (balloc 0 s1) (λ a s', fresh sz bm (iblk i s) V a ∧
    alloc_inv (allocated a bm V) H' s' ∧ bio_frame s s' ∧
    nfree s V = S (nfree s (allocated a bm V))).
Proof.
  intros Al Fr Hroom Hn.
  kuse (balloc_inv V H' s1 Al Hroom); [by rewrite (nfree_frame s s1) by apply Fr|].
  intros a s' (Ha & Hu & Hne & _ & Al' & Fr'). rewrite (bmap_frame _ _ Fr) in *.
  rewrite (bf_sb _ _ Fr) in *. fold bm sz in Ha, Hu, Hne, Al' |- *.
  destruct (fi_alloc _ _ _ _ F) as [I G _ _].
  split; [|split; [done|split; [by etrans|]]].
  - split; try done.
    + assert (a ≠ 0); [|lia]. intros ->. pose proof (fi_zero _ _ _ _ F). subst bm. congruence.
    + apply G.
    + intros ->. destruct (fi_ib _ _ _ _ F) as (_ & _ & Hib). subst bm. congruence.
    + by apply (bm_len V H s).
    + intros b Hb. apply (used_allocated V H s (fi_alloc _ _ _ _ F)); done.
  - by apply (nfree_allocated V H s (fi_alloc _ _ _ _ F)).
Qed.

Lemma owned_ext V' A' bn a :
  A' !!! 13%nat = A !!! 13%nat → used bm V a = false →
  (∀ b, bn_ok b → blkno V' A' b = if decide (b = bn) then a else blkno V A b) →
  ∀ x, owned V' A' x → owned V A x ∨ used bm V x = false.
Proof.
  intros H13 Hu HM x [Hnz [->|(b & Hb & E)]]; [left; rewrite H13 in *; by split; [|left]|].
  rewrite HM in E by done. case_decide; [subst; by right|]. left. split; [done|right; eauto].
Qed.

Lemma bmap_direct bn :
  0 ≤ bn < NDIRECT → A !!! Z.to_nat bn = 0 → (size H < NBUF)%nat → (0 < nfree s V)%nat →
  wp (bmap i bn s) (λ a s', ∃ V' A', bmap_post V H s i bn a V' A' s').
Proof.
  intros Hbn H0 Hroom Hn. unfold bmap. rewrite bind_gets. fold A.
  rewrite bool_decide_true by lia. rewrite bool_decide_true by done.
  rewrite (fi_dev _ _ _ _ F). apply wp_bind.
  kuse (balloc_fresh H s (fi_alloc _ _ _ _ F)); [done..|]. intros a s1 (Fa & Al & Fr & Hnf).
  rewrite bind_modify. apply wp_ret. set (s2 := upd_inode i _ s1).
  destruct (extend_direct _ _ _ V A a (fi_ok _ _ _ _ F) Fa bn Hbn H0) as [Hok HM].
  set (A' := <[Z.to_nat bn := a]> A) in *. set (V' := allocated a bm V) in *.
  pose proof (fo_len _ _ _ _ _ (fi_ok _ _ _ _ F)) as HL. fold A in HL.
  assert (A' !!! 13%nat = A !!! 13%nat) as H13.
  { subst A'. apply list_lookup_total_insert_ne. ksize; lia. }
  assert (the_inode i s2 = set_i_addrs A' (the_inode i s)) as E2.
  { subst s2. rewrite the_inode_upd_eq.
    - rewrite (bio_the_inode _ _ _ Fr). done.
    - rewrite (bf_inodes _ _ Fr). by apply (fi_bound V H s). }
  assert (ino_frame i s s2) as Fr2 by (etrans; [by apply bio_ino_frame|apply upd_ino_frame]).
  assert (blkno V A bn = 0) as Hz by (unfold blkno; by rewrite decide_True by lia).
  assert (bn_ok bn) as Hbo by (unfold bn_ok; ksize; lia).
  assert (∀ x, owned V' A' x → owned V A x ∨ used bm V x = false) as HO.
  { eapply (owned_ext V' A' bn a); try done. apply Fa. }
  exists V', A'. split; try done.
  - apply (file_inv_step V V' H s s2 i A' F); try done.
    + by apply (alloc_inv_upd_inode V' H s1).
    + by eapply fresh_grows.
  - rewrite HM, decide_True by done. split; [done|]. pose proof (fr_range _ _ _ _ _ Fa). lia.
  - intros b Hb Hne. rewrite HM by done. by rewrite decide_False.
  - intros _. apply fn_lookup_insert.
  - intros b _ Hub Hbb _. apply (fresh_other bm); [|done]. intros ->. pose proof (fr_free _ _ _ _ _ Fa). subst bm. congruence.
  - by eapply fresh_grows.
  - fold bm V'. rewrite Hnf, decide_True by done. lia.
Qed.

(** The second half of the indirect case: the entry in the indirect block. *)
Definition ind_entry (bn addr : Z) : M kstate Z :=
  let! bp := bread 0 addr in
  let! x := gets (the_buf bp) in
  let addr := get_le 8 (8 * Z.to_nat bn) (b_data x) in
  let! addr :=
    if bool_decide (addr = 0) then
      let! addr := balloc 0 in
      bstore bp (8 * Z.to_nat bn) (le_put 8 addr) ;;;
      bwrite bp ;;;
      ret addr
    else ret addr in
  brelse bp ;;;
  ret addr.

Lemma ind_entry_ok bn :
  NDIRECT ≤ bn < MAXFILEBLK → A !!! 13%nat ≠ 0 → (S (size H) < NBUF)%nat →
  (blkno V A bn = 0 → (0 < nfree s V)%nat) →
  wp (ind_entry (bn - NDIRECT) (A !!! 13%nat) s) (λ a s', ∃ V' A', A' = A ∧ bmap_post V H s i bn a V' A' s').
Proof.
  intros Hbn H13 Hroom Hn. unfold ind_entry.
  assert (bn_ok bn) as Hbo by (unfold bn_ok; ksize; lia).
  assert (blkno V A bn = get_le 8 (8 * Z.to_nat (bn - NDIRECT)) (V (A !!! 13%nat))) as Hblk.
  { unfold blkno. by rewrite decide_False, decide_False by (done || lia). }
  apply (wp_bread V H); [by apply (fi_bio V H s i)|apply (owned_read V H s i F); [lia|by apply owned_ind]|].
  intros bp s1 I1 HH Hdat _ F1. rewrite bind_gets, Hdat, <- Hblk.
  destruct (decide (blkno V A bn = 0)) as [Hz|Hnz].
  - rewrite bool_decide_true by done. apply wp_bind. apply wp_bind.
    set (H' := <[bp := (A !!! 13%nat, true)]> H) in *.
    assert (size H' = S (size H)) as HsH by (by apply map_size_insert_None).
    destruct (fo_ind _ _ _ _ _ (fi_ok _ _ _ _ F) H13) as (Hr13 & Hb13 & _ & Hu13 & _).
    fold A in Hr13, Hb13, Hu13.
    assert (alloc_inv V H' s1) as Al1.
    { destruct (fi_alloc _ _ _ _ F) as [_ G Hub Hh]. split; [done|by eapply geom_frame|..];
        rewrite (bmap_frame _ _ F1), ?(bf_sb _ _ F1); [done|].
      intros b x. subst H'. rewrite lookup_insert. case_decide; [|apply Hh].
      intros [= <-]. split; [simpl; lia|]. by split. }
    kuse (balloc_fresh H' s1 Al1 F1); [lia|auto|]. intros a s2 (Fa & Al & Fr & Hnf).
    destruct (extend_entry _ _ _ V A a (fi_ok _ _ _ _ F) Fa bn Hbn H13 Hz) as (Hok & HM & Hoth & Hnew & Hus).
    cbv zeta in *. fold bm in Hok, HM, Hoth, Hnew, Hus. set (V1 := allocated a bm V) in *.
    set (V2 := <[A !!! 13%nat :=
      splice (8 * Z.to_nat (bn - NDIRECT)) (le_put 8 a) (V1 (A !!! 13%nat))]> V1) in *.
    assert (H' !! bp = Some (A !!! 13%nat, true)) as HbH by apply lookup_insert_eq.
    pose proof (bio_held_data V1 H' s2 bp _ (ai_bio _ _ _ Al) HbH) as Hd2.
    apply wp_bind. kuse bstore_ok; [apply Al|exact HbH|rewrite le_put_length; ksize; lia|].
    intros _ s3 (I3 & Hd3 & _ & F3). subst H'. rewrite insert_insert_eq in I3.
    apply wp_bind. kuse bwrite_ok; [exact I3|apply lookup_insert_eq|].
    intros _ s4 (I4 & _ & _ & F4). rewrite insert_insert_eq, Hd3, Hd2 in I4. fold V2 in I4.
    apply wp_ret. apply (wp_release V2 H s4 bp (A !!! 13%nat)); [done..|].
    intros s5 I5 F5. apply wp_ret.
    assert (bio_frame s s5) as F05 by (do 2 (etrans; [|done]); by etrans).
    exists V2, A. split; [done|].
    assert (the_inode i s5 = set_i_addrs A (the_inode i s)) as E5.
    { rewrite (bio_the_inode i _ _ F05). subst A. by destruct (the_inode i s). }
    pose proof (bio_ino_frame i _ _ F05) as IF.
    pose proof (fresh_grows sz bm (iblk i s) V a Fa) as Hgr.
    assert (grows bm V V2) as Hg2 by (intros b Hb Hub; rewrite Hus; by apply Hgr).
    assert (alloc_inv V2 H s5) as Al5.
    { destruct (fi_alloc _ _ _ _ F) as [_ G Hub Hh].
      split; [done|by eapply geom_frame|..]; rewrite (bmap_frame _ _ F05), ?(bf_sb _ _ F05).
      - apply Hg2; [|done]. pose proof (g_bmap _ G). fold (bmap_blk s) in *. lia.
      - intros b x Hx. destruct (Hh b x Hx) as (? & ? & ?). split; [done|]. split; [done|].
        apply Hg2; [lia|done]. }
    assert (∀ x, owned V2 A x → owned V A x ∨ used bm V x = false) as HO.
    { eapply (owned_ext V2 A bn a); try done. apply Fa. }
    split; try done.
    + apply (file_inv_step V V2 H s s5 i A F); done.
    + rewrite HM, decide_True by done. split; [done|]. pose proof (fr_range _ _ _ _ _ Fa). lia.
    + intros b Hb Hne. rewrite HM by done. by rewrite decide_False.
    + intros b _ Hub Hbb Hbi. apply Hoth; try done; [|by apply Hbi]. intros ->.
      pose proof (fr_free _ _ _ _ _ Fa). subst bm. congruence.
    + fold A. rewrite Hnf, decide_True by done.
      assert (nfree s V2 = nfree s V1) as ->; [|lia].
      unfold nfree, free_blocks. f_equal. apply list_filter_iff. intros x. by rewrite Hus.
  - rewrite bool_decide_false by done. rewrite bind_ret_l.
    apply (wp_release V H s1 bp (A !!! 13%nat)); [done..|]. intros s2 I2 F2. apply wp_ret.
    assert (bio_frame s s2) as F02 by by etrans.
    exists V, A. split; [done|].
    assert (the_inode i s2 = set_i_addrs A (the_inode i s)) as E2.
    { rewrite (bio_the_inode i _ _ F02). subst A. by destruct (the_inode i s). }
    pose proof (bio_ino_frame i _ _ F02) as IF.
    assert (grows bm V V) as Hgr by (by intros ? ?).
    split; try done; [|by left|lia].
    apply (file_inv_step V V H s s2 i A F); try done.
    + eapply alloc_inv_frame; [exact F02|done|]. apply F.
    + apply F.
    + by left.
Qed.

(** The first half: the indirect block itself. *)
Definition ind_ensure : M kstate Z :=
  let addr := A !!! 13%nat in
  if bool_decide (addr = 0) then
    let! addr := balloc 0 in
    modify (upd_inode i (λ ip, set_i_addrs (<[13%nat := addr]> (i_addrs ip)) ip)) ;;;
    ret addr
  else ret addr.

Lemma ind_ensure_ok :
  (size H < NBUF)%nat → (A !!! 13%nat = 0 → (0 < nfree s V)%nat) →
  wp (ind_ensure s) (λ addr s', ∃ V' A',
    file_inv V' H s' i ∧ the_inode i s' = set_i_addrs A' (the_inode i s) ∧ ino_frame i s s' ∧
    addr = A' !!! 13%nat ∧ addr ≠ 0 ∧ (A !!! 13%nat ≠ 0 → A' = A) ∧
    (∀ b, owned V' A' b → owned V A b ∨ used bm V b = false) ∧
    (∀ b, bn_ok b → blkno V' A' b = blkno V A b) ∧
    (∀ b, used bm V b = true → b ≠ bm → V' b = V b) ∧ grows bm V V' ∧
    (nfree s V ≤ nfree s V' + if decide (A !!! 13%nat = 0%Z) then 1 else 0)%nat).
Proof.
  intros Hroom Hn. unfold ind_ensure. destruct (decide (A !!! 13%nat = 0)) as [H0|H0].
  - rewrite bool_decide_true by done. apply wp_bind.
    kuse (balloc_fresh H s (fi_alloc _ _ _ _ F)); [done|done|auto|]. intros a s1 (Fa & Al & Fr & Hnf).
    rewrite bind_modify. apply wp_ret. set (s2 := upd_inode i _ s1).
    destruct (extend_ind _ _ _ V A a (fi_ok _ _ _ _ F) Fa H0) as [Hok HM].
    pose proof (fo_len _ _ _ _ _ (fi_ok _ _ _ _ F)) as HL. fold A in HL.
    cbv zeta in *. fold bm in Hok, HM.
    set (A' := <[13%nat := a]> A) in *. set (V' := allocated a bm V) in *.
    assert (A' !!! 13%nat = a) as H13 by (subst A'; apply list_lookup_total_insert_eq; lia).
    assert (the_inode i s2 = set_i_addrs A' (the_inode i s)) as E2.
    { subst s2. rewrite the_inode_upd_eq.
      - rewrite (bio_the_inode _ _ _ Fr). done.
      - rewrite (bf_inodes _ _ Fr). by apply (fi_bound V H s). }
    assert (ino_frame i s s2) as Fr2 by (etrans; [by apply bio_ino_frame|apply upd_ino_frame]).
    pose proof (fresh_grows sz bm (iblk i s) V a Fa) as Hgr.
    pose proof (fr_free _ _ _ _ _ Fa) as Hfree. fold bm in Hfree.
    assert (∀ x, owned V' A' x → owned V A x ∨ used bm V x = false) as HO.
    { intros x [Hnz [->|(b & Hb & E)]]; [right; by rewrite H13|].
      left. rewrite HM in E by done. split; [done|right; eauto]. }
    exists V', A'. split.
    { apply (file_inv_step V V' H s s2 i A' F); try done.
      by apply (alloc_inv_upd_inode V' H s1). }
    split_and!; try done.
    + pose proof (fr_range _ _ _ _ _ Fa). lia.
    + intros b Hub Hbb. apply (fresh_other bm); [|done]. intros ->. congruence.
    + lia.
  - rewrite bool_decide_false by done. apply wp_ret. exists V, A.
    split; [done|]. split; [subst A; by destruct (the_inode i s)|]. split; [done|].
    split_and!; try done; [by left|by intros ? ?|lia].
Qed.
End Bmap.

Lemma bmap_ind_eq i bn s :
  NDIRECT ≤ bn < MAXFILEBLK → i_dev (the_inode i s) = 0 →
  bmap i bn s = (let! addr := ind_ensure s i in ind_entry (bn - NDIRECT) addr) s.
Proof.
  intros Hbn Hd. unfold bmap, ind_ensure. rewrite bind_gets, Hd.
  rewrite bool_decide_false by lia. rewrite bool_decide_true by (ksize; lia). done.
Qed.

(** [bmap] for a block below the maximum, with room for what it may allocate. *)
Definition bmap_need (V : store) (A : list Z) (bn : Z) : nat :=
  (if decide (blkno V A bn = 0%Z) then 1 else 0) +
  (if decide ((NDIRECT ≤ bn)%Z ∧ A !!! 13%nat = 0%Z) then 1 else 0).

Lemma bmap_ok V H s i bn :
  file_inv V H s i → bn_ok bn → (S (size H) < NBUF)%nat →
  (bmap_need V (i_addrs (the_inode i s)) bn ≤ nfree s V)%nat →
  wp (bmap i bn s) (λ a s', ∃ V' A', bmap_post V H s i bn a V' A' s').
Proof.
  intros F Hbn Hroom Hn. set (A := i_addrs (the_inode i s)) in *. unfold bmap_need in Hn.
  destruct (decide (blkno V A bn = 0)) as [Hz|Hnz].
  - destruct (decide (bn < NDIRECT)) as [Hd|Hd].
    + apply bmap_direct; try done; [unfold bn_ok in Hbn; lia| |lia|].
      * unfold blkno in Hz. by rewrite decide_True in Hz.
      * lia.
    + rewrite bmap_ind_eq by first [apply F|unfold bn_ok in *; lia].
      apply wp_bind. kuse (ind_ensure_ok V H s i F); [lia|intros; repeat case_decide; lia|].
      intros addr s1 (V1 & A1 & F1 & E1 & Fr1 & -> & Hnz & Hold & Hfr & HM & Hdat & Hgr & Hnf).
      assert (bmap_blk s1 = bmap_blk s) as Eb by (unfold bmap_blk; by rewrite (if_sb _ _ _ Fr1)).
      assert (nfree s1 V1 = nfree s V1) as En by (apply nfree_frame, Fr1).
      assert (i_addrs (the_inode i s1) = A1) as EA by by rewrite E1.
      pose proof (ind_entry_ok V1 H s1 i F1 bn) as W. rewrite EA in W. fold A in Hnf, Hold, Hfr, HM.
      rewrite HM, Hz, En in W by done.
      kuse W; [unfold bn_ok in *; lia|done|done|intros _; repeat case_decide; try lia; tauto|].
      clear W. intros a s2 (V2 & A2 & -> & P). exists V2, A1.
      destruct P as [P1 P2 P3 P4 P5 P6 P7 P8 PO PI PS P9 P10]. rewrite Eb, ?EA in *.
      split; fold A; try done.
      * by rewrite P2, E1.
      * by etrans.
      * intros b Hb Hne. rewrite P5, HM by done. done.
      * intros _. apply P7. by rewrite HM.
      * intros b Hb0 Hub Hbb Hb13. rewrite P8, Hdat; try done; [by apply Hgr|].
        intros _ ->. assert (owned V1 A1 (A1 !!! 13%nat)) as Hown by (by split; [|left]).
        destruct (Hfr _ Hown) as [Hown'|]; [|congruence].
        destruct (decide (A !!! 13%nat = 0)) as [E0|E0]; [|rewrite Hold in Hb13 by done; by apply Hb13].
        destruct Hown' as [_ [?|(bn' & Hbn' & E')]]; [congruence|].
        apply (fo_ind_ne _ _ _ _ _ (fi_ok _ _ _ _ F1)) with bn'; rewrite ?EA; try done.
        by rewrite HM.
      * intros b Hob. destruct (PO b Hob) as [Ho|Hu]; [by apply Hfr|]. right.
        destruct (used (bmap_blk s) V b) eqn:E; [|done].
        assert (0 < b) as Hpos by (apply (owned_pos V2 H s2 i b P1); by rewrite P2, E1).
        pose proof (Hgr b ltac:(lia) E). congruence.
      * intros [?|?]; [lia|]. by rewrite Hold.
      * intros b Hb Hub. auto.
      * rewrite !(nfree_frame s s1) in P10 by apply Fr1. rewrite HM in P10 by done.
        rewrite Hz in *. repeat case_decide; try lia; tauto.
  - kuse (bmap_mapped V H s i F bn); [done|done|lia|]. intros a s' (-> & I' & F').
    assert (the_inode i s' = set_i_addrs A (the_inode i s)) as E2.
    { rewrite (bio_the_inode i _ _ F'). subst A. by destruct (the_inode i s). }
    assert (grows (bmap_blk s) V V) as Hgr by (by intros ? ?).
    pose proof (bio_ino_frame i _ _ F') as IF.
    exists V, A. split; fold A; try done; [|by left|lia].
    apply (file_inv_step V V H s s' i A F); try done.
    + eapply alloc_inv_frame; [exact F'|done|]. apply F.
    + apply F.
    + by left.
Qed.

Lemma file_inv_frame V H s s' i :
  file_inv V H s i → bio_inv V H s' → bio_frame s s' → file_inv V H s' i.
Proof.
  intros F I' F'. apply (file_inv_step V V H s s' i (i_addrs (the_inode i s)) F).
  - eapply alloc_inv_frame; [exact F'|done|]. apply F.
  - by apply bio_ino_frame.
  - rewrite (bio_the_inode i _ _ F'). by destruct (the_inode i s).
  - by intros ? ?.
  - apply F.
  - by left.
Qed.
End InodeSpec.

Lemma slice_0 {A} n (l : list A) : slice 0 n l = take n l.
Proof. done. Qed.

(** ** The bytes of a file *)
Definition fbyte (V : store) (A : list Z) (x : Z) : byte :=
  default x00 (V (blkno V A (x / BSIZE)) !! Z.to_nat (x `mod` BSIZE)).
Definition fbytes (V : store) (A : list Z) (off n : Z) : list byte := fbyte V A <$> seqZ off n.

(** Every block below the size is there. *)
Definition mapped (V : store) (A : list Z) (size : Z) : Prop :=
  ∀ bn, 0 ≤ bn → bn * BSIZE < size → blkno V A bn ≠ 0.

Lemma blk_div_mod x : 0 ≤ x → 0 ≤ x / BSIZE ∧ x = x / BSIZE * BSIZE + x `mod` BSIZE ∧ 0 ≤ x `mod` BSIZE < BSIZE.
Proof.
  intros Hx. pose proof (Z.div_mod x BSIZE ltac:(done)). pose proof (Z.mod_pos_bound x BSIZE ltac:(done)).
  pose proof (Z.div_pos x BSIZE Hx ltac:(done)). lia.
Qed.

Lemma blk_add x k : 0 ≤ x → 0 ≤ k → x `mod` BSIZE + k < BSIZE →
  (x + k) / BSIZE = x / BSIZE ∧ (x + k) `mod` BSIZE = x `mod` BSIZE + k.
Proof.
  intros Hx Hk Hlt. destruct (blk_div_mod x Hx) as (H1 & H2 & H3).
  split; symmetry; [apply Z.div_unique with (r := x `mod` BSIZE + k)|
                    apply Z.mod_unique with (q := x / BSIZE)]; lia.
Qed.

(** One chunk of a transfer lies in one block. *)
Lemma fbytes_chunk V A off m :
  0 ≤ off → 0 ≤ m → off `mod` BSIZE + m ≤ BSIZE → length (V (blkno V A (off / BSIZE))) = BSIZE_nat →
  slice (Z.to_nat (off `mod` BSIZE)) (Z.to_nat m) (V (blkno V A (off / BSIZE))) = fbytes V A off m.
Proof.
  intros Ho Hm Hlt Hl. destruct (blk_div_mod off Ho) as (_ & _ & Hr).
  apply list_eq; intros k. unfold fbytes. rewrite list_lookup_fmap.
  destruct (decide (k < Z.to_nat m)%nat) as [Hk|Hk].
  - rewrite slice_lookup by done. rewrite (proj2 (lookup_seqZ off m k (off + Z.of_nat k))) by lia.
    simpl. unfold fbyte. destruct (blk_add off (Z.of_nat k)) as [-> ->]; [lia..|].
    rewrite Z2Nat.inj_add, Nat2Z.id by lia.
    destruct (lookup_lt_is_Some_2 (V (blkno V A (off / BSIZE))) (Z.to_nat (off `mod` BSIZE) + k)) as [c ->]; [|done].
    ksize; lia.
  - rewrite lookup_ge_None_2 by (rewrite slice_length by (ksize; lia); lia).
    rewrite lookup_seqZ_ge by lia. done.
Qed.

Lemma fbytes_app V A off n m : 0 ≤ n → 0 ≤ m →
  fbytes V A off (n + m) = fbytes V A off n ++ fbytes V A (off + n) m.
Proof. intros. unfold fbytes. by rewrite seqZ_app, fmap_app by done. Qed.

Section ReadWrite.
Context {wf : WakeFuel} {dsw : DevSw}.

Lemma readi_loop_ok V H i A fuel : ∀ s off n tot dst,
  file_inv V H s i → A = i_addrs (the_inode i s) → (size H < NBUF)%nat →
  0 ≤ off → 0 ≤ tot ≤ n → mapped V A (off + (n - tot)) → off + (n - tot) ≤ MAXFILEBLK * BSIZE →
  (tot < n → off `mod` BSIZE + (n - tot) ≤ BSIZE * Z.of_nat fuel) →
  wp (readi_loop fuel i off n tot dst s) (λ r s',
    r = (n, dst ++ fbytes V A off (n - tot)) ∧ bio_inv V H s' ∧ bio_frame s s').
Proof.
  induction fuel as [|fuel IH]; intros s off n tot dst F EA Hroom Ho Ht Hm Hmax Hf; cbn [readi_loop];
    destruct (blk_div_mod off Ho) as (Hq & Hoff & Hr);
    (destruct (decide (tot < n)) as [Hlt|Hlt];
     [|rewrite bool_decide_false by done; split;
       [replace n with tot by lia; rewrite Z.sub_diag; unfold fbytes; simpl; by rewrite app_nil_r|
        split; [by apply (fi_bio V H s i)|done]]]).
  { specialize (Hf Hlt). lia. }
  specialize (Hf Hlt). rewrite bool_decide_true by done.
  assert (bn_ok (off / BSIZE)) as Hbn by (unfold bn_ok; ksize; lia).
  assert (blkno V A (off / BSIZE) ≠ 0) as Hnz by (apply Hm; [done|]; lia).
  assert (owned V (i_addrs (the_inode i s)) (blkno V A (off / BSIZE))) as Hown.
  { rewrite <- EA. split; [done|right; eauto]. }
  assert (length (V (blkno V A (off / BSIZE))) = BSIZE_nat) as Hlen.
  { subst A. by apply (fi_ok _ _ _ _ F). }
  apply wp_bind. kuse (bmap_mapped V H s i F (off / BSIZE)); [done|by subst A|done|].
  intros a s1 (-> & I1 & F1). rewrite <- EA. rewrite bind_gets.
  rewrite (bio_the_inode i _ _ F1), (fi_dev _ _ _ _ F).
  apply (wp_bread V H); [done|eapply can_read_frame; [exact F1|by apply (owned_read V H s i F)]|].
  intros bp s2 I2 HH Hd _ F2. rewrite bind_gets, Hd.
  apply (wp_release V H s2 bp (blkno V A (off / BSIZE))); [done..|]. intros s3 I3 F3.
  set (m := Z.min (n - tot) (BSIZE - off `mod` BSIZE)).
  assert (bio_frame s s3) as F03 by (etrans; [|done]; by etrans).
  assert (off + m + (n - (tot + m)) = off + (n - tot)) as Eo by lia.
  kuse (IH s3); try done.
  - by eapply file_inv_frame.
  - by rewrite (bio_the_inode i _ _ F03).
  - lia.
  - lia.
  - by rewrite Eo.
  - by rewrite Eo.
  - intros Hlt'. assert ((off + m) `mod` BSIZE = 0) as ->; [|lia].
    assert (m = BSIZE - off `mod` BSIZE) as -> by lia.
    symmetry. apply Z.mod_unique with (q := off / BSIZE + 1); lia.
  - intros r s4 (-> & I4 & F4). split; [|split; [done|by etrans]].
    f_equal. rewrite <- app_assoc. f_equal.
    rewrite (fbytes_chunk V A off m) by (done || lia).
    rewrite <- fbytes_app by lia. f_equal. lia.
Qed.

(** The fuel of [readi] and [writei] covers every block touched. *)
Lemma rw_fuel_ok off n : 0 ≤ off → 0 ≤ n → off `mod` BSIZE + n ≤ BSIZE * Z.of_nat (rw_fuel n).
Proof.
  intros Ho Hn. destruct (blk_div_mod off Ho) as (_ & _ & Hr). destruct (blk_div_mod n Hn) as (Hq & Hd & Hm).
  unfold rw_fuel. ksize; lia.
Qed.

Definition wf_size (s : kstate) (i : nat) (V : store) : Prop :=
  0 ≤ i_size (the_inode i s) ≤ MAXFILEBLK * BSIZE ∧
  mapped V (i_addrs (the_inode i s)) (i_size (the_inode i s)).

Lemma mapped_le V A m n : mapped V A n → m ≤ n → mapped V A m.
Proof. intros Hm Hle bn Hbn Hlt. apply Hm; lia. Qed.

Lemma off_overflow off n :
  0 ≤ off < 2 ^ 64 → 0 ≤ n < 2 ^ 64 →
  bool_decide (u64 (off + n) < off) = bool_decide (2 ^ 64 ≤ off + n).
Proof.
  intros Ho Hn. apply bool_decide_ext. destruct (decide (off + n < 2 ^ 64)).
  - rewrite u64_small by lia. lia.
  - unfold u64. rewrite <- (Z.mod_unique (off + n) (2 ^ 64) 1 (off + n - 2 ^ 64)) by lia. lia.
Qed.

Lemma readi_ok V H s i off n :
  file_inv V H s i → (size H < NBUF)%nat → i_type (the_inode i s) ≠ T_DEV → wf_size s i V →
  0 ≤ off < 2 ^ 64 → 0 ≤ n < 2 ^ 64 →
  let sz := i_size (the_inode i s) in
  wp (readi i off n s) (λ r s',
    r = (if decide (off ≤ sz ∧ off + n < 2 ^ 64) then
           (Z.min n (sz - off), fbytes V (i_addrs (the_inode i s)) off (Z.min n (sz - off)))
         else (-1, [])) ∧ bio_inv V H s' ∧ bio_frame s s').
Proof.
  intros F Hroom Ht [Hsz Hm] Ho Hn sz. unfold readi. rewrite bind_gets. fold sz in Hsz, Hm |- *.
  rewrite bool_decide_false by done. rewrite off_overflow by done.
  destruct (decide (off ≤ sz)) as [Hle|Hle].
  - rewrite (bool_decide_false (sz < off)) by lia. simpl.
    destruct (decide (off + n < 2 ^ 64)) as [Hov|Hov].
    + rewrite bool_decide_false by lia. rewrite decide_True by lia.
      replace (if bool_decide (sz < off + n) then sz - off else n) with (Z.min n (sz - off))
        by (case_bool_decide; lia).
      kuse (readi_loop_ok V H i (i_addrs (the_inode i s)) (rw_fuel (Z.min n (sz - off))) s off
        (Z.min n (sz - off)) 0 []); try done; try lia.
      * eapply mapped_le; [exact Hm|]. lia.
      * intros _. rewrite Z.sub_0_r. apply rw_fuel_ok; lia.
      * intros r s' (-> & I & F'). rewrite Z.sub_0_r. done.
    + rewrite bool_decide_true by lia. rewrite decide_False by lia. split; [done|].
      split; [by apply (fi_bio V H s i)|done].
  - rewrite (bool_decide_true (sz < off)) by lia. simpl. rewrite decide_False by lia.
    split; [done|]. split; [by apply (fi_bio V H s i)|done].
Qed.

(** Storing into a data block of the file. *)
Lemma file_inv_store V H s s' i bn d :
  file_inv V H s i → bn_ok bn → blkno V (i_addrs (the_inode i s)) bn ≠ 0 →
  bio_inv (<[blkno V (i_addrs (the_inode i s)) bn := d]> V) H s' → bio_frame s s' →
  length d = BSIZE_nat →
  let V' := <[blkno V (i_addrs (the_inode i s)) bn := d]> V in
  file_inv V' H s' i ∧ (∀ b, used (bmap_blk s) V' b = used (bmap_blk s) V b) ∧
  ∀ b, bn_ok b → blkno V' (i_addrs (the_inode i s)) b = blkno V (i_addrs (the_inode i s)) b.
Proof.
  intros F Hbn Hnz I' F' Hd V'. set (A := i_addrs (the_inode i s)) in *.
  set (a := blkno V A bn) in *.
  pose proof (fi_ok _ _ _ _ F) as Fo. fold A in Fo.
  destruct (fo_blk _ _ _ _ _ Fo bn Hbn Hnz) as (Hr & Hbm & Hib & Hu & Hl). fold a in Hr, Hbm, Hib, Hu, Hl.
  assert (∀ b, used (bmap_blk s) V' b = used (bmap_blk s) V b) as HU.
  { intros b. unfold used. subst V'. by rewrite fn_lookup_insert_ne. }
  assert (∀ b, bn_ok b → blkno V' A b = blkno V A b) as HM.
  { intros b Hb. unfold blkno. case_decide; [done|]. case_decide as H13; [done|].
    subst V'. rewrite fn_lookup_insert_ne; [done|]. intros E.
    by apply (fo_ind_ne _ _ _ _ _ Fo H13 bn Hbn). }
  assert (∀ b, length (V b) = BSIZE_nat → length (V' b) = BSIZE_nat) as HL.
  { intros b Hb. subst V'. destruct (decide (b = a)) as [->|].
    - by rewrite fn_lookup_insert.
    - by rewrite fn_lookup_insert_ne. }
  assert (grows (bmap_blk s) V V') as Hg by (intros b _; by rewrite HU).
  split; [|done]. apply (file_inv_step V V' H s s' i A F); try done.
  - destruct (fi_alloc _ _ _ _ F) as [_ G Hb Hh]. split; [done|by eapply geom_frame|..];
      rewrite (bmap_frame _ _ F'), ?(bf_sb _ _ F').
    + by rewrite HU.
    + intros b x Hx. rewrite HU. by apply (Hh b x Hx).
  - by apply bio_ino_frame.
  - rewrite (bio_the_inode i _ _ F'). subst A. by destruct (the_inode i s).
  - split.
    + apply Fo.
    + intros b Hb. rewrite HM by done. intros Hz. eapply data_ok_grows; [done|apply HL|]. by apply Fo.
    + intros Hz. eapply data_ok_grows; [done|apply HL|]. by apply Fo.
    + intros Hz b Hb. rewrite HM by done. by apply Fo.
    + intros b b' Hb Hb'. rewrite !HM by done. by apply Fo.
  - intros x [Hx [->|(b & Hb & E)]]; left; (split; [done|]); [by left|].
    rewrite HM in E by done. right; eauto.
Qed.

(** [wrote ... off bytes]: [bytes] have been stored at [off] and nothing else
    about files has changed. *)
Record wrote (V : store) (H : holders) (s : kstate) (i : nat) (off : Z) (bytes : list byte)
    (V' : store) (A' : list Z) (s' : kstate) : Prop := {
  wr_inv : file_inv V' H s' i;
  wr_ino : the_inode i s' = set_i_addrs A' (the_inode i s);
  wr_frame : ino_frame i s s';
  wr_in : ∀ x, off ≤ x < off + Z.of_nat (length bytes) →
          fbyte V' A' x = default x00 (bytes !! Z.to_nat (x - off));
  wr_out : ∀ x, 0 ≤ x → bn_ok (x / BSIZE) → blkno V (i_addrs (the_inode i s)) (x / BSIZE) ≠ 0 →
           ¬ (off ≤ x < off + Z.of_nat (length bytes)) →
           fbyte V' A' x = fbyte V (i_addrs (the_inode i s)) x;
  wr_map : ∀ bn, bn_ok bn → blkno V (i_addrs (the_inode i s)) bn ≠ 0 →
           blkno V' A' bn = blkno V (i_addrs (the_inode i s)) bn;
  wr_new : ∀ x, off ≤ x < off + Z.of_nat (length bytes) → blkno V' A' (x / BSIZE) ≠ 0;
  wr_other : ∀ b, 0 ≤ b → used (bmap_blk s) V b = true → b ≠ bmap_blk s →
             ¬ owned V (i_addrs (the_inode i s)) b → V' b = V b;
  wr_owned : ∀ b, owned V' A' b → owned V (i_addrs (the_inode i s)) b ∨ used (bmap_blk s) V b = false;
  wr_same : (∀ x, off ≤ x < off + Z.of_nat (length bytes) →
             blkno V (i_addrs (the_inode i s)) (x / BSIZE) ≠ 0) → A' = i_addrs (the_inode i s);
  wr_grows : grows (bmap_blk s) V V'
}.

Lemma bn_ok_div x : 0 ≤ x → x < MAXFILEBLK * BSIZE → bn_ok (x / BSIZE).
Proof. intros Hx Hlt. destruct (blk_div_mod x Hx) as (? & ? & ?). unfold bn_ok. ksize; lia. Qed.

Lemma wrote_trans V H s i off b1 b2 V1 A1 s1 V2 A2 s2 :
  0 ≤ off → off + Z.of_nat (length b1 + length b2) ≤ MAXFILEBLK * BSIZE →
  wrote V H s i off b1 V1 A1 s1 → wrote V1 H s1 i (off + Z.of_nat (length b1)) b2 V2 A2 s2 →
  wrote V H s i off (b1 ++ b2) V2 A2 s2.
Proof.
  intros Ho Hmax W1 W2.
  assert (bmap_blk s1 = bmap_blk s) as Eb by (unfold bmap_blk; by rewrite (if_sb _ _ _ (wr_frame _ _ _ _ _ _ _ _ _ W1))).
  destruct W1 as [I1 E1 F1 In1 Out1 M1 N1 O1 Ow1 S1 G1].
  assert (i_addrs (the_inode i s1) = A1) as EA by by rewrite E1.
  destruct W2 as [I2 E2 F2 In2 Out2 M2 N2 O2 Ow2 S2 G2]. rewrite EA, Eb in *.
  split; rewrite ?length_app, ?Nat2Z.inj_add.
  - done.
  - by rewrite E2, E1.
  - by etrans.
  - intros x Hx. destruct (blk_div_mod x) as (? & ? & ?); [lia|].
    destruct (decide (x < off + Z.of_nat (length b1))).
    + rewrite Out2, In1 by (lia || (apply bn_ok_div; lia) || (apply N1; lia)).
      rewrite lookup_app_l by lia. done.
    + rewrite In2 by lia. rewrite lookup_app_r by lia. do 2 f_equal. lia.
  - intros x Hx Hb Hnz Hout. rewrite Out2, Out1; try done; [lia| |lia]. by rewrite M1.
  - intros bn Hb Hnz. rewrite M2, M1; try done. by rewrite M1.
  - intros x Hx. destruct (decide (x < off + Z.of_nat (length b1))).
    + rewrite M2; [apply N1; lia|apply bn_ok_div; lia|apply N1; lia].
    + apply N2; lia.
  - intros b Hb Hu Hbm Hown. rewrite O2; [by apply O1|done|by apply G1|done|].
    intros [?|?]%Ow1; [done|congruence].
  - intros b Hown2. assert (0 < b) as Hpos.
    { apply (owned_pos V2 H s2 i b I2). by rewrite E2. }
    destruct (Ow2 b Hown2) as [Hown|Hnu]; [by apply Ow1|]. right.
    destruct (used (bmap_blk s) V b) eqn:E; [|done]. pose proof (G1 b ltac:(lia) E). congruence.
  - intros Hm. rewrite S2; [apply S1; intros; apply Hm; lia|].
    intros x Hx. rewrite M1; [apply Hm; lia|apply bn_ok_div; lia|apply Hm; lia].
  - intros b Hb Hu. auto.
Qed.

Lemma filter_ext_in {B} (P Q : B → Prop) `{!∀ x, Decision (P x), !∀ x, Decision (Q x)} (l : list B) :
  (∀ x, x ∈ l → P x ↔ Q x) → filter P l = filter Q l.
Proof.
  induction l as [|x l IH]; intros HPQ; [done|]. rewrite !filter_cons.
  rewrite IH by (intros; apply HPQ; by right). specialize (HPQ x ltac:(left)).
  repeat case_decide; tauto.
Qed.

Lemma nfree_used s s' V V' : k_sb s' = k_sb s →
  (∀ b, used (bmap_blk s) V b = used (bmap_blk s) V' b) → nfree s' V = nfree s V'.
Proof.
  intros E HU. unfold nfree, free_blocks, bmap_blk in *. rewrite E. f_equal.
  apply list_filter_iff. intros b. by rewrite HU.
Qed.

(** The free blocks left after one [bmap]. *)
Definition bmap_cost (V : store) (A A' : list Z) (bn : Z) : nat :=
  (if decide (blkno V A bn = 0%Z) then 1 else 0) +
  (if decide ((NDIRECT ≤ bn)%Z ∧ A !!! 13%nat = 0%Z ∧ A' !!! 13%nat ≠ 0%Z) then 1 else 0).

Lemma fbyte_at V A x q r : 0 ≤ r < BSIZE → x = q * BSIZE + r →
  fbyte V A x = default x00 (V (blkno V A q) !! Z.to_nat r).
Proof.
  intros Hr ->. unfold fbyte.
  rewrite <- (Z.div_unique (q * BSIZE + r) BSIZE q r) by lia.
  by rewrite <- (Z.mod_unique (q * BSIZE + r) BSIZE q r) by lia.
Qed.

(** Storing [bytes] into the block [bmap] returned. *)
Lemma chunk_wrote V H s i off bytes a V1 A1 s1 s2 :
  0 ≤ off → (0 < length bytes)%nat → off `mod` BSIZE + Z.of_nat (length bytes) ≤ BSIZE →
  file_inv V H s i → bn_ok (off / BSIZE) → bmap_post V H s i (off / BSIZE) a V1 A1 s1 →
  let V2 := <[a := splice (Z.to_nat (off `mod` BSIZE)) bytes (V1 a)]> V1 in
  bio_inv V2 H s2 → bio_frame s1 s2 →
  wrote V H s i off bytes V2 A1 s2 ∧ (∀ b, used (bmap_blk s) V2 b = used (bmap_blk s) V1 b) ∧
  (∀ b, bn_ok b → blkno V2 A1 b = blkno V1 A1 b).
Proof.
  intros Ho Hlen Hchunk F Hbn P V2 I2 F2. set (A := i_addrs (the_inode i s)).
  destruct (blk_div_mod off Ho) as (Hq & Hoff & Hr).
  destruct P as [P1 P2 P3 [P4 Hanz] P5 P6 P7 P8 PO _ PS P9 _]. fold A in P5, P6, P7, P8, PO.
  assert (i_addrs (the_inode i s1) = A1) as EA1 by by rewrite P2.
  assert (bmap_blk s1 = bmap_blk s) as Eb by (unfold bmap_blk; by rewrite (if_sb _ _ _ P3)).
  assert (length (V1 a) = BSIZE_nat) as Hla.
  { rewrite <- P4, <- EA1. apply (fi_ok _ _ _ _ P1); [done|]. by rewrite EA1, P4. }
  set (bs := Z.to_nat (off `mod` BSIZE)).
  assert (bs + length bytes ≤ length (V1 a))%nat as Hin by (rewrite Hla; subst bs; ksize; lia).
  destruct (file_inv_store V1 H s1 s2 i (off / BSIZE) (splice bs bytes (V1 a)) P1)
    as (I3 & HU & HM); rewrite ?EA1, ?P4; try done.
  { by rewrite splice_length. }
  rewrite EA1, P4, ?Eb in *. fold V2 in I3, HU, HM.
  assert (∀ b, b ≠ a → V2 b = V1 b) as HV2 by (intros; subst V2; by rewrite fn_lookup_insert_ne).
  assert (V2 a = splice bs bytes (V1 a)) as HV2a by (subst V2; by rewrite fn_lookup_insert).
  split; [|done]. split.
  - done.
  - by rewrite (bio_the_inode i _ _ F2).
  - etrans; [done|]. by apply bio_ino_frame.
  - intros x Hx. rewrite (fbyte_at _ _ x (off / BSIZE) (off `mod` BSIZE + (x - off))) by lia.
    rewrite HM, P4, HV2a by done. rewrite splice_lookup_in by (subst bs; lia).
    do 2 f_equal. subst bs. lia.
  - intros x Hx Hb Hnz Hout. destruct (blk_div_mod x Hx) as (Hqx & Hxe & Hrx).
    assert (blkno V1 A1 (x / BSIZE) = blkno V A (x / BSIZE)) as Hsame.
    { destruct (decide (x / BSIZE = off / BSIZE)) as [E|E]; [|by apply P5].
      rewrite E in *. rewrite P4. by apply P6. }
    assert (V1 (blkno V A (x / BSIZE)) = V (blkno V A (x / BSIZE))) as Hdat.
    { destruct (fo_blk _ _ _ _ _ (fi_ok _ _ _ _ F) (x / BSIZE) Hb Hnz) as (? & ? & ? & ? & ?).
      apply P8; try done; [subst A; lia|]. intros H13.
      by apply (fo_ind_ne _ _ _ _ _ (fi_ok _ _ _ _ F)). }
    unfold fbyte. rewrite HM, Hsame by done.
    destruct (decide (x / BSIZE = off / BSIZE)) as [E|E].
    + assert (a = blkno V A (x / BSIZE)) as Ea by (rewrite <- Hsame, E; done).
      rewrite <- Ea, HV2a, splice_lookup_out by (subst bs; lia). by rewrite Ea, Hdat.
    + rewrite HV2; [by rewrite Hdat|]. intros Ea. apply E.
      apply (fo_inj _ _ _ _ _ (fi_ok _ _ _ _ P1)); rewrite ?EA1; try done; [by rewrite Hsame|].
      rewrite P4, Hsame. done.
  - intros bn Hb Hnz. rewrite HM by done. destruct (decide (bn = off / BSIZE)) as [->|].
    + rewrite P4. by apply P6.
    + by apply P5.
  - intros x Hx. replace (x / BSIZE) with (off / BSIZE).
    + rewrite HM by done. by rewrite P4.
    + apply Z.div_unique with (r := off `mod` BSIZE + (x - off)); lia.
  - intros b Hb Hu Hbm Hown.
    rewrite HV2.
    + apply P8; try done. intros H13 ->. apply Hown. by split; [|left].
    + intros ->. destruct (PO a) as [?|?]; [|done|congruence].
      split; [done|right]. by exists (off / BSIZE).
  - intros b [Hnz [->|(bn & Hb & E)]]; apply PO; (split; [done|]); [by left|].
    right. exists bn. split; [done|]. by rewrite <- HM.
  - intros Hm. apply PS. apply (Hm off). lia.
  - intros b Hb Hu. rewrite HU. by apply P9.
Qed.

Lemma wp_chunk {B} V H s i off bytes (k : M kstate B) Q :
  let A := i_addrs (the_inode i s) in
  file_inv V H s i → (S (size H) < NBUF)%nat → 0 ≤ off → (0 < length bytes)%nat →
  off `mod` BSIZE + Z.of_nat (length bytes) ≤ BSIZE →
  bn_ok (off / BSIZE) → (bmap_need V A (off / BSIZE) ≤ nfree s V)%nat →
  (∀ V' A' s', wrote V H s i off bytes V' A' s' →
     (nfree s V ≤ nfree s' V' + bmap_cost V A A' (off / BSIZE))%nat →
     (∀ b, bn_ok b → b ≠ off / BSIZE → blkno V' A' b = blkno V A b) →
     (off / BSIZE < NDIRECT ∨ A !!! 13%nat ≠ 0 → A' !!! 13%nat = A !!! 13%nat) → wp (k s') Q) →
  wp ((let! blk := bmap i (off / BSIZE) in
       let! ip := gets (the_inode i) in
       let! bp := bread (i_dev ip) blk in
       bstore bp (Z.to_nat (off `mod` BSIZE)) bytes ;;; bwrite bp ;;; brelse bp ;;; k) s) Q.
Proof.
  intros A F Hroom Ho Hlen Hchunk Hbn Hneed HQ. apply wp_bind.
  destruct (blk_div_mod off Ho) as (Hq & Hoff & Hr).
  kuse (bmap_ok V H s i (off / BSIZE) F); [done..|]. intros a s1 (V1 & A1 & P).
  pose proof (bp_inv _ _ _ _ _ _ _ _ _ P) as F1.
  assert (i_addrs (the_inode i s1) = A1) as EA1 by (by rewrite (bp_ino _ _ _ _ _ _ _ _ _ P)).
  destruct (bp_blk _ _ _ _ _ _ _ _ _ P) as [P4 Hanz].
  rewrite bind_gets, (fi_dev _ _ _ _ F1).
  assert (owned V1 (i_addrs (the_inode i s1)) a) as Hown.
  { rewrite EA1. split; [done|right]. by exists (off / BSIZE). }
  assert (length (V1 a) = BSIZE_nat) as Hla.
  { rewrite <- P4, <- EA1. apply (fi_ok _ _ _ _ F1); [done|]. by rewrite EA1, P4. }
  apply (wp_bread V1 H); [by apply (fi_bio V1 H s1 i)|apply (owned_read V1 H s1 i F1); [lia|done]|].
  intros bp s2 I2 HH Hd _ F2.
  apply (wp_store_release V1 H s2 bp a); [done..|ksize; lia|]. intros s3 I3 F3.
  destruct (chunk_wrote V H s i off bytes a V1 A1 s1 s3) as (W & HU & HM); try done; [by etrans|].
  eapply HQ; [exact W|..].
  - pose proof (bp_nfree _ _ _ _ _ _ _ _ _ P) as Hnf. unfold bmap_cost. fold A in Hnf.
    erewrite (nfree_used s s3 _ V1); [lia| |done].
    rewrite (bf_sb s1 s3) by (by etrans). apply (bp_frame _ _ _ _ _ _ _ _ _ P).
  - intros b Hb Hne. rewrite HM by done. by apply (bp_map _ _ _ _ _ _ _ _ _ P).
  - apply (bp_ind _ _ _ _ _ _ _ _ _ P).
Qed.

(** The number of free blocks a write of [n] bytes at [off] takes. *)
Definition blocks_needed (V : store) (A : list Z) (off n : Z) : nat :=
  if decide (n ≤ 0) then 0 else
  let last := (off + n - 1) / BSIZE in
  (length (filter (λ bn, blkno V A bn = 0%Z) (seqZ (off / BSIZE) (last - off / BSIZE + 1))) +
   if decide ((NDIRECT ≤ last)%Z ∧ A !!! 13%nat = 0%Z) then 1 else 0)%nat.

Lemma blocks_needed_first V A off n :
  0 ≤ off → 0 < n → (bmap_need V A (off / BSIZE) ≤ blocks_needed V A off n)%nat.
Proof.
  intros Ho Hn. unfold bmap_need, blocks_needed. rewrite (decide_False (P := n ≤ 0)) by lia.
  destruct (blk_div_mod off Ho) as (? & ? & ?). destruct (blk_div_mod (off + n - 1)) as (? & ? & ?); [lia|].
  assert (off / BSIZE ≤ (off + n - 1) / BSIZE) by (apply Z.div_le_mono; ksize; lia).
  rewrite seqZ_cons by lia. rewrite filter_cons.
  repeat case_decide; simpl; try lia; exfalso; naive_solver lia.
Qed.

(** What is needed for the rest, once the first block has been mapped. *)
Lemma blocks_needed_rest V A V' A' off m n :
  0 ≤ off → 0 < m ≤ n → (m < n → off `mod` BSIZE + m = BSIZE) → off + n ≤ MAXFILEBLK * BSIZE →
  (∀ b, bn_ok b → b ≠ off / BSIZE → blkno V' A' b = blkno V A b) →
  (off / BSIZE < NDIRECT ∨ A !!! 13%nat ≠ 0 → A' !!! 13%nat = A !!! 13%nat) →
  (blocks_needed V' A' (off + m) (n - m) + bmap_cost V A A' (off / BSIZE) ≤ blocks_needed V A off n)%nat.
Proof.
  intros Ho Hm Hfull Hmax HM H13. unfold blocks_needed, bmap_cost.
  rewrite (decide_False (P := n ≤ 0)) by lia.
  destruct (blk_div_mod off Ho) as (? & ? & ?). destruct (blk_div_mod (off + n - 1)) as (? & ? & ?); [lia|].
  assert (off / BSIZE ≤ (off + n - 1) / BSIZE) by (apply Z.div_le_mono; ksize; lia).
  set (last := (off + n - 1) / BSIZE) in *.
  rewrite (seqZ_cons (off / BSIZE)) by lia. rewrite filter_cons.
  destruct (decide (n - m ≤ 0)) as [Hd|Hd].
  - repeat case_decide; simpl; try lia; exfalso; naive_solver lia.
  - specialize (Hfull ltac:(lia)).
    assert ((off + m) / BSIZE = off / BSIZE + 1) as Eq.
    { symmetry. apply Z.div_unique with (r := 0); ksize; lia. }
    rewrite Eq. replace (off + m + (n - m) - 1) with (off + n - 1) by lia. fold last.
    replace (last - (off / BSIZE + 1) + 1) with (Z.pred (last - off / BSIZE + 1)) by lia.
    change (off / BSIZE + 1) with (Z.succ (off / BSIZE)).
    assert (off / BSIZE + 1 ≤ last) by (rewrite <- Eq; apply Z.div_le_mono; ksize; lia).
    rewrite (filter_ext_in (λ bn, blkno V' A' bn = 0) (λ bn, blkno V A bn = 0)).
    + repeat case_decide; simpl; try lia; exfalso; naive_solver lia.
    + intros b Hb%elem_of_seqZ. rewrite HM; [done|unfold bn_ok; ksize; lia|lia].
Qed.

Lemma wrote_nil V H s i off : file_inv V H s i → wrote V H s i off [] V (i_addrs (the_inode i s)) s.
Proof.
  intros F. split; try done; simpl.
  - by destruct (the_inode i s).
  - lia.
  - lia.
  - by left.
  - by intros ? ?.
Qed.

Lemma writei_loop_ok H i src fuel : ∀ V s off n tot,
  file_inv V H s i → (S (size H) < NBUF)%nat → 0 ≤ off → 0 ≤ tot ≤ n → n ≤ Z.of_nat (length src) →
  off + (n - tot) ≤ MAXFILEBLK * BSIZE →
  (blocks_needed V (i_addrs (the_inode i s)) off (n - tot) ≤ nfree s V)%nat →
  (tot < n → off `mod` BSIZE + (n - tot) ≤ BSIZE * Z.of_nat fuel) →
  wp (writei_loop fuel i src off n tot s) (λ r s', r = (n, off + (n - tot)) ∧ ∃ V' A',
    wrote V H s i off (slice (Z.to_nat tot) (Z.to_nat (n - tot)) src) V' A' s').
Proof.
  induction fuel as [|fuel IH]; intros V s off n tot F Hroom Ho Ht Hsrc Hmax Hneed Hf; cbn [writei_loop];
    destruct (blk_div_mod off Ho) as (Hq & Hoff & Hr);
    (destruct (decide (tot < n)) as [Hlt|Hlt];
     [|rewrite bool_decide_false by done; replace n with tot by lia; rewrite Z.sub_diag, Z.add_0_r;
       split; [done|]; exists V, (i_addrs (the_inode i s)); by apply wrote_nil]).
  { specialize (Hf Hlt). lia. }
  specialize (Hf Hlt). rewrite bool_decide_true by done. set (A := i_addrs (the_inode i s)) in *.
  set (m := Z.min (n - tot) (BSIZE - off `mod` BSIZE)).
  set (bytes := slice (Z.to_nat tot) (Z.to_nat m) src).
  assert (length bytes = Z.to_nat m) as Hlen by (subst bytes; apply slice_length; lia).
  pose proof (blocks_needed_first V A off (n - tot) Ho ltac:(lia)) as Hfirst.
  apply (wp_chunk V H s i off bytes); try done; try lia.
  { unfold bn_ok. ksize; lia. }
  { fold A. lia. }
  fold A. intros V1 A1 s1 W Hnf HM HI.
  assert (i_addrs (the_inode i s1) = A1) as EA by (by rewrite (wr_ino _ _ _ _ _ _ _ _ _ W)).
  pose proof (blocks_needed_rest V A V1 A1 off m (n - tot) Ho ltac:(lia) ltac:(lia) ltac:(lia) HM HI) as Hrest.
  assert (off + m + (n - (tot + m)) = off + (n - tot)) as Eo by lia.
  kuse (IH V1 s1 (off + m) n (tot + m)); try done; try lia.
  - apply W.
  - rewrite EA. replace (n - (tot + m)) with (n - tot - m) by lia. lia.
  - intros Hlt'. assert ((off + m) `mod` BSIZE = 0) as ->; [|lia].
    assert (m = BSIZE - off `mod` BSIZE) as -> by lia.
    symmetry. apply Z.mod_unique with (q := off / BSIZE + 1); lia.
  - intros r s2 (-> & V2 & A2 & W2). split; [by rewrite Eo|]. exists V2, A2.
    replace (Z.to_nat (n - tot)) with (Z.to_nat m + Z.to_nat (n - (tot + m)))%nat by lia.
    rewrite slice_app. fold bytes.
    replace (Z.to_nat tot + Z.to_nat m)%nat with (Z.to_nat (tot + m)) by lia.
    eapply wrote_trans; [done| |exact W|].
    + rewrite slice_length by lia. rewrite Hlen. lia.
    + rewrite Hlen. by rewrite Z2Nat.id by lia.
Qed.

(** ** [iupdate] *)
Lemma addrs_bytes_length l : length (addrs_bytes l) = (8 * length l)%nat.
Proof.
  unfold addrs_bytes. induction l as [|a l IH]; [done|]. cbn [fmap list_fmap concat].
  rewrite length_app, IH, le_put_length. simpl. lia.
Qed.

Lemma dinode_bytes_length ip : length (i_addrs ip) = 14%nat → length (dinode_bytes ip) = 128%nat.
Proof.
  intros E. unfold dinode_bytes. rewrite !length_app, !le_put_length, addrs_bytes_length, E. done.
Qed.

Lemma dinode_off_bound inum : (dinode_off inum + 128 ≤ BSIZE_nat)%nat.
Proof.
  unfold dinode_off. pose proof (Z.mod_pos_bound inum IPB ltac:(done)). ksize. lia.
Qed.

(** The inode block with the cached copy written through. *)
Definition updated (V : store) (i : nat) (s : kstate) : store :=
  <[iblk i s := splice (dinode_off (i_inum (the_inode i s))) (dinode_bytes (the_inode i s))
                  (V (iblk i s))]> V.

Lemma file_inv_meta V H s s' i d :
  file_inv V H s i → bio_inv (<[iblk i s := d]> V) H s' → bio_frame s s' →
  let V' := <[iblk i s := d]> V in
  file_inv V' H s' i ∧ (∀ b, bn_ok b → blkno V' (i_addrs (the_inode i s)) b = blkno V (i_addrs (the_inode i s)) b) ∧
  (∀ b, owned V (i_addrs (the_inode i s)) b → V' b = V b).
Proof.
  intros F I' F' V'. set (A := i_addrs (the_inode i s)) in *.
  pose proof (fi_ok _ _ _ _ F) as Fo. fold A in Fo.
  destruct (fi_ib _ _ _ _ F) as (Hr & Hne & Hu).
  assert (∀ b, used (bmap_blk s) V' b = used (bmap_blk s) V b) as HU.
  { intros b. unfold used. subst V'. by rewrite fn_lookup_insert_ne. }
  assert (∀ b, data_ok (sb_size (k_sb s)) (bmap_blk s) (iblk i s) V b →
    data_ok (sb_size (k_sb s)) (bmap_blk s) (iblk i s) V' b ∧ V' b = V b) as HD.
  { intros b (H1 & H2 & H3 & H4 & H5). assert (V' b = V b) as E by (subst V'; by rewrite fn_lookup_insert_ne).
    split; [|done]. split_and!; try lia; [by rewrite HU|by rewrite E]. }
  assert (∀ b, bn_ok b → blkno V' A b = blkno V A b) as HM.
  { intros b Hb. unfold blkno. case_decide; [done|]. case_decide as H13; [done|].
    destruct (HD _ (fo_ind _ _ _ _ _ Fo H13)) as [_ ->]. done. }
  assert (∀ b, owned V' A b → owned V A b) as HO.
  { intros b [Hb [->|(bn & Hbn & E)]]; (split; [done|]); [by left|]. right. exists bn. by rewrite <- HM. }
  split; [|split; [done|]].
  - apply (file_inv_step V V' H s s' i A F).
    + destruct (fi_alloc _ _ _ _ F) as [_ G Hb Hh]. split; [done|by eapply geom_frame|..];
        rewrite (bmap_frame _ _ F'), ?(bf_sb _ _ F').
      * by rewrite HU.
      * intros b x Hx. rewrite HU. by apply (Hh b x Hx).
    + by apply bio_ino_frame.
    + rewrite (bio_the_inode i _ _ F'). subst A. by destruct (the_inode i s).
    + intros b _. by rewrite HU.
    + split.
      * apply Fo.
      * intros b Hb. rewrite HM by done. intros Hz. by apply HD, Fo.
      * intros Hz. by apply HD, Fo.
      * intros Hz b Hb. rewrite HM by done. by apply Fo.
      * intros b b' Hb Hb'. rewrite !HM by done. by apply Fo.
    + left. by apply HO.
  - intros b [Hb [->|(bn & Hbn & <-)]]; apply HD; by apply Fo.
Qed.

Lemma iupdate_ok V H s i :
  file_inv V H s i → (size H < NBUF)%nat →
  wp (iupdate i s) (λ _ s', bio_inv (updated V i s) H s' ∧ bio_frame s s').
Proof.
  intros F Hroom. unfold iupdate. rewrite !bind_gets, (fi_dev _ _ _ _ F). fold (iblk i s).
  destruct (fi_ib _ _ _ _ F) as (Hr & Hne & Hu). pose proof (sz_nblk V H s i F).
  apply (wp_bread V H); [by apply (fi_bio V H s i)| |].
  { split; [lia|]. split; [by apply F|done]. }
  intros bp s1 I1 HH Hd _ F1.
  kuse (store_release_ok V H s1 bp (iblk i s)); [done..| |].
  { rewrite dinode_bytes_length by apply (fi_ok _ _ _ _ F). apply dinode_off_bound. }
  intros _ s2 [I2 F2]. split; [done|by etrans].
Qed.

(** The disk copy of the inode agrees with the cached one. *)
Definition synced (V : store) (i : nat) (s : kstate) : Prop :=
  slice (dinode_off (i_inum (the_inode i s))) 128 (V (iblk i s)) = dinode_bytes (the_inode i s).

Lemma updated_synced V H s i : file_inv V H s i →
  slice (dinode_off (i_inum (the_inode i s))) 128 (updated V i s (iblk i s)) = dinode_bytes (the_inode i s).
Proof.
  intros F. unfold updated. rewrite fn_lookup_insert.
  pose proof (dinode_bytes_length (the_inode i s) (fo_len _ _ _ _ _ (fi_ok _ _ _ _ F))) as HL.
  rewrite <- HL at 1. apply slice_splice_eq. rewrite HL.
  destruct (fi_ib _ _ _ _ F) as (Hr & _). pose proof (sz_nblk V H s i F).
  rewrite (bio_V_len V H s (iblk i s)); [apply dinode_off_bound|by apply (fi_bio V H s i)|lia].
Qed.

Lemma file_inv_size V H s i z : file_inv V H s i → file_inv V H (upd_inode i (set_i_size z) s) i.
Proof.
  intros F. pose proof (fi_bound V H s i F) as Hb.
  assert (the_inode i (upd_inode i (set_i_size z) s) = set_i_size z (the_inode i s)) as E by by apply the_inode_upd_eq.
  destruct F. split; unfold iblk in *; rewrite ?E; try done.
  - by apply alloc_inv_upd_inode.
  - unfold upd_inode. ksimpl. by rewrite length_alter.
Qed.

(** The bytes of the file after the write, as a list. *)
Lemma wrote_bytes V H s i off bytes V' A' s' sz :
  wrote V H s i off bytes V' A' s' → 0 ≤ off ≤ sz → sz ≤ MAXFILEBLK * BSIZE →
  mapped V (i_addrs (the_inode i s)) sz →
  fbytes V' A' 0 (Z.max sz (off + Z.of_nat (length bytes))) =
  splice (Z.to_nat off) bytes (fbytes V (i_addrs (the_inode i s)) 0 sz).
Proof.
  intros W Ho Hmax Hm. set (A := i_addrs (the_inode i s)) in *.
  set (n := Z.of_nat (length bytes)).
  assert (∀ V A m k, (k < Z.to_nat m)%nat → fbytes V A 0 m !! k = Some (fbyte V A (Z.of_nat k))) as HF.
  { intros V0 A0 m k Hk. unfold fbytes. rewrite list_lookup_fmap.
    rewrite (proj2 (lookup_seqZ 0 m k (Z.of_nat k))) by lia. done. }
  assert (∀ V A m, length (fbytes V A 0 m) = Z.to_nat m) as HL.
  { intros. unfold fbytes. by rewrite length_fmap, length_seqZ. }
  assert (∀ k, fbytes V' A' 0 (Z.max sz (off + n)) !! k = 
    (take (Z.to_nat off) (fbytes V A 0 sz) ++ bytes ++ drop (Z.to_nat off + length bytes) (fbytes V A 0 sz)) !! k)
    as Hk; [|by apply list_eq].
  intros k. destruct (decide (k < Z.to_nat (Z.max sz (off + n)))%nat) as [Hlt|Hge].
  2:{ rewrite lookup_ge_None_2 by (rewrite HL; lia). symmetry. apply lookup_ge_None_2.
      rewrite !length_app, length_take, length_drop, HL. lia. }
  rewrite HF by done. destruct (decide (off ≤ Z.of_nat k < off + n)) as [Hin|Hout].
  - rewrite (wr_in _ _ _ _ _ _ _ _ _ W) by done.
    rewrite lookup_app_r by (rewrite length_take, HL; lia). rewrite length_take, HL, Nat.min_l by lia.
    rewrite lookup_app_l by lia.
    replace (Z.to_nat (Z.of_nat k - off)) with (k - Z.to_nat off)%nat by lia.
    destruct (lookup_lt_is_Some_2 bytes (k - Z.to_nat off)) as [c ->]; [lia|done].
  - assert (Z.of_nat k < sz) as Hks by lia.
    destruct (blk_div_mod (Z.of_nat k)) as (? & ? & ?); [lia|].
    rewrite (wr_out _ _ _ _ _ _ _ _ _ W); [|lia|apply bn_ok_div; lia|apply Hm; lia|done].
    rewrite <- HF with (m := sz) by lia. destruct (decide (Z.of_nat k < off)).
    + rewrite lookup_app_l by (rewrite length_take, HL; lia). by rewrite lookup_take_lt by lia.
    + rewrite lookup_app_r by (rewrite length_take, HL; lia). rewrite length_take, HL, Nat.min_l by lia.
      rewrite lookup_app_r by lia. rewrite lookup_drop. f_equal. lia.
Qed.

Lemma wrote_mapped V H s i off bytes V' A' s' sz :
  wrote V H s i off bytes V' A' s' → 0 ≤ off ≤ sz → sz ≤ MAXFILEBLK * BSIZE →
  off + Z.of_nat (length bytes) ≤ MAXFILEBLK * BSIZE →
  mapped V (i_addrs (the_inode i s)) sz → mapped V' A' (Z.max sz (off + Z.of_nat (length bytes))).
Proof.
  intros W Ho Hmax Hmax2 Hm bn Hbn Hlt. destruct (decide (bn * BSIZE < sz)) as [Hs|Hs].
  - rewrite (wr_map _ _ _ _ _ _ _ _ _ W); [by apply Hm| |by apply Hm]. unfold bn_ok. ksize; lia.
  - replace bn with (bn * BSIZE / BSIZE) by (apply Z.div_mul; done).
    apply (wr_new _ _ _ _ _ _ _ _ _ W). lia.
Qed.

(** What a successful [writei] leaves. *)
Record writei_post (V : store) (H : holders) (s : kstate) (i : nat) (off : Z) (bytes : list byte)
    (V' : store) (s' : kstate) : Prop := {
  wp_inv : file_inv V' H s' i;
  wp_wf : wf_size s' i V';
  wp_size : i_size (the_inode i s') = Z.max (i_size (the_inode i s)) (off + Z.of_nat (length bytes));
  wp_attrs : set_i_size 0 (set_i_addrs [] (the_inode i s')) = set_i_size 0 (set_i_addrs [] (the_inode i s));
  wp_bytes : fbytes V' (i_addrs (the_inode i s')) 0 (i_size (the_inode i s')) =
    splice (Z.to_nat off) bytes (fbytes V (i_addrs (the_inode i s)) 0 (i_size (the_inode i s)));
  wp_synced : synced V i s → synced V' i s';
  wp_frame : ino_frame i s s';
  wp_other : ∀ b, 0 ≤ b → used (bmap_blk s) V b = true → b ≠ bmap_blk s → b ≠ iblk i s →
    ¬ owned V (i_addrs (the_inode i s)) b → V' b = V b
}.

Lemma writei_ok V H s i src off n :
  file_inv V H s i → (S (size H) < NBUF)%nat → i_type (the_inode i s) ≠ T_DEV → wf_size s i V →
  0 ≤ off ≤ i_size (the_inode i s) → 0 ≤ n ≤ Z.of_nat (length src) → off + n ≤ MAXFILEBLK * BSIZE →
  (blocks_needed V (i_addrs (the_inode i s)) off n ≤ nfree s V)%nat →
  wp (writei i src off n s) (λ r s', r = n ∧ ∃ V', writei_post V H s i off (take (Z.to_nat n) src) V' s').
Proof.
  intros F Hroom Ht [Hsz Hm] Ho Hn Hmax Hneed. unfold writei. rewrite bind_gets.
  set (sz := i_size (the_inode i s)) in *.
  rewrite bool_decide_false by done. rewrite off_overflow by (ksize; lia).
  rewrite (bool_decide_false (sz < off)) by lia. rewrite (bool_decide_false (2 ^ 64 ≤ _)) by (ksize; lia).
  simpl orb. cbv iota. rewrite bool_decide_false by lia. apply wp_bind.
  kuse (writei_loop_ok H i src (rw_fuel n) V s off n 0 F Hroom); try lia; rewrite ?Z.sub_0_r; try done.
  { intros _. apply rw_fuel_ok; lia. }
  intros r s1 (-> & V1 & A1 & W). change (Z.to_nat 0) with 0%nat in W.
  rewrite slice_0 in W. set (bytes := take (Z.to_nat n) src) in *.
  assert (Z.of_nat (length bytes) = n) as Hlen by (subst bytes; rewrite length_take; lia).
  pose proof (wrote_bytes V H s i off bytes V1 A1 s1 sz W Ho ltac:(lia) Hm) as HB.
  pose proof (wrote_mapped V H s i off bytes V1 A1 s1 sz W Ho ltac:(lia) ltac:(lia) Hm) as HM.
  rewrite Hlen in HB, HM.
  pose proof (wr_inv _ _ _ _ _ _ _ _ _ W) as F1. pose proof (wr_ino _ _ _ _ _ _ _ _ _ W) as E1.
  pose proof (wr_frame _ _ _ _ _ _ _ _ _ W) as Fr1.
  rewrite bind_gets, E1. change (i_size (set_i_addrs A1 (the_inode i s))) with sz.
  assert (iblk i s1 = iblk i s) as Eib by (unfold iblk; by rewrite (if_sb _ _ _ Fr1), E1).
  destruct (decide (0 < n ∧ sz < off + n)) as [[Hn0 Hgrow]|Hno].
  - rewrite !bool_decide_true by done. cbn [andb when]. apply wp_bind. rewrite bind_modify.
    pose proof (file_inv_size V1 H s1 i (off + n) F1) as F2. set (s2 := upd_inode i _ s1) in *.
    kuse (iupdate_ok V1 H s2 i F2); [lia|]. intros _ s3 [I3 F3]. apply wp_ret. split; [done|].
    assert (the_inode i s2 = set_i_size (off + n) (set_i_addrs A1 (the_inode i s))) as E2.
    { subst s2. rewrite the_inode_upd_eq; [by rewrite E1|]. by apply (fi_bound V1 H s1). }
    assert (the_inode i s3 = the_inode i s2) as E3 by by rewrite (bio_the_inode i _ _ F3).
    pose proof (file_inv_meta V1 H s2 s3 i _ F2 I3 F3) as (F3' & HM3 & HD3). cbv zeta in *.
    fold (updated V1 i s2) in F3', HM3, HD3.
    assert (iblk i s2 = iblk i s) as Eib2 by (rewrite <- Eib; unfold iblk; by rewrite E2, E1).
    assert (∀ m, m ≤ MAXFILEBLK * BSIZE → mapped V1 A1 m → fbytes (updated V1 i s2) A1 0 m = fbytes V1 A1 0 m) as HFB.
    { intros m Hmm Hmap. unfold fbytes. apply list_fmap_ext. intros k x [-> Hx]%lookup_seqZ. unfold fbyte.
      destruct (blk_div_mod (0 + Z.of_nat k)) as (? & ? & ?); [lia|].
      assert (bn_ok ((0 + Z.of_nat k) / BSIZE)) by (apply bn_ok_div; lia).
      rewrite E2 in HM3, HD3. simpl in HM3, HD3. rewrite HM3 by done. rewrite HD3; [done|].
      split; [apply Hmap; lia|right; eauto]. }
    exists (updated V1 i s2). split; rewrite ?E3, ?E2; cbn [set_i_size set_i_addrs i_size i_addrs]; fold sz.
    + done.
    + unfold wf_size. rewrite E3, E2. simpl. split; [lia|].
      rewrite E2 in HM3. simpl in HM3. intros bn Hbn Hlt. rewrite HM3 by (unfold bn_ok; ksize; lia).
      apply HM; lia.
    + lia.
    + by destruct (the_inode i s).
    + rewrite HFB; [|lia|eapply mapped_le; [exact HM|lia]].
      rewrite <- HB. f_equal. lia.
    + intros _. unfold synced. rewrite E3. unfold iblk at 1. rewrite E3, (bf_sb _ _ F3). fold (iblk i s2).
      by apply (updated_synced V1 H s2 i).
    + etrans; [exact Fr1|]. etrans; [apply upd_ino_frame|]. by apply bio_ino_frame.
    + intros b Hb Hu Hbm Hib Hown. unfold updated. rewrite fn_lookup_insert_ne by congruence.
      by apply (wr_other _ _ _ _ _ _ _ _ _ W).
  - assert (bool_decide (0 < n) && bool_decide (sz < off + n) = false) as ->.
    { repeat case_bool_decide; try done. exfalso; naive_solver. }
    cbn [when]. rewrite bind_ret_l. apply wp_ret. split; [done|].
    assert (A1 = i_addrs (the_inode i s)) as EA.
    { apply (wr_same _ _ _ _ _ _ _ _ _ W). intros x Hx.
      destruct (blk_div_mod x) as (? & ? & ?); [lia|]. apply Hm; lia. }
    assert (the_inode i s1 = the_inode i s) as E1' by (rewrite E1, EA; by destruct (the_inode i s)).
    exists V1. assert (Z.max sz (off + n) = sz) as Emax by lia. rewrite Emax in HB, HM.
    split; rewrite ?E1'; fold sz; try done.
    + split; rewrite E1'; fold sz; [lia|]. by rewrite EA in HM.
    + lia.
    + by rewrite EA in HB.
    + unfold synced. rewrite E1'. intros <-. f_equal. unfold iblk at 1. rewrite E1', (if_sb _ _ _ Fr1).
      fold (iblk i s). destruct (fi_ib _ _ _ _ F) as (Hr & Hne & Hu).
      apply (wr_other _ _ _ _ _ _ _ _ _ W); [lia|done|done|].
      intros [Hnz [E|(bn & Hbn & E)]].
      * rewrite E in Hnz. destruct (fo_ind _ _ _ _ _ (fi_ok _ _ _ _ F) Hnz) as (_ & _ & ? & _). done.
      * rewrite <- E in Hnz. by destruct (fo_blk _ _ _ _ _ (fi_ok _ _ _ _ F) bn Hbn Hnz) as (_ & _ & ? & _).
    + intros b Hb Hu Hbm _ Hown. by apply (wr_other _ _ _ _ _ _ _ _ _ W).
Qed.
End ReadWrite.
