(* ===== verification/FileSpec.v ===== *)
(** * Files: the theorems

    A regular file is an array of bytes: [readi] and [writei] implement
    slicing and splicing of it. *)
From S2P Require Import Prelude State Spinlock Sched Sleeplock Ring Bio BioSpec Balloc Inode FileMap InodeSpec.

(** The contents of the file whose inode is in entry [i] of the cache. *)
Definition contents (V : store) (i : nat) (s : kstate) : list byte :=
  fbytes V (i_addrs (the_inode i s)) 0 (i_size (the_inode i s)).

Lemma fbytes_slice V A sz off n :
  0 ≤ off → 0 ≤ n → off + n ≤ sz →
  fbytes V A off n = slice (Z.to_nat off) (Z.to_nat n) (fbytes V A 0 sz).
Proof.
  intros Ho Hn Hs. replace sz with (off + (n + (sz - off - n))) by lia.
  rewrite !fbytes_app by lia. unfold slice.
  rewrite drop_app_length' by (unfold fbytes; by rewrite length_fmap, length_seqZ).
  rewrite take_app_length' by (unfold fbytes; by rewrite length_fmap, length_seqZ). done.
Qed.

Lemma contents_length V i s : length (contents V i s) = Z.to_nat (i_size (the_inode i s)).
Proof. unfold contents, fbytes. by rewrite length_fmap, length_seqZ. Qed.

Section FileSpec.
Context {wf : WakeFuel} {dsw : DevSw}.

(** [readi] on a regular file returns the bytes of the file from [off]
    on, as many as were asked for or are left, and changes nothing a client
    can see; at an offset past the end, or when [off + n] overflows 64 bits,
    it returns -1. *)
Theorem readi_spec V H s i off n :
  file_inv V H s i → (size H < NBUF)%nat → i_type (the_inode i s) ≠ T_DEV → wf_size s i V →
  0 ≤ off < 2 ^ 64 → 0 ≤ n < 2 ^ 64 →
  wp (readi i off n s) (λ r s', bio_inv V H s' ∧ bio_frame s s' ∧
    if decide (off ≤ i_size (the_inode i s) ∧ off + n < 2 ^ 64)
    then fst r = Z.min n (i_size (the_inode i s) - off) ∧
         snd r = slice (Z.to_nat off) (Z.to_nat (fst r)) (contents V i s)
    else r = (-1, [])).
Proof.
  intros F Hroom Ht Hwf Ho Hn. kuse (readi_ok V H s i off n); [done..|].
  intros r s' (-> & I & Fr). split; [done|]. split; [done|].
  case_decide as Hd; [|done]. split; [done|]. unfold contents. simpl.
  apply fbytes_slice; lia.
Qed.

(** C3. [writei] within a file or at its end, up to the maximal file size,
    returns [n]: the contents become the old contents with the bytes from
    [off] on replaced by the source, the file growing if necessary; the
    inode's attributes other than its size and block addresses stay as they
    were, and if the inode on disk was up to date before, it is so afterwards. *)
Theorem writei_spec V H s i src off n :
  file_inv V H s i → (S (size H) < NBUF)%nat → i_type (the_inode i s) ≠ T_DEV → wf_size s i V →
  0 ≤ off ≤ i_size (the_inode i s) → 0 ≤ n ≤ Z.of_nat (length src) → off + n ≤ MAXFILEBLK * BSIZE →
  (blocks_needed V (i_addrs (the_inode i s)) off n ≤ nfree s V)%nat →
  wp (writei i src off n s) (λ r s', r = n ∧ ∃ V',
    file_inv V' H s' i ∧ wf_size s' i V' ∧
    contents V' i s' = splice (Z.to_nat off) (take (Z.to_nat n) src) (contents V i s) ∧
    i_size (the_inode i s') = Z.max (i_size (the_inode i s)) (off + n) ∧
    set_i_size 0 (set_i_addrs [] (the_inode i s')) = set_i_size 0 (set_i_addrs [] (the_inode i s)) ∧
    (synced V i s → synced V' i s')).
Proof.
  intros F Hroom Ht Hwf Ho Hn Hmax Hneed. kuse (writei_ok V H s i src off n); [done..|].
  intros r s' (-> & V' & P). split; [done|]. exists V'.
  assert (Z.of_nat (length (take (Z.to_nat n) src)) = n) as Hlen by (rewrite length_take; lia).
  split; [apply P|]. split; [apply P|]. split; [apply (wp_bytes _ _ _ _ _ _ _ _ P)|].
  split; [rewrite (wp_size _ _ _ _ _ _ _ _ P), Hlen; done|].
  split; [apply (wp_attrs _ _ _ _ _ _ _ _ P)|apply P].
Qed.

(** C4. Writing to one file leaves every other file alone: if inode [j]'s
    blocks are in use and none of them belongs to inode [i], its attributes
    and contents are the same after the write. *)
Theorem writei_other_file V H s i j src off n :
  file_inv V H s i → (S (size H) < NBUF)%nat → i_type (the_inode i s) ≠ T_DEV → wf_size s i V →
  0 ≤ off ≤ i_size (the_inode i s) → 0 ≤ n ≤ Z.of_nat (length src) → off + n ≤ MAXFILEBLK * BSIZE →
  (blocks_needed V (i_addrs (the_inode i s)) off n ≤ nfree s V)%nat →
  j ≠ i → wf_size s j V →
  (∀ b, owned V (i_addrs (the_inode j s)) b →
     data_ok (sb_size (k_sb s)) (bmap_blk s) (iblk i s) V b ∧ ¬ owned V (i_addrs (the_inode i s)) b) →
  wp (writei i src off n s) (λ _ s', ∃ V', file_inv V' H s' i ∧
    the_inode j s' = the_inode j s ∧ contents V' j s' = contents V j s).
Proof.
  intros F Hroom Ht Hwf Ho Hn Hmax Hneed Hji [Hsz Hm] Hj.
  kuse (writei_ok V H s i src off n); [done..|]. intros r s' (_ & V' & P). exists V'.
  pose proof (if_other _ _ _ (wp_frame _ _ _ _ _ _ _ _ P) j Hji) as Ej.
  split; [apply P|]. split; [done|]. unfold contents. rewrite Ej.
  set (A := i_addrs (the_inode j s)) in *.
  assert (∀ b, owned V A b → V' b = V b) as HV.
  { intros b Hb. destruct (Hj b Hb) as [(? & ? & ? & ? & ?) Hno].
    apply (wp_other _ _ _ _ _ _ _ _ P); try done. lia. }
  apply list_fmap_ext. intros k x [-> Hx]%lookup_seqZ.
  destruct (blk_div_mod (0 + Z.of_nat k)) as (? & ? & ?); [lia|].
  assert (bn_ok ((0 + Z.of_nat k) / BSIZE)) as Hbn by (apply bn_ok_div; lia).
  assert (blkno V A ((0 + Z.of_nat k) / BSIZE) ≠ 0) as Hnz by (apply Hm; lia).
  assert (∀ bn, blkno V' A bn = blkno V A bn) as HB.
  { intros bn. unfold blkno. case_decide; [done|]. case_decide; [done|].
    rewrite HV; [done|]. by split; [|left]. }
  unfold fbyte. rewrite HB, HV; [done|]. split; [done|right; eauto].
Qed.

(** [writei] refuses, without touching anything, an offset past the end
    of the file and a write that would exceed the maximal file size. *)
Theorem writei_errors s i src off n :
  i_type (the_inode i s) ≠ T_DEV → 0 ≤ off < 2 ^ 64 → 0 ≤ n < 2 ^ 64 →
  i_size (the_inode i s) < off ∨ MAXFILEBLK * BSIZE < off + n →
  writei i src off n s = Done (-1) s.
Proof.
  intros Ht Ho Hn Hbad. unfold writei. rewrite bind_gets.
  rewrite bool_decide_false by done. rewrite off_overflow by done.
  destruct (decide (i_size (the_inode i s) < off)).
  - by rewrite bool_decide_true by done.
  - destruct (decide (2 ^ 64 ≤ off + n)).
    + by rewrite (bool_decide_true (2 ^ 64 ≤ off + n)), orb_true_r by done.
    + rewrite !bool_decide_false by done. simpl.
      rewrite bool_decide_true by (destruct Hbad; lia). done.
Qed.

(** C2. What is written is what is read: after [writei] of [src] at [off],
    [readi] of any range inside the file returns that range of the spliced
    contents; in particular reading [n] bytes at [off] returns [src]. *)
Theorem writei_readi V H s i src off n off' n' :
  file_inv V H s i → (S (size H) < NBUF)%nat → i_type (the_inode i s) ≠ T_DEV → wf_size s i V →
  0 ≤ off ≤ i_size (the_inode i s) → 0 ≤ n ≤ Z.of_nat (length src) → off + n ≤ MAXFILEBLK * BSIZE →
  (blocks_needed V (i_addrs (the_inode i s)) off n ≤ nfree s V)%nat →
  0 ≤ off' → 0 ≤ n' → off' + n' ≤ Z.max (i_size (the_inode i s)) (off + n) →
  wp ((let! _ := writei i src off n in readi i off' n') s) (λ r _,
    r = (n', slice (Z.to_nat off') (Z.to_nat n')
               (splice (Z.to_nat off) (take (Z.to_nat n) src) (contents V i s)))).
Proof.
  intros F Hroom Ht Hwf Ho Hn Hmax Hneed Ho' Hn' Hr. apply wp_bind.
  kuse (writei_ok V H s i src off n); [done..|]. intros r s1 (_ & V1 & P).
  assert (Z.of_nat (length (take (Z.to_nat n) src)) = n) as Hlen by (rewrite length_take; lia).
  assert (i_size (the_inode i s1) = Z.max (i_size (the_inode i s)) (off + n)) as Hsz1.
  { rewrite (wp_size _ _ _ _ _ _ _ _ P), Hlen. done. }
  pose proof (proj1 (wp_wf _ _ _ _ _ _ _ _ P)) as Hb1.
  kuse (readi_ok V1 H s1 i off' n').
  - apply P.
  - lia.
  - pose proof (f_equal i_type (wp_attrs _ _ _ _ _ _ _ _ P)) as E. simpl in E. by rewrite E.
  - apply P.
  - ksize; lia.
  - ksize; lia.
  - intros r' s2 (-> & _ & _). rewrite decide_True by (ksize; lia).
    replace (Z.min n' (i_size (the_inode i s1) - off')) with n' by lia. f_equal.
    unfold contents. rewrite <- (wp_bytes _ _ _ _ _ _ _ _ P). apply fbytes_slice; lia.
Qed.
End FileSpec.

(** ** A file to try them on *)
Definition no_devs : DevSw := {| dev_read _ := None; dev_write _ := None |}.
Definition kstate_file : kstate :=
  set_k_inodes (λ l, <[0%nat := mk_inode 0 5 1 (mk_sleep 1 0) 1 T_FILE 0 0 1 0 (replicate 14 0)]> l) kstate_fs.

Lemma kstate_file_inv : file_inv (disk_block fs_disk) ∅ kstate_file 0.
Proof.
  assert (∀ bn, bn_ok bn → blkno (disk_block fs_disk) (replicate 14 0) bn = 0) as HB.
  { intros bn [Hb _]. unfold blkno. case_decide as E; [|done].
    apply lookup_total_replicate_2. ksize; lia. }
  pose proof kstate_fs_inv as [[L []] [] Hb Hh].
  split; try done; try (by vm_compute).
  - split; [|by split|done|done]. exists L. by split.
  - unfold NINODE; lia.
  - split; try done.
    + intros bn Hbn Hnz. by rewrite HB in Hnz.
    + intros bn bn' Hbn _ Hnz. by rewrite HB in Hnz.
Qed.

Lemma kstate_file_wf : wf_size kstate_file 0 (disk_block fs_disk).
Proof. split; [vm_compute; by split|]. intros bn Hb Hlt. simpl in Hlt. ksize; lia. Qed.

Lemma writei_readi_witness :
  wp ((let! _ := @writei 1%nat no_devs 0 [x68; x69; x21] 0 3 in @readi 1%nat no_devs 0 1 2) kstate_file)
    (λ r _, r = (2, [x69; x21])).
Proof.
  eapply wp_mono.
  - apply writei_readi with (V := disk_block fs_disk) (H := ∅); [apply kstate_file_inv|..];
      try (apply kstate_file_wf); vm_compute; lia || done || (split; done).
  - intros r s' ->. reflexivity.
Defined.

Lemma readi_spec_witness :
  wp (@readi 1%nat no_devs 0 0 10 kstate_file) (λ r _, fst r = 0).
Proof.
  eapply wp_mono.
  - apply readi_spec with (V := disk_block fs_disk) (H := ∅); [apply kstate_file_inv|..];
      try (apply kstate_file_wf); vm_compute; lia || done || (split; done).
  - intros r s' (_ & _ & R). rewrite decide_True in R by (vm_compute; split; [discriminate|done]).
    destruct R as [-> _]. reflexivity.
Defined.

Lemma writei_spec_witness :
  wp (@writei 1%nat no_devs 0 [x68; x69] 0 2 kstate_file)
    (λ r s', r = 2 ∧ ∃ V', contents V' 0 s' = [x68; x69]).
Proof.
  eapply wp_mono.
  - apply writei_spec with (V := disk_block fs_disk) (H := ∅); [apply kstate_file_inv|..];
      try (apply kstate_file_wf); vm_compute; lia || done || (split; done).
  - intros r s' (-> & V' & _ & _ & E & _). split; [reflexivity|]. exists V'. rewrite E. reflexivity.
Defined.

(** A second file, of five bytes in block 5. *)
Definition other_addrs : list Z := 5 :: replicate 13 0.
Definition kstate_two : kstate :=
  set_k_inodes (λ l, <[1%nat := mk_inode 0 6 1 (mk_sleep 1 0) 1 T_FILE 0 0 1 5 other_addrs]> l) kstate_file.

Lemma kstate_two_inv : file_inv (disk_block fs_disk) ∅ kstate_two 0.
Proof.
  destruct kstate_file_inv as [[[L []] [] ? ?] H2 ? ? ? ? ? ? ? ?].
  split; try done. split; [exists L; by split|by split|done|done].
Qed.

Lemma other_blkno bn : bn_ok bn → blkno (disk_block fs_disk) other_addrs bn ≠ 0 → bn = 0.
Proof.
  intros [Hb _] Hnz. destruct (decide (bn = 0)); [done|]. destruct Hnz. unfold blkno. case_decide; [|done].
  destruct (Z.to_nat bn) as [|k] eqn:E; [lia|]. apply lookup_total_replicate_2. ksize; lia.
Qed.

Lemma writei_other_file_witness :
  wp (@writei 1%nat no_devs 0 [x68; x69] 0 2 kstate_two)
    (λ _ s', the_inode 1 s' = the_inode 1 kstate_two ∧
      ∃ V', contents V' 1 s' = [x00; x00; x00; x00; x00]).
Proof.
  eapply wp_mono.
  - apply writei_other_file with (V := disk_block fs_disk) (H := ∅) (j := 1%nat); [apply kstate_two_inv|..];
      try (apply kstate_file_wf); try (vm_compute; lia || done || (split; done)).
    + split; [vm_compute; by split|]. intros bn Hb Hlt. assert (bn = 0) as ->; [|by vm_compute].
      change (i_size _) with 5 in Hlt. ksize; lia.
    + intros b [Hnz [->|(bn & Hbn & <-)]]; [done|]. rewrite (other_blkno bn Hbn Hnz). split.
      * vm_compute. by split_and!.
      * intros [_ [E|(bn' & [Hb' _] & E)]]; [by vm_compute in E|]. revert E. unfold blkno.
        case_decide as Hd; [|by vm_compute]. assert (∀ k, (k < 14)%nat → replicate 14 0 !!! k = 0) as HR by (intros; by apply lookup_total_replicate_2).
        change (i_addrs (the_inode 0 kstate_two)) with (replicate 14 0). rewrite HR by (ksize; lia). by vm_compute.
  - intros r s' (V' & _ & E & C). split; [exact E|]. exists V'. rewrite C. vm_compute. reflexivity.
Defined.

Lemma writei_errors_witness :
  @writei 1%nat no_devs 0 [x68] 1 1 kstate_file = Done (-1) kstate_file.
Proof. apply writei_errors; [by vm_compute|lia|lia|left; by vm_compute]. Defined.
