(* ===== verification/InodeCache.v ===== *)
(** * The inode cache

    [iget] and [idup] keep at most one referenced entry per inode; [ilock]
    loads an inode from disk and [iupdate] writes it back; the two are inverse. *)
From S2P Require Import Prelude State Spinlock Sched Sleeplock Ring Bio BioSpec Balloc Inode FileMap InodeSpec FileSpec.

(** ** The disk format of an inode *)
Record inode_range (ip : inode) : Prop := {
  ir_type : - 2 ^ 15 ≤ i_type ip < 2 ^ 15;
  ir_major : - 2 ^ 15 ≤ i_major ip < 2 ^ 15;
  ir_minor : - 2 ^ 15 ≤ i_minor ip < 2 ^ 15;
  ir_nlink : - 2 ^ 15 ≤ i_nlink ip < 2 ^ 15;
  ir_size : 0 ≤ i_size ip < 2 ^ 64;
  ir_addrs : Forall (λ a, 0 ≤ a < 2 ^ 64) (i_addrs ip);
  ir_len : length (i_addrs ip) = 14%nat
}.

(** The fields [ilock] fills in from the dinode at offset [o] of a block. *)
Definition load_inode (o : nat) (d : list byte) (ip : inode) : inode :=
  set_i_addrs (dip_addrs o d) (set_i_size (dip_size o d) (set_i_nlink (dip_nlink o d)
    (set_i_minor (dip_minor o d) (set_i_major (dip_major o d) (set_i_type (dip_type o d) ip))))).

Lemma slice_in_splice {A} o (new d : list A) k n :
  (o + length new ≤ length d)%nat → (k + n ≤ length new)%nat →
  slice (o + k) n (splice o new d) = slice k n new.
Proof.
  intros Hd Hn. apply list_eq; intros j. destruct (decide (j < n)%nat).
  - rewrite !slice_lookup by done. rewrite splice_lookup_in by lia. f_equal. lia.
  - unfold slice. by rewrite !lookup_take_ge by lia.
Qed.

Lemma le_put_s16 z : - 2 ^ 15 ≤ z < 2 ^ 15 → s16 (le_get (le_put 2 z)) = z.
Proof.
  intros Hz. rewrite le_get_put. change (256 ^ Z.of_nat 2) with (2 ^ 16).
  unfold s16. rewrite sgn_mod by lia. by apply sgn_small.
Qed.

Lemma le_put_u64 z : 0 ≤ z < 2 ^ 64 → le_get (le_put 8 z) = z.
Proof. intros Hz. rewrite le_get_put. change (256 ^ Z.of_nat 8) with (2 ^ 64). by apply Z.mod_small. Qed.

Lemma slice_app_r {A} (l1 l2 : list A) k n :
  (length l1 ≤ k)%nat → slice k n (l1 ++ l2) = slice (k - length l1) n l2.
Proof.
  intros Hk. unfold slice. rewrite drop_app_ge by done. done.
Qed.

Lemma slice_addrs l j a :
  l !! j = Some a → slice (8 * j) 8 (addrs_bytes l) = le_put 8 a.
Proof.
  unfold addrs_bytes. revert j; induction l as [|x l IH]; intros [|j] Hj; try done; cbn [fmap list_fmap concat].
  - injection Hj as ->. rewrite Nat.mul_0_r. unfold slice. rewrite drop_0, take_app_le by by rewrite le_put_length.
    by rewrite take_ge by by rewrite le_put_length.
  - rewrite slice_app_r by (rewrite le_put_length; lia). rewrite le_put_length.
    replace (8 * S j - 8)%nat with (8 * j)%nat by lia. by apply IH.
Qed.

Lemma dinode_slice_type ip : slice 0 2 (dinode_bytes ip) = le_put 2 (i_type ip).
Proof. reflexivity. Qed.
Lemma dinode_slice_major ip : slice 2 2 (dinode_bytes ip) = le_put 2 (i_major ip).
Proof. reflexivity. Qed.
Lemma dinode_slice_minor ip : slice 4 2 (dinode_bytes ip) = le_put 2 (i_minor ip).
Proof. reflexivity. Qed.
Lemma dinode_slice_nlink ip : slice 6 2 (dinode_bytes ip) = le_put 2 (i_nlink ip).
Proof. reflexivity. Qed.
Lemma dinode_slice_size ip : slice 8 8 (dinode_bytes ip) = le_put 8 (i_size ip).
Proof. reflexivity. Qed.
Lemma dinode_slice_addr ip j a :
  i_addrs ip !! j = Some a → slice (16 + 8 * j) 8 (dinode_bytes ip) = le_put 8 a.
Proof.
  intros Hj. unfold dinode_bytes. rewrite !app_assoc. rewrite slice_app_r; rewrite !length_app, !le_put_length; [|lia].
  replace (16 + 8 * j - (2 + 2 + 2 + 2 + 8))%nat with (8 * j)%nat by lia. by apply slice_addrs.
Qed.

Lemma slice_slice {A} o m k n (d : list A) :
  (k + n ≤ m)%nat → slice k n (slice o m d) = slice (o + k) n d.
Proof.
  intros Hk. apply list_eq; intros j. destruct (decide (j < n)%nat).
  - rewrite !slice_lookup by lia. f_equal. lia.
  - unfold slice. by rewrite !lookup_take_ge by lia.
Qed.

(** Decoding what was encoded gives the inode's fields back. *)
Lemma load_stored_inode ip ip0 o d :
  inode_range ip → slice o 128 d = dinode_bytes ip →
  load_inode o d ip0 =
    set_i_addrs (i_addrs ip) (set_i_size (i_size ip) (set_i_nlink (i_nlink ip)
      (set_i_minor (i_minor ip) (set_i_major (i_major ip) (set_i_type (i_type ip) ip0))))).
Proof.
  intros [] Hd.
  assert (∀ k n, (k + n ≤ 128)%nat → get_le n (o + k) d = le_get (slice k n (dinode_bytes ip))) as G.
  { intros k n Hk. unfold get_le. by rewrite <- Hd, slice_slice. }
  unfold load_inode, dip_type, dip_major, dip_minor, dip_nlink, dip_size.
  replace (get_le 2 o d) with (get_le 2 (o + 0) d) by (by rewrite Nat.add_0_r).
  rewrite !G by lia.
  rewrite dinode_slice_type, dinode_slice_major, dinode_slice_minor, dinode_slice_nlink, dinode_slice_size.
  rewrite !le_put_s16, le_put_u64 by done. f_equal.
  unfold dip_addrs. apply list_eq; intros j. rewrite list_lookup_fmap.
  destruct (decide (j < 14)%nat) as [Hj|Hj].
  - rewrite lookup_seq_lt by done. cbn [fmap option_fmap option_map]. rewrite Nat.add_0_l, <- Nat.add_assoc, G by lia.
    destruct (lookup_lt_is_Some_2 (i_addrs ip) j) as [a Ha]; [lia|].
    rewrite (dinode_slice_addr _ _ _ Ha), Ha, le_put_u64; [done|].
    rewrite Forall_lookup in ir_addrs0. by eapply ir_addrs0.
  - rewrite lookup_seq_ge by lia. simpl. symmetry. apply lookup_ge_None_2. lia.
Qed.

(** ** Critical sections of the cache lock *)
Section Cache.
Context {wf : WakeFuel} {dsw : DevSw}.

Definition icache_locked (s : kstate) : kstate :=
  set_k_locks (insert LkIcache spin_held) (set_k_cpu cpu_push s).

Lemma acquire_icache_run s : calm s → acquire LkIcache s = Done tt (icache_locked s).
Proof. intros [Hl Hc]. apply acquire_run; [apply Hc|]. by rewrite Hl. Qed.

(** [f] changes inodes only. *)
Lemma release_icache_run s f :
  calm s → release LkIcache (set_k_inodes f (icache_locked s)) = Done tt (set_k_inodes f s).
Proof.
  intros [Hl Hc]. rewrite (release_after_acquire LkIcache s); [|done|by rewrite Hl|done|done].
  f_equal.
Qed.

(** ** [iget] *)
Definition igettable (dev inum : Z) (ip : inode) : bool :=
  bool_decide (0 < i_ref ip) && bool_decide (i_dev ip = dev) && bool_decide (i_inum ip = inum).

Lemma iget_scan_hit s dev inum l1 i l2 e :
  calm s → (∀ j, j ∈ l1 → igettable dev inum (the_inode j s) = false) →
  igettable dev inum (the_inode i s) = true →
  iget_scan (l1 ++ i :: l2) e dev inum (icache_locked s) =
    Done (inl i) (upd_inode i (λ ip, set_i_ref (u64 (i_ref ip + 1)) ip) s).
Proof.
  intros Hc. revert e; induction l1 as [|j l1 IH]; intros e Hl Hi; simpl; rewrite bind_gets.
  - change (the_inode i (icache_locked s)) with (the_inode i s).
    unfold igettable in Hi. rewrite Hi, bind_modify.
    by erewrite bind_done by by apply (release_icache_run s).
  - change (the_inode j (icache_locked s)) with (the_inode j s).
    unfold igettable in Hl. rewrite (Hl j) by left. apply IH; [|done]. intros; apply Hl; by right.
Qed.

Lemma iget_scan_miss s dev inum l : ∀ e,
  (∀ j, j ∈ l → igettable dev inum (the_inode j s) = false) →
  iget_scan l e dev inum (icache_locked s) =
    Done (inr (match e with Some i => Some i
               | None => find_map (λ j, if bool_decide (i_ref (the_inode j s) = 0) then Some j else None) l end))
      (icache_locked s).
Proof.
  induction l as [|j l IH]; intros e Hl; simpl; [by destruct e|]. rewrite bind_gets.
  change (the_inode j (icache_locked s)) with (the_inode j s).
  unfold igettable in Hl. rewrite (Hl j) by left. rewrite IH by (intros; apply Hl; by right).
  destruct e as [i|]; simpl; [done|]. by destruct (bool_decide (i_ref _ = 0)).
Qed.

(** The entry [iget] prepares for an inode that is not cached. *)
Definition iget_entry (dev inum : Z) (ip : inode) : inode :=
  set_i_valid 0 (set_i_ref 1 (set_i_inum inum (set_i_dev dev ip))).

Lemma iget_hit_run s dev inum l1 i l2 :
  calm s → seq 0 NINODE = l1 ++ i :: l2 →
  (∀ j, j ∈ l1 → igettable dev inum (the_inode j s) = false) →
  igettable dev inum (the_inode i s) = true →
  iget dev inum s = Done i (upd_inode i (λ ip, set_i_ref (u64 (i_ref ip + 1)) ip) s).
Proof.
  intros Hc El Hl Hi. unfold iget. erewrite bind_done by by apply acquire_icache_run.
  rewrite El. by erewrite bind_done by by apply iget_scan_hit.
Qed.

Lemma iget_miss_run s dev inum :
  calm s → (∀ j, (j < NINODE)%nat → igettable dev inum (the_inode j s) = false) →
  iget dev inum s =
    match find_map (λ j, if bool_decide (i_ref (the_inode j s) = 0) then Some j else None) (seq 0 NINODE) with
    | None => Panic "iget: no empty slot"
    | Some i => Done i (upd_inode i (iget_entry dev inum) s)
    end.
Proof.
  intros Hc Hl. unfold iget. erewrite bind_done by by apply acquire_icache_run.
  erewrite bind_done.
  2:{ apply iget_scan_miss. intros j Hj%elem_of_seq. apply Hl. lia. }
  cbv beta iota. destruct (find_map _ _) as [i|]; [|done].
  rewrite !bind_modify.
  assert (upd_inode i (set_i_valid 0) (upd_inode i (set_i_ref 1) (upd_inode i (set_i_inum inum)
    (upd_inode i (set_i_dev dev) (icache_locked s)))) =
    set_k_inodes (alter (iget_entry dev inum) i) (icache_locked s)) as ->.
  { kext. rewrite !alter_alter. done. }
  by erewrite bind_done by by apply (release_icache_run s).
Qed.
End Cache.

(** ** Loading an inode *)
Section Ilock.
Context {wf : WakeFuel} {dsw : DevSw}.

Lemma bio_inv_upd_inode V H s f : bio_inv V H s → bio_inv V H (set_k_inodes f s).
Proof. intros [L []]. exists L. by split. Qed.

Lemma bio_inv_upd_slk V H s i f : bio_inv V H s → bio_inv V H (upd_slk (SlInode i) f s).
Proof. apply bio_inv_upd_inode. Qed.

(** The inode after [ilock] has read it. *)
Definition loaded_inode (d : list byte) (ip : inode) : inode :=
  set_i_valid 1 (load_inode (dinode_off (i_inum ip)) d
    (set_i_lock (set_sl_locked 1 (i_lock ip)) ip)).

Lemma the_inode_upd_slk i f s : (i < length (k_inodes s))%nat →
  the_inode i (upd_slk (SlInode i) f s) = set_i_lock (f (i_lock (the_inode i s))) (the_inode i s).
Proof. intros. unfold upd_slk. by rewrite the_inode_upd_eq. Qed.

Lemma ilock_valid_run s i :
  calm s → (i < length (k_inodes s))%nat → 1 ≤ i_ref (the_inode i s) →
  sl_locked (i_lock (the_inode i s)) = 0 → i_valid (the_inode i s) ≠ 0 →
  ilock (Some i) s = Done tt (upd_slk (SlInode i) (set_sl_locked 1) s).
Proof.
  intros [Hl Hc] Hi Hr Hk Hv. unfold ilock. rewrite bind_gets, bool_decide_false by lia.
  erewrite bind_done by (apply acquire_sleep_run; [done|by rewrite Hl|done]).
  rewrite bind_gets, the_inode_upd_slk by done. cbn [i_valid set_i_lock].
  by rewrite bool_decide_true.
Qed.

Lemma ilock_load V H s i :
  bio_inv V H s → (i < length (k_inodes s))%nat → 1 ≤ i_ref (the_inode i s) →
  sl_locked (i_lock (the_inode i s)) = 0 → i_valid (the_inode i s) = 0 →
  i_dev (the_inode i s) = 0 → can_read H (iblk i s) s →
  let ip' := loaded_inode (V (iblk i s)) (the_inode i s) in
  (i_type ip' ≠ 0 → wp (ilock (Some i) s) (λ _ s',
     bio_inv V H s' ∧ the_inode i s' = ip' ∧ ino_frame i s s')) ∧
  (i_type ip' = 0 → panics (ilock (Some i) s) "ilock: no type").
Proof.
  intros I Hi Hr Hk Hv Hd Hread ip'.
  pose proof I as [L IL]. destruct (bi_kinv _ _ _ _ IL) as [[Hl Hc] _].
  set (s1 := upd_slk (SlInode i) (set_sl_locked 1) s).
  assert (the_inode i s1 = set_i_lock (set_sl_locked 1 (i_lock (the_inode i s))) (the_inode i s)) as E1.
  { by apply the_inode_upd_slk. }
  assert (bio_inv V H s1) as I1 by by apply bio_inv_upd_slk.
  assert (ino_frame i s s1) as F1 by apply upd_ino_frame.
  set (rest := λ bp : nat,
    let! x := gets (the_buf bp) in
    let o := dinode_off (i_inum (the_inode i s)) in
    modify (upd_inode i (λ ip,
      set_i_addrs (dip_addrs o (b_data x)) (set_i_size (dip_size o (b_data x))
        (set_i_nlink (dip_nlink o (b_data x)) (set_i_minor (dip_minor o (b_data x))
          (set_i_major (dip_major o (b_data x)) (set_i_type (dip_type o (b_data x)) ip))))))) ;;;
    brelse bp ;;;
    modify (upd_inode i (set_i_valid 1)) ;;;
    let! ip := gets (the_inode i) in
    if bool_decide (i_type ip = 0) then panic "ilock: no type" else ret tt).
  assert (ilock (Some i) s = (let! bp := bread 0 (iblk i s) in rest bp) s1) as ->.
  { unfold ilock. rewrite bind_gets, bool_decide_false by lia.
    erewrite bind_done by (apply acquire_sleep_run; [done|by rewrite Hl|done]).
    fold s1. rewrite bind_gets, E1. rewrite (bool_decide_false (i_valid _ ≠ 0)) by (simpl; lia).
    rewrite bind_gets. simpl. by rewrite Hd. }
  assert (wp ((let! bp := bread 0 (iblk i s) in
      let! x := gets (the_buf bp) in
      modify (upd_inode i (load_inode (dinode_off (i_inum (the_inode i s))) (b_data x))) ;;;
      brelse bp ;;; modify (upd_inode i (set_i_valid 1))) s1)
    (λ _ s', bio_inv V H s' ∧ the_inode i s' = ip' ∧ ino_frame i s s')) as W.
  { apply (wp_bread V H); [done|exact Hread|]. intros bp s2 I2 HH Hdat _ F2.
    rewrite bind_gets, bind_modify, Hdat. set (s3 := upd_inode i _ s2).
    apply wp_bind. kuse brelse_ok; [apply bio_inv_upd_inode, I2|apply lookup_insert_eq|].
    intros _ s4 (I4 & _ & F4). rewrite delete_insert_id in I4 by done. apply wp_modify.
    split; [by apply bio_inv_upd_inode|]. 
    assert (length (k_inodes s2) = length (k_inodes s)) as L2.
    { rewrite (bf_inodes _ _ F2). subst s1. unfold upd_slk, upd_inode; ksimpl. apply length_alter. }
    assert (length (k_inodes s4) = length (k_inodes s)) as L4.
    { rewrite (bf_inodes _ _ F4). subst s3. unfold upd_inode; ksimpl. by rewrite length_alter. }
    split.
    - rewrite the_inode_upd_eq by lia. rewrite (bio_the_inode i _ _ F4). subst s3.
      rewrite the_inode_upd_eq by lia. rewrite (bio_the_inode i _ _ F2), E1. done.
    - etrans; [exact F1|]. etrans; [by apply bio_ino_frame|]. etrans; [apply (upd_ino_frame i)|].
      etrans; [by apply bio_ino_frame|]. apply upd_ino_frame. }
  split; intros Ht.
  - apply wp_bind. apply wp_bind_inv in W. eapply wp_mono; [exact W|]. intros bp s2. cbv beta.
    unfold rest. rewrite !bind_gets. cbv zeta. fold (load_inode (dinode_off (i_inum (the_inode i s))) (b_data (the_buf bp s2))).
    rewrite !bind_modify. intros W2. apply wp_bind. apply wp_bind_inv in W2. eapply wp_mono; [exact W2|].
    intros _ s3 (I3 & E3 & F3). rewrite bind_modify, bind_gets.
    rewrite E3, bool_decide_false by done. done.
  - eapply panics_bind; [apply wp_bind_inv in W; exact W|]. intros bp s2. cbv beta.
    unfold rest. rewrite !bind_gets. cbv zeta. rewrite !bind_modify. intros W2.
    eapply panics_bind; [apply wp_bind_inv in W2; exact W2|].
    intros _ s3 (I3 & E3 & F3). rewrite bind_modify, bind_gets.
    by rewrite E3, bool_decide_true.
Qed.

(** ** The properties *)

Record icache_ok (s : kstate) : Prop := {
  ic_len : length (k_inodes s) = NINODE;
  ic_ref : ∀ i, 0 ≤ i_ref (the_inode i s);
  ic_unique : ∀ i j, (i < NINODE)%nat → (j < NINODE)%nat →
    0 < i_ref (the_inode i s) → 0 < i_ref (the_inode j s) →
    i_dev (the_inode i s) = i_dev (the_inode j s) → i_inum (the_inode i s) = i_inum (the_inode j s) → i = j
}.

Definition cached (dev inum : Z) (i : nat) (s : kstate) : Prop :=
  (i < NINODE)%nat ∧ 0 < i_ref (the_inode i s) ∧ i_dev (the_inode i s) = dev ∧ i_inum (the_inode i s) = inum.

Lemma iget_ok s dev inum :
  calm s → icache_ok s → (∀ i, i_ref (the_inode i s) < 2 ^ 64 - 1) →
  (∃ j, (j < NINODE)%nat ∧ (cached dev inum j s ∨ i_ref (the_inode j s) = 0)) →
  wp (iget dev inum s) (λ i s', cached dev inum i s' ∧ icache_ok s' ∧
    (∀ j, j ≠ i → the_inode j s' = the_inode j s) ∧
    ((cached dev inum i s ∧ i_ref (the_inode i s') = i_ref (the_inode i s) + 1) ∨
     ((∀ j, ¬ cached dev inum j s) ∧ i_ref (the_inode i s) = 0 ∧
      i_ref (the_inode i s') = 1 ∧ i_valid (the_inode i s') = 0))).
Proof.
  intros Hc [Hlen Href Huniq] Hov Hex.
  assert (∀ j, (j < NINODE)%nat → igettable dev inum (the_inode j s) = true ↔ cached dev inum j s) as Hg.
  { intros j Hj. unfold igettable, cached. rewrite !andb_true_iff, !bool_decide_eq_true. tauto. }
  destruct (split_first (λ j, igettable dev inum (the_inode j s) = true) (seq 0 NINODE))
    as [(l1 & i & l2 & El & Hi & Hl1)|Hnone].
  - assert (i ∈ seq 0 NINODE) as Hin%elem_of_seq by (rewrite El; set_solver).
    rewrite (iget_hit_run s dev inum l1 i l2); [|done|done| |done].
    2:{ intros j Hj. by apply not_true_is_false, Hl1. }
    apply Hg in Hi as (HiN & Hri & Hdi & Hni); [|lia]. simpl.
    set (s' := upd_inode i _ s).
    assert (∀ j, the_inode j s' = if decide (i = j) then set_i_ref (i_ref (the_inode i s) + 1) (the_inode i s)
                                  else the_inode j s) as E.
    { intros j. subst s'. case_decide; [subst j; rewrite the_inode_upd_eq by lia|by apply the_inode_upd_ne].
      rewrite u64_small by (specialize (Hov i); lia). done. }
    split_and!.
    + unfold cached. rewrite E, decide_True by done. simpl. split_and!; try done. lia.
    + split.
      * subst s'. unfold upd_inode. ksimpl. by rewrite length_alter.
      * intros j. rewrite E. case_decide; [simpl; lia|done].
      * intros j k Hj Hk. rewrite !E. repeat case_decide; subst; simpl; try done; intros; eapply Huniq; try done; lia.
    + intros j Hj. by rewrite E, decide_False.
    + left. split; [done|]. rewrite E, decide_True by done. done.
  - rewrite iget_miss_run; [|done|].
    2:{ intros j Hj. apply not_true_is_false, Hnone, elem_of_seq. lia. }
    assert (∀ j, ¬ cached dev inum j s) as Hnc.
    { intros j Hcj. pose proof (proj1 Hcj) as Hj. apply Hg in Hcj; [|done]. eapply Hnone; [|done].
      apply elem_of_seq. lia. }
    destruct (find_map _ _) as [i|] eqn:Ef.
    2:{ exfalso. destruct Hex as (j & Hj & [Hcj|H0]); [by eapply Hnc|].
        apply (find_map_None _ _ j) in Ef; [|apply elem_of_seq; lia]. cbv beta in Ef. rewrite bool_decide_true in Ef; done. }
    apply find_map_Some in Ef as (k & j & Hk & Ej & _). case_bool_decide as H0; [|done]. injection Ej as ->.
    apply lookup_seq in Hk as [-> HiN]. simpl in *. set (i := k) in *. 
    set (s' := upd_inode i _ s).
    assert (∀ j, the_inode j s' = if decide (i = j) then iget_entry dev inum (the_inode i s)
                                  else the_inode j s) as E.
    { intros j. subst s'. case_decide; [subst j; by rewrite the_inode_upd_eq by lia|by apply the_inode_upd_ne]. }
    split_and!.
    + unfold cached. rewrite E, decide_True by done. simpl. split_and!; try done; lia.
    + split.
      * subst s'. unfold upd_inode. ksimpl. by rewrite length_alter.
      * intros j. rewrite E. case_decide; [simpl; lia|done].
      * intros j j' Hj Hj'. rewrite !E. repeat case_decide; subst; simpl; try done.
        -- intros _ Hr Hd Hn. exfalso. by eapply (Hnc j'); split_and!.
        -- intros Hr _ Hd Hn. exfalso. by eapply (Hnc j); split_and!.
        -- by apply Huniq.
    + intros j Hj. by rewrite E, decide_False.
    + right. split_and!; [done|done|..]; rewrite E, decide_True by done; done.
Qed.

(** C8. [iget] returns a referenced entry for the inode it is asked for: the
    one in the cache, with one more reference, if there is one, and otherwise
    an unreferenced entry, which it claims and marks as not loaded; all
    other entries are left alone, and no inode ever has two entries. *)
Theorem iget_spec s dev inum :
  calm s → icache_ok s → (∀ i, i_ref (the_inode i s) < 2 ^ 64 - 1) →
  (∃ j, (j < NINODE)%nat ∧ (cached dev inum j s ∨ i_ref (the_inode j s) = 0)) →
  wp (iget dev inum s) (λ i s', cached dev inum i s' ∧ icache_ok s' ∧
    (∀ j, j ≠ i → the_inode j s' = the_inode j s) ∧
    ((cached dev inum i s ∧ i_ref (the_inode i s') = i_ref (the_inode i s) + 1) ∨
     ((∀ j, ¬ cached dev inum j s) ∧ i_ref (the_inode i s) = 0 ∧
      i_ref (the_inode i s') = 1 ∧ i_valid (the_inode i s') = 0))).
Proof. apply iget_ok. Qed.

(** When the inode is not cached and every entry is referenced, [iget]
    panics. *)
Theorem iget_no_slot s dev inum :
  calm s → (∀ j, ¬ cached dev inum j s) → (∀ j, (j < NINODE)%nat → i_ref (the_inode j s) ≠ 0) →
  panics (iget dev inum s) "iget: no empty slot".
Proof.
  intros Hc Hnc Hr. rewrite iget_miss_run; [|done|].
  - destruct (find_map _ _) as [i|] eqn:Ef; [|done]. exfalso.
    apply find_map_Some in Ef as (k & j & Hk & Ej & _). case_bool_decide; [|done].
    apply lookup_seq in Hk as [-> Hk]. by eapply (Hr _ Hk).
  - intros j Hj. apply not_true_is_false. intros Hg. apply (Hnc j). unfold igettable in Hg.
    rewrite !andb_true_iff, !bool_decide_eq_true in Hg. unfold cached. tauto.
Qed.

(** The inode cache is a faithful copy: if an inode is written back with
    [iupdate] and later loaded by [ilock] into some entry that [iget] has
    prepared for it, the loaded type, device numbers, link count, size and
    block addresses are those that were written. *)
Theorem iupdate_ilock_roundtrip V H s i j ip0 :
  file_inv V H s i → (size H < NBUF)%nat → inode_range (the_inode i s) → i_type (the_inode i s) ≠ 0 →
  (j < NINODE)%nat → 1 ≤ i_ref ip0 → sl_locked (i_lock ip0) = 0 → i_valid ip0 = 0 →
  i_dev ip0 = 0 → i_inum ip0 = i_inum (the_inode i s) →
  let ip := the_inode i s in
  wp ((iupdate i ;;; modify (upd_inode j (λ _, ip0)) ;;; ilock (Some j)) s) (λ _ s',
    the_inode j s' = set_i_valid 1 (set_i_addrs (i_addrs ip) (set_i_size (i_size ip)
      (set_i_nlink (i_nlink ip) (set_i_minor (i_minor ip) (set_i_major (i_major ip)
        (set_i_type (i_type ip) (set_i_lock (set_sl_locked 1 (i_lock ip0)) ip0)))))))).
Proof.
  intros F Hroom Hrange Ht Hj Hr Hk Hv Hd Hn ip. apply wp_bind.
  kuse (iupdate_ok V H s i F Hroom). intros _ s1 [I1 F1]. rewrite bind_modify.
  set (s2 := upd_inode j (λ _, ip0) s1).
  assert (length (k_inodes s1) = NINODE) as L1 by (rewrite (bf_inodes _ _ F1); apply F).
  assert (the_inode j s2 = ip0) as E2 by (subst s2; rewrite the_inode_upd_eq by lia; done).
  assert (iblk j s2 = iblk i s) as Eb.
  { unfold iblk. rewrite E2, Hn. change (k_sb s2) with (k_sb s1). by rewrite (bf_sb _ _ F1). }
  destruct (fi_ib _ _ _ _ F) as (Hib & Hne & Hu). pose proof (sz_nblk V H s i F).
  destruct (ilock_load (updated V i s) H s2 j) as [W _]; rewrite ?E2, ?Eb; try done.
  - by apply bio_inv_upd_inode.
  - subst s2. unfold upd_inode. ksimpl. rewrite length_alter. lia.
  - split; [change (nblk s2) with (nblk s1); unfold nblk; rewrite (bf_size _ _ F1); fold (nblk s); lia|].
    split; [apply F|done].
  - pose proof (updated_synced V H s i F) as Hs.
    rewrite E2, Eb in W. unfold loaded_inode in W. rewrite Hn in W.
    rewrite (load_stored_inode ip _ _ _ Hrange Hs) in W.
    eapply wp_mono; [by apply W|]. intros _ s3 (_ & E3 & _). done.
Qed.
End Ilock.

Lemma kstate_file_calm : calm kstate_file.
Proof. destruct kstate0_kinv as [? _]. done. Qed.

Lemma the_inode_kstate_file j : the_inode (S j) kstate_file = inode0.
Proof.
  unfold the_inode, kstate_file. ksimpl. rewrite list_lookup_insert_ne by done.
  destruct (k_inodes kstate_fs !! S j) as [x|] eqn:E; [|done].
  apply lookup_replicate in E as [-> _]. done.
Qed.

Lemma kstate_file_icache : icache_ok kstate_file.
Proof.
  split.
  - done.
  - intros [|i]; [by vm_compute|]. by rewrite the_inode_kstate_file.
  - intros [|i] [|j] _ _; rewrite ?the_inode_kstate_file; done.
Qed.

Lemma iget_spec_witness :
  wp (@iget 0 5 kstate_file) (λ i s', cached 0 5 i s' ∧ icache_ok s').
Proof.
  eapply wp_mono.
  - apply iget_spec; [apply kstate_file_calm|apply kstate_file_icache| |].
    + intros [|i]; [vm_compute; done|]. rewrite the_inode_kstate_file. vm_compute. done.
    + exists 0%nat. split; [unfold NINODE; lia|]. left. split_and!; [unfold NINODE; lia|by vm_compute..].
  - intros i s' (Hc & Hi & _). split; [exact Hc|exact Hi].
Defined.

Definition kstate_icache_full : kstate :=
  set_k_inodes (λ _, replicate NINODE (set_i_ref 1 inode0)) kstate0.

Lemma iget_no_slot_witness : panics (iget 0 5 kstate_icache_full) "iget: no empty slot".
Proof.
  assert (∀ j, (j < NINODE)%nat → the_inode j kstate_icache_full = set_i_ref 1 inode0) as E.
  { intros j Hj. unfold the_inode, kstate_icache_full. ksimpl. by rewrite lookup_replicate_2. }
  apply iget_no_slot.
  - destruct kstate0_kinv as [? _]. done.
  - intros j (Hj & _ & _ & Hn). rewrite E in Hn by done. done.
  - intros j Hj. by rewrite E.
Defined.

Lemma iupdate_ilock_roundtrip_witness :
  wp ((@iupdate 1%nat 0 ;;; modify (upd_inode 1 (λ _, mk_inode 0 5 1 (mk_sleep 0 0) 0 9 9 9 9 9 [])) ;;;
       @ilock 1%nat (Some 1%nat)) kstate_file)
    (λ _ s', the_inode 1 s' = the_inode 0 kstate_file).
Proof.
  eapply wp_mono.
  - apply iupdate_ilock_roundtrip with (V := disk_block fs_disk) (H := ∅); [apply kstate_file_inv|..];
      try (vm_compute; lia || done).
    change (the_inode 0 kstate_file) with (mk_inode 0 5 1 (mk_sleep 1 0) 1 T_FILE 0 0 1 0 (replicate 14 0)).
    split; cbn [i_type i_major i_minor i_nlink i_size i_addrs]; unfold T_FILE; try lia; [|done].
    apply Forall_replicate. lia.
  - intros _ s' ->. reflexivity.
Defined.
