(* ===== verification/Kalloc.v ===== *)
(** * Physical pages (kernel/kalloc.c, kernel/bump.c)

    Free pages are linked through their first eight bytes; before the free
    list exists, pages come from the bump allocator. *)
From S2P Require Import Prelude State.

Definition PAGE_OFFSET : Z := 0xFFFF888000000000.
Definition KERN_BASE : Z := 0xFFFFFFFF80000000.
Definition PHY_STOP : Z := 2 ^ 37.
Definition V2P (v : Z) : Z := u64 (v - PAGE_OFFSET).
Definition P2V (p : Z) : Z := u64 (p + PAGE_OFFSET).
Definition V2P_KERN (v : Z) : Z := u64 (v - KERN_BASE).
Definition P2V_KERN (p : Z) : Z := u64 (p + KERN_BASE).
Definition ROUNDUP (x n : Z) : Z := (x + n - 1) / n * n.
Definition ROUNDDOWN (x n : Z) : Z := x / n * n.
Definition page_nat : nat := 4096.

(** ** Pages of physical memory *)
Definition zero_page : list byte := replicate page_nat x00.
Definition page (pa : Z) (m : kmem) : list byte := default zero_page (m_pages m !! pa).
Definition put_page (pa : Z) (f : list byte → list byte) : kstate → kstate :=
  set_k_kmem (λ m, set_m_pages (<[pa := f (page pa m)]> (m_pages m)) m).

(** ** The bump allocator *)
Definition bump_init (kernel_phys_end : Z) : M kstate unit :=
  modify (set_k_kmem (set_m_bump_enable true)) ;;;
  modify (set_k_kmem (set_m_bump_ptr kernel_phys_end)).

Definition bump_alloc_page_4kb : M kstate Z :=
  let! m := gets k_kmem in
  if negb (m_bump_enable m) then panic "Bad bump usage" else
  let p := m_bump_ptr m in
  modify (set_k_kmem (set_m_bump_ptr (u64 (p + PGSIZE_4KB)))) ;;;
  modify (put_page p (λ _, zero_page)) ;;;
  ret (P2V_KERN p).

Definition p_bump_end : M kstate Z := gets (λ s, m_bump_ptr (k_kmem s)).
Definition bump_off : M kstate unit := modify (set_k_kmem (set_m_bump_enable false)).

(** ** The free list *)
Definition kfree_ok (bump_end v : Z) : bool :=
  bool_decide (v `mod` PGSIZE_4KB = 0) && bool_decide (P2V bump_end ≤ v) && bool_decide (V2P v < PHY_STOP).

Definition kfree (v : Z) : M kstate unit :=
  let! bump_end := p_bump_end in
  if negb (kfree_ok bump_end v) then panic "kfree frees wrong addr" else
  modify (put_page (V2P v) (λ _, replicate page_nat x01)) ;;;
  let! next := gets (λ s, m_free_list (k_kmem s)) in
  modify (put_page (V2P v) (set_le 8 0 next)) ;;;
  modify (set_k_kmem (set_m_free_list v)).

Definition free_range (vstart vend : Z) : M kstate unit :=
  let p := ROUNDUP vstart PGSIZE_4KB in
  for_each ((λ i, p + i * PGSIZE_4KB) <$> seqZ 0 ((vend - p) / PGSIZE_4KB)) kfree.

(** An entry of the multiboot memory map: base address, length, type. *)
Record mmap_entry := mk_mmap { e_base : Z; e_length : Z; e_type : Z }.
Definition MB2_MMAP_AVAIL : Z := 1.

Definition kinit (map : list mmap_entry) : M kstate unit :=
  modify (set_k_kmem (set_m_free_list 0)) ;;;
  for_each map (λ e,
    if bool_decide (e_type e ≠ MB2_MMAP_AVAIL) then ret tt else
    let! bump_end := p_bump_end in
    let mmap_start := if bool_decide (e_base e < bump_end) then bump_end else e_base e in
    let mmap_end := e_base e + e_length e in
    free_range (P2V mmap_start) (P2V mmap_end)) ;;;
  bump_off.

Definition kalloc : M kstate Z :=
  let! r := gets (λ s, m_free_list (k_kmem s)) in
  when (bool_decide (r ≠ 0)) (
    modify (set_k_kmem (λ m, set_m_free_list (get_le 8 0 (page (V2P r) m)) m)) ;;;
    modify (put_page (V2P r) (λ _, replicate page_nat x02))) ;;;
  ret r.

(** ** The free list as a list of pages *)

Record pages_ok (m : kmem) (l : list Z) : Prop := {
  po_ok : ∀ v, v ∈ l → kfree_ok (m_bump_ptr m) v = true ∧ 0 < v < 2 ^ 64;
  po_nodup : NoDup l
}.

Fixpoint linked (m : kmem) (p : Z) (l : list Z) : Prop :=
  match l with
  | [] => p = 0
  | v :: l' => p = v ∧ linked m (get_le 8 0 (page (V2P v) m)) l'
  end.

(** The free list of [m] is [l], first page first. *)
Definition free_list_is (m : kmem) (l : list Z) : Prop :=
  linked m (m_free_list m) l ∧ pages_ok m l.

Definition kmem_frame (s s' : kstate) : Prop := s' = set_k_kmem (λ _, k_kmem s') s.

Lemma page_insert_eq pa d m : page pa (set_m_pages (<[pa := d]> (m_pages m)) m) = d.
Proof. unfold page. simpl. by rewrite lookup_insert_eq. Qed.
Lemma page_insert_ne pa pa' d m : pa ≠ pa' → page pa' (set_m_pages (<[pa := d]> (m_pages m)) m) = page pa' m.
Proof. intros. unfold page. simpl. by rewrite lookup_insert_ne. Qed.

Lemma V2P_inj v w : 0 ≤ v < 2 ^ 64 → 0 ≤ w < 2 ^ 64 → V2P v = V2P w → v = w.
Proof.
  unfold V2P, u64. intros Hv Hw E.
  assert ((v - PAGE_OFFSET - (w - PAGE_OFFSET)) `mod` 2 ^ 64 = 0) as Hm.
  { rewrite Zminus_mod, E, Z.sub_diag. done. }
  replace (v - PAGE_OFFSET - (w - PAGE_OFFSET)) with (v - w) in Hm by lia.
  apply Z.mod_divide in Hm as [k Hk]; [|done]. nia.
Qed.

Lemma linked_frame m m' p l :
  (∀ v, v ∈ l → get_le 8 0 (page (V2P v) m') = get_le 8 0 (page (V2P v) m)) →
  linked m p l → linked m' p l.
Proof.
  revert p; induction l as [|v l IH]; intros p Hm; simpl; [done|].
  intros [-> Hl]. split; [done|]. rewrite Hm by left. apply IH; [|done]. intros; apply Hm; by right.
Qed.

Definition freed_page (next : Z) : list byte := set_le 8 0 next (replicate page_nat x01).

Lemma freed_page_next next : 0 ≤ next < 2 ^ 64 → get_le 8 0 (freed_page next) = next.
Proof.
  intros Hn. unfold freed_page. rewrite get_set_le_eq by (rewrite length_replicate; unfold page_nat; lia).
  change (256 ^ Z.of_nat 8) with (2 ^ 64). by apply Z.mod_small.
Qed.

Lemma linked_range m p l : linked m p l → pages_ok m l → 0 ≤ p < 2 ^ 64.
Proof. destruct l as [|v l]; simpl; [lia|]. intros [-> _] [Hok _]. specialize (Hok v ltac:(left)). lia. Qed.

Definition kmem_freed (v : Z) (m : kmem) : kmem :=
  set_m_free_list v (set_m_pages (<[V2P v := freed_page (m_free_list m)]> (m_pages m)) m).
Definition kmem_alloced (m : kmem) : kmem :=
  let r := m_free_list m in
  set_m_pages (<[V2P r := replicate page_nat x02]> (m_pages m))
    (set_m_free_list (get_le 8 0 (page (V2P r) m)) m).

Lemma kfree_run v s :
  kfree_ok (m_bump_ptr (k_kmem s)) v = true → kfree v s = Done tt (set_k_kmem (kmem_freed v) s).
Proof.
  intros Hok. unfold kfree, p_bump_end. rewrite bind_gets, Hok. cbn [negb].
  rewrite bind_modify, bind_gets, bind_modify. unfold modify. f_equal. kext.
  unfold put_page. ksimpl. unfold kmem_freed. simpl. rewrite page_insert_eq.
  unfold set_m_free_list, set_m_pages; simpl. by rewrite insert_insert_eq.
Qed.

Lemma kalloc_run s :
  kalloc s = Done (m_free_list (k_kmem s))
    (if decide (m_free_list (k_kmem s) = 0) then s else set_k_kmem kmem_alloced s).
Proof.
  unfold kalloc. rewrite bind_gets. case_decide as E.
  - rewrite bool_decide_false by (by intros []). done.
  - rewrite bool_decide_true by done. done.
Qed.

Lemma kmem_freed_list v m l :
  free_list_is m l → kfree_ok (m_bump_ptr m) v = true → 0 < v < 2 ^ 64 → v ∉ l →
  free_list_is (kmem_freed v m) (v :: l).
Proof.
  intros [Hl Hok] Hv Hr Hnin. pose proof (linked_range _ _ _ Hl Hok) as Hp.
  split; [|split].
  - simpl. split; [done|]. unfold kmem_freed. unfold page at 1. simpl. rewrite lookup_insert_eq. simpl.
    rewrite freed_page_next by done. eapply linked_frame; [|exact Hl].
    intros w Hw. unfold page. simpl. rewrite lookup_insert_ne; [done|].
    intros E. apply V2P_inj in E; [by subst|lia|]. destruct (po_ok _ _ Hok w Hw). lia.
  - intros w [->|Hw]%elem_of_cons; [done|]. by apply (po_ok _ _ Hok).
  - apply NoDup_cons. split; [done|apply Hok].
Qed.

Lemma kmem_alloced_list m v l :
  free_list_is m (v :: l) → free_list_is (kmem_alloced m) l.
Proof.
  intros [[E Hl] [Hok Hnd]]. apply NoDup_cons in Hnd as [Hnin Hnd]. split; [|split].
  - unfold kmem_alloced. simpl. rewrite E in *. eapply linked_frame; [|exact Hl].
    intros w Hw. unfold page. simpl. rewrite lookup_insert_ne; [done|].
    intros Ew. pose proof (Hok w ltac:(by right)). pose proof (Hok v ltac:(left)).
    apply V2P_inj in Ew; [by subst|lia|lia].
  - intros w Hw. apply (Hok w). by right.
  - done.
Qed.

(** ** Properties *)

Lemma P2V_small p : 0 ≤ p ≤ PHY_STOP → P2V p = PAGE_OFFSET + p.
Proof. intros Hp. unfold P2V. rewrite u64_small; unfold PAGE_OFFSET, PHY_STOP in *; lia. Qed.
Lemma V2P_P2V p : 0 ≤ p < 2 ^ 64 → V2P (P2V p) = p.
Proof.
  intros Hp. unfold V2P, P2V, u64. rewrite Zminus_mod_idemp_l. 
  replace (p + PAGE_OFFSET - PAGE_OFFSET) with p by lia. by apply Z.mod_small.
Qed.
Lemma P2V_V2P v : 0 ≤ v < 2 ^ 64 → P2V (V2P v) = v.
Proof.
  intros Hv. unfold V2P, P2V, u64. rewrite Zplus_mod_idemp_l.
  replace (v - PAGE_OFFSET + PAGE_OFFSET) with v by lia. by apply Z.mod_small.
Qed.

(** C10. With free list [l], [kalloc] returns 0 exactly when [l] is empty;
    otherwise it returns the first page, filled with the byte 2 and no longer on
    the list, and leaves every other page as it was. *)
Theorem kalloc_spec s l :
  free_list_is (k_kmem s) l →
  wp (kalloc s) (λ r s', kmem_frame s s' ∧ m_bump_ptr (k_kmem s') = m_bump_ptr (k_kmem s) ∧
    match l with
    | [] => r = 0 ∧ s' = s
    | v :: l' => r = v ∧ r ≠ 0 ∧ r `mod` PGSIZE_4KB = 0 ∧ r ∉ l' ∧ free_list_is (k_kmem s') l' ∧
        page (V2P r) (k_kmem s') = replicate page_nat x02 ∧
        ∀ pa, pa ≠ V2P r → page pa (k_kmem s') = page pa (k_kmem s)
    end).
Proof.
  intros Hl. rewrite kalloc_run. destruct l as [|v l].
  - destruct Hl as [E _]. simpl in E. rewrite E, decide_True by done.
    split; [by destruct s|]. split; [done|]. by split.
  - pose proof Hl as [[E _] [Hok Hnd]]. destruct (Hok v ltac:(left)) as [Hv Hr].
    rewrite E. rewrite decide_False by lia. split; [done|]. split; [done|].
    split; [done|]. split; [lia|]. apply NoDup_cons in Hnd as [? _].
    unfold kfree_ok in Hv. rewrite !andb_true_iff, !bool_decide_eq_true in Hv.
    split; [apply Hv|]. split; [done|]. split; [by eapply kmem_alloced_list|].
    split; [|intros pa Hpa]; ksimpl; unfold kmem_alloced, page; simpl; rewrite E.
    + by rewrite lookup_insert_eq.
    + by rewrite lookup_insert_ne.
Qed.

(** [kfree] of a page outside the free list puts it at the front, so that the
    next [kalloc] returns it, and leaves every other page as it was. *)
Theorem kfree_spec s l v :
  free_list_is (k_kmem s) l → kfree_ok (m_bump_ptr (k_kmem s)) v = true → 0 < v < 2 ^ 64 → v ∉ l →
  wp (kfree v s) (λ _ s', kmem_frame s s' ∧ free_list_is (k_kmem s') (v :: l) ∧
    (∀ pa, pa ≠ V2P v → page pa (k_kmem s') = page pa (k_kmem s)) ∧
    wp (kalloc s') (λ r _, r = v)).
Proof.
  intros Hl Hok Hr Hnin. rewrite kfree_run by done. split; [done|].
  split; [by apply kmem_freed_list|]. split.
  - intros pa Hpa. ksimpl. unfold kmem_freed, page; simpl. by rewrite lookup_insert_ne.
  - by rewrite kalloc_run.
Qed.

(** [kfree] panics exactly on an address that is not a page boundary of the
    direct map above the bump allocator's memory and below [PHY_STOP]. *)
Theorem kfree_errors s v :
  (panics (kfree v s) "kfree frees wrong addr" ↔
    ¬ (v `mod` PGSIZE_4KB = 0 ∧ P2V (m_bump_ptr (k_kmem s)) ≤ v ∧ V2P v < PHY_STOP)).
Proof.
  assert (kfree_ok (m_bump_ptr (k_kmem s)) v = true ↔
    (v `mod` PGSIZE_4KB = 0 ∧ P2V (m_bump_ptr (k_kmem s)) ≤ v ∧ V2P v < PHY_STOP)) as <-.
  { unfold kfree_ok. rewrite !andb_true_iff, !bool_decide_eq_true. tauto. }
  destruct (kfree_ok _ v) eqn:E.
  - rewrite kfree_run by done. split; [discriminate|]. by intros [].
  - split; [done|]. intros _. unfold kfree, p_bump_end. rewrite bind_gets, E. done.
Qed.

Lemma for_each_kfree ps : ∀ s l,
  free_list_is (k_kmem s) l → NoDup ps →
  (∀ v, v ∈ ps → kfree_ok (m_bump_ptr (k_kmem s)) v = true ∧ 0 < v < 2 ^ 64 ∧ v ∉ l) →
  wp (for_each ps kfree s) (λ _ s', kmem_frame s s' ∧ free_list_is (k_kmem s') (reverse ps ++ l) ∧
    m_bump_ptr (k_kmem s') = m_bump_ptr (k_kmem s) ∧ m_bump_enable (k_kmem s') = m_bump_enable (k_kmem s)).
Proof.
  induction ps as [|v ps IH]; intros s l Hl Hnd Hok; cbn [for_each].
  - apply wp_ret. split; [by destruct s|]. done.
  - apply NoDup_cons in Hnd as [Hv Hnd]. destruct (Hok v ltac:(left)) as (Hv1 & Hv2 & Hv3).
    erewrite bind_done by by apply kfree_run. set (s1 := set_k_kmem _ s).
    kuse (IH s1 (v :: l)).
    + by apply kmem_freed_list.
    + done.
    + intros w Hw. destruct (Hok w ltac:(by right)) as (? & ? & ?). split; [done|]. split; [done|].
      intros [->|?]%elem_of_cons; done.
    + intros _ s' (F & L & B1 & B2). split; [rewrite F; subst s1; by kext|].
      split; [|done]. by rewrite reverse_cons, <- app_assoc.
Qed.

(** The pages of usable memory: whole pages of an available region, above the
    memory the bump allocator has handed out. *)
Definition in_region (bump_end : Z) (e : mmap_entry) (v : Z) : Prop :=
  e_type e = MB2_MMAP_AVAIL ∧ v `mod` PGSIZE_4KB = 0 ∧
  P2V (Z.max (e_base e) bump_end) ≤ v ∧ v + PGSIZE_4KB ≤ P2V (e_base e + e_length e).

Record map_ok (bump_end : Z) (map : list mmap_entry) : Prop := {
  mo_bump : 0 < bump_end ≤ PHY_STOP;
  mo_range : ∀ e, e ∈ map → e_type e = MB2_MMAP_AVAIL →
    0 ≤ e_base e ∧ 0 ≤ e_length e ∧ e_base e + e_length e ≤ PHY_STOP;
  mo_disjoint : ∀ i j e e', i ≠ j → map !! i = Some e → map !! j = Some e' →
    e_type e = MB2_MMAP_AVAIL → e_type e' = MB2_MMAP_AVAIL →
    e_base e + e_length e ≤ e_base e' ∨ e_base e' + e_length e' ≤ e_base e
}.

Lemma roundup_spec x : 0 ≤ x →
  x ≤ ROUNDUP x PGSIZE_4KB < x + PGSIZE_4KB ∧ ROUNDUP x PGSIZE_4KB `mod` PGSIZE_4KB = 0.
Proof.
  intros Hx. unfold ROUNDUP, PGSIZE_4KB.
  pose proof (Z.div_mod (x + 4096 - 1) 4096 ltac:(done)). pose proof (Z.mod_pos_bound (x + 4096 - 1) 4096 ltac:(done)).
  split; [lia|]. by apply Z.mod_mul.
Qed.

Lemma mul_page_iff p v : p `mod` PGSIZE_4KB = 0 →
  (v `mod` PGSIZE_4KB = 0 ∧ p ≤ v ↔ ∃ i, 0 ≤ i ∧ v = p + i * PGSIZE_4KB).
Proof.
  intros Hp. unfold PGSIZE_4KB in *. apply Z.mod_divide in Hp as [a ->]; [|done]. split.
  - intros [Hv Hle]. apply Z.mod_divide in Hv as [b ->]; [|done]. exists (b - a). lia.
  - intros (i & Hi & ->). split; [|lia]. rewrite <- Z.mul_add_distr_r. by apply Z.mod_mul.
Qed.

(** The addresses [free_range] passes to [kfree]. *)
Definition range_pages (vstart vend : Z) : list Z :=
  let p := ROUNDUP vstart PGSIZE_4KB in
  (λ i, p + i * PGSIZE_4KB) <$> seqZ 0 ((vend - p) / PGSIZE_4KB).

Lemma elem_of_range_pages vstart vend v : 0 ≤ vstart →
  v ∈ range_pages vstart vend ↔ v `mod` PGSIZE_4KB = 0 ∧ vstart ≤ v ∧ v + PGSIZE_4KB ≤ vend.
Proof.
  intros Hs. destruct (roundup_spec vstart Hs) as [Hp Hm]. unfold range_pages.
  set (p := ROUNDUP vstart PGSIZE_4KB) in *. rewrite list_elem_of_fmap.
  pose proof (Z.div_mod (vend - p) PGSIZE_4KB ltac:(done)) as Hd.
  pose proof (Z.mod_pos_bound (vend - p) PGSIZE_4KB ltac:(done)) as Hb.
  setoid_rewrite elem_of_seqZ. unfold PGSIZE_4KB in *. split.
  - intros (i & -> & Hi). split; [|lia]. apply (mul_page_iff p); [done|]. exists i. unfold PGSIZE_4KB. lia.
  - intros (Hv & Hle & He).
    assert (p ≤ v) as Hpv.
    { apply Z.mod_divide in Hv as [b Hb']; [|done]. apply Z.mod_divide in Hm as [a Ha]; [|done]. lia. }
    destruct (proj1 (mul_page_iff p v Hm)) as (i & Hi & ->); [done|]. exists i. unfold PGSIZE_4KB in *. lia.
Qed.

Lemma NoDup_range_pages vstart vend : NoDup (range_pages vstart vend).
Proof.
  unfold range_pages. apply NoDup_fmap_2; [|apply NoDup_seqZ].
  intros i j E. unfold PGSIZE_4KB in E. lia.
Qed.

Definition kinit_entry (e : mmap_entry) : M kstate unit :=
  if bool_decide (e_type e ≠ MB2_MMAP_AVAIL) then ret tt else
  let! bump_end := p_bump_end in
  let mmap_start := if bool_decide (e_base e < bump_end) then bump_end else e_base e in
  let mmap_end := e_base e + e_length e in
  free_range (P2V mmap_start) (P2V mmap_end).

Lemma kinit_loop map : ∀ s l,
  free_list_is (k_kmem s) l → map_ok (m_bump_ptr (k_kmem s)) map →
  (∀ v e, v ∈ l → e ∈ map → ¬ in_region (m_bump_ptr (k_kmem s)) e v) →
  wp (for_each map kinit_entry s) (λ _ s', kmem_frame s s' ∧ ∃ l', free_list_is (k_kmem s') l' ∧
    m_bump_ptr (k_kmem s') = m_bump_ptr (k_kmem s) ∧
    ∀ v, v ∈ l' ↔ v ∈ l ∨ ∃ e, e ∈ map ∧ in_region (m_bump_ptr (k_kmem s)) e v).
Proof.
  induction map as [|e map IH]; intros s l Hl Hmap Hnew; cbn [for_each].
  { apply wp_ret. split; [by destruct s|]. exists l. split; [done|]. split; [done|]. set_solver. }
  set (be := m_bump_ptr (k_kmem s)) in *.
  assert (map_ok be map) as Hmap'.
  { destruct Hmap as [H1 H2 H3]. split; [done|intros; apply H2; [by right|done]|].
    intros i j e1 e2 Hij Hi Hj. apply (H3 (S i) (S j)); [lia|done..]. }
  apply wp_bind. unfold kinit_entry at 1. case_bool_decide as Ht.
  - apply wp_ret. kuse (IH s l); [done|done|intros v e' Hv He; apply Hnew; [done|by right]|].
    intros _ s' (F & l' & L & B & M). split; [done|]. exists l'. split; [done|]. split; [done|].
    intros v. rewrite M. setoid_rewrite elem_of_cons. split; (intros [?|(e' & He & R)]; [by left|right]).
    + eauto.
    + destruct He as [->|He]; [by destruct R|eauto].
  - unfold p_bump_end. rewrite bind_gets. fold be.
    replace (if bool_decide (e_base e < be) then be else e_base e) with (Z.max (e_base e) be)
      by (case_bool_decide; lia).
    destruct (mo_range _ _ Hmap e ltac:(left) Ht) as (Hb & Hln & He). pose proof (mo_bump _ _ Hmap) as Hbe.
    change (free_range ?a ?b) with (for_each (range_pages a b) kfree).
    rewrite (P2V_small (e_base e + e_length e)) by lia.
    rewrite (P2V_small (Z.max (e_base e) be)) by (unfold PHY_STOP in *; lia).
    assert (∀ v, v ∈ range_pages (PAGE_OFFSET + Z.max (e_base e) be) (PAGE_OFFSET + (e_base e + e_length e)) ↔
      in_region be e v) as Hreg.
    { intros v. rewrite elem_of_range_pages by (unfold PAGE_OFFSET; lia). unfold in_region.
      rewrite !P2V_small by (unfold PHY_STOP in *; lia). tauto. }
    kuse (for_each_kfree _ s l); [done|apply NoDup_range_pages| |].
    + intros v Hv. split; [|split].
      * apply Hreg in Hv as (_ & Hm & H1 & H2). fold be. unfold kfree_ok. 
        rewrite P2V_small in H1, H2 by (unfold PHY_STOP in *; lia).
        rewrite !andb_true_iff, !bool_decide_eq_true. split; [split; [done|]|].
        -- rewrite P2V_small by lia. lia.
        -- unfold V2P. rewrite u64_small; unfold PAGE_OFFSET, PHY_STOP, PGSIZE_4KB in *; lia.
      * apply Hreg in Hv as (_ & Hm & H1 & H2).
        rewrite P2V_small in H1, H2 by (unfold PHY_STOP in *; lia).
        unfold PAGE_OFFSET, PHY_STOP, PGSIZE_4KB in *; lia.
      * intros Hin. apply (Hnew v e Hin ltac:(left)). by apply Hreg.
    + intros _ s1 (F1 & L1 & B1 & _).
      kuse (IH s1 _ L1); rewrite B1; fold be; [done| |].
      * intros v e' Hv He' Hin'. apply elem_of_app in Hv as [Hv|Hv].
        -- apply elem_of_reverse, Hreg in Hv. apply list_elem_of_lookup in He' as [j Hj].
           destruct Hv as (_ & _ & H1 & H2), Hin' as (Ht' & _ & H1' & H2').
           destruct (mo_range _ _ Hmap e') as (? & ? & ?); [right; by eapply list_elem_of_lookup_2|done|].
           rewrite P2V_small in H1, H2, H1', H2' by (unfold PHY_STOP in *; lia).
           destruct (mo_disjoint _ _ Hmap 0 (S j) e e'); try done; unfold PGSIZE_4KB in *; lia.
        -- apply (Hnew v e'); [done|by right|done].
      * intros _ s' (F & l' & L & B & M). split; [rewrite F, F1; by kext|].
        exists l'. split; [done|]. split; [done|]. intros v. rewrite M, elem_of_app, elem_of_reverse, Hreg.
        setoid_rewrite elem_of_cons. split.
        -- intros [[?|?]|(e' & ? & R)]; [right; eauto|by left|right; eauto].
        -- intros [?|(e' & [->|?] & R)]; [left; by right|left; by left|right; eauto].
Qed.

(** C11. After [kinit] on a memory map of disjoint regions below [PHY_STOP],
    the free list has no duplicates and consists of exactly the whole pages of
    available regions that lie above the kernel and the bump allocator's
    memory, and the bump allocator is switched off. *)
Theorem kinit_spec s map :
  map_ok (m_bump_ptr (k_kmem s)) map →
  wp (kinit map s) (λ _ s', ∃ l, free_list_is (k_kmem s') l ∧ NoDup l ∧
    (∀ v, v ∈ l ↔ ∃ e, e ∈ map ∧ in_region (m_bump_ptr (k_kmem s)) e v) ∧
    panics (bump_alloc_page_4kb s') "Bad bump usage").
Proof.
  intros Hmap. unfold kinit. rewrite bind_modify. set (s1 := set_k_kmem _ s).
  apply wp_bind. change (λ e, if bool_decide (e_type e ≠ MB2_MMAP_AVAIL) then _ else _) with kinit_entry.
  assert (free_list_is (k_kmem s1) []) as L1.
  { split; [done|]. split; [set_solver|apply NoDup_nil_2]. }
  kuse (kinit_loop map s1 [] L1); [done|set_solver|].
  intros _ s2 (F & l & L & B & M). apply wp_modify. exists l.
  split; [|split; [apply L|split; [|done]]].
  - destruct L as [L [O N]]. split; [|split; [done|done]]. ksimpl.
    revert L. change (m_free_list (set_m_bump_enable false (k_kmem s2))) with (m_free_list (k_kmem s2)).
    apply linked_frame. done.
  - intros v. rewrite M. set_solver.
Qed.

Definition kstate_kmem : kstate := set_k_kmem (λ _, mk_kmem 0 ∅ 0x200000 true) kstate0.
Definition small_map : list mmap_entry := [mk_mmap 0 0x9fc00 1; mk_mmap 0x100000 0x105000 1; mk_mmap 0x300000 0x1000 2].

Lemma kinit_spec_witness :
  wp (kinit small_map kstate_kmem) (λ _ s', ∃ l, free_list_is (k_kmem s') l ∧
    P2V 0x204000 ∈ l ∧ P2V 0x300000 ∉ l).
Proof.
  eapply wp_mono.
  - apply kinit_spec. split.
    + vm_compute. split; [done|discriminate].
    + intros e He Ht. repeat (apply elem_of_cons in He as [->|He]); [..|by apply elem_of_nil in He];
        simpl in *; unfold PHY_STOP; try lia.
    + intros [|[|[|i]]] [|[|[|j]]] e e' Hij [= <-] [= <-]; simpl; unfold MB2_MMAP_AVAIL; intros; try lia; done.
  - intros _ s' (l & L & _ & M & _). exists l. split; [exact L|].
    rewrite !M. split.
    + exists (mk_mmap 0x100000 0x105000 1). split; [set_solver|]. vm_compute. repeat split; discriminate.
    + intros (e & He & Hr). repeat (apply elem_of_cons in He as [->|He]); [..|by apply elem_of_nil in He];
        destruct Hr as (H1 & H2 & H3 & H4); vm_compute in H1, H3, H4; congruence.
Defined.

(** The state after [kinit] on that map; its free list starts at [0x205000]'s page. *)
Definition kstate_kinit : kstate :=
  match kinit small_map kstate_kmem with Done _ s => s | _ => kstate0 end.
Definition small_free : list Z := [P2V 0x204000; P2V 0x203000; P2V 0x202000; P2V 0x201000; P2V 0x200000].

Lemma kstate_kinit_free : free_list_is (k_kmem kstate_kinit) small_free.
Proof.
  split; [vm_compute; tauto|]. split.
  - intros v Hv. repeat (apply elem_of_cons in Hv as [->|Hv]); [..|by apply elem_of_nil in Hv];
      (split; [vm_compute; done|split; vm_compute; done]).
  - apply (bool_decide_unpack _). vm_compute. done.
Qed.

Lemma kalloc_spec_witness :
  wp (kalloc kstate_kinit) (λ r s', r = P2V 0x204000 ∧ page 0x204000 (k_kmem s') = replicate page_nat x02).
Proof.
  eapply wp_mono; [apply kalloc_spec; exact kstate_kinit_free|].
  intros r s' (_ & _ & Hr). unfold small_free in Hr. destruct Hr as (-> & _ & _ & _ & _ & Hp & _).
  split; [done|]. exact Hp.
Defined.

Lemma kfree_spec_witness :
  wp (kfree (P2V 0x300000) kstate_kinit) (λ _ s', wp (kalloc s') (λ r _, r = P2V 0x300000)).
Proof.
  eapply wp_mono; [eapply kfree_spec; [exact kstate_kinit_free|vm_compute; done|split; vm_compute; done|]|].
  - unfold small_free. vm_compute. intros H. repeat (apply elem_of_cons in H as [H|H]; [discriminate|]).
    by apply elem_of_nil in H.
  - intros _ s' (_ & _ & _ & H). exact H.
Defined.
