(* ===== verification/Pipe.v ===== *)
(** * Pipes (kernel/pipe.c: pipe_close, pipe_write, pipe_read)

    A pipe is a ring of [PIPESIZE] bytes between two counters.  The object is
    kept in [k_pipes] under the address of the page [kalloc] gave it;
    [pipe_alloc], which needs the file table, is in File.v. *)
From S2P Require Import Prelude State Spinlock Sched Kalloc.

Definition PIPESIZE : Z := 512.

Definition pipe0 : pipe := mk_pipe [] 0 0 false false.
Definition the_pipe (a : Z) (s : kstate) : pipe := default pipe0 (k_pipes s !! a).
Definition upd_pipe (a : Z) (f : pipe → pipe) : kstate → kstate := set_k_pipes (alter f a).

(** [p->data[p->nwrite++ % PIPESIZE] = c] and [p->data[p->nread++ % PIPESIZE]]. *)
Definition put_byte (c : byte) (p : pipe) : pipe :=
  set_pi_nwrite (u64 (pi_nwrite p + 1))
    (set_pi_data (splice (Z.to_nat (pi_nwrite p `mod` PIPESIZE)) [c] (pi_data p)) p).
Definition front_byte (p : pipe) : byte := default x00 (pi_data p !! Z.to_nat (pi_nread p `mod` PIPESIZE)).
Definition drop_byte (p : pipe) : pipe := set_pi_nread (u64 (pi_nread p + 1)) p.

Section Pipe.
Context {wf : WakeFuel}.

Definition killed : M kstate bool :=
  let! p := myproc in
  let! i := deref p in
  gets (λ s, bool_decide (p_killed (the_proc i s) ≠ 0)).

(** [kfree] of the page destroys the pipe in it. *)
Definition free_pipe (a : Z) : M kstate unit :=
  kfree a ;;; modify (set_k_pipes (delete a)).

Definition pipe_close (a : Z) (writable : bool) : M kstate unit :=
  acquire (LkPipe a) ;;;
  (if writable then
     modify (upd_pipe a (set_pi_write_open false)) ;;; wakeup (ChPipeRead a)
   else
     modify (upd_pipe a (set_pi_read_open false)) ;;; wakeup (ChPipeWrite a)) ;;;
  let! p := gets (the_pipe a) in
  if negb (pi_read_open p) && negb (pi_write_open p) then
    release (LkPipe a) ;;; free_pipe a
  else release (LkPipe a).

(** [while(p->nwrite == p->nread + PIPESIZE)]: [false] when the call gives up. *)
Fixpoint wait_room (fuel : nat) (a : Z) : M kstate bool :=
  let! p := gets (the_pipe a) in
  if bool_decide (pi_nwrite p = u64 (pi_nread p + PIPESIZE)) then
    let! dead := if negb (pi_read_open p) then ret true else killed in
    if dead then release (LkPipe a) ;;; ret false else
    match fuel with
    | O => no_fuel
    | S fuel' =>
      wakeup (ChPipeRead a) ;;;
      sleep (ChPipeWrite a) (LkPipe a) ;;;
      wait_room fuel' a
    end
  else ret true.

(** The bytes from [addr[i]] on. *)
Fixpoint pipe_write_loop (a : Z) (src : list byte) : M kstate bool :=
  match src with
  | [] => ret true
  | c :: src' =>
    let! room := wait_room wake_fuel a in
    if room then modify (upd_pipe a (put_byte c)) ;;; pipe_write_loop a src' else ret false
  end.

Definition pipe_write (a : Z) (src : list byte) : M kstate Z :=
  acquire (LkPipe a) ;;;
  let! ok := pipe_write_loop a src in
  if negb ok then ret (-1) else
  wakeup (ChPipeRead a) ;;;
  release (LkPipe a) ;;;
  ret (Z.of_nat (length src)).

(** [while(p->nread == p->nwrite && p->write_open)]. *)
Fixpoint wait_data (fuel : nat) (a : Z) : M kstate bool :=
  let! p := gets (the_pipe a) in
  if bool_decide (pi_nread p = pi_nwrite p) && pi_write_open p then
    let! dead := killed in
    if dead then release (LkPipe a) ;;; ret false else
    match fuel with
    | O => no_fuel
    | S fuel' => sleep (ChPipeRead a) (LkPipe a) ;;; wait_data fuel' a
    end
  else ret true.

(** [for(i=0; i<n; i++)]: the bytes stored to [addr]. *)
Fixpoint pipe_read_loop (a : Z) (n : nat) : M kstate (list byte) :=
  match n with
  | O => ret []
  | S n' =>
    let! p := gets (the_pipe a) in
    if bool_decide (pi_nread p = pi_nwrite p) then ret [] else
    modify (upd_pipe a drop_byte) ;;;
    let! rest := pipe_read_loop a n' in
    ret (front_byte p :: rest)
  end.

Definition pipe_read (a : Z) (n : nat) : M kstate (Z * list byte) :=
  acquire (LkPipe a) ;;;
  let! ok := wait_data wake_fuel a in
  if negb ok then ret (-1, []) else
  let! dst := pipe_read_loop a n in
  wakeup (ChPipeWrite a) ;;;
  release (LkPipe a) ;;;
  ret (Z.of_nat (length dst), dst).
End Pipe.

(** ** The bytes in a pipe *)

Definition pipe_count (p : pipe) : Z := u64 (pi_nwrite p - pi_nread p).
Definition pipe_byte (p : pipe) (i : Z) : byte :=
  default x00 (pi_data p !! Z.to_nat ((pi_nread p + i) `mod` PIPESIZE)).

(** What was written and not yet read, oldest byte first. *)
Definition pipe_bytes (p : pipe) : list byte := pipe_byte p <$> seqZ 0 (pipe_count p).

(** The counters are 64-bit and may wrap around; they differ by at most the
    size of the ring. *)
Record pipe_ok (p : pipe) : Prop := {
  pp_len : length (pi_data p) = 512%nat;
  pp_nread : 0 ≤ pi_nread p < 2 ^ 64;
  pp_nwrite : 0 ≤ pi_nwrite p < 2 ^ 64;
  pp_count : pipe_count p ≤ PIPESIZE
}.

Lemma u64_mod_512 x : u64 x `mod` 512 = x `mod` 512.
Proof.
  unfold u64. change (2 ^ 64) with (512 * 2 ^ 55). rewrite Z.rem_mul_r by lia.
  rewrite Z.mul_comm, Z.mod_add, Z.mod_mod by lia. done.
Qed.

Lemma u64_add x y : u64 (u64 x + y) = u64 (x + y).
Proof. unfold u64. by rewrite Zplus_mod_idemp_l. Qed.

Lemma u64_inv x y c : 0 ≤ x < 2 ^ 64 → 0 ≤ c < 2 ^ 64 → u64 (x - y) = c → x = u64 (y + c).
Proof.
  intros Hx Hc <-. unfold u64. rewrite Zplus_mod_idemp_r. replace (y + (x - y)) with x by lia.
  by rewrite Z.mod_small.
Qed.

Section Ring512.
Context (p : pipe) (Hp : pipe_ok p).

Lemma pipe_count_range : 0 ≤ pipe_count p ≤ 512.
Proof. pose proof (u64_range (pi_nwrite p - pi_nread p)). pose proof (pp_count _ Hp). unfold PIPESIZE in *. unfold pipe_count in *. lia. Qed.

Lemma pipe_nwrite_eq : pi_nwrite p = u64 (pi_nread p + pipe_count p).
Proof. pose proof pipe_count_range. apply u64_inv; [apply Hp|lia|done]. Qed.

Lemma pipe_full : bool_decide (pi_nwrite p = u64 (pi_nread p + PIPESIZE)) = bool_decide (pipe_count p = PIPESIZE).
Proof.
  pose proof pipe_count_range. apply bool_decide_ext. rewrite pipe_nwrite_eq. split; [|by intros ->].
  intros E. unfold u64, PIPESIZE in *.
  assert (((pi_nread p + pipe_count p) - (pi_nread p + 512)) `mod` 2 ^ 64 = 0) as Hm.
  { rewrite Zminus_mod, E, Z.sub_diag. done. }
  apply Z.mod_divide in Hm as [k Hk]; [|done]. nia.
Qed.

Lemma pipe_empty : bool_decide (pi_nread p = pi_nwrite p) = bool_decide (pipe_count p = 0).
Proof.
  apply bool_decide_ext. split.
  - intros E. unfold pipe_count. by rewrite E, Z.sub_diag.
  - intros E. rewrite pipe_nwrite_eq, E, Z.add_0_r. symmetry. apply u64_small, Hp.
Qed.

Lemma pipe_bytes_length : length (pipe_bytes p) = Z.to_nat (pipe_count p).
Proof. unfold pipe_bytes. by rewrite length_fmap, length_seqZ. Qed.

Lemma put_byte_count c : pipe_count p < 512 → pipe_count (put_byte c p) = pipe_count p + 1.
Proof.
  intros H. pose proof pipe_count_range. unfold pipe_count at 1. simpl.
  replace (u64 (pi_nwrite p + 1) - pi_nread p) with (u64 (pi_nwrite p + 1) + - pi_nread p) by lia.
  rewrite u64_add. replace (pi_nwrite p + 1 + - pi_nread p) with (pi_nwrite p - pi_nread p + 1) by lia.
  rewrite <- u64_add. fold (pipe_count p). apply u64_small. lia.
Qed.

Lemma put_byte_ok c : pipe_count p < 512 → pipe_ok (put_byte c p).
Proof.
  intros H. split; simpl.
  - rewrite splice_length; [apply Hp|]. rewrite (pp_len _ Hp). simpl. unfold PIPESIZE.
    pose proof (Z.mod_pos_bound (pi_nwrite p) 512 ltac:(done)). lia.
  - apply Hp.
  - apply u64_range.
  - rewrite put_byte_count by done. unfold PIPESIZE; lia.
Qed.

(** A byte put into a pipe with room goes to the end of its contents. *)
Lemma put_byte_bytes c : pipe_count p < 512 → pipe_bytes (put_byte c p) = pipe_bytes p ++ [c].
Proof.
  intros H. pose proof pipe_count_range. unfold pipe_bytes. rewrite put_byte_count by done.
  rewrite seqZ_app by lia. rewrite fmap_app. f_equal.
  - apply list_fmap_ext. intros j x [-> Hx]%lookup_seqZ. unfold pipe_byte. simpl.
    rewrite splice_lookup_out; [done|..]; rewrite ?(pp_len _ Hp); simpl; unfold PIPESIZE;
      rewrite pipe_nwrite_eq, u64_mod_512;
      pose proof (Z.mod_pos_bound (pi_nread p + pipe_count p) 512 ltac:(done)); [lia|].
    pose proof (Z.mod_pos_bound (pi_nread p + (0 + Z.of_nat j)) 512 ltac:(done)).
    pose proof (Z.div_mod (pi_nread p + pipe_count p) 512 ltac:(done)).
    pose proof (Z.div_mod (pi_nread p + (0 + Z.of_nat j)) 512 ltac:(done)). lia.
  - simpl. f_equal. unfold pipe_byte. simpl.
    rewrite pipe_nwrite_eq. unfold PIPESIZE. rewrite u64_mod_512.
    replace (pi_nread p + (Z.of_nat 0 + (0 + pipe_count p))) with (pi_nread p + pipe_count p) by lia.
    pose proof (Z.mod_pos_bound (pi_nread p + pipe_count p) 512 ltac:(done)).
    rewrite splice_lookup_in by (rewrite ?(pp_len _ Hp); simpl; lia). by rewrite Nat.sub_diag.
Qed.

Lemma drop_byte_count : 0 < pipe_count p → pipe_count (drop_byte p) = pipe_count p - 1.
Proof.
  intros H. pose proof pipe_count_range. unfold pipe_count at 1. simpl.
  assert (u64 (pi_nwrite p - u64 (pi_nread p + 1)) = u64 (pi_nwrite p - (pi_nread p + 1))) as ->.
  { unfold u64. by rewrite Zminus_mod_idemp_r. }
  replace (pi_nwrite p - (pi_nread p + 1)) with (pi_nwrite p - pi_nread p + -1) by lia.
  rewrite <- u64_add. fold (pipe_count p). rewrite u64_small; lia.
Qed.

Lemma drop_byte_ok : 0 < pipe_count p → pipe_ok (drop_byte p).
Proof.
  intros H. pose proof pipe_count_range. split; simpl; [apply Hp|apply u64_range|apply Hp|].
  rewrite drop_byte_count by done. unfold PIPESIZE; lia.
Qed.

(** The byte taken out of a pipe is the first of its contents. *)
Lemma drop_byte_bytes : 0 < pipe_count p → pipe_bytes p = front_byte p :: pipe_bytes (drop_byte p).
Proof.
  intros H. unfold pipe_bytes. rewrite drop_byte_count by done.
  rewrite (seqZ_cons 0 (pipe_count p)) by lia. simpl. f_equal.
  - unfold pipe_byte, front_byte. by rewrite Z.add_0_r.
  - change (Z.succ 0) with (1 + 0). rewrite <- fmap_add_seqZ, <- Z.sub_1_r, <- list_fmap_compose.
    apply list_fmap_ext. intros j x _. unfold compose, pipe_byte. simpl.
    do 3 f_equal. unfold PIPESIZE. rewrite <- (Zplus_mod_idemp_l (u64 _)), u64_mod_512, Zplus_mod_idemp_l.
    f_equal. lia.
Qed.
End Ring512.

(** ** What the loops do *)

Definition put_bytes (l : list byte) (p : pipe) : pipe := foldl (λ p c, put_byte c p) p l.
Fixpoint drop_bytes (n : nat) (p : pipe) : pipe :=
  match n with O => p | S n' => drop_bytes n' (drop_byte p) end.

Lemma put_bytes_spec l : ∀ p,
  pipe_ok p → pipe_count p + Z.of_nat (length l) ≤ 512 →
  pipe_ok (put_bytes l p) ∧ pipe_bytes (put_bytes l p) = pipe_bytes p ++ l ∧
  pipe_count (put_bytes l p) = pipe_count p + Z.of_nat (length l) ∧
  pi_read_open (put_bytes l p) = pi_read_open p ∧ pi_write_open (put_bytes l p) = pi_write_open p.
Proof.
  induction l as [|c l IH]; intros p Hp Hn; cbn [length] in *.
  - rewrite app_nil_r. split; [done|]. split; [done|]. split; [simpl; lia|done].
  - change (put_bytes (c :: l) p) with (put_bytes l (put_byte c p)).
    destruct (IH (put_byte c p)) as (H1 & H2 & H3 & H4 & H5);
      [by apply put_byte_ok; [done|lia]|rewrite put_byte_count by (done || lia); lia|].
    rewrite H2, H3, H4, H5, put_byte_count, put_byte_bytes, <- app_assoc by (done || lia).
    split; [done|]. split; [done|]. split; [lia|done].
Qed.

Lemma drop_bytes_spec n : ∀ p,
  pipe_ok p → Z.of_nat n ≤ pipe_count p →
  pipe_ok (drop_bytes n p) ∧ pipe_bytes (drop_bytes n p) = drop n (pipe_bytes p) ∧
  pipe_count (drop_bytes n p) = pipe_count p - Z.of_nat n ∧
  pi_read_open (drop_bytes n p) = pi_read_open p ∧ pi_write_open (drop_bytes n p) = pi_write_open p.
Proof.
  induction n as [|n IH]; intros p Hp Hn; cbn [drop_bytes].
  - rewrite drop_0. split; [done|]. split; [done|]. split; [lia|done].
  - destruct (IH (drop_byte p)) as (H1 & H2 & H3 & H4 & H5);
      [by apply drop_byte_ok; [done|lia]|rewrite drop_byte_count by (done || lia); lia|].
    rewrite H2, H3, H4, H5, drop_byte_count, (drop_byte_bytes p) by (done || lia).
    split; [done|]. split; [done|]. split; [lia|done].
Qed.

Lemma the_pipe_at a p s : k_pipes s !! a = Some p → the_pipe a s = p.
Proof. unfold the_pipe. by intros ->. Qed.

Lemma upd_pipe_at a f p s : k_pipes s !! a = Some p → upd_pipe a f s = set_k_pipes (<[a := f p]>) s.
Proof.
  intros H. unfold upd_pipe. kext. apply map_eq; intros j. destruct (decide (j = a)) as [->|].
  - by rewrite lookup_alter_eq, lookup_insert_eq, H.
  - by rewrite lookup_alter_ne, lookup_insert_ne.
Qed.

Lemma set_pipes_same a p s : k_pipes s !! a = Some p → set_k_pipes (<[a := p]>) s = s.
Proof. intros H. kext. by apply insert_id. Qed.

Lemma set_pipes_twice a p q s : set_k_pipes (<[a := p]>) (set_k_pipes (<[a := q]>) s) = set_k_pipes (<[a := p]>) s.
Proof. kext. apply insert_insert_eq. Qed.

Section Runs.
Context {wf : WakeFuel}.

Lemma wait_room_run fuel a p s :
  k_pipes s !! a = Some p → pipe_ok p → pipe_count p < 512 → wait_room fuel a s = Done true s.
Proof.
  intros Ha Hp Hc. destruct fuel; cbn [wait_room]; rewrite bind_gets, (the_pipe_at _ _ _ Ha), pipe_full by done;
    rewrite bool_decide_false; try done; unfold PIPESIZE; lia.
Qed.

Lemma pipe_write_loop_run a l : ∀ p s,
  k_pipes s !! a = Some p → pipe_ok p → pipe_count p + Z.of_nat (length l) ≤ 512 →
  pipe_write_loop a l s = Done true (set_k_pipes (<[a := put_bytes l p]>) s).
Proof.
  induction l as [|c l IH]; intros p s Ha Hp Hc; cbn [pipe_write_loop].
  - by rewrite set_pipes_same.
  - cbn [length] in Hc. erewrite bind_done by (apply (wait_room_run _ a p); [done|done|lia]).
    cbv beta iota. rewrite bind_modify, (upd_pipe_at a _ p) by done.
    rewrite (IH (put_byte c p)); [by rewrite set_pipes_twice|..].
    + ksimpl. apply lookup_insert_eq.
    + apply put_byte_ok; [done|lia].
    + rewrite put_byte_count by (done || lia). lia.
Qed.

Lemma pipe_read_loop_run a n : ∀ p s,
  k_pipes s !! a = Some p → pipe_ok p →
  pipe_read_loop a n s =
    Done (take n (pipe_bytes p))
      (set_k_pipes (<[a := drop_bytes (min n (Z.to_nat (pipe_count p))) p]>) s).
Proof.
  induction n as [|n IH]; intros p s Ha Hp; cbn [pipe_read_loop].
  - rewrite take_0. unfold ret. simpl. by rewrite set_pipes_same.
  - rewrite bind_gets, (the_pipe_at _ _ _ Ha), pipe_empty by done.
    pose proof (pipe_count_range p Hp). case_bool_decide as E.
    + unfold pipe_bytes. rewrite E. unfold ret. simpl. by rewrite set_pipes_same.
    + rewrite bind_modify, (upd_pipe_at a _ p) by done.
      erewrite bind_done by (apply (IH (drop_byte p)); [ksimpl; apply lookup_insert_eq|apply drop_byte_ok; [done|lia]]).
      rewrite set_pipes_twice, drop_byte_count, (drop_byte_bytes p) by (done || lia).
      replace (Z.to_nat (pipe_count p)) with (S (Z.to_nat (pipe_count p - 1))) by lia. done.
Qed.

(** Between system calls, with pipe [p] at address [a]. *)
Record pipe_env (a : Z) (p : pipe) (s : kstate) : Prop := {
  pe_calm : calm s;
  pe_procs : length (k_procs s) = NPROC;
  pe_at : k_pipes s !! a = Some p;
  pe_ok : pipe_ok p
}.

Definition pipe_locked (a : Z) (s : kstate) : kstate :=
  set_k_locks (insert (LkPipe a) spin_held) (set_k_cpu cpu_push s).

Lemma acquire_pipe_run a s : calm s → acquire (LkPipe a) s = Done tt (pipe_locked a s).
Proof. intros [Hl Hc]. apply acquire_run; [apply Hc|]. by rewrite Hl. Qed.

Lemma release_pipe_run a s f :
  calm s →
  release (LkPipe a) (set_k_pipes f (pipe_locked a s)) = Done tt (set_k_pipes f s).
Proof.
  intros [Hl Hc]. rewrite (release_after_acquire (LkPipe a) s); [|done|by rewrite Hl|done|done].
  done.
Qed.

(** The end of every operation: wake the other side and leave. *)
Lemma wakeup_release_run {A} a p' c s (k : M kstate A) :
  calm s → length (k_procs s) = NPROC →
  (wakeup c ;;; release (LkPipe a) ;;; k) (set_k_pipes (<[a := p']>) (pipe_locked a s)) =
  k (set_k_procs (fmap (wake_proc c)) (set_k_pipes (<[a := p']>) s)).
Proof.
  intros [Hl Hc] Hn. erewrite bind_done.
  2:{ apply wakeup_run; ksimpl; [by apply cpu_push_settled, Hc| |done].
      unfold pipe_locked. ksimpl. by rewrite Hl. }
  erewrite bind_done.
  2:{ apply (release_after_acquire (LkPipe a) s); [done|by rewrite Hl|done|done]. }
  done.
Qed.

Lemma pipe_write_run a p l s :
  pipe_env a p s → pipe_count p + Z.of_nat (length l) ≤ 512 →
  pipe_write a l s = Done (Z.of_nat (length l))
    (set_k_procs (fmap (wake_proc (ChPipeRead a))) (set_k_pipes (<[a := put_bytes l p]>) s)).
Proof.
  intros [Hc Hn Ha Hp] Hroom. unfold pipe_write. erewrite bind_done by by apply acquire_pipe_run.
  erewrite bind_done by by apply (pipe_write_loop_run a l p). cbn [negb].
  by rewrite wakeup_release_run.
Qed.

Lemma wait_data_run fuel a p s :
  k_pipes s !! a = Some p → pipe_ok p → 0 < pipe_count p ∨ pi_write_open p = false →
  wait_data fuel a s = Done true s.
Proof.
  intros Ha Hp Hd. destruct fuel; cbn [wait_data]; rewrite bind_gets, (the_pipe_at _ _ _ Ha), pipe_empty by done;
    (destruct Hd as [Hd| ->]; [rewrite bool_decide_false by lia|rewrite andb_false_r]); done.
Qed.

Lemma pipe_read_run a p n s :
  pipe_env a p s → 0 < pipe_count p ∨ pi_write_open p = false →
  pipe_read a n s = Done (Z.of_nat (min n (length (pipe_bytes p))), take n (pipe_bytes p))
    (set_k_procs (fmap (wake_proc (ChPipeWrite a)))
      (set_k_pipes (<[a := drop_bytes (min n (length (pipe_bytes p))) p]>) s)).
Proof.
  intros [Hc Hn Ha Hp] Hd. unfold pipe_read. erewrite bind_done by by apply acquire_pipe_run.
  erewrite bind_done by (by apply (wait_data_run _ a p)). cbn [negb].
  erewrite bind_done by by apply (pipe_read_loop_run a n p).
  rewrite wakeup_release_run by done. unfold ret. by rewrite length_take, pipe_bytes_length.
Qed.

Lemma pipe_env_step a p p' c s :
  pipe_env a p s → pipe_ok p' →
  pipe_env a p' (set_k_procs (fmap (wake_proc c)) (set_k_pipes (<[a := p']>) s)).
Proof.
  intros [Hc Hn Ha Hp] Hp'. split; [done| |ksimpl; apply lookup_insert_eq|done].
  ksimpl. by rewrite length_fmap.
Qed.
End Runs.

(** ** The pipe as a queue *)

Inductive pipe_op := PWrite (src : list byte) | PRead (n : nat).

Section Queue.
Context {wf : WakeFuel} (a : Z).

(** Running operations on the pipe, with what the reads return. *)
Definition run_pipe_op (o : pipe_op) : M kstate (list byte) :=
  match o with
  | PWrite src => let! r := pipe_write a src in ret []
  | PRead n => let! r := pipe_read a n in ret (snd r)
  end.
Fixpoint run_pipe_ops (os : list pipe_op) : M kstate (list (list byte)) :=
  match os with
  | [] => ret []
  | o :: os' => let! d := run_pipe_op o in let! ds := run_pipe_ops os' in ret (d :: ds)
  end.

(** The same operations on a queue of bytes; [None] where the pipe would block. *)
Definition queue_op (o : pipe_op) (q : list byte) : option (list byte * list byte) :=
  match o with
  | PWrite src => if decide (length q + length src ≤ 512)%nat then Some ([], q ++ src) else None
  | PRead n => if decide (q = []) then None else Some (take n q, drop n q)
  end.
Fixpoint queue_ops (os : list pipe_op) (q : list byte) : option (list (list byte) * list byte) :=
  match os with
  | [] => Some ([], q)
  | o :: os' =>
    '(d, q) ← queue_op o q;
    '(ds, q) ← queue_ops os' q;
    Some (d :: ds, q)
  end.

Definition sent (os : list pipe_op) : list byte :=
  mjoin ((λ o, match o with PWrite src => src | PRead _ => [] end) <$> os).

Lemma queue_op_ok o q d q' p s :
  pipe_env a p s → pipe_bytes p = q → queue_op o q = Some (d, q') →
  ∃ p' c, run_pipe_op o s =
            Done d (set_k_procs (fmap (wake_proc c)) (set_k_pipes (<[a := p']>) s)) ∧
          pipe_ok p' ∧ pipe_bytes p' = q' ∧ d ++ q' = q ++ sent [o].
Proof.
  intros E <- Hq. pose proof (pe_ok _ _ _ E) as Hp. pose proof (pipe_bytes_length p) as Hlen.
  pose proof (pipe_count_range p Hp). destruct o as [src|n]; simpl in Hq; case_decide as Hd; simplify_eq.
  - destruct (put_bytes_spec src p) as (H1 & H2 & _); [done|lia|].
    exists (put_bytes src p), (ChPipeRead a). split_and!; [|done|done|].
    + simpl. erewrite bind_done by (apply (pipe_write_run a p); [done|lia]). done.
    + unfold sent. simpl. by rewrite app_nil_r.
  - destruct (drop_bytes_spec (min n (length (pipe_bytes p))) p) as (H1 & H2 & _); [done|lia|].
    eexists _, (ChPipeWrite a). split_and!; [|exact H1|..].
    + assert (0 < pipe_count p ∨ pi_write_open p = false) as Hn.
      { left. destruct (pipe_bytes p); [done|]. simpl in Hlen. lia. }
      simpl. by rewrite (bind_done _ _ _ _ _ (pipe_read_run a p n s E Hn)).
    + rewrite H2. destruct (decide (n ≤ length (pipe_bytes p))%nat).
      * by rewrite Nat.min_l.
      * by rewrite Nat.min_r, !drop_ge by lia.
    + unfold sent. simpl. by rewrite take_drop, app_nil_r.
Qed.

Lemma sent_cons o os : sent (o :: os) = sent [o] ++ sent os.
Proof. unfold sent. simpl. by rewrite app_nil_r. Qed.

(** C12. A pipe is a first-in first-out queue of bytes: any sequence of writes
    and reads in which no write exceeds the room left and no read finds the
    pipe empty runs to the end, the reads return what they would return on a
    queue, and the bytes received followed by those still in the pipe are the
    bytes that were in the pipe followed by those sent - in order, none lost
    and none duplicated. *)
Theorem pipe_refines_queue p s os ds q :
  pipe_env a p s → queue_ops os (pipe_bytes p) = Some (ds, q) →
  wp (run_pipe_ops os s) (λ ds' s', ds' = ds ∧ mjoin ds ++ q = pipe_bytes p ++ sent os ∧
    ∃ p', pipe_env a p' s' ∧ pipe_bytes p' = q).
Proof.
  revert p s ds. induction os as [|o os IH]; intros p s ds E Hq; simpl in Hq.
  - simplify_eq. apply wp_ret. split; [done|]. split; [|eauto]. unfold sent. simpl. by rewrite app_nil_r.
  - destruct (queue_op o (pipe_bytes p)) as [[d q1]|] eqn:E1; [|done]. simpl in Hq.
    destruct (queue_ops os q1) as [[ds' q']|] eqn:E2; [|done]. simpl in Hq. simplify_eq.
    destruct (queue_op_ok _ _ _ _ p s E eq_refl E1) as (p1 & c & Hrun & Hp1 & <- & Hd).
    cbn [run_pipe_ops]. erewrite bind_done by exact Hrun. apply wp_bind.
    kuse (IH p1); [by apply (pipe_env_step a p)|exact E2|].
    intros ? s' (-> & Hds & Hp'). apply wp_ret. split; [done|]. split; [|done].
    rewrite sent_cons, app_assoc, <- Hd, <- app_assoc, <- Hds. simpl. by rewrite <- app_assoc.
Qed.
End Queue.

(** ** Blocking, end of stream and closing *)

(** Inside a system call of process [i]: no lock held, interrupts off. *)
Record in_syscall (i : nat) (s : kstate) : Prop := {
  is_ncli : c_ncli (k_cpu s) = 0;
  is_if : c_if (k_cpu s) = false;
  is_proc : c_proc (k_cpu s) = Some i;
  is_lt : (i < NPROC)%nat;
  is_live : p_killed (the_proc i s) = 0
}.

Section Blocking.
Context {wf : WakeFuel} (a : Z).

Lemma pipe_write_loop_app l1 l2 p s :
  k_pipes s !! a = Some p → pipe_ok p → pipe_count p + Z.of_nat (length l1) ≤ 512 →
  pipe_write_loop a (l1 ++ l2) s = pipe_write_loop a l2 (set_k_pipes (<[a := put_bytes l1 p]>) s).
Proof.
  revert p s. induction l1 as [|c l1 IH]; intros p s Ha Hp Hc; cbn [pipe_write_loop app].
  - by rewrite set_pipes_same.
  - cbn [length] in Hc. erewrite bind_done by (apply (wait_room_run _ a p); [done|done|lia]).
    cbv beta iota. rewrite bind_modify, (upd_pipe_at a _ p) by done.
    rewrite (IH (put_byte c p)); [by rewrite set_pipes_twice|..].
    + ksimpl. apply lookup_insert_eq.
    + apply put_byte_ok; [done|lia].
    + rewrite put_byte_count by (done || lia). lia.
Qed.

(** Sleeping inside the pipe's critical section. *)
Lemma pipe_sleep_susp i c f g s :
  calm s → in_syscall i s → length (g (k_procs s)) = NPROC →
  ∃ k, sleep c (LkPipe a) (set_k_procs g (set_k_pipes f (pipe_locked a s))) =
       Susp (sleeping_state i c (LkPipe a) (set_k_procs g (set_k_pipes f (pipe_locked a s)))) k.
Proof.
  intros [Hl Hc] [Hn Hif Hpr Hi _] Hlen. set (s1 := set_k_procs g _).
  destruct (sleep_susp i c (LkPipe a) s1) as (k & Hk & _); try done.
  - subst s1. unfold pipe_locked. ksimpl. by rewrite Hl.
  - subst s1. unfold pipe_locked. ksimpl. rewrite cpu_push_ncli. lia.
  - subst s1. unfold pipe_locked. ksimpl. unfold cpu_push; simpl. by case_decide.
  - subst s1. ksimpl. lia.
  - by exists k.
Qed.

Lemma killed_run i f s :
  calm s → in_syscall i s → killed (set_k_pipes f (pipe_locked a s)) = Done false (set_k_pipes f (pipe_locked a s)).
Proof.
  intros [Hl Hc] [Hn Hif Hpr Hi Hk]. unfold killed. erewrite bind_done.
  2:{ apply myproc_run. ksimpl. by apply cpu_push_settled, Hc. }
  unfold pipe_locked. ksimpl. unfold cpu_push at 1. simpl. case_decide; simpl; rewrite Hpr; cbn [deref];
    rewrite bind_ret_l; unfold gets; ksimpl; rewrite Hk; done.
Qed.

(** What another process finds while the pipe's user sleeps: the locks are
    free but for [ptable.lock], the pipe is [p'], the sleeper waits on [c] and
    a wakeup on [c] makes it runnable. *)
Definition blocked_on (i : nat) (c : chan) (p' : pipe) (s1 : kstate) : Prop :=
  k_locks s1 = {[LkPtable := spin_held]} ∧ k_pipes s1 !! a = Some p' ∧
  p_state (the_proc i s1) = SLEEPING ∧ p_chan (the_proc i s1) = Some c ∧
  p_state (wake_proc c (the_proc i s1)) = RUNNABLE.

Lemma sleeping_blocked i c p' g s :
  calm s → in_syscall i s → length (g (k_procs s)) = NPROC →
  blocked_on i c p'
    (sleeping_state i c (LkPipe a) (set_k_procs g (set_k_pipes (<[a := p']>) (pipe_locked a s)))).
Proof.
  intros [Hl Hc] [Hn Hif Hpr Hi Hk] Hlen. unfold blocked_on, sleeping_state.
  rewrite !the_proc_upd_eq by (ksimpl; lia). split_and!.
  - unfold upd_proc, pipe_locked. ksimpl. rewrite Hl. by apply delete_lk_singleton.
  - unfold upd_proc. ksimpl. apply lookup_insert_eq.
  - done.
  - done.
  - unfold wake_proc, wake_on. simpl. by rewrite bool_decide_true.
Qed.

(** A write that exceeds the room left stores the bytes that fit, wakes the
    readers and puts the process to sleep, in one step with giving up the
    pipe's lock, on the channel that every read wakes. *)
Theorem pipe_write_blocks i p l s fuel :
  wake_fuel = S fuel → pipe_env a p s → in_syscall i s → pi_read_open p = true →
  512 < pipe_count p + Z.of_nat (length l) →
  ∃ p' s1 k, pipe_write a l s = Susp s1 k ∧ blocked_on i (ChPipeWrite a) p' s1 ∧
    pipe_ok p' ∧ pipe_bytes p' = pipe_bytes p ++ take (Z.to_nat (512 - pipe_count p)) l ∧
    ∀ j q, j ≠ i → k_procs s !! j = Some q → p_state q = SLEEPING → p_chan q = Some (ChPipeRead a) →
      p_state (the_proc j s1) = RUNNABLE.
Proof.
  intros Hwf [Hc Hn Ha Hp] Hi Hro Hbig. pose proof (pipe_count_range p Hp) as Hcr.
  set (room := Z.to_nat (512 - pipe_count p)).
  destruct (drop room l) as [|c l2] eqn:El.
  { apply (f_equal length) in El. rewrite length_drop in El. simpl in El. lia. }
  assert (length (take room l) = room) as Hlen by (rewrite length_take; apply (f_equal length) in El; rewrite length_drop in El; simpl in El; lia).
  destruct (put_bytes_spec (take room l) p) as (P1 & P2 & P3 & P4 & P5); [done|rewrite Hlen; lia|].
  set (p' := put_bytes (take room l) p) in *.
  destruct (pipe_sleep_susp i (ChPipeWrite a) (<[a := p']>) (fmap (wake_proc (ChPipeRead a))) s) as [k Hk];
    [done|done|by rewrite length_fmap|].
  assert (pipe_write_loop a l (pipe_locked a s) =
    pipe_write_loop a (c :: l2) (set_k_pipes (<[a := p']>) (pipe_locked a s))) as Hfill.
  { rewrite <- (take_drop room l) at 1. rewrite El. apply pipe_write_loop_app; [done|done|rewrite Hlen; lia]. }
  eexists p', _, _. split; [|split; [|split; [done|split; [done|]]]].
  - unfold pipe_write. erewrite bind_done by by apply acquire_pipe_run.
    apply bind_susp. rewrite Hfill. cbn [pipe_write_loop]. apply bind_susp. rewrite Hwf. cbn [wait_room].
    rewrite bind_gets, (the_pipe_at a p') by (ksimpl; apply lookup_insert_eq).
    rewrite pipe_full, bool_decide_true by (done || (unfold PIPESIZE; lia)). rewrite P4, Hro. cbn [negb].
    erewrite bind_done by by apply (killed_run i). cbv beta iota.
    erewrite bind_done.
    2:{ apply wakeup_run; ksimpl; [by apply cpu_push_settled, Hc| |done].
        unfold pipe_locked. ksimpl. destruct Hc as [-> _]. done. }
    apply bind_susp. exact Hk.
  - apply sleeping_blocked; [done|done|]. by rewrite length_fmap.
  - intros j q Hj Hq Hs Hch. unfold sleeping_state. rewrite the_proc_upd_ne by done.
    unfold the_proc, pipe_locked. ksimpl. rewrite list_lookup_fmap, Hq. simpl. unfold wake_proc, wake_on.
    by rewrite !bool_decide_true.
Qed.

(** A read of an empty pipe whose write end is open sleeps, in one step with
    giving up the pipe's lock, on the channel that every write wakes. *)
Theorem pipe_read_blocks i p n s fuel :
  wake_fuel = S fuel → pipe_env a p s → in_syscall i s → pi_write_open p = true → pipe_bytes p = [] →
  ∃ s1 k, pipe_read a n s = Susp s1 k ∧ blocked_on i (ChPipeRead a) p s1.
Proof.
  intros Hwf [Hc Hn Ha Hp] Hi Hwo Hempty. pose proof (pipe_bytes_length p) as Hlen. rewrite Hempty in Hlen.
  pose proof (pipe_count_range p Hp). simpl in Hlen.
  destruct (pipe_sleep_susp i (ChPipeRead a) (<[a := p]>) (λ ps, ps) s) as [k Hk]; [done|done|done|].
  assert (set_k_procs (λ ps, ps) (set_k_pipes (<[a := p]>) (pipe_locked a s)) = pipe_locked a s) as Es.
  { rewrite set_pipes_same by done. by destruct s. }
  eexists _, _. split.
  - unfold pipe_read. erewrite bind_done by by apply acquire_pipe_run.
    apply bind_susp. rewrite Hwf. cbn [wait_data].
    rewrite bind_gets, (the_pipe_at a p) by done. rewrite pipe_empty, bool_decide_true, Hwo by (done || lia). cbn [andb].
    pose proof (killed_run i (λ m, m) s Hc Hi) as Hkl. change (set_k_pipes (λ m, m) ?x) with x in Hkl.
    erewrite bind_done by exact Hkl. cbv beta iota. apply bind_susp. rewrite <- Es at 1. exact Hk.
  - apply sleeping_blocked; done.
Qed.
End Blocking.

Section Closing.
Context {wf : WakeFuel} (a : Z).

(** C23. The ends of a stream: once the write end is closed, reading the empty
    pipe returns 0 at once; once the read end is closed, a write that exceeds
    the room left returns -1 at once, with the pipe filled up and the lock
    released - but a write that fits still succeeds although nobody can read it. *)
Theorem pipe_end_of_stream p s :
  pipe_env a p s →
  (pi_write_open p = false → pipe_bytes p = [] → ∀ n, wp (pipe_read a n s) (λ r _, r = (0, []))) ∧
  (pi_read_open p = false → ∀ l,
    wp (pipe_write a l s) (λ r s', calm s' ∧ ∃ p', k_pipes s' !! a = Some p' ∧
      pipe_bytes p' = pipe_bytes p ++ take (Z.to_nat (512 - pipe_count p)) l ∧
      r = if decide (pipe_count p + Z.of_nat (length l) ≤ 512) then Z.of_nat (length l) else -1)).
Proof.
  intros E. pose proof E as [Hc Hn Ha Hp]. pose proof (pipe_count_range p Hp) as Hcr. split.
  - intros Hwo Hb n. rewrite (pipe_read_run a p) by (done || by right). rewrite Hb. simpl.
    by rewrite Nat.min_0_r, take_nil.
  - intros Hro l. case_decide as Hfit.
    + rewrite (pipe_write_run a p) by done. split; [done|].
      destruct (put_bytes_spec l p) as (P1 & P2 & _); [done|done|].
      exists (put_bytes l p). split; [ksimpl; apply lookup_insert_eq|]. split; [|done].
      rewrite P2, take_ge by lia. done.
    + set (room := Z.to_nat (512 - pipe_count p)). destruct (drop room l) as [|c l2] eqn:El.
      { apply (f_equal length) in El. rewrite length_drop in El. simpl in El. lia. }
      assert (length (take room l) = room) as Hlen by (rewrite length_take; lia).
      destruct (put_bytes_spec (take room l) p) as (P1 & P2 & P3 & P4 & P5); [done|rewrite Hlen; lia|].
      unfold pipe_write. erewrite bind_done by by apply acquire_pipe_run. apply wp_bind.
      rewrite <- (take_drop room l) at 1. rewrite El, (pipe_write_loop_app a _ _ p) by (done || (rewrite Hlen; lia)).
      set (p' := put_bytes (take room l) p) in *. cbn [pipe_write_loop].
      erewrite bind_done.
      2:{ assert (∀ fuel, wait_room fuel a (set_k_pipes (<[a := p']>) (pipe_locked a s)) =
            Done false (set_k_pipes (<[a := p']>) s)) as Hw; [|apply Hw].
          intros fuel. destruct fuel; cbn [wait_room];
            rewrite bind_gets, (the_pipe_at a p') by (ksimpl; apply lookup_insert_eq);
            rewrite pipe_full, bool_decide_true by (done || (unfold PIPESIZE; lia)); rewrite P4, Hro; cbn [negb];
            rewrite bind_ret_l; cbv beta iota; by erewrite bind_done by by apply release_pipe_run. }
      apply wp_ret. cbn [negb]. apply wp_ret. split; [done|]. exists p'.
      split; [ksimpl; apply lookup_insert_eq|]. by rewrite P2.
Qed.

Definition close_end (writable : bool) (p : pipe) : pipe :=
  if writable then set_pi_write_open false p else set_pi_read_open false p.

(** Closing an end of a pipe wakes the processes blocked on the other end;
    the page is given back to the page allocator, and the pipe ceases to exist,
    exactly when the other end was closed before. *)
Theorem pipe_close_spec w p s l :
  pipe_env a p s → free_list_is (k_kmem s) l → kfree_ok (m_bump_ptr (k_kmem s)) a = true → 0 < a < 2 ^ 64 → a ∉ l →
  wp (pipe_close a w s) (λ _ s', calm s' ∧ k_files s' = k_files s ∧
    k_procs s' = wake_proc (if w then ChPipeRead a else ChPipeWrite a) <$> k_procs s ∧
    if pi_read_open (close_end w p) || pi_write_open (close_end w p)
    then k_pipes s' = <[a := close_end w p]> (k_pipes s) ∧ k_kmem s' = k_kmem s
    else k_pipes s' = delete a (k_pipes s) ∧ free_list_is (k_kmem s') (a :: l)).
Proof.
  intros [Hc Hn Ha Hp] Hl Hok Hr Hnin. unfold pipe_close. erewrite bind_done by by apply acquire_pipe_run.
  set (c := if w then ChPipeRead a else ChPipeWrite a).
  set (s1 := set_k_procs (fmap (wake_proc c)) (set_k_pipes (<[a := close_end w p]>) s)).
  erewrite (bind_done _ _ _ tt (set_k_procs (fmap (wake_proc c)) (set_k_pipes (<[a := close_end w p]>) (pipe_locked a s)))).
  2:{ assert (∀ f, (modify (upd_pipe a f) ;;; wakeup c) (pipe_locked a s) =
        Done tt (set_k_procs (fmap (wake_proc c)) (set_k_pipes (<[a := f p]>) (pipe_locked a s)))) as Hm.
      { intros f. rewrite bind_modify, (upd_pipe_at a f p) by done.
        apply wakeup_run; ksimpl; [by apply cpu_push_settled, Hc| |done].
        unfold pipe_locked. ksimpl. destruct Hc as [-> _]. done. }
      subst c. destruct w; apply Hm. }
  rewrite bind_gets, (the_pipe_at a (close_end w p)) by (ksimpl; apply lookup_insert_eq).
  assert (release (LkPipe a) (set_k_procs (fmap (wake_proc c)) (set_k_pipes (<[a := close_end w p]>) (pipe_locked a s))) = Done tt s1) as Hrel.
  { rewrite (release_after_acquire (LkPipe a) s); [done|apply Hc|by destruct Hc as [-> _]|done|done]. }
  rewrite <- negb_orb. destruct (pi_read_open _ || pi_write_open _) eqn:Eo; cbn [negb].
  - rewrite Hrel. done.
  - erewrite bind_done by exact Hrel. unfold free_pipe. erewrite bind_done by by apply kfree_run.
    apply wp_modify. split; [done|]. split; [done|]. split; [done|]. split.
    + subst s1. ksimpl. by rewrite delete_insert_eq.
    + ksimpl. by apply kmem_freed_list.
Qed.
End Closing.

(** ** Witnesses *)

(** A pipe whose counters are about to wrap around, in a system call of process 1. *)
Definition pipe_addr : Z := P2V 0x300000.
Definition wrap_pipe : pipe := mk_pipe (replicate 512 x02) (2 ^ 64 - 3) (2 ^ 64 - 3) true true.
Definition kstate_pipe (p : pipe) : kstate :=
  set_k_pipes (λ _, {[pipe_addr := p]}) (set_k_kmem (λ _, k_kmem kstate_kinit) kstate_run).

Lemma wrap_pipe_ok r w : pipe_ok (set_pi_read_open r (set_pi_write_open w wrap_pipe)).
Proof. split; try done; simpl; lia. Qed.

Lemma kstate_pipe_env p : pipe_ok p → pipe_env pipe_addr p (kstate_pipe p).
Proof. intros Hp. split; [|done|apply lookup_insert_eq|done]. split; [done|]. split; [split; [done|]|]; by vm_compute. Qed.

Lemma kstate_pipe_kmem p : k_kmem (kstate_pipe p) = k_kmem kstate_kinit.
Proof.
  assert (∀ f m s, k_kmem (set_k_pipes f (set_k_kmem (λ _, m) s)) = m) as H by done. apply H.
Qed.

Lemma kstate_pipe_syscall p : in_syscall 1 (kstate_pipe p).
Proof. split; [done|done|done|vm_compute; lia|done]. Qed.

Lemma pipe_refines_queue_witness :
  wp (@run_pipe_ops 1%nat pipe_addr [PWrite [x61; x62; x63; x64; x65]; PRead 2; PWrite [x66]; PRead 9] (kstate_pipe wrap_pipe))
    (λ ds _, ds = [[]; [x61; x62]; []; [x63; x64; x65; x66]]).
Proof.
  eapply wp_mono.
  - apply (@pipe_refines_queue 1%nat pipe_addr wrap_pipe) with (q := []); [|by vm_compute].
    apply kstate_pipe_env, (wrap_pipe_ok true true).
  - intros ds s' (-> & _). done.
Defined.

Lemma pipe_write_blocks_witness :
  ∃ s1 k, @pipe_write 2%nat pipe_addr (replicate 600 x41) (kstate_pipe wrap_pipe) = Susp s1 k ∧
    p_state (the_proc 1 s1) = SLEEPING.
Proof.
  destruct (@pipe_write_blocks 2%nat pipe_addr 1 wrap_pipe (replicate 600 x41) (kstate_pipe wrap_pipe) 1)
    as (p' & s1 & k & H & (_ & _ & B & _) & _);
    [done|apply kstate_pipe_env, (wrap_pipe_ok true true)|apply kstate_pipe_syscall|done|by vm_compute|].
  exists s1, k. split; [exact H|exact B].
Defined.

Lemma pipe_read_blocks_witness :
  ∃ s1 k, @pipe_read 2%nat pipe_addr 5 (kstate_pipe wrap_pipe) = Susp s1 k ∧
    p_state (the_proc 1 s1) = SLEEPING.
Proof.
  destruct (@pipe_read_blocks 2%nat pipe_addr 1 wrap_pipe 5 (kstate_pipe wrap_pipe) 1)
    as (s1 & k & H & (_ & _ & B & _));
    [done|apply kstate_pipe_env, (wrap_pipe_ok true true)|apply kstate_pipe_syscall|done|by vm_compute|].
  exists s1, k. split; [exact H|exact B].
Defined.

Lemma pipe_end_of_stream_witness :
  wp (@pipe_read 1%nat pipe_addr 5 (kstate_pipe (set_pi_write_open false wrap_pipe))) (λ r _, r = (0, [])) ∧
  wp (@pipe_write 1%nat pipe_addr (replicate 600 x41) (kstate_pipe (set_pi_read_open false wrap_pipe))) (λ r _, r = -1).
Proof.
  destruct (@pipe_end_of_stream 1%nat pipe_addr (set_pi_write_open false wrap_pipe)
    (kstate_pipe (set_pi_write_open false wrap_pipe))) as [H1 _];
    [apply kstate_pipe_env, (wrap_pipe_ok true false)|].
  destruct (@pipe_end_of_stream 1%nat pipe_addr (set_pi_read_open false wrap_pipe)
    (kstate_pipe (set_pi_read_open false wrap_pipe))) as [_ H2];
    [apply kstate_pipe_env, (wrap_pipe_ok false true)|].
  split.
  - apply H1; [done|by vm_compute].
  - eapply wp_mono; [apply H2; done|].
    intros r s' (_ & p' & _ & _ & ->). by vm_compute.
Defined.

Lemma pipe_close_spec_witness :
  wp (@pipe_close pipe_addr true (kstate_pipe (set_pi_read_open false wrap_pipe)))
    (λ _ s', k_pipes s' = ∅ ∧ m_free_list (k_kmem s') = pipe_addr).
Proof.
  eapply wp_mono.
  - apply (@pipe_close_spec pipe_addr true (set_pi_read_open false wrap_pipe)) with (l := small_free).
    + apply kstate_pipe_env, (wrap_pipe_ok false true).
    + rewrite kstate_pipe_kmem. exact kstate_kinit_free.
    + by vm_compute.
    + split; by vm_compute.
    + apply (bool_decide_unpack _). vm_compute. done.
  - intros _ s' (_ & _ & _ & Hp & [[Hf _] _]). split; [|exact Hf]. rewrite Hp. apply delete_singleton_eq.
Defined.
