(* ===== verification/File.v ===== *)
(** * Open files (kernel/file.c, and pipe_alloc of kernel/pipe.c)

    The file table [ftable.files] counts the references to each open file; the
    last [file_close] passes the close on to the pipe or the inode behind it. *)
From S2P Require Import Prelude State Spinlock Sched Sleeplock Ring Bio Balloc Inode FileMap InodeSpec FileSpec InodeCache Kalloc Pipe.

(** Offset of [data] in [struct pipe], after the three words of the spin lock. *)
Definition pipe_data_off : nat := 24.

Section File.
Context {wf : WakeFuel} {dsw : DevSw}.

Definition file_init : M kstate unit := init_lock LkFtable.

Definition file_alloc : M kstate (option nat) :=
  acquire LkFtable ;;;
  let! r := for_return (seq 0 NFILE) (λ i,
    let! f := gets (the_file i) in
    if bool_decide (f_ref f = 0) then
      modify (upd_file i (set_f_ref 1)) ;;;
      release LkFtable ;;;
      ret (Some i)
    else ret None) in
  match r with
  | Some i => ret (Some i)
  | None => release LkFtable ;;; ret None
  end.

Definition file_dup (i : nat) : M kstate nat :=
  acquire LkFtable ;;;
  let! f := gets (the_file i) in
  if bool_decide (f_ref f < 1) then panic "file_dup : dup what?" else
  modify (upd_file i (λ f, set_f_ref (f_ref f + 1) f)) ;;;
  release LkFtable ;;;
  ret i.

Definition file_close (i : nat) : M kstate unit :=
  acquire LkFtable ;;;
  let! f := gets (the_file i) in
  if bool_decide (f_ref f < 1) then panic "file_close: close what?" else
  modify (upd_file i (λ f, set_f_ref (f_ref f - 1) f)) ;;;
  let! f := gets (the_file i) in
  if bool_decide (0 < f_ref f) then release LkFtable else
  let! ff := gets (the_file i) in
  modify (upd_file i (set_f_ref 0)) ;;;
  modify (upd_file i (set_f_type FD_NONE)) ;;;
  release LkFtable ;;;
  match f_type ff with
  | FD_PIPE => pipe_close (f_pipe ff) (f_writable ff)
  | FD_INODE => let! ip := deref (f_ip ff) in iput ip
  | FD_NONE => ret tt
  end.

(** The return value, and what was stored at [st]. *)
Definition file_stat (i : nat) : M kstate (Z * option stat) :=
  let! f := gets (the_file i) in
  match f_type f with
  | FD_INODE =>
    ilock (f_ip f) ;;;
    let! ip := deref (f_ip f) in
    let! st := stati ip in
    iunlock (f_ip f) ;;;
    ret (0, Some st)
  | _ => ret (-1, None)
  end.

(** The return value, and the bytes stored at [addr]. *)
Definition file_read (i : nat) (n : Z) : M kstate (Z * list byte) :=
  let! f := gets (the_file i) in
  if negb (f_readable f) then ret (-1, []) else
  match f_type f with
  | FD_PIPE => pipe_read (f_pipe f) (Z.to_nat n)
  | FD_INODE =>
    ilock (f_ip f) ;;;
    let! ip := deref (f_ip f) in
    let! r := readi ip (f_off f) n in
    when (bool_decide (0 < fst r)) (modify (upd_file i (λ f, set_f_off (u64 (f_off f + fst r)) f))) ;;;
    iunlock (f_ip f) ;;;
    ret r
  | FD_NONE => panic "file_read failed"
  end.

Definition file_write (i : nat) (src : list byte) : M kstate Z :=
  let! f := gets (the_file i) in
  if negb (f_writable f) then ret (-1) else
  match f_type f with
  | FD_PIPE => pipe_write (f_pipe f) src
  | FD_INODE =>
    ilock (f_ip f) ;;;
    let! ip := deref (f_ip f) in
    let! r := writei ip src (f_off f) (Z.of_nat (length src)) in
    when (bool_decide (0 < r)) (modify (upd_file i (λ f, set_f_off (u64 (f_off f + r)) f))) ;;;
    iunlock (f_ip f) ;;;
    ret r
  | FD_NONE => panic "file_write failed"
  end.

(** The label [bad] of [pipe_alloc]; it is reached with [p = 0] only, so the
    [kfree] there is dead code. *)
Definition pipe_alloc_bad (f0 f1 : option nat) : M kstate Z :=
  match f0 with Some i => file_close i | None => ret tt end ;;;
  match f1 with Some i => file_close i | None => ret tt end ;;;
  ret (-1).

(** The return value with [*f0] and [*f1]. *)
Definition pipe_alloc : M kstate (Z * option nat * option nat) :=
  let! f0 := file_alloc in
  match f0 with
  | None => let! r := pipe_alloc_bad None None in ret (r, None, None)
  | Some i0 =>
    let! f1 := file_alloc in
    match f1 with
    | None => let! r := pipe_alloc_bad (Some i0) None in ret (r, Some i0, None)
    | Some i1 =>
      let! p := kalloc in
      if bool_decide (p = 0) then
        let! r := pipe_alloc_bad (Some i0) (Some i1) in ret (r, Some i0, Some i1)
      else
        modify (λ s, set_k_pipes (<[p :=
          mk_pipe (slice pipe_data_off (Z.to_nat PIPESIZE) (page (V2P p) (k_kmem s))) 0 0 true true]>) s) ;;;
        init_lock (LkPipe p) ;;;
        modify (upd_file i0 (λ f, set_f_pipe p (set_f_writable false (set_f_readable true (set_f_type FD_PIPE f))))) ;;;
        modify (upd_file i1 (λ f, set_f_pipe p (set_f_writable true (set_f_readable false (set_f_type FD_PIPE f))))) ;;;
        ret (0, Some i0, Some i1)
    end
  end.
End File.

(** ** The file table *)

Definition ftable_locked (s : kstate) : kstate :=
  set_k_locks (insert LkFtable spin_held) (set_k_cpu cpu_push s).

Lemma acquire_ftable_run s : calm s → acquire LkFtable s = Done tt (ftable_locked s).
Proof. intros [Hl Hc]. apply acquire_run; [apply Hc|]. by rewrite Hl. Qed.

Lemma release_ftable_run s f :
  calm s → release LkFtable (set_k_files f (ftable_locked s)) = Done tt (set_k_files f s).
Proof. intros [Hl Hc]. by rewrite (release_after_acquire LkFtable s); [|done|by rewrite Hl|done|done]. Qed.

Lemma set_k_files_id s : set_k_files (λ l, l) s = s.
Proof. by destruct s. Qed.

(** The first free entry. *)
Definition free_file (s : kstate) : option nat := fst <$> list_find (λ f, f_ref f = 0) (k_files s).

Lemma the_file_lookup i f s : k_files s !! i = Some f → the_file i s = f.
Proof. unfold the_file. by intros ->. Qed.

Lemma file_alloc_run s :
  calm s → length (k_files s) = NFILE →
  file_alloc s = Done (free_file s)
    (match free_file s with Some i => upd_file i (set_f_ref 1) s | None => s end).
Proof.
  intros Hc Hn. unfold file_alloc, free_file. erewrite bind_done by by apply acquire_ftable_run.
  destruct (list_find _ (k_files s)) as [[i f]|] eqn:E; cbn [fmap option_fmap option_map fst].
  - apply list_find_Some in E as (Hi & Hf & Hlt). pose proof (lookup_lt_Some _ _ _ Hi).
    rewrite (bind_done _ _ _ (Some i) (upd_file i (set_f_ref 1) s)); [done|].
    eapply (for_return_first _ _ i); [lia|..].
    + intros j Hj. destruct (lookup_lt_is_Some_2 (k_files s) j) as [g Hg]; [lia|].
      rewrite bind_gets, (the_file_lookup j g) by done. rewrite bool_decide_false; [done|].
      eapply Hlt; [exact Hg|lia].
    + rewrite bind_gets, (the_file_lookup i f) by done. rewrite bool_decide_true by done.
      rewrite bind_modify. unfold upd_file. by erewrite bind_done by by apply release_ftable_run.
  - apply list_find_None in E. rewrite Forall_lookup in E. erewrite bind_done.
    2:{ apply for_return_none. intros j [_ Hj]%elem_of_seq.
        destruct (lookup_lt_is_Some_2 (k_files s) j) as [g Hg]; [lia|].
        rewrite bind_gets, (the_file_lookup j g) by done. rewrite bool_decide_false; [done|by eapply E]. }
    cbv beta iota. rewrite (bind_done _ _ _ tt s); [done|].
    pose proof (release_ftable_run s (λ l, l) Hc) as Hr. by rewrite !set_k_files_id in Hr.
Qed.

Lemma file_close_shared_run {wf : WakeFuel} i s :
  calm s → (i < length (k_files s))%nat → 1 < f_ref (the_file i s) →
  file_close i s = Done tt (upd_file i (λ f, set_f_ref (f_ref f - 1) f) s).
Proof.
  intros Hc Hi Hr. unfold file_close. erewrite bind_done by by apply acquire_ftable_run.
  rewrite bind_gets. change (the_file i (ftable_locked s)) with (the_file i s).
  rewrite bool_decide_false by lia. rewrite bind_modify, bind_gets, the_file_upd_eq by done.
  change (the_file i (ftable_locked s)) with (the_file i s).
  rewrite bool_decide_true by (simpl; lia). unfold upd_file. by rewrite release_ftable_run.
Qed.

(** The last close empties the entry and goes on to the object. *)
Definition close_object {wf : WakeFuel} (f : file) : M kstate unit :=
  match f_type f with
  | FD_PIPE => pipe_close (f_pipe f) (f_writable f)
  | FD_INODE => let! ip := deref (f_ip f) in iput ip
  | FD_NONE => ret tt
  end.

Lemma alter_file_ext f g i s :
  f (the_file i s) = g (the_file i s) → upd_file i f s = upd_file i g s.
Proof.
  intros E. unfold upd_file. kext. apply list_alter_ext; [|done].
  intros x Hx. unfold the_file in E. rewrite Hx in E. done.
Qed.

Lemma upd_file_upd_file i f g s : upd_file i f (upd_file i g s) = upd_file i (f ∘ g) s.
Proof. unfold upd_file. kext. apply alter_alter. Qed.

Lemma file_close_last_run {wf : WakeFuel} i s :
  calm s → (i < length (k_files s))%nat → f_ref (the_file i s) = 1 →
  file_close i s =
    close_object (the_file i s) (upd_file i (λ f, set_f_type FD_NONE (set_f_ref 0 f)) s).
Proof.
  intros Hc Hi Hr. unfold file_close. erewrite bind_done by by apply acquire_ftable_run.
  rewrite bind_gets. change (the_file i (ftable_locked s)) with (the_file i s).
  rewrite bool_decide_false by lia. rewrite bind_modify, bind_gets, the_file_upd_eq by done.
  change (the_file i (ftable_locked s)) with (the_file i s).
  rewrite bool_decide_false by (simpl; lia). rewrite bind_gets, !bind_modify, the_file_upd_eq by done.
  rewrite !upd_file_upd_file. unfold upd_file at 1. erewrite bind_done by by apply release_ftable_run.
  change (set_k_files (alter ?f i) s) with (upd_file i f s).
  change (the_file i (ftable_locked s)) with (the_file i s).
  by rewrite (alter_file_ext _ (λ f, set_f_type FD_NONE (set_f_ref 0 f))).
Qed.

Lemma file_dup_run i s :
  calm s → (i < length (k_files s))%nat → 1 ≤ f_ref (the_file i s) →
  file_dup i s = Done i (upd_file i (λ f, set_f_ref (f_ref f + 1) f) s).
Proof.
  intros Hc Hi Hr. unfold file_dup. erewrite bind_done by by apply acquire_ftable_run.
  rewrite bind_gets. change (the_file i (ftable_locked s)) with (the_file i s).
  rewrite bool_decide_false by lia. rewrite bind_modify. unfold upd_file.
  by erewrite bind_done by by apply release_ftable_run.
Qed.

(** Entries not in use have no object behind them. *)
Record ftable_ok (s : kstate) : Prop := {
  fo_len : length (k_files s) = NFILE;
  fo_ref : ∀ i, 0 ≤ f_ref (the_file i s);
  fo_free : ∀ i, f_ref (the_file i s) = 0 → f_type (the_file i s) = FD_NONE
}.

Lemma free_file_Some s i :
  free_file s = Some i → (i < length (k_files s))%nat ∧ f_ref (the_file i s) = 0.
Proof.
  unfold free_file. intros H. apply fmap_Some in H as ([j f] & Hf & ->).
  apply list_find_Some in Hf as (Hj & Hr & _). cbn [fst]. split; [by eapply lookup_lt_Some|].
  by rewrite (the_file_lookup _ _ _ Hj).
Qed.

Lemma free_file_None s i :
  free_file s = None → (i < length (k_files s))%nat → f_ref (the_file i s) ≠ 0.
Proof.
  unfold free_file. intros H%fmap_None Hi. apply list_find_None in H. rewrite Forall_lookup in H.
  destruct (lookup_lt_is_Some_2 _ _ Hi) as [f Hf]. rewrite (the_file_lookup _ _ _ Hf). by eapply H.
Qed.

Lemma the_file_upd i j f s : (i < length (k_files s))%nat →
  the_file j (upd_file i f s) = if decide (i = j) then f (the_file i s) else the_file j s.
Proof. intros Hi. case_decide as E; [subst j; by apply the_file_upd_eq|by apply the_file_upd_ne]. Qed.

Lemma upd_file_id i f s : f (the_file i s) = the_file i s → upd_file i f s = s.
Proof.
  intros E. unfold upd_file. kext. apply alter_noop. intros x Hx. unfold the_file in E. by rewrite Hx in E.
Qed.

(** Closing an entry just allocated gives back the table as it was. *)
Lemma alloc_close_run {wf : WakeFuel} i s :
  calm s → (i < length (k_files s))%nat → f_ref (the_file i s) = 0 → f_type (the_file i s) = FD_NONE →
  file_close i (upd_file i (set_f_ref 1) s) = Done tt s.
Proof.
  intros Hc Hi Hr Ht.
  rewrite file_close_last_run; [|done|unfold upd_file; ksimpl; by rewrite length_alter|by rewrite the_file_upd_eq].
  unfold close_object. rewrite the_file_upd_eq by done. cbn [f_type set_f_ref].
  rewrite Ht. unfold ret. f_equal. rewrite upd_file_upd_file. apply upd_file_id.
  unfold compose. rewrite <- Ht, <- Hr. by destruct (the_file i s).
Qed.

Lemma ftable_ok_alloc i s : ftable_ok s → free_file s = Some i → ftable_ok (upd_file i (set_f_ref 1) s).
Proof.
  intros [Hl Hr Hf] [Hi _]%free_file_Some. split.
  - unfold upd_file. ksimpl. by rewrite length_alter.
  - intros j. rewrite the_file_upd by done. case_decide; [simpl; lia|done].
  - intros j. rewrite the_file_upd by done. case_decide; [simpl; lia|apply Hf].
Qed.

(** The table after the last close of entry [i]. *)
Definition file_freed (i : nat) (s : kstate) : kstate := upd_file i (λ f, set_f_type FD_NONE (set_f_ref 0 f)) s.

Lemma ftable_ok_freed i s : ftable_ok s → (i < length (k_files s))%nat → ftable_ok (file_freed i s).
Proof.
  intros [Hl Hr Hf] Hi. unfold file_freed. split.
  - unfold upd_file. ksimpl. by rewrite length_alter.
  - intros j. rewrite the_file_upd by done. by case_decide.
  - intros j. rewrite the_file_upd by done. case_decide; [done|apply Hf].
Qed.

(** An entry nobody refers to can be neither duplicated nor closed. *)
Lemma file_unused_panics {wf : WakeFuel} i s : calm s → f_ref (the_file i s) < 1 →
  file_close i s = Panic "file_close: close what?" ∧ file_dup i s = Panic "file_dup : dup what?".
Proof.
  intros Hc Hr. unfold file_close, file_dup. rewrite !(bind_done _ _ _ _ _ (acquire_ftable_run s Hc)), !bind_gets.
  change (the_file i (ftable_locked s)) with (the_file i s). by rewrite !bool_decide_true.
Qed.

(** The last close of an end of a pipe closes that end. *)
Lemma close_pipe_end {wf : WakeFuel} i s (a := f_pipe (the_file i s)) (w := f_writable (the_file i s)) p l :
  ftable_ok s → (i < NFILE)%nat → f_ref (the_file i s) = 1 → f_type (the_file i s) = FD_PIPE →
  pipe_env a p s → free_list_is (k_kmem s) l → kfree_ok (m_bump_ptr (k_kmem s)) a = true → 0 < a < 2 ^ 64 → a ∉ l →
  wp (file_close i s) (λ _ s', k_files s' = k_files (file_freed i s) ∧
    k_procs s' = wake_proc (if w then ChPipeRead a else ChPipeWrite a) <$> k_procs s ∧
    if pi_read_open (close_end w p) || pi_write_open (close_end w p)
    then k_pipes s' = <[a := close_end w p]> (k_pipes s) ∧ k_kmem s' = k_kmem s
    else k_pipes s' = delete a (k_pipes s) ∧ free_list_is (k_kmem s') (a :: l)).
Proof.
  intros Hok Hi Hr Ht He Hl Hk Ha Hn. pose proof (pe_calm _ _ _ He) as Hc.
  rewrite file_close_last_run; [|done|by rewrite (fo_len _ Hok)|done]. unfold close_object. rewrite Ht. fold a w.
  eapply wp_mono; [apply (pipe_close_spec a w p (file_freed i s) l); [by destruct He|done..]|].
  cbv beta. intros _ s' (_ & Ef & Ep & Hcase). done.
Qed.

(** C13. The file table counts references.  [file_alloc] hands out an entry that
    nobody refers to, with one reference, and returns null exactly when all
    entries are referred to; [file_dup] adds a reference that [file_close] takes
    away again, and nothing else changes.  The last close makes the entry
    available, typeless, and then goes on to what the entry was open on: the
    end of the pipe, with the sleepers on the other end woken and the pipe's page
    freed when that end is closed too, or the inode, whose reference is put.
    Closing or duplicating an entry without references panics. *)
Theorem file_table_spec {wf : WakeFuel} s :
  calm s → ftable_ok s →
  wp (file_alloc s) (λ r s',
    match r with
    | Some i => f_ref (the_file i s) = 0 ∧ f_ref (the_file i s') = 1 ∧
                (∀ j, j ≠ i → the_file j s' = the_file j s) ∧ ftable_ok s' ∧
                file_close i s' = Done tt s
    | None => s' = s ∧ ∀ i, (i < NFILE)%nat → 1 ≤ f_ref (the_file i s)
    end) ∧
  (∀ i, (i < NFILE)%nat → 1 ≤ f_ref (the_file i s) →
    (let! j := file_dup i in file_close j) s = Done tt s) ∧
  (∀ i, (i < NFILE)%nat → f_ref (the_file i s) = 1 →
    let f := the_file i s in
    ftable_ok (file_freed i s) ∧
    (f_type f = FD_NONE → file_close i s = Done tt (file_freed i s)) ∧
    (∀ ip, f_type f = FD_INODE → f_ip f = Some ip → file_close i s = iput ip (file_freed i s)) ∧
    (f_type f = FD_PIPE → let a := f_pipe f in let w := f_writable f in
     ∀ p l, pipe_env a p s → free_list_is (k_kmem s) l → kfree_ok (m_bump_ptr (k_kmem s)) a = true →
     0 < a < 2 ^ 64 → a ∉ l →
     wp (file_close i s) (λ _ s', k_files s' = k_files (file_freed i s) ∧
       k_procs s' = wake_proc (if w then ChPipeRead a else ChPipeWrite a) <$> k_procs s ∧
       if pi_read_open (close_end w p) || pi_write_open (close_end w p)
       then k_pipes s' = <[a := close_end w p]> (k_pipes s) ∧ k_kmem s' = k_kmem s
       else k_pipes s' = delete a (k_pipes s) ∧ free_list_is (k_kmem s') (a :: l)))) ∧
  (∀ i, f_ref (the_file i s) < 1 →
    file_close i s = Panic "file_close: close what?" ∧ file_dup i s = Panic "file_dup : dup what?").
Proof.
  intros Hc Hok. pose proof (fo_len _ Hok) as Hlen. split_and?.
  - rewrite file_alloc_run by done. destruct (free_file s) as [i|] eqn:E; simpl.
    + pose proof (free_file_Some _ _ E) as [Hi Hr]. split; [done|]. split; [by rewrite the_file_upd_eq|].
      split; [intros j Hj; by apply the_file_upd_ne|]. split; [by apply ftable_ok_alloc|].
      apply alloc_close_run; [done|done|done|by apply (fo_free _ Hok)].
    + split; [done|]. intros i Hi. pose proof (free_file_None s i E ltac:(lia)). pose proof (fo_ref _ Hok i). lia.
  - intros i Hi Hr. erewrite bind_done by (apply file_dup_run; [done|lia|done]).
    rewrite file_close_shared_run; [|done|unfold upd_file; ksimpl; rewrite length_alter; lia|].
    + f_equal. rewrite upd_file_upd_file. apply upd_file_id. unfold compose.
      destruct (the_file i s); cbn. unfold set_f_ref; simpl. f_equal. lia.
    + rewrite the_file_upd_eq by lia. simpl. lia.
  - intros i Hi Hr f. split; [apply ftable_ok_freed; [done|lia]|].
    pose proof (file_close_last_run i s Hc ltac:(lia) Hr) as E. fold (file_freed i s) f in E. unfold close_object in E.
    split_and?.
    + intros Ht. by rewrite E, Ht.
    + intros ip Ht Hip. by rewrite E, Ht, Hip.
    + intros Ht a w p l. by apply close_pipe_end.
  - intros i Hr. by apply file_unused_panics.
Qed.

(** ** Making a pipe *)

Definition fresh_pipe (v : Z) (s : kstate) : pipe :=
  mk_pipe (slice pipe_data_off (Z.to_nat PIPESIZE) (page (V2P v) (k_kmem s))) 0 0 true true.
Definition read_end (v : Z) (f : file) : file :=
  set_f_pipe v (set_f_writable false (set_f_readable true (set_f_type FD_PIPE f))).
Definition write_end (v : Z) (f : file) : file :=
  set_f_pipe v (set_f_writable true (set_f_readable false (set_f_type FD_PIPE f))).

(** The state after [pipe_alloc] has made a pipe in the first free page. *)
Definition piped (i0 i1 : nat) (v : Z) (s : kstate) : kstate :=
  upd_file i1 (λ f, write_end v (set_f_ref 1 f)) (upd_file i0 (λ f, read_end v (set_f_ref 1 f))
    (set_k_pipes (<[v := mk_pipe (replicate 512 x02) 0 0 true true]>) (set_k_kmem kmem_alloced s))).

Lemma upd_file_comm i j f g s : i ≠ j → upd_file i f (upd_file j g s) = upd_file j g (upd_file i f s).
Proof.
  intros Hij. unfold upd_file. kext. apply list_eq; intros k. rewrite !list_lookup_alter.
  repeat case_decide; subst; try done.
Qed.

Lemma pipe_page_data m v :
  m_free_list m = v →
  slice pipe_data_off (Z.to_nat PIPESIZE) (page (V2P v) (kmem_alloced m)) = replicate 512 x02.
Proof. intros <-. unfold kmem_alloced, page. simpl. rewrite lookup_insert_eq. by vm_compute. Qed.

Lemma put_lock_empty l s : k_locks s = ∅ → put_lock l spin_free s = s.
Proof. intros H. rewrite put_lock_free. kext. by rewrite H, delete_empty. Qed.

Section PipeAlloc.
Context {wf : WakeFuel} (s : kstate) (l : list Z).
Hypothesis Hc : calm s.
Hypothesis Hok : ftable_ok s.
Hypothesis Hl : free_list_is (k_kmem s) l.

Lemma pipe_alloc_full : free_file s = None → pipe_alloc s = Done (-1, None, None) s.
Proof.
  intros E. unfold pipe_alloc. erewrite bind_done by (apply file_alloc_run; [done|apply Hok]).
  by rewrite E.
Qed.

Section One.
Context (i0 : nat) (E0 : free_file s = Some i0).
Let s1 := upd_file i0 (set_f_ref 1) s.

Lemma s1_ok : ftable_ok s1.
Proof. by apply ftable_ok_alloc. Qed.

Lemma alloc_first : file_alloc s = Done (Some i0) s1.
Proof. rewrite file_alloc_run by (done || apply Hok). by rewrite E0. Qed.

Lemma pipe_alloc_one : free_file s1 = None → pipe_alloc s = Done (-1, Some i0, None) s.
Proof.
  intros E. unfold pipe_alloc. erewrite bind_done by apply alloc_first. cbv beta iota.
  erewrite bind_done by (apply file_alloc_run; [done|apply s1_ok]). rewrite E. cbv beta iota.
  unfold pipe_alloc_bad. rewrite (bind_done _ _ _ (-1) s); [done|].
  destruct (free_file_Some _ _ E0) as [Hi Hr].
  erewrite bind_done by (apply alloc_close_run; [done|done|done|by apply (fo_free _ Hok)]). done.
Qed.

Section Two.
Context (i1 : nat) (E1 : free_file s1 = Some i1).
Let s2 := upd_file i1 (set_f_ref 1) s1.

Lemma ends_differ : i0 ≠ i1.
Proof.
  destruct (free_file_Some _ _ E0) as [Hi0 _], (free_file_Some _ _ E1) as [_ Hr1].
  intros <-. subst s1. by rewrite the_file_upd_eq in Hr1.
Qed.

Lemma i1_free : (i1 < length (k_files s))%nat ∧ f_ref (the_file i1 s) = 0.
Proof.
  pose proof ends_differ as Hne. destruct (free_file_Some _ _ E1) as [Hi1 Hr1].
  subst s1. unfold upd_file in Hi1. ksimpl_in Hi1. rewrite length_alter in Hi1.
  by rewrite the_file_upd_ne in Hr1.
Qed.

Lemma alloc_second : file_alloc s1 = Done (Some i1) s2.
Proof. rewrite file_alloc_run by (done || apply s1_ok). by rewrite E1. Qed.

Lemma pipe_alloc_no_page : l = [] → pipe_alloc s = Done (-1, Some i0, Some i1) s.
Proof.
  intros El. unfold pipe_alloc. erewrite bind_done by apply alloc_first. cbv beta iota.
  erewrite bind_done by apply alloc_second. cbv beta iota.
  erewrite bind_done by apply kalloc_run. rewrite El in Hl.
  assert (m_free_list (k_kmem s2) = 0) as -> by apply Hl. rewrite decide_True, bool_decide_true by done.
  pose proof ends_differ as Hne. destruct i1_free as [Hi1 Hr1], (free_file_Some _ _ E0) as [Hi0 Hr0].
  unfold pipe_alloc_bad. rewrite (bind_done _ _ _ (-1) s); [done|].
  subst s2 s1. rewrite upd_file_comm by done.
  rewrite (bind_done _ _ _ tt (upd_file i1 (set_f_ref 1) s)).
  - rewrite (bind_done _ _ _ tt s); [done|].
    apply alloc_close_run; [done|done|done|by apply (fo_free _ Hok)].
  - apply alloc_close_run; [done|unfold upd_file; ksimpl; by rewrite length_alter| |];
      rewrite the_file_upd_ne by done; [done|by apply (fo_free _ Hok)].
Qed.

Lemma pipe_alloc_run v l' : l = v :: l' → pipe_alloc s = Done (0, Some i0, Some i1) (piped i0 i1 v s).
Proof.
  intros El. rewrite El in Hl. destruct Hl as [[Ev _] [Hpo _]]. destruct (Hpo v ltac:(left)) as [_ Hv].
  unfold pipe_alloc. erewrite bind_done by apply alloc_first. cbv beta iota.
  erewrite bind_done by apply alloc_second. cbv beta iota.
  erewrite bind_done by apply kalloc_run. change (k_kmem s2) with (k_kmem s). rewrite Ev.
  rewrite decide_False, bool_decide_false by lia. rewrite bind_modify. ksimpl.
  change (k_kmem s2) with (k_kmem s). rewrite pipe_page_data by done.
  unfold init_lock. rewrite bind_modify, put_lock_empty by apply Hc. rewrite !bind_modify.
  unfold ret. f_equal. pose proof ends_differ as Hne. unfold piped, s2, s1.
  unfold upd_file. kext.
  apply list_eq; intros k. rewrite !list_lookup_alter. repeat case_decide; subst; try done.
  all: by destruct (k_files s !! _).
Qed.
End Two.
End One.

Lemma piped_files i0 i1 v :
  i0 ≠ i1 → (i0 < length (k_files s))%nat → (i1 < length (k_files s))%nat →
  the_file i0 (piped i0 i1 v s) = read_end v (set_f_ref 1 (the_file i0 s)) ∧
  the_file i1 (piped i0 i1 v s) = write_end v (set_f_ref 1 (the_file i1 s)) ∧
  ∀ j, j ≠ i0 → j ≠ i1 → the_file j (piped i0 i1 v s) = the_file j s.
Proof.
  intros Hne H0 H1. unfold piped. split_and!.
  - rewrite the_file_upd_ne, the_file_upd_eq by done. done.
  - rewrite the_file_upd_eq by (unfold upd_file; ksimpl; by rewrite length_alter).
    rewrite the_file_upd_ne by done. done.
  - intros j Hj0 Hj1. rewrite !the_file_upd_ne by done. done.
Qed.

(** [pipe_alloc] either makes a pipe - it takes the first free page and two
    unused entries of the file table, the read end and the write end of an
    empty pipe in that page, and touches no other file - or, when there is no
    page or there are no two entries, returns -1 and leaves everything as it was. *)
Theorem pipe_alloc_spec :
  wp (pipe_alloc s) (λ r s',
    (∃ i0 i1 v l' p, r = (0, Some i0, Some i1) ∧ i0 ≠ i1 ∧ l = v :: l' ∧
      f_ref (the_file i0 s) = 0 ∧ f_ref (the_file i1 s) = 0 ∧
      the_file i0 s' = read_end v (set_f_ref 1 (the_file i0 s)) ∧
      the_file i1 s' = write_end v (set_f_ref 1 (the_file i1 s)) ∧
      (∀ j, j ≠ i0 → j ≠ i1 → the_file j s' = the_file j s) ∧
      free_list_is (k_kmem s') l' ∧ k_pipes s' = <[v := p]> (k_pipes s) ∧
      pipe_ok p ∧ pipe_bytes p = [] ∧ pi_read_open p = true ∧ pi_write_open p = true) ∨
    (fst (fst r) = -1 ∧ s' = s ∧ (l = [] ∨
      ∀ i j, (i < NFILE)%nat → (j < NFILE)%nat → f_ref (the_file i s) = 0 → f_ref (the_file j s) = 0 → i = j))).
Proof.
  pose proof (fo_len _ Hok) as Hlen. destruct (free_file s) as [i0|] eqn:E0.
  2:{ rewrite pipe_alloc_full by done. right. split; [done|]. split; [done|]. right.
      intros i j Hi _ Hr _. exfalso. by apply (free_file_None s i E0); [lia|]. }
  destruct (free_file_Some _ _ E0) as [Hi0 Hr0].
  destruct (free_file (upd_file i0 (set_f_ref 1) s)) as [i1|] eqn:E1.
  2:{ rewrite (pipe_alloc_one i0) by done. right. split; [done|]. split; [done|]. right.
      assert (∀ i, (i < NFILE)%nat → f_ref (the_file i s) = 0 → i = i0) as Hu.
      { intros i Hi Hr. destruct (decide (i = i0)); [done|]. exfalso.
        apply (free_file_None _ i E1); [unfold upd_file; ksimpl; rewrite length_alter; lia|].
        by rewrite the_file_upd_ne. }
      intros i j Hi Hj Hr Hr'. rewrite (Hu i), (Hu j); done. }
  destruct (decide (l = [])) as [El|El].
  { rewrite (pipe_alloc_no_page i0 E0 i1) by done. right. by split; [|split; [|left]]. }
  assert (∃ v l', l = v :: l') as (v & l' & El') by (destruct l; [done|eauto]).
  pose proof (ends_differ i0 E0 i1 E1) as Hne. destruct (i1_free i0 E0 i1 E1) as [Hi1 Hr1].
  rewrite (pipe_alloc_run i0 E0 i1 E1 v l') by done. left.
  destruct (piped_files i0 i1 v) as (F0 & F1 & F2); [done|done|done|].
  exists i0, i1, v, l', (mk_pipe (replicate 512 x02) 0 0 true true).
  split; [done|]. split; [done|]. split; [done|]. split; [done|]. split; [done|]. split; [done|].
  split; [done|]. split; [done|]. split.
  { unfold piped, upd_file. ksimpl. apply (kmem_alloced_list _ v). by rewrite <- El'. }
  split; [done|]. split; [|done]. split; [done|simpl; lia|simpl; lia|done].
Qed.
End PipeAlloc.

(** ** A message through a pipe *)

(** [pipe(fds); write(fds[1], src); read(fds[0], n)] *)
Definition pipe_message {wf : WakeFuel} {dsw : DevSw} (src : list byte) (n : Z) : M kstate (option (Z * (Z * list byte))) :=
  let! r := pipe_alloc in
  match r with
  | (0, Some f0, Some f1) =>
    let! k := file_write f1 src in
    let! d := file_read f0 n in
    ret (Some (k, d))
  | _ => ret None
  end.

(** With two free entries of the file table and a free page, a message of
    up to 512 bytes written to the write end of a new pipe is what the read
    end returns, cut off at the number of bytes asked for. *)
Theorem pipe_message_delivered {wf : WakeFuel} {dsw : DevSw} s l i j src n :
  calm s → ftable_ok s → length (k_procs s) = NPROC → free_list_is (k_kmem s) l → l ≠ [] →
  i ≠ j → (i < NFILE)%nat → (j < NFILE)%nat → f_ref (the_file i s) = 0 → f_ref (the_file j s) = 0 →
  (0 < length src ≤ 512)%nat → 0 ≤ n →
  wp (pipe_message src n s) (λ o _, o = Some (Z.of_nat (length src),
    (Z.min n (Z.of_nat (length src)), take (Z.to_nat n) src))).
Proof.
  intros Hc Hok Hn Hl Hne Hij Hi Hj Hri Hrj Hsrc Hn0. pose proof (fo_len _ Hok) as Hlen.
  destruct (free_file s) as [i0|] eqn:E0; [|by destruct (free_file_None s i E0); [lia|]].
  destruct (free_file (upd_file i0 (set_f_ref 1) s)) as [i1|] eqn:E1.
  2:{ assert (∀ k, (k < NFILE)%nat → f_ref (the_file k s) = 0 → k = i0) as Hu.
      { intros k Hk Hr. destruct (decide (k = i0)); [done|]. exfalso.
        apply (free_file_None _ k E1); [unfold upd_file; ksimpl; rewrite length_alter; lia|].
        by rewrite the_file_upd_ne. }
      destruct Hij. rewrite (Hu i), (Hu j); done. }
  destruct l as [|v l'] eqn:El; [done|]. unfold pipe_message.
  rewrite (bind_done _ _ _ _ _ (pipe_alloc_run s l Hc Hok ltac:(by rewrite El) i0 E0 i1 E1 v l' El)).
  pose proof (ends_differ s i0 E0 i1 E1) as Hd. destruct (i1_free s i0 E0 i1 E1) as [Hi1 _].
  destruct (free_file_Some _ _ E0) as [Hi0 _].
  destruct (piped_files s i0 i1 v Hd Hi0 Hi1) as (F0 & F1 & _).
  set (p := mk_pipe (replicate 512 x02) 0 0 true true). set (s1 := piped i0 i1 v s) in *.
  assert (pipe_env v p s1) as E.
  { split; [done|done|apply lookup_insert_eq|split; [done|simpl; lia|simpl; lia|done]]. }
  assert (pipe_count p = 0) as Hp0 by done.
  unfold file_write. erewrite bind_done.
  2:{ rewrite bind_gets, F1. cbn. apply (pipe_write_run v p); [exact E|]. rewrite Hp0. lia. }
  destruct (put_bytes_spec src p) as (P1 & P2 & P3 & _); [apply E|rewrite Hp0; lia|].
  set (s2 := set_k_procs _ _). assert (pipe_env v (put_bytes src p) s2) as E2 by by apply (pipe_env_step v p).
  unfold file_read. erewrite bind_done.
  2:{ rewrite bind_gets. change (the_file i0 s2) with (the_file i0 s1). rewrite F0. cbn.
      apply (pipe_read_run v (put_bytes src p)); [exact E2|]. left. rewrite P3, Hp0. lia. }
  apply wp_ret. rewrite P2. simpl. repeat f_equal. lia.
Qed.
