(* ===== verification/FileRead.v ===== *)
(** * Reading and writing open files (kernel/file.c on inodes)

    [file_read] and [file_write] lock the inode, read or write at the offset
    kept in the open file, and advance it. *)
From S2P Require Import Prelude State Spinlock Sched Sleeplock Ring Bio BioSpec Balloc Inode FileMap InodeSpec FileSpec InodeCache Kalloc Pipe File.

Lemma bio_inv_procs V H g s :
  bio_inv V H s → length (g (k_procs s)) = NPROC → bio_inv V H (set_k_procs g s).
Proof. intros [L [[Hc _]]] Hg. exists L. by split. Qed.

Lemma bio_inv_files V H g s : bio_inv V H s → bio_inv V H (set_k_files g s).
Proof. intros [L [[Hc ?]]]. exists L. by split. Qed.

(** [file_inv] looks at the inode's place on disk and its block addresses only. *)
Lemma file_inv_change V H s s' i :
  file_inv V H s i → bio_inv V H s' → k_sb s' = k_sb s → d_size (k_disk s') = d_size (k_disk s) →
  length (k_inodes s') = length (k_inodes s) →
  i_dev (the_inode i s') = i_dev (the_inode i s) → i_inum (the_inode i s') = i_inum (the_inode i s) →
  i_addrs (the_inode i s') = i_addrs (the_inode i s) →
  file_inv V H s' i.
Proof.
  intros [[Hb [G1 G2 G3] Hm Hh] Hl Hi Hd Hn Hz Hib Hif Hok Hfr] Hb' Esb Esz El Ed En Ea.
  assert (iblk i s' = iblk i s) as Ei by (unfold iblk; congruence).
  assert (bmap_blk s' = bmap_blk s) as Em by (unfold bmap_blk; congruence).
  split; rewrite ?Esb, ?El, ?Ed, ?En, ?Ea, ?Ei, ?Em; try done.
  split; rewrite ?Esb, ?Em; try done. split; rewrite ?Esb; try done. unfold nblk. by rewrite Esz.
Qed.

Section FileRead.
Context {wf : WakeFuel} {dsw : DevSw}.

(** File [f] of the table is open on the regular file with cached inode [i],
    which nobody has locked. *)
Record open_on (V : store) (H : holders) (s : kstate) (f i : nat) : Prop := {
  oo_lt : (f < length (k_files s))%nat;
  oo_type : f_type (the_file f s) = FD_INODE;
  oo_ip : f_ip (the_file f s) = Some i;
  oo_inv : file_inv V H s i;
  oo_room : (S (size H) < NBUF)%nat;
  oo_reg : i_type (the_inode i s) ≠ T_DEV;
  oo_size : wf_size s i V;
  oo_valid : i_valid (the_inode i s) ≠ 0;
  oo_ref : 1 ≤ i_ref (the_inode i s);
  oo_unlocked : sl_locked (i_lock (the_inode i s)) = 0
}.

Lemma open_calm V H s f i : open_on V H s f i → calm s ∧ length (k_procs s) = NPROC.
Proof. intros O. destruct (fi_bio _ _ _ _ (oo_inv _ _ _ _ _ O)) as [L B]. apply (bi_kinv _ _ _ _ B). Qed.

Lemma open_lt V H s f i : open_on V H s f i → (i < length (k_inodes s))%nat.
Proof. intros O. apply (fi_bound _ _ _ _ (oo_inv _ _ _ _ _ O)). Qed.

Definition locked_inode (i : nat) (s : kstate) : kstate := upd_slk (SlInode i) (set_sl_locked 1) s.

Lemma locked_inode_fields i s : (i < length (k_inodes s))%nat →
  the_inode i (locked_inode i s) = set_i_lock (set_sl_locked 1 (i_lock (the_inode i s))) (the_inode i s).
Proof. apply the_inode_upd_slk. Qed.

Lemma file_inv_locked V H s i : file_inv V H s i → file_inv V H (locked_inode i s) i.
Proof.
  intros F. pose proof (fi_bound _ _ _ _ F) as Hi. unfold locked_inode.
  apply (file_inv_change V H s); rewrite ?the_inode_upd_slk by done; try done.
  - apply bio_inv_upd_slk, (fi_bio _ _ _ _ F).
  - unfold upd_slk, upd_inode. ksimpl. apply length_alter.
Qed.

Lemma iunlock_run i s :
  calm s → length (k_procs s) = NPROC → sl_locked (i_lock (the_inode i s)) ≠ 0 → 1 ≤ i_ref (the_inode i s) →
  iunlock (Some i) s = Done tt (set_k_procs (fmap (wake_proc (ChSleep (SlInode i))))
                                 (upd_slk (SlInode i) (λ _, mk_sleep 0 0) s)).
Proof.
  intros [Hl Hc] Hn Hk Hr. unfold iunlock.
  erewrite bind_done by (apply holding_sleep_run; [done|by rewrite Hl]).
  rewrite bool_decide_true by done. cbn [negb]. rewrite bind_gets, bool_decide_false by lia.
  apply release_sleep_run; [done|by rewrite Hl|by rewrite Hl|done].
Qed.

(** Unlocking after work that kept the inode loaded, and moved the offset. *)
Lemma open_unlock V V' H s s1 f i off :
  open_on V H s f i → file_inv V' H s1 i → wf_size s1 i V' →
  k_files s1 = alter (set_f_off off) f (k_files s) →
  sl_locked (i_lock (the_inode i s1)) = 1 →
  i_type (the_inode i s1) = i_type (the_inode i s) → i_valid (the_inode i s1) = i_valid (the_inode i s) →
  i_ref (the_inode i s1) = i_ref (the_inode i s) →
  wp (iunlock (Some i) s1) (λ _ s', open_on V' H s' f i ∧ the_file f s' = set_f_off off (the_file f s) ∧
    i_size (the_inode i s') = i_size (the_inode i s1) ∧ i_addrs (the_inode i s') = i_addrs (the_inode i s1)).
Proof.
  intros O F1 W1 Ef Hk Et Ev Er. pose proof O as [Hf Ht Hip _ Hroom Hreg _ Hv Hr _].
  destruct (fi_bio _ _ _ _ F1) as [L B1]. destruct (bi_kinv _ _ _ _ B1) as [Hc1 Hn1].
  pose proof (fi_bound _ _ _ _ F1) as Hi1.
  rewrite iunlock_run; [|done|done|by rewrite Hk|by rewrite Er].
  set (s2 := upd_slk (SlInode i) (λ _, mk_sleep 0 0) s1). set (s' := set_k_procs _ s2).
  assert (the_inode i s' = set_i_lock (mk_sleep 0 0) (the_inode i s1)) as Ei.
  { change (the_inode i s') with (the_inode i s2). by apply the_inode_upd_slk. }
  assert (the_file f s' = set_f_off off (the_file f s)) as Efl.
  { change (the_file f s') with (the_file f s1). unfold the_file. rewrite Ef, list_lookup_alter, decide_True by done.
    destruct (lookup_lt_is_Some_2 _ _ Hf) as [x ->]. done. }
  split; [|rewrite Ei; done]. split; rewrite ?Efl, ?Ei; try done.
  - subst s' s2. unfold upd_slk, upd_inode. ksimpl. by rewrite Ef, length_alter.
  - apply (file_inv_change V' H s1); rewrite ?Ei; try done.
    + apply bio_inv_procs; [by apply bio_inv_upd_slk, (fi_bio _ _ _ _ F1)|].
      subst s2. unfold upd_slk, upd_inode. ksimpl. by rewrite length_fmap.
    + subst s' s2. unfold upd_slk, upd_inode. ksimpl. apply length_alter.
  - cbn. by rewrite Et.
  - unfold wf_size. by rewrite Ei.
  - cbn. by rewrite Ev.
  - cbn. by rewrite Er.
Qed.

Lemma set_off_same f s : (f < length (k_files s))%nat →
  k_files s = alter (set_f_off (f_off (the_file f s))) f (k_files s).
Proof.
  intros Hf. symmetry. apply alter_noop. intros x Hx. rewrite (the_file_lookup _ _ _ Hx). by destruct x.
Qed.

Lemma set_off_alter f s g off :
  g (the_file f s) = set_f_off off (the_file f s) → alter g f (k_files s) = alter (set_f_off off) f (k_files s).
Proof.
  intros E. apply list_alter_ext; [|done]. intros x Hx. by rewrite (the_file_lookup _ _ _ Hx) in E.
Qed.

(** [file_read] at an offset inside the file. *)
Lemma file_read_ok V H s f i n :
  open_on V H s f i → f_readable (the_file f s) = true →
  0 ≤ f_off (the_file f s) ≤ i_size (the_inode i s) → 0 ≤ n < 2 ^ 62 →
  let k := Z.min n (i_size (the_inode i s) - f_off (the_file f s)) in
  wp (file_read f n s) (λ r s', open_on V H s' f i ∧ contents V i s' = contents V i s ∧
    i_size (the_inode i s') = i_size (the_inode i s) ∧ f_readable (the_file f s') = true ∧
    r = (k, slice (Z.to_nat (f_off (the_file f s))) (Z.to_nat k) (contents V i s)) ∧
    f_off (the_file f s') = f_off (the_file f s) + k).
Proof.
  intros O Hrd Ho Hn k. pose proof O as [Hf Ht Hip F Hroom Hreg Hsz Hv Hr Hu].
  destruct (open_calm _ _ _ _ _ O) as [Hc Hnp]. pose proof (open_lt _ _ _ _ _ O) as Hi.
  pose proof Hsz as [Hmax _]. assert (i_size (the_inode i s) < 2 ^ 62) by (ksize; lia). clear Hmax.
  unfold file_read. rewrite bind_gets, Hrd, Ht, Hip. cbn [negb]. cbv iota.
  erewrite bind_done by by apply ilock_valid_run. fold (locked_inode i s). set (s1 := locked_inode i s).
  cbn [deref]. rewrite bind_ret_l. apply wp_bind.
  pose proof (locked_inode_fields i s Hi) as E1. fold s1 in E1.
  kuse (readi_ok V H s1 i (f_off (the_file f s)) n); rewrite ?E1; try done; try (ksize; lia).
  { by apply file_inv_locked. } { unfold wf_size. by rewrite E1. }
  intros r s2 (-> & I2 & F2). cbn [i_size set_i_lock i_addrs]. rewrite decide_True by lia. fold k. cbn [fst].
  set (off' := f_off (the_file f s) + k).
  assert (k_files s2 = k_files s) as Ef2 by by rewrite (bf_files _ _ F2).
  set (s3 := if bool_decide (0 < k) then upd_file f (λ f, set_f_off (u64 (f_off f + k)) f) s2 else s2).
  rewrite (bind_done _ _ _ tt s3) by (unfold s3, when; by case_bool_decide).
  assert (k_files s3 = alter (set_f_off off') f (k_files s)) as E3.
  { unfold s3. case_bool_decide as Hk.
    - unfold upd_file. ksimpl. rewrite Ef2. apply set_off_alter. rewrite u64_small by lia. done.
    - replace off' with (f_off (the_file f s)) by (unfold off'; lia). rewrite Ef2. by apply set_off_same. }
  assert (the_inode i s3 = the_inode i s1) as Ei3.
  { rewrite <- (bio_the_inode i _ _ F2). unfold s3. by case_bool_decide. }
  assert (file_inv V H s3 i) as F3.
  { apply (file_inv_change V H s1); [by apply file_inv_locked| | | | |by rewrite Ei3..].
    - unfold s3. case_bool_decide; [by apply bio_inv_files|done].
    - unfold s3. case_bool_decide; apply (bf_sb _ _ F2).
    - unfold s3. case_bool_decide; apply (bf_size _ _ F2).
    - unfold s3. case_bool_decide; by rewrite <- (bf_inodes _ _ F2). }
  apply wp_bind. kuse (open_unlock V V H s s3 f i off' O F3); rewrite ?Ei3, ?E1; try done.
  { unfold wf_size. by rewrite Ei3, E1. }
  intros _ s4 (O4 & Hoff & Hs4 & Ha4). apply wp_ret. cbn in Hs4, Ha4.
  split; [done|]. split; [unfold contents; by rewrite Hs4, Ha4|]. split; [done|].
  split; [by rewrite Hoff|]. split; [|by rewrite Hoff]. f_equal. apply fbytes_slice; lia.
Qed.

(** [while((n = read(fd, buf, sizeof(buf))) > 0)], with the bytes read. *)
Fixpoint read_chunks (fuel : nat) (f : nat) (n : Z) : M kstate (list byte) :=
  match fuel with
  | O => no_fuel
  | S fuel' =>
    let! r := file_read f n in
    if bool_decide (fst r ≤ 0) then ret [] else
    let! rest := read_chunks fuel' f n in
    ret (snd r ++ rest)
  end.

Lemma slice_drop {A} off k (l : list A) : slice off k l ++ drop (off + k) l = drop off l.
Proof. unfold slice. rewrite <- drop_drop. apply take_drop. Qed.

(** Reading an open file piece by piece, as [cat] does, terminates and
    returns exactly what is left of the file, for every buffer size: no byte
    is skipped, repeated or made up; the offset ends at the end of the file. *)
Theorem file_read_chunks V H f i n fuel : ∀ s,
  open_on V H s f i → f_readable (the_file f s) = true →
  0 ≤ f_off (the_file f s) ≤ i_size (the_inode i s) → 0 < n < 2 ^ 62 →
  (Z.to_nat (i_size (the_inode i s) - f_off (the_file f s)) < fuel)%nat →
  wp (read_chunks fuel f n s) (λ d s', d = drop (Z.to_nat (f_off (the_file f s))) (contents V i s) ∧
    open_on V H s' f i ∧ contents V i s' = contents V i s ∧ f_off (the_file f s') = i_size (the_inode i s)).
Proof.
  induction fuel as [|fuel IH]; intros s O Hrd Ho Hn Hfuel; [lia|]. cbn [read_chunks]. apply wp_bind.
  kuse (file_read_ok V H s f i n); [done|done|done|lia|].
  intros r s1 (O1 & Ec & Es & Hrd1 & -> & Eo). cbn [fst snd].
  set (k := Z.min n (i_size (the_inode i s) - f_off (the_file f s))) in *. case_bool_decide as Hk.
  - apply wp_ret. assert (f_off (the_file f s) = i_size (the_inode i s)) as E by lia.
    split; [|split; [done|split; [done|lia]]]. rewrite drop_ge; [done|]. rewrite contents_length. lia.
  - apply wp_bind. kuse (IH s1); [done|done|lia|lia|lia|].
    intros d s2 (-> & O2 & Ec2 & Eo2). apply wp_ret. split; [|split; [done|split; [congruence|lia]]].
    rewrite Ec, Eo, Z2Nat.inj_add by lia. apply slice_drop.
Qed.

(** [file_write] on an open regular file returns the number of bytes, with
    the file's contents replaced from the offset on - the file growing when
    the bytes reach past its end - and the offset moved behind them, so that
    consecutive writes are contiguous. *)
Theorem file_write_spec V H s f i src :
  open_on V H s f i → f_writable (the_file f s) = true →
  0 ≤ f_off (the_file f s) ≤ i_size (the_inode i s) →
  f_off (the_file f s) + Z.of_nat (length src) ≤ MAXFILEBLK * BSIZE →
  (blocks_needed V (i_addrs (the_inode i s)) (f_off (the_file f s)) (Z.of_nat (length src)) ≤ nfree s V)%nat →
  wp (file_write f src s) (λ r s', r = Z.of_nat (length src) ∧ ∃ V', open_on V' H s' f i ∧
    contents V' i s' = splice (Z.to_nat (f_off (the_file f s))) src (contents V i s) ∧
    f_off (the_file f s') = f_off (the_file f s) + Z.of_nat (length src)).
Proof.
  intros O Hwr Ho Hmax Hneed. pose proof O as [Hf Ht Hip F Hroom Hreg Hsz Hv Hr Hu].
  destruct (open_calm _ _ _ _ _ O) as [Hc Hnp]. pose proof (open_lt _ _ _ _ _ O) as Hi.
  unfold file_write. rewrite bind_gets, Hwr, Ht, Hip. cbn [negb]. cbv iota.
  erewrite bind_done by by apply ilock_valid_run. fold (locked_inode i s). set (s1 := locked_inode i s).
  cbn [deref]. rewrite bind_ret_l. apply wp_bind.
  pose proof (locked_inode_fields i s Hi) as E1. fold s1 in E1.
  set (off := f_off (the_file f s)) in *. set (n := Z.of_nat (length src)) in *.
  kuse (writei_ok V H s1 i src off n); rewrite ?E1; try done; try lia.
  { by apply file_inv_locked. } { unfold wf_size. by rewrite E1. }
  intros r s2 (-> & V' & P). pose proof (wp_attrs _ _ _ _ _ _ _ _ P) as HA. rewrite E1 in HA.
  pose proof (wp_frame _ _ _ _ _ _ _ _ P) as F2. pose proof (wp_inv _ _ _ _ _ _ _ _ P) as I2.
  pose proof (wp_bytes _ _ _ _ _ _ _ _ P) as B2. rewrite E1 in B2. cbn [i_size i_addrs set_i_lock] in B2.
  rewrite take_ge in B2 by lia. fold (contents V i s) (contents V' i s2) in B2.
  assert (off + n < 2 ^ 62) as Hbig by (ksize; lia).
  set (s3 := if bool_decide (0 < n) then upd_file f (λ f, set_f_off (u64 (f_off f + n)) f) s2 else s2).
  rewrite (bind_done _ _ _ tt s3) by (unfold s3, when; by case_bool_decide).
  assert (k_files s2 = k_files s) as Ef2 by by rewrite (if_files _ _ _ F2).
  assert (k_files s3 = alter (set_f_off (off + n)) f (k_files s)) as E3.
  { unfold s3. case_bool_decide as Hk.
    - unfold upd_file. ksimpl. rewrite Ef2. apply set_off_alter. fold off. rewrite u64_small by lia. done.
    - replace (off + n) with off by lia. rewrite Ef2. by apply set_off_same. }
  assert (the_inode i s3 = the_inode i s2) as Ei3 by (unfold s3; by case_bool_decide).
  assert (file_inv V' H s3 i) as F3.
  { apply (file_inv_change V' H s2); [done| |unfold s3; by case_bool_decide..].
    unfold s3. pose proof (fi_bio _ _ _ _ I2). case_bool_decide; [by apply bio_inv_files|done]. }
  apply wp_bind. kuse (open_unlock V V' H s s3 f i (off + n) O F3); rewrite ?Ei3.
  { unfold wf_size. rewrite Ei3. apply (wp_wf _ _ _ _ _ _ _ _ P). }
  { done. } { by rewrite (f_equal i_lock HA : i_lock (the_inode i s2) = _). } { exact (f_equal i_type HA). }
  { exact (f_equal i_valid HA). } { exact (f_equal i_ref HA). }
  intros _ s4 (O4 & Ho4 & Hs4 & Ha4). apply wp_ret. split; [done|]. exists V'. split; [done|].
  split; [unfold contents at 1; rewrite Hs4, Ha4; exact B2|by rewrite Ho4].
Qed.
End FileRead.

(** ** Witnesses *)

(** Entry 3 of the file table is open on the file of [kstate_file], unlocked. *)
Definition kstate_open : kstate :=
  set_k_files (λ l, <[3%nat := mk_file FD_INODE 1 true true 0 (Some 0%nat) 0]> l)
    (upd_slk (SlInode 0) (λ _, mk_sleep 0 0) kstate_file).

Lemma kstate_open_on : open_on (disk_block fs_disk) ∅ kstate_open 3 0.
Proof.
  split; [vm_compute; lia|done|done| | |by vm_compute| |by vm_compute..].
  - apply (file_inv_change _ _ kstate_file); [apply kstate_file_inv| |done..].
    apply bio_inv_files, bio_inv_upd_slk. apply (fi_bio _ _ _ _ kstate_file_inv).
  - unfold NBUF. rewrite map_size_empty. lia.
  - destruct kstate_file_wf as [W1 W2]. split; [exact W1|exact W2].
Qed.

Lemma file_read_chunks_witness :
  wp (@read_chunks 1%nat no_devs 1 3 512 kstate_open) (λ d _, d = []).
Proof.
  eapply wp_mono; [eapply file_read_chunks; [apply kstate_open_on|done|by vm_compute|lia|vm_compute; lia]|].
  intros d s' (-> & _). reflexivity.
Defined.

Lemma file_write_spec_witness :
  wp (@file_write 1%nat no_devs 3 [x68; x69] kstate_open)
    (λ r s', r = 2 ∧ f_off (the_file 3 s') = 2 ∧ ∃ V', contents V' 0 s' = [x68; x69]).
Proof.
  eapply wp_mono.
  - eapply file_write_spec; [apply kstate_open_on|..]; vm_compute; lia || done || (split; done).
  - intros r s' (-> & V' & _ & E & Eo). split; [done|]. split; [rewrite Eo; reflexivity|]. exists V'. rewrite E. reflexivity.
Defined.

Lemma kstate_pipe_ftable : ftable_ok (kstate_pipe wrap_pipe).
Proof.
  assert (∀ i, the_file i (kstate_pipe wrap_pipe) = file0) as H.
  { intros i. unfold the_file. change (k_files (kstate_pipe wrap_pipe)) with (replicate NFILE file0).
    destruct (replicate NFILE file0 !! i) as [x|] eqn:E; [|done]. by apply lookup_replicate in E as [-> _]. }
  split; [done|intros i; by rewrite H..].
Qed.

Lemma kstate_open_ftable : ftable_ok kstate_open.
Proof.
  assert (∀ i, the_file i kstate_open = file0 ∨ the_file i kstate_open = mk_file FD_INODE 1 true true 0 (Some 0%nat) 0) as H.
  { intros i. unfold the_file.
    change (k_files kstate_open) with (<[3%nat := mk_file FD_INODE 1 true true 0 (Some 0%nat) 0]> (replicate NFILE file0)).
    destruct (decide (i = 3%nat)) as [->|]; [by right|left]. rewrite list_lookup_insert_ne by done.
    destruct (replicate NFILE file0 !! i) as [x|] eqn:E; [|done]. by apply lookup_replicate in E as [-> _]. }
  split; [done|intros i; by destruct (H i) as [-> | ->]..].
Qed.

Lemma kstate_pipe_free : free_list_is (k_kmem (kstate_pipe wrap_pipe)) small_free.
Proof. rewrite kstate_pipe_kmem. exact kstate_kinit_free. Qed.

Lemma kstate_pipe_calm : calm (kstate_pipe wrap_pipe).
Proof. split; [done|]. split; [split; [done|]|]; by vm_compute. Qed.

(** The read end of a pipe whose write end is closed already, open as entry 0. *)
Definition half_pipe : pipe := set_pi_read_open true (set_pi_write_open false wrap_pipe).
Definition kstate_read_end : kstate :=
  set_k_files (λ l, <[0%nat := mk_file FD_PIPE 1 true false pipe_addr None 0]> l) (kstate_pipe half_pipe).

Lemma pipe_env_files a p g s : pipe_env a p s → pipe_env a p (set_k_files g s).
Proof. intros [[]]. by split. Qed.
Lemma kstate_read_end_env : pipe_env pipe_addr half_pipe kstate_read_end.
Proof. apply pipe_env_files, kstate_pipe_env, (wrap_pipe_ok true false). Qed.
Lemma kstate_read_end_kmem : k_kmem kstate_read_end = k_kmem kstate_kinit.
Proof.
  assert (H : ∀ g s, k_kmem (set_k_files g s) = k_kmem s) by done. unfold kstate_read_end. rewrite H. apply kstate_pipe_kmem.
Qed.
Lemma kstate_read_end_files : k_files kstate_read_end = <[0%nat := mk_file FD_PIPE 1 true false pipe_addr None 0]> (replicate NFILE file0).
Proof.
  assert (H : ∀ g s, k_files (set_k_files g s) = g (k_files s)) by done. unfold kstate_read_end. rewrite H.
  by change (k_files (kstate_pipe half_pipe)) with (replicate NFILE file0).
Qed.

Lemma kstate_read_end_ftable : ftable_ok kstate_read_end.
Proof.
  assert (∀ i, the_file i kstate_read_end = file0 ∨ the_file i kstate_read_end = mk_file FD_PIPE 1 true false pipe_addr None 0) as H.
  { intros i. unfold the_file. rewrite kstate_read_end_files.
    destruct (decide (i = 0%nat)) as [->|]; [by right|left]. rewrite list_lookup_insert_ne by done.
    destruct (replicate NFILE file0 !! i) as [x|] eqn:E; [|done]. by apply lookup_replicate in E as [-> _]. }
  split; [by rewrite kstate_read_end_files|intros i; by destruct (H i) as [-> | ->]..].
Qed.

Lemma kstate_open_calm : calm kstate_open.
Proof. split; [done|]. split; [split; [done|]|]; by vm_compute. Qed.
Lemma kstate_open_entry : the_file 3 kstate_open = mk_file FD_INODE 1 true true 0 (Some 0%nat) 0.
Proof. reflexivity. Qed.

Lemma file_table_spec_witness :
  (let! j := file_dup 3 in @file_close 1%nat j) kstate_open = Done tt kstate_open ∧
  @file_close 1%nat 3 kstate_open = @iput 1%nat 0 (file_freed 3 kstate_open) ∧
  wp (@file_close 1%nat 0 kstate_read_end) (λ _ s', f_type (the_file 0 s') = FD_NONE ∧ k_pipes s' = ∅ ∧ m_free_list (k_kmem s') = pipe_addr).
Proof.
  destruct (@file_table_spec 1%nat kstate_open kstate_open_calm kstate_open_ftable) as (_ & Hdup & Hlast & _).
  assert (R3 : f_ref (the_file 3 kstate_open) = 1) by (by rewrite kstate_open_entry).
  destruct (Hlast 3%nat ltac:(vm_compute; lia) R3) as (_ & _ & Hi & _).
  split; [apply Hdup; [vm_compute; lia|by rewrite R3]|]. split; [apply Hi; by rewrite kstate_open_entry|].
  pose proof kstate_read_end_env as E.
  destruct (@file_table_spec 1%nat kstate_read_end (pe_calm _ _ _ E) kstate_read_end_ftable) as (_ & _ & Hlast' & _).
  assert (E0 : the_file 0 kstate_read_end = mk_file FD_PIPE 1 true false pipe_addr None 0) by (unfold the_file; by rewrite kstate_read_end_files).
  specialize (Hlast' 0%nat ltac:(vm_compute; lia)). rewrite E0 in Hlast'. destruct (Hlast' eq_refl) as (_ & _ & _ & Hp).
  eapply wp_mono; [apply (Hp eq_refl _ small_free E)|].
  - rewrite kstate_read_end_kmem. exact kstate_kinit_free.
  - rewrite kstate_read_end_kmem. by vm_compute.
  - split; by vm_compute.
  - apply (bool_decide_unpack _). vm_compute. done.
  - intros _ s' (Ef & _ & Ep & [[Hf _] _]). split; [|split; [|exact Hf]].
    + unfold the_file. rewrite Ef. fold (the_file 0 (file_freed 0 kstate_read_end)). unfold file_freed.
      by rewrite the_file_upd_eq by (rewrite kstate_read_end_files; vm_compute; lia).
    + rewrite Ep. apply delete_singleton_eq.
Defined.

Lemma pipe_alloc_spec_witness :
  wp (@pipe_alloc 1%nat (kstate_pipe wrap_pipe)) (λ r s', ∃ i0 i1, r = (0, Some i0, Some i1) ∧ i0 ≠ i1).
Proof.
  eapply wp_mono; [apply (@pipe_alloc_spec 1%nat _ small_free); [apply kstate_pipe_calm|apply kstate_pipe_ftable|apply kstate_pipe_free]|].
  intros r s' [(i0 & i1 & v & l' & p & -> & Hne & _)|(_ & _ & [E|E])].
  - exists i0, i1. split; [reflexivity|exact Hne].
  - discriminate.
  - specialize (E 0%nat 1%nat). exfalso. assert (0%nat = 1%nat) by (apply E; vm_compute; lia || done). discriminate.
Defined.

Lemma pipe_message_delivered_witness :
  wp (@pipe_message 1%nat no_devs [x68; x69] 10 (kstate_pipe wrap_pipe)) (λ o _, o = Some (2, (2, [x68; x69]))).
Proof.
  eapply wp_mono.
  - apply (@pipe_message_delivered 1%nat no_devs (kstate_pipe wrap_pipe) small_free 0 1);
      [apply kstate_pipe_calm|apply kstate_pipe_ftable|done|apply kstate_pipe_free|done|done|vm_compute; lia|vm_compute; lia|
       by vm_compute|by vm_compute|simpl; lia|lia].
  - intros o _ ->. reflexivity.
Defined.
