(* ===== verification/DirSpec.v ===== *)
(** * Directories as finite maps, paths as lists of components

    The bytes of a directory file are cut into entries; the live ones make a
    finite map from names to inode numbers, which [dir_lookup] reads and
    [dir_link] extends.  [namex] is a walk along the components of the path. *)
From S2P Require Import Prelude State Spinlock Sched Sleeplock Ring Bio BioSpec Balloc CString Inode Dir FileMap InodeSpec FileSpec InodeCache FileRead.

#[export] Instance byte_countable : Countable byte := inj_countable' b2z z2b z2b_b2z.

(** ** The map of a directory *)

(** The characters of a name that count. *)
Definition dkey (name : list byte) : list byte := take DIRSIZ (cstr name).
Definition dirent (l : list byte) (k : nat) : list byte := slice (32 * k) 32 l.
Definition live (de : list byte) : option (list byte * Z) :=
  if decide (de_inum de = 0) then None else Some (dkey (de_name de), de_inum de).
Definition entries (l : list byte) : list (list byte * Z) :=
  omap (λ k, live (dirent l k)) (seq 0 (length l / 32)).
Definition dir_map (l : list byte) : gmap (list byte) Z := list_to_map (entries l).

(** A name argument that [strncmp] and [strncpy] read within bounds. *)
Definition name_ok (name : list byte) : Prop := is_Some (strncpy name DIRSIZ).

Lemma strncmp_name n : ∀ name t, is_Some (strncpy name n) → (n ≤ length t)%nat →
  ∃ d, strncmp name t n = Some d ∧ (d = 0 ↔ take n (cstr t) = take n (cstr name)).
Proof.
  induction n as [|n IH]; intros [|a s] [|b t]; simpl; try lia; try by intros [].
  - intros _ _. by exists 0.
  - intros _ _. by exists 0.
  - intros _ _. by exists 0.
  - intros _ _. by exists 0.
  - intros Hs Ht. destruct (decide (a = x00)) as [->|Ha].
    + rewrite (bool_decide_false (x00 ≠ x00)) by naive_solver. simpl. exists (b2z x00 - b2z b). split; [done|].
      split.
      * intros E. assert (b = x00) as -> by (apply b2z_inj; lia). done.
      * destruct (decide (b = x00)) as [->|]; [done|by intros [=]].
    + rewrite bool_decide_false in Hs by done. rewrite bool_decide_true by done.
      destruct (decide (a = b)) as [->|Hab].
      * rewrite bool_decide_true by done. cbn [andb]. rewrite decide_False by done.
        destruct (IH s t) as (d & -> & Hd); [by destruct (strncpy s n); [|destruct Hs]|lia|].
        exists d. split; [done|]. cbn [take]. rewrite Hd. split; [by intros ->|by intros [=]].
      * rewrite bool_decide_false by done. exists (b2z a - b2z b). split; [done|]. split.
        -- intros E. exfalso. apply Hab, b2z_inj. lia.
        -- case_decide; [done|]. intros [=]. by subst.
Qed.

Lemma de_name_length l k : (32 * S k ≤ length l)%nat → length (de_name (dirent l k)) = DIRSIZ.
Proof. intros Hl. unfold de_name, dirent. rewrite slice_length; [done|]. rewrite slice_length by lia. unfold DIRSIZ. lia. Qed.

Lemma entries_lookup_None l key : dir_map l !! key = None ↔
  ∀ k inum, (32 * S k ≤ length l)%nat → live (dirent l k) ≠ Some (key, inum).
Proof.
  unfold dir_map. rewrite <- not_elem_of_list_to_map, list_elem_of_fmap. split.
  - intros H k inum Hk E. apply H. exists (key, inum). split; [done|]. apply list_elem_of_omap.
    exists k. split; [|done]. apply elem_of_seq. pose proof (Nat.div_le_lower_bound (length l) 32 (S k)). lia.
  - intros H ([key' inum] & -> & (k & Hk%elem_of_seq & E)%list_elem_of_omap). apply (H k inum); [|done].
    pose proof (Nat.Div0.mul_div_le (length l) 32). lia.
Qed.

(** The first live entry with the name decides. *)
Lemma entries_lookup_first l k key inum : (32 * S k ≤ length l)%nat →
  live (dirent l k) = Some (key, inum) → (∀ j inum', (j < k)%nat → live (dirent l j) ≠ Some (key, inum')) →
  dir_map l !! key = Some inum.
Proof.
  intros Hk E Hlt. unfold dir_map, entries.
  assert (length l / 32 = k + S (length l / 32 - S k))%nat as ->.
  { pose proof (Nat.div_le_lower_bound (length l) 32 (S k)). lia. }
  rewrite seq_app. cbn [seq]. rewrite omap_app. simpl omap at 2. rewrite E.
  rewrite list_to_map_app. rewrite lookup_union_r.
  - simpl. apply lookup_insert_eq.
  - apply not_elem_of_list_to_map. intros ([key' inum'] & -> & (j & Hj%elem_of_seq & E')%list_elem_of_omap)%list_elem_of_fmap.
    apply (Hlt j inum'); [lia|done].
Qed.

(** ** Reading the entries *)
Section Lookup.
Context {wf : WakeFuel} {dsw : DevSw}.

(** A directory whose inode is cached and locked. *)
Record dir_inv (V : store) (H : holders) (s : kstate) (dp : nat) : Prop := {
  dv_file : file_inv V H s dp;
  dv_room : (S (size H) < NBUF)%nat;
  dv_type : i_type (the_inode dp s) = T_DIR;
  dv_wf : wf_size s dp V;
  dv_size : i_size (the_inode dp s) `mod` DIRENT_SIZE = 0
}.

Lemma dir_inv_frame V H s s' dp : dir_inv V H s dp → bio_inv V H s' → bio_frame s s' → dir_inv V H s' dp.
Proof.
  intros [F Hr Ht Hw Hs] I Fr. pose proof (bio_the_inode dp _ _ Fr) as E.
  split; rewrite ?E; try done; [by eapply file_inv_frame|]. unfold wf_size. by rewrite E.
Qed.

Lemma contents_frame V s s' i : bio_frame s s' → contents V i s' = contents V i s.
Proof. intros Fr. unfold contents. by rewrite (bio_the_inode i _ _ Fr). Qed.

Lemma dir_entries V H s dp : dir_inv V H s dp →
  ∃ n : nat, i_size (the_inode dp s) = 32 * Z.of_nat n ∧ length (contents V dp s) = (32 * n)%nat ∧ 32 * Z.of_nat n < 2 ^ 32.
Proof.
  intros [_ _ _ [Hs _] Hm]. exists (Z.to_nat (i_size (the_inode dp s) / 32)). rewrite contents_length.
  change DIRENT_SIZE with 32 in Hm. pose proof (Z.div_mod (i_size (the_inode dp s)) 32 ltac:(done)) as E. rewrite Hm in E.
  assert (0 ≤ i_size (the_inode dp s) / 32) by (apply Z.div_pos; lia). change (MAXFILEBLK * BSIZE) with 2150400 in Hs. lia.
Qed.

(** Reading entry [k]. *)
Lemma read_entry V H s dp k : dir_inv V H s dp → 32 * Z.of_nat k < i_size (the_inode dp s) →
  wp (readi dp (32 * Z.of_nat k) DIRENT_SIZE s) (λ r s',
    r = (32, dirent (contents V dp s) k) ∧ (32 * S k ≤ length (contents V dp s))%nat ∧ bio_inv V H s' ∧ bio_frame s s').
Proof.
  intros D Hk. destruct (dir_entries V H s dp D) as (n & Hn & Hl & Hb). destruct D as [F Hr Ht Hw Hm].
  kuse (readi_ok V H s dp (32 * Z.of_nat k) DIRENT_SIZE F); try done; [lia|by rewrite Ht|unfold DIRENT_SIZE; lia..|].
  intros r s' (-> & I & Fr). unfold DIRENT_SIZE. rewrite decide_True by lia. rewrite Z.min_l by lia.
  split; [|split; [lia|done]]. f_equal. unfold dirent, contents. rewrite (fbytes_slice _ _ (i_size (the_inode dp s))) by lia. f_equal; lia.
Qed.

Definition absent (name l : list byte) (k : nat) : Prop :=
  ∀ j inum, (j < k)%nat → live (dirent l j) ≠ Some (dkey name, inum).

Lemma dir_lookup_loop_run V H name (Q : option (nat * Z) → kstate → Prop) dp fuel : ∀ s k,
  dir_inv V H s dp → name_ok name → absent name (contents V dp s) k → (32 * Z.of_nat k ≤ i_size (the_inode dp s)) →
  i_size (the_inode dp s) < 32 * Z.of_nat (k + fuel) →
  (∀ s', dir_map (contents V dp s) !! dkey name = None → bio_inv V H s' → bio_frame s s' → Q None s') →
  (∀ s' inum j, dir_map (contents V dp s) !! dkey name = Some inum →
     (32 * S j ≤ length (contents V dp s))%nat → live (dirent (contents V dp s) j) = Some (dkey name, inum) →
     bio_inv V H s' → bio_frame s s' →
     wp (iget 0 inum s') (λ ip s'', Q (Some (ip, 32 * Z.of_nat j)) s'')) →
  wp (dir_lookup_loop fuel dp name (32 * Z.of_nat k) s) Q.
Proof.
  induction fuel as [|fuel IH]; intros s k D Hn Hab Hk Hf QN QS.
  - exfalso. lia.
  - cbn [dir_lookup_loop]. rewrite bind_gets. destruct (dir_entries V H s dp D) as (n & En & El & _).
    case_bool_decide as Hlt.
    2:{ apply QN; [|apply D|done]. apply entries_lookup_None. intros j inum Hj. apply Hab. lia. }
    apply wp_bind. kuse (read_entry V H s dp k D Hlt). intros r s1 (-> & Hj & I1 & F1).
    cbv beta iota. rewrite (bool_decide_false (32 ≠ DIRENT_SIZE)) by (intros X; by apply X).
    set (C := contents V dp s) in *. assert (contents V dp s1 = C) as EC by by apply contents_frame.
    pose proof (dir_inv_frame V H s s1 dp D I1 F1) as D1.
    assert (the_inode dp s1 = the_inode dp s) as Ei by by apply bio_the_inode.
    assert (absent name C (S k) → wp (dir_lookup_loop fuel dp name (32 * Z.of_nat k + DIRENT_SIZE) s1) Q) as Hrec.
    { intros Hab'. replace (32 * Z.of_nat k + DIRENT_SIZE) with (32 * Z.of_nat (S k)) by (unfold DIRENT_SIZE; lia).
      apply IH; rewrite ?EC, ?Ei; try done; [lia|lia|..].
      - intros s' HN I' F'. apply QN; [done..|by etrans].
      - intros s' inum j HS Hj' Hlv I' F'. apply QS; [done..|by etrans]. }
    case_bool_decide as Hz.
    + apply Hrec. intros j inum Hj'. destruct (decide (j = k)) as [->|]; [|apply Hab; lia]. unfold live. by rewrite decide_True.
    + destruct (strncmp_name DIRSIZ name (de_name (dirent C k)) Hn) as (d & Ed & Hd); [by rewrite de_name_length|].
      rewrite Ed. cbn [in_bounds]. rewrite bind_ret_l. case_bool_decide as Hd0.
      * rewrite bind_gets. assert (live (dirent C k) = Some (dkey name, de_inum (dirent C k))) as Elv.
        { unfold live. rewrite decide_False by done. unfold dkey. by rewrite (proj1 Hd Hd0). }
        rewrite Ei, (fi_dev _ _ _ _ (dv_file _ _ _ _ D)). apply wp_bind. kuse QS; try done.
        by apply (entries_lookup_first C k).
      * apply Hrec. intros j inum Hj'. destruct (decide (j = k)) as [->|]; [|apply Hab; lia]. unfold live.
        rewrite decide_False by done. intros [= E _]. apply Hd0, Hd. exact E.
Qed.

Lemma dir_fuel_enough V H s dp : dir_inv V H s dp → i_size (the_inode dp s) < 32 * Z.of_nat (0 + dir_fuel dp s).
Proof.
  intros D. destruct (dir_entries V H s dp D) as (n & En & _). unfold dir_fuel. rewrite En. change DIRENT_SIZE with 32.
  rewrite (Z.mul_comm 32), Z.div_mul by done. lia.
Qed.

Lemma dir_lookup_run V H name (Q : option (nat * Z) → kstate → Prop) dp s :
  dir_inv V H s dp → name_ok name →
  (∀ s', dir_map (contents V dp s) !! dkey name = None → bio_inv V H s' → bio_frame s s' → Q None s') →
  (∀ s' inum j, dir_map (contents V dp s) !! dkey name = Some inum →
     (32 * S j ≤ length (contents V dp s))%nat → live (dirent (contents V dp s) j) = Some (dkey name, inum) →
     bio_inv V H s' → bio_frame s s' →
     wp (iget 0 inum s') (λ ip s'', Q (Some (ip, 32 * Z.of_nat j)) s'')) →
  wp (dir_lookup dp name s) Q.
Proof.
  intros D Hn QN QS. unfold dir_lookup. rewrite bind_gets, (dv_type _ _ _ _ D).
  rewrite bool_decide_false by (intros X; by apply X). rewrite bind_gets.
  apply (dir_lookup_loop_run V H name Q dp (dir_fuel dp s) s 0); try done.
  - intros j inum Hj. lia.
  - destruct (dir_entries V H s dp D) as (n & En & _). lia.
  - by eapply dir_fuel_enough.
Qed.

(** The scan for a slot stops at an entry with inode number 0 or at the end. *)
Lemma dir_slot_loop_run V H dp fuel : ∀ s k,
  dir_inv V H s dp → (32 * Z.of_nat k ≤ i_size (the_inode dp s)) →
  i_size (the_inode dp s) < 32 * Z.of_nat (k + fuel) →
  wp (dir_slot_loop fuel dp (32 * Z.of_nat k) s) (λ off s', ∃ j : nat, off = 32 * Z.of_nat j ∧
    32 * Z.of_nat j ≤ i_size (the_inode dp s) ∧
    ((32 * j < length (contents V dp s))%nat → live (dirent (contents V dp s) j) = None) ∧
    bio_inv V H s' ∧ bio_frame s s').
Proof.
  induction fuel as [|fuel IH]; intros s k D Hk Hf.
  - exfalso. lia.
  - cbn [dir_slot_loop]. rewrite bind_gets. destruct (dir_entries V H s dp D) as (n & En & El & _).
    case_bool_decide as Hlt.
    2:{ cbn [wp ret]. exists k. split_and!; try done; [lia|apply D]. }
    apply wp_bind. kuse (read_entry V H s dp k D Hlt). intros r s1 (-> & Hj & I1 & F1).
    cbv beta iota. rewrite (bool_decide_false (32 ≠ DIRENT_SIZE)) by (intros X; by apply X).
    set (C := contents V dp s) in *. assert (contents V dp s1 = C) as EC by by apply contents_frame.
    case_bool_decide as Hz.
    + cbn [wp ret]. exists k. split_and!; try done. intros _. unfold live. by rewrite decide_True.
    + assert (the_inode dp s1 = the_inode dp s) as Ei by by apply bio_the_inode.
      replace (32 * Z.of_nat k + DIRENT_SIZE) with (32 * Z.of_nat (S k)) by (unfold DIRENT_SIZE; lia).
      kuse (IH s1 (S k)); rewrite ?Ei; try lia; [by eapply dir_inv_frame|].
      intros off s2 (j & -> & Hj' & Hfree & I2 & F2). exists j. rewrite EC in Hfree. split_and!; try done. by etrans.
Qed.

(** What [dir_link] stores. *)
Definition new_entry (name : list byte) (inum : Z) : list byte := dirent_bytes inum (pad DIRSIZ (cstr name)).

Lemma pad_length n l : length (pad n l) = n.
Proof. unfold pad. rewrite length_take, length_app, length_replicate. lia. Qed.
Lemma new_entry_length name inum : length (new_entry name inum) = 32%nat.
Proof. unfold new_entry, dirent_bytes. by rewrite length_app, le_put_length, pad_length. Qed.

Lemma live_new_entry name inum : 0 < inum < 2 ^ 64 → live (new_entry name inum) = Some (dkey name, inum).
Proof.
  intros Hi. unfold live, new_entry, dirent_bytes.
  assert (de_inum (le_put 8 inum ++ pad DIRSIZ (cstr name)) = inum) as E.
  { unfold de_inum, get_le. unfold slice; rewrite drop_0, take_app_length' by done. rewrite le_get_put. change (256 ^ Z.of_nat 8) with (2 ^ 64). apply Z.mod_small; lia. }
  rewrite E, decide_False by lia. do 2 f_equal. unfold de_name, slice. rewrite drop_app_length' by done.
  rewrite firstn_all2 by (by rewrite pad_length). unfold dkey. apply cstr_pad, cstr_nonzero.
Qed.

(** Storing an entry in a slot that is not in use, or at the end, adds its
    binding. *)
Lemma dirent_splice e l j k : length e = 32%nat → (32 * S j ≤ length l ∨ 32 * j = length l)%nat →
  dirent (splice (32 * j) e l) k = if decide (j = k) then e else dirent l k.
Proof.
  intros He [Hj|Hj].
  - unfold dirent. case_decide as E.
    + rewrite <- E, <- He. apply slice_splice_eq. lia.
    + apply slice_splice_ne; lia.
  - unfold splice. rewrite drop_ge, app_nil_r, take_ge by lia. unfold dirent, slice. case_decide as E.
    + subst k. rewrite drop_app_length' by done. apply firstn_all2. lia.
    + destruct (decide (j < k)%nat).
      * rewrite !drop_ge by (rewrite ?length_app; lia). done.
      * rewrite drop_app_le by lia. apply take_app_le. rewrite length_drop. lia.
Qed.

Lemma splice_length_grow (e l : list byte) j : length e = 32%nat → (32 * S j ≤ length l ∨ 32 * j = length l)%nat →
  length (splice (32 * j) e l) = Nat.max (length l) (32 * S j).
Proof. intros He Hj. unfold splice. rewrite !length_app, length_take, length_drop. lia. Qed.

Lemma dir_map_insert l e j n key inum : length l = (32 * n)%nat → length e = 32%nat → (j ≤ n)%nat →
  live e = Some (key, inum) → dir_map l !! key = None → ((j < n)%nat → live (dirent l j) = None) →
  dir_map (splice (32 * j) e l) = <[key := inum]> (dir_map l).
Proof.
  intros Hl He Hj Hlive Hnone Hfree.
  assert (32 * S j ≤ length l ∨ 32 * j = length l)%nat as Hcase by lia.
  unfold dir_map, entries in *. rewrite splice_length_grow by done. rewrite Hl in Hnone |- *.
  assert (∀ m, 32 * m / 32 = m)%nat as Hdiv by (intros m; rewrite Nat.mul_comm; apply Nat.div_mul; done).
  replace (Nat.max (32 * n) (32 * S j)) with (32 * (j + 1 + (Nat.max n (S j) - S j)))%nat by lia. rewrite !Hdiv in Hnone |- *.
  assert (omap (λ k, live (dirent l k)) (seq 0 n) =
    omap (λ k, live (dirent l k)) (seq 0 j) ++ omap (λ k, live (dirent l k)) (seq (S j) (Nat.max n (S j) - S j))) as E.
  { destruct (decide (j < n)%nat) as [Hlt|Hge].
    - replace n with (j + S (Nat.max n (S j) - S j))%nat at 1 by lia. rewrite seq_app, omap_app. cbn [seq Nat.add].
      f_equal. cbn [omap list_omap]. by rewrite Hfree.
    - replace (Nat.max n (S j) - S j)%nat with 0%nat by lia. cbn [seq omap list_omap]. rewrite app_nil_r. do 2 f_equal. lia. }
  rewrite (Hdiv n), E. rewrite E in Hnone. rewrite !seq_app, !omap_app. cbn [seq Nat.add omap list_omap].
  rewrite dirent_splice, decide_True, Hlive by done. rewrite list_to_map_app in Hnone. rewrite <- app_assoc, !list_to_map_app. cbn [app]. rewrite (Nat.add_comm j 1). cbn [Nat.add].
  apply lookup_union_None in Hnone as [Hn1 _].
  assert (∀ a m, (m + a ≤ j)%nat ∨ (j < a)%nat →
    omap (λ k, live (dirent (splice (32 * j) e l) k)) (seq a m) = omap (λ k, live (dirent l k)) (seq a m)) as Hext.
  { intros a m Hd. apply list_omap_ext, Forall_Forall2_diag, Forall_seq. intros k Hk. rewrite dirent_splice, decide_False by (done || lia). done. }
  rewrite !Hext by lia. cbn [list_to_map foldr uncurry fst snd].
  rewrite <- insert_union_l, (left_id_L ∅ (∪)). symmetry. by apply insert_union_r.
Qed.

(** What is needed for one more entry: a free inode number, at most two free
    blocks, and room in the file. *)
Lemma blocks_needed_two V A off n : 0 ≤ off → 0 < n → off `mod` BSIZE + n ≤ BSIZE → (blocks_needed V A off n ≤ 2)%nat.
Proof.
  intros Ho Hn Hfit. unfold blocks_needed. rewrite decide_False by lia.
  destruct (blk_div_mod off Ho) as (Hq & E & Hr).
  assert ((off + n - 1) / BSIZE = off / BSIZE) as -> by (symmetry; apply (Z.div_unique _ _ _ (off `mod` BSIZE + n - 1)); lia).
  replace (off / BSIZE - off / BSIZE + 1) with 1 by lia. rewrite seqZ_cons by lia. change (seqZ _ (Z.pred 1)) with (@nil Z).
  rewrite filter_cons, filter_nil. repeat case_decide; simpl; lia.
Qed.

(** [dir_link] of a name that is not there. *)
Lemma dir_link_run V H s dp name inum :
  dir_inv V H s dp → name_ok name → 0 < inum < 2 ^ 64 →
  dir_map (contents V dp s) !! dkey name = None →
  i_size (the_inode dp s) + 32 ≤ MAXFILEBLK * BSIZE → (2 ≤ nfree s V)%nat →
  wp (dir_link dp name inum s) (λ r s', r = 0 ∧ ∃ V', dir_inv V' H s' dp ∧ ino_frame dp s s' ∧
    dir_map (contents V' dp s') = <[dkey name := inum]> (dir_map (contents V dp s)) ∧
    (synced V dp s → synced V' dp s') ∧
    set_i_size 0 (set_i_addrs [] (the_inode dp s')) = set_i_size 0 (set_i_addrs [] (the_inode dp s))).
Proof.
  intros D Hn Hi Habs Hmax Hfree. unfold dir_link. apply wp_bind.
  apply (dir_lookup_run V H name _ dp s D Hn); [|by intros; congruence].
  intros s1 _ I1 F1. cbv beta iota. rewrite bind_gets.
  pose proof (dir_inv_frame V H s s1 dp D I1 F1) as D1. pose proof (contents_frame V s s1 dp F1) as E1.
  pose proof (bio_the_inode dp _ _ F1) as Ei1.
  apply wp_bind. kuse (dir_slot_loop_run V H dp (dir_fuel dp s1) s1 0 D1); [|by eapply dir_fuel_enough|].
  { destruct (dir_entries V H s1 dp D1) as (n & En & _). lia. }
  intros off s2 (j & -> & Hj & Hslot & I2 & F2). cbv beta.
  destruct Hn as [nm Enm]. rewrite Enm. cbn [in_bounds]. rewrite bind_ret_l.
  pose proof (strncpy_pad _ _ _ Enm) as ->. fold (new_entry name inum).
  pose proof (dir_inv_frame V H s1 s2 dp D1 I2 F2) as D2. pose proof (contents_frame V s1 s2 dp F2) as E2.
  pose proof (bio_the_inode dp _ _ F2) as Ei2. rewrite E1 in Hslot, E2. rewrite Ei1 in Ei2, Hj.
  destruct (dir_entries V H s dp D) as (n & En & El & Hb). rewrite En in Hj, Hmax.
  destruct D2 as [Fi Hr Ht Hw Hm]. apply wp_bind.
  assert (nfree s2 V = nfree s V) as Enf.
  { apply nfree_frame. by rewrite (bf_sb _ _ F2), (bf_sb _ _ F1). }
  kuse (writei_ok V H s2 dp (new_entry name inum) (32 * Z.of_nat j) DIRENT_SIZE Fi Hr); rewrite ?new_entry_length, ?Ei2, ?En; try done.
  - rewrite <- Ei2, Ht. by intros X.
  - lia.
  - unfold DIRENT_SIZE; lia.
  - rewrite Enf. etrans; [|exact Hfree]. apply blocks_needed_two; [lia|done|].
    change BSIZE with (32 * 128). change DIRENT_SIZE with 32. rewrite Z.mul_mod_distr_l by done.
    pose proof (Z.mod_pos_bound (Z.of_nat j) 128). lia.
  - intros r s3 (-> & V' & P). rewrite bool_decide_false by (intros X; by apply X). cbn [wp ret]. split; [done|]. exists V'.
    rewrite firstn_all2 in P by (rewrite new_entry_length; done).
    pose proof (wp_size _ _ _ _ _ _ _ _ P) as Hsz. pose proof (wp_bytes _ _ _ _ _ _ _ _ P) as Hby.
    rewrite new_entry_length, Ei2, En in Hsz. 
    pose proof (f_equal i_type (wp_attrs _ _ _ _ _ _ _ _ P)) as Hty. simpl in Hty.
    split_and!.
    + split; [apply P|done|by rewrite Hty|apply P|]. rewrite Hsz.
      replace (Z.max _ _) with (Z.of_nat (Nat.max n (S j)) * DIRENT_SIZE) by (unfold DIRENT_SIZE; lia). by apply Z.mod_mul.
    + etrans; [|apply P]. apply bio_ino_frame. by etrans.
    + fold (contents V' dp s3) (contents V dp s2) in Hby. rewrite Hby, E2.
      replace (Z.to_nat (32 * Z.of_nat j)) with (32 * j)%nat by lia.
      apply (dir_map_insert _ _ _ n); [done|apply new_entry_length|lia|by apply live_new_entry|done|].
      intros Hlt. apply Hslot. lia.
    + intros Hs. apply P. unfold synced, iblk in *. by rewrite Ei2, (bf_sb _ _ F2), (bf_sb _ _ F1).
    + rewrite <- Ei2. apply P.
Qed.

(** ** The properties *)

(** The inode cache can serve [iget]. *)
Record igets_ok (s : kstate) : Prop := {
  ig_calm : calm s;
  ig_cache : icache_ok s;
  ig_refs : ∀ i, i_ref (the_inode i s) < 2 ^ 64 - 1;
  ig_room : ∃ j, (j < NINODE)%nat ∧ i_ref (the_inode j s) = 0
}.

Lemma igets_ok_frame dp s s' : igets_ok s → ino_frame dp s s' →
  set_i_size 0 (set_i_addrs [] (the_inode dp s')) = set_i_size 0 (set_i_addrs [] (the_inode dp s)) → igets_ok s'.
Proof.
  intros [Hc [Hl Hr Hu] Hb (j & Hj & Hj0)] Fr E.
  assert (∀ i, i_ref (the_inode i s') = i_ref (the_inode i s) ∧ i_dev (the_inode i s') = i_dev (the_inode i s) ∧
    i_inum (the_inode i s') = i_inum (the_inode i s)) as Hsame.
  { intros i. destruct (decide (i = dp)) as [->|Hne]; [|by rewrite (if_other _ _ _ Fr)].
    split; [exact (f_equal i_ref E)|]. split; [exact (f_equal i_dev E)|exact (f_equal i_inum E)]. }
  split.
  - unfold calm in *. by rewrite (if_cpu _ _ _ Fr), (if_locks _ _ _ Fr).
  - split; [by rewrite (if_len _ _ _ Fr)|intros i; by rewrite (proj1 (Hsame i))|].
    intros i i'. destruct (Hsame i) as (-> & -> & ->), (Hsame i') as (-> & -> & ->). apply Hu.
  - intros i. by rewrite (proj1 (Hsame i)).
  - exists j. by rewrite (proj1 (Hsame j)).
Qed.

Lemma igets_ok_bio s s' : igets_ok s → bio_frame s s' → igets_ok s'.
Proof. intros G F. apply (igets_ok_frame 0 s s' G); [by apply bio_ino_frame|by rewrite (bio_the_inode 0 _ _ F)]. Qed.

(** What a lookup answers: a reference to the inode the directory maps the
    name to, and the offset of its entry, or nothing. *)
Definition looked_up (V : store) (dp : nat) (name : list byte) (s : kstate) (r : option (nat * Z)) (s' : kstate) : Prop :=
  match dir_map (contents V dp s) !! dkey name with
  | None => r = None ∧ bio_frame s s'
  | Some inum => ∃ ip k, r = Some (ip, 32 * Z.of_nat k) ∧
      live (dirent (contents V dp s) k) = Some (dkey name, inum) ∧
      cached 0 inum ip s' ∧ icache_ok s' ∧ (∀ j, j ≠ ip → the_inode j s' = the_inode j s) ∧
      i_ref (the_inode ip s') = i_ref (the_inode ip s) + 1
  end.

Lemma dir_lookup_ok V H s dp name : dir_inv V H s dp → name_ok name → igets_ok s →
  wp (dir_lookup dp name s) (looked_up V dp name s).
Proof.
  intros D Hn G. apply (dir_lookup_run V H name _ dp s D Hn).
  - intros s' E I F. unfold looked_up. by rewrite E.
  - intros s' inum j E Hj Hlive I F. pose proof (igets_ok_bio s s' G F) as [Hc Hic Hb (k & Hk & Hk0)].
    kuse (iget_ok s' 0 inum Hc Hic Hb); [exists k; auto|]. intros ip s'' (Hca & Hic' & Hoth & Href).
    unfold looked_up. rewrite E. exists ip, j. split_and!; try done.
    + intros i Hi. rewrite Hoth by done. by apply bio_the_inode.
    + rewrite <- (bio_the_inode ip _ _ F). destruct Href as [[_ ->]|(_ & -> & -> & _)]; lia.
Qed.

(** C36. [dir_lookup] reads the directory as a finite map: it answers nothing,
    without a visible effect, exactly when the map has no binding for the
    name, and otherwise a new reference to the inode the name is bound to
    together with the offset of the entry that says so; every other cached
    inode is left alone. *)
Theorem dir_lookup_spec V H s dp name : dir_inv V H s dp → name_ok name → igets_ok s →
  wp (dir_lookup dp name s) (looked_up V dp name s).
Proof. apply dir_lookup_ok. Qed.

(** C37. [dir_link] extends the map: for a name that is not bound it returns 0
    and the directory's map afterwards is the old one with the new binding,
    whether the entry went into a free slot or the file grew; so looking the
    name up returns the inode just linked, and any other name what it was
    bound to before. *)
Theorem dir_link_lookup V H s dp name inum name' :
  dir_inv V H s dp → name_ok name → name_ok name' → igets_ok s → 0 < inum < 2 ^ 64 →
  dir_map (contents V dp s) !! dkey name = None →
  i_size (the_inode dp s) + 32 ≤ MAXFILEBLK * BSIZE → (2 ≤ nfree s V)%nat →
  wp (dir_link dp name inum s) (λ r s1, r = 0 ∧ ∃ V1, dir_inv V1 H s1 dp ∧
    dir_map (contents V1 dp s1) = <[dkey name := inum]> (dir_map (contents V dp s)) ∧
    wp (dir_lookup dp name' s1) (λ r s2,
      match (if decide (dkey name' = dkey name) then Some inum else dir_map (contents V dp s) !! dkey name') with
      | None => r = None
      | Some i => ∃ ip off, r = Some (ip, off) ∧ cached 0 i ip s2
      end)).
Proof.
  intros D Hn Hn' G Hi Habs Hmax Hfree. kuse (dir_link_run V H s dp name inum); [done..|].
  intros r s1 (-> & V1 & D1 & F1 & Em & _ & Ea). split; [done|]. exists V1. split; [done|]. split; [done|].
  kuse (dir_lookup_ok V1 H s1 dp name' D1 Hn'); [by apply (igets_ok_frame dp s)|].
  intros r s2 HL. unfold looked_up in HL. rewrite Em in HL. case_decide as Ek.
  - rewrite Ek, lookup_insert_eq in HL. destruct HL as (ip & k & -> & _ & Hca & _). eauto.
  - rewrite lookup_insert_ne in HL by congruence. destruct (_ !! dkey name') as [i|]; [|by destruct HL].
    destruct HL as (ip & k & -> & _ & Hca & _). eauto.
Qed.
End Lookup.

(** ** Paths *)

(** The components of a path: what is left between the slashes. *)
Fixpoint components_aux (cur : list byte) (p : list byte) : list (list byte) :=
  let done_ := match cur with [] => [] | _ => [cur] end in
  match p with
  | [] => done_
  | c :: p => if decide (c = slash) then done_ ++ components_aux [] p else components_aux (cur ++ [c]) p
  end.
Definition components (p : list byte) : list (list byte) := components_aux [] p.

(** The contents of the [name] array after a component was copied to it. *)
Definition put_elem (e name : list byte) : list byte :=
  if decide (DIRSIZ ≤ length e)%nat then splice 0 (take DIRSIZ e) name else splice 0 (e ++ [x00]) name.

Lemma components_slash p : components (slash :: p) = components p.
Proof. unfold components. cbn [components_aux]. by rewrite decide_True. Qed.

Lemma components_elem e p : Forall (λ c, c ≠ slash) e → (p = [] ∨ head p = Some slash) → ∀ cur, cur ++ e ≠ [] →
  components_aux cur (e ++ p) = (cur ++ e) :: components p.
Proof.
  intros He Hp. induction He as [|c e Hc He IH]; intros cur Hne.
  - rewrite app_nil_r in *. destruct cur as [|x cur]; [done|]. destruct Hp as [->|Hp]; [done|].
    destruct p as [|y p]; [done|]. injection Hp as ->. cbn [app components_aux]. rewrite decide_True by done. by rewrite components_slash.
  - cbn [app components_aux]. rewrite decide_False by done. rewrite IH; [by rewrite <- app_assoc|by destruct cur].
Qed.

(** A terminated path: [p], a zero, and whatever lies behind. *)
Lemma skip_slashes_run p rest : x00 ∉ p → ∃ q, skip_slashes (p ++ x00 :: rest) = Some (q ++ x00 :: rest) ∧
  components q = components p ∧ x00 ∉ q ∧ head q ≠ Some slash ∧ (length q ≤ length p)%nat.
Proof.
  induction p as [|c p IH]; intros Hp.
  - exists []. done.
  - rewrite not_elem_of_cons in Hp. cbn [app skip_slashes]. case_bool_decide as E.
    + subst c. destruct (IH (proj2 Hp)) as (q & -> & Hc & Hq & Hh & Hl). exists q. rewrite components_slash. split_and!; try done. simpl; lia.
    + exists (c :: p). split_and!; try done; [by rewrite not_elem_of_cons|by intros [=]].
Qed.

Lemma take_elem_run p rest : x00 ∉ p → ∃ e q, p = e ++ q ∧ take_elem (p ++ x00 :: rest) = Some (e, q ++ x00 :: rest) ∧
  Forall (λ c, c ≠ slash) e ∧ (q = [] ∨ head q = Some slash).
Proof.
  induction p as [|c p IH]; intros Hp.
  - exists [], []. split_and!; try done. by left.
  - rewrite not_elem_of_cons in Hp. cbn [app take_elem]. destruct (decide (c = slash)) as [->|Hc].
    + exists [], (slash :: p). split_and!; try done. by right.
    + rewrite !bool_decide_true by naive_solver. cbn [andb].
      destruct (IH (proj2 Hp)) as (e & q & -> & -> & He & Hq). exists (c :: e), q. split_and!; try done. by constructor.
Qed.

Lemma skip_elem_run p rest name : x00 ∉ p →
  match components p with
  | [] => skip_elem (p ++ x00 :: rest) name = Some None
  | e :: es => ∃ q, skip_elem (p ++ x00 :: rest) name = Some (Some (q ++ x00 :: rest, put_elem e name)) ∧
      components q = es ∧ x00 ∉ q ∧ head q ≠ Some slash ∧ (length q < length p)%nat
  end.
Proof.
  intros Hp. destruct (skip_slashes_run p rest Hp) as (p1 & E1 & <- & Hp1 & Hh & Hl1).
  unfold skip_elem. rewrite E1. cbn [mbind option_bind]. destruct p1 as [|c p1]; [done|].
  cbn [app head mbind option_bind]. assert (c ≠ slash) as Hc by (intros ->; by apply Hh).
  rewrite bool_decide_false by (intros ->; apply Hp1; left).
  destruct (take_elem_run (c :: p1) rest Hp1) as (e & q & Ee & E2 & He & Hq).
  assert (e ≠ []) as Hne. { intros ->. simpl in Ee. subst q. destruct Hq as [|[= ->]]; done. }
  change (c :: p1 ++ x00 :: rest) with ((c :: p1) ++ x00 :: rest). rewrite E2. cbn [mbind option_bind].
  assert (components (c :: p1) = e :: components q) as -> by (rewrite Ee; by apply components_elem).
  destruct (skip_slashes_run q rest) as (q1 & E3 & Hc3 & Hq1 & Hh1 & Hl3).
  { intros X. apply Hp1. rewrite Ee. apply elem_of_app. by right. }
  rewrite E3. cbn [mbind option_bind]. exists q1. split_and!; try done.
  - unfold put_elem. do 3 f_equal. case_bool_decide; by case_decide.
  - apply (f_equal length) in Ee. rewrite length_app in Ee. destruct e; [done|]. simpl in *. lia.
Qed.

Section Walk.
Context {wf : WakeFuel} {dsw : DevSw}.

(** Path resolution over the list of components: from the inode [ip] along
    [es], stopping before the last one when the parent is wanted. *)
Fixpoint walk (es : list (list byte)) (ip : nat) (parent : bool) (name : list byte) : M kstate (option nat * list byte) :=
  match es with
  | [] => if parent then iput ip ;;; ret (None, name) else ret (Some ip, name)
  | e :: es =>
    let name := put_elem e name in
    ilock (Some ip) ;;;
    let! d := gets (the_inode ip) in
    if bool_decide (i_type d ≠ T_DIR) then iunlock (Some ip) ;;; iput ip ;;; ret (None, name) else
    if parent && bool_decide (es = []) then iunlock (Some ip) ;;; ret (Some ip, name) else
    let! next := dir_lookup ip name in
    iunlock (Some ip) ;;;
    iput ip ;;;
    match next with None => ret (None, name) | Some (next, _) => walk es next parent name end
  end.

(** The inode a path starts from. *)
Definition walk_from (absolute : bool) : M kstate nat :=
  if absolute then iget ROOTDEV ROOTINO else
  let! p := myproc in let! p := deref p in
  let! cwd := gets (λ s, p_cwd (the_proc p s)) in let! cwd := deref cwd in
  idup cwd.

Lemma namex_loop_walk parent rest fuel : ∀ p ip name, x00 ∉ p → (length p ≤ fuel)%nat →
  namex_loop fuel ip (p ++ x00 :: rest) parent name ≋ walk (components p) ip parent name.
Proof.
  induction fuel as [|fuel IH]; intros p ip name Hp Hl.
  - destruct p; [|simpl in Hl; lia]. done.
  - pose proof (skip_elem_run p rest name Hp) as Hs. cbn [namex_loop]. destruct (components p) as [|e es] eqn:Ec.
    + rewrite Hs. done.
    + destruct Hs as (q & -> & Eq & Hq & Hh & Hlq). intros s. cbn [in_bounds]. rewrite bind_ret_l. cbn [walk].
      apply req_bind. intros [] s1. apply req_bind. intros d s2. destruct (bool_decide (i_type d ≠ T_DIR)); [done|].
      assert (bool_decide (head (q ++ x00 :: rest) = Some x00) = bool_decide (es = [])) as ->.
      { apply bool_decide_ext. rewrite <- Eq. destruct q as [|c q]; [done|]. cbn [app head].
        split; [intros [= ->]; by destruct Hq; left|]. intros En.
        assert (c ≠ slash) as Hc by (intros ->; by apply Hh). exfalso.
        destruct (take_elem_run (c :: q) rest) as (e' & q' & Ee & _ & He' & Hq'); [done|].
        assert (e' ≠ []) as Hne. { intros ->. simpl in Ee. subst q'. destruct Hq' as [|[= ->]]; done. }
        rewrite Ee in En. unfold components in En. by rewrite (components_elem e' q' He' Hq' []) in En. }
      destruct (parent && bool_decide (es = [])); [done|]. apply req_bind. intros [[next off]|] s3; [|done].
      apply req_bind. intros [] s4. apply req_bind. intros []. subst es. apply IH; [done|lia].
Qed.

(** C38. Resolving a path is walking along its components, whatever slashes
    separate them: [namex] is the walk over the list of components, from the
    root for an absolute path and from the current directory otherwise, and
    its loop always ends within the length of the path.  This holds of whole
    runs, the ones that sleep on an inode's lock included. *)
Theorem namex_walks_components p rest parent name : x00 ∉ p →
  namex (p ++ x00 :: rest) parent name ≋
  (let! ip := walk_from (bool_decide (head p = Some slash)) in walk (components p) ip parent name).
Proof.
  intros Hp s. unfold namex. destruct p as [|c p].
  - cbn [app head in_bounds]. rewrite bind_ret_l. apply req_bind. intros ip. apply (namex_loop_walk parent rest _ []); [done|simpl; lia].
  - cbn [app head in_bounds]. rewrite bind_ret_l.
    assert (bool_decide (Some c = Some slash) = bool_decide (c = slash)) as -> by (apply bool_decide_ext; naive_solver).
    apply req_bind. intros ip. change (c :: p ++ x00 :: rest) with ((c :: p) ++ x00 :: rest).
    apply namex_loop_walk; [done|]. rewrite length_app. lia.
Qed.
End Walk.

(** ** Witnesses: an empty directory *)
Definition kstate_dir : kstate := upd_inode 0 (set_i_type T_DIR) kstate_file.

Lemma kstate_dir_inv : dir_inv (disk_block fs_disk) ∅ kstate_dir 0.
Proof.
  pose proof kstate_file_inv as F. split; [| |done| |done].
  - apply (file_inv_change _ _ kstate_file); try done. apply bio_inv_upd_inode, (fi_bio _ _ _ _ F).
  - unfold NBUF. rewrite map_size_empty. lia.
  - split; [by vm_compute|]. intros bn Hb Hlt. simpl in Hlt. ksize; lia.
Qed.

Lemma the_inode_kstate_dir j : the_inode (S j) kstate_dir = inode0.
Proof. unfold kstate_dir. rewrite the_inode_upd_ne by done. apply the_inode_kstate_file. Qed.

Lemma kstate_dir_igets : igets_ok kstate_dir.
Proof.
  split.
  - exact kstate_file_calm.
  - split; [done|..].
    + intros [|i]; [by vm_compute|]. by rewrite the_inode_kstate_dir.
    + intros [|i] [|j] _ _; rewrite ?the_inode_kstate_dir; done.
  - intros [|i]; [vm_compute; done|]. rewrite the_inode_kstate_dir. vm_compute. done.
  - exists 1%nat. split; [unfold NINODE; lia|]. by rewrite the_inode_kstate_dir.
Qed.

Lemma dir_link_lookup_witness :
  wp (@dir_link 1%nat no_devs 0 [x61; x00] 7 kstate_dir) (λ r s1, r = 0 ∧
    wp (@dir_lookup 1%nat no_devs 0 [x61; x00] s1) (λ r s2, ∃ ip off, r = Some (ip, off) ∧ cached 0 7 ip s2)).
Proof.
  eapply wp_mono.
  - apply (@dir_link_lookup 1%nat no_devs (disk_block fs_disk) ∅ kstate_dir 0 [x61; x00] 7 [x61; x00] kstate_dir_inv).
    + by eexists.
    + by eexists.
    + apply kstate_dir_igets.
    + lia.
    + reflexivity.
    + by vm_compute.
    + apply Nat.leb_le. vm_compute. reflexivity.
  - intros r s1 (E & V1 & _ & _ & HL). split; [exact E|]. exact HL.
Defined.

Lemma dir_lookup_spec_witness :
  wp (@dir_link 1%nat no_devs 0 [x61; x00] 7 kstate_dir) (λ _ s1, 
    wp (@dir_lookup 1%nat no_devs 0 [x61; x00] s1) (λ r s2, ∃ ip off, r = Some (ip, off) ∧ cached 0 7 ip s2)).
Proof.
  eapply wp_mono.
  - apply (dir_link_run (disk_block fs_disk) ∅ kstate_dir 0 [x61; x00] 7 kstate_dir_inv); [by eexists|lia|reflexivity|by vm_compute|].
    apply Nat.leb_le. vm_compute. reflexivity.
  - intros r s1 (_ & V1 & D1 & F1 & Em & _ & Ea).
    eapply wp_mono; [apply (dir_lookup_spec V1 ∅ s1 0 [x61; x00] D1); [by eexists|]|].
    + exact (igets_ok_frame 0 kstate_dir s1 kstate_dir_igets F1 Ea).
    + intros r2 s2 HL. unfold looked_up in HL. rewrite Em in HL. 
      change (dkey [x61; x00]) with [x61] in HL. rewrite lookup_insert_eq in HL.
      destruct HL as (ip & k & E & _ & Hca & _). exists ip, (32 * Z.of_nat k). split; [exact E|exact Hca].
Defined.

Lemma namex_walks_components_witness :
  wp (@namex 1%nat no_devs ([x2f; x2f] ++ x00 :: []) false [] kstate_dir) (λ r _, r.2 = []).
Proof.
  assert (x00 ∉ [x2f; x2f]) as Hp by (apply (bool_decide_unpack _); exact I).
  pose proof (wp_req _ _ (λ r _, r.2 = []) (@namex_walks_components 1%nat no_devs [x2f; x2f] [] false [] Hp kstate_dir)) as E.
  apply (proj2 E). vm_compute. reflexivity.
Defined.
