(* ===== verification/Vm.v ===== *)
(** * Address spaces (kernel/vm.c)

    Page tables are pages of physical memory, read and written through the
    kernel's direct map like any other page: a table entry is eight bytes of
    [m_pages], and a [pte_t *] is the kernel virtual address of an entry. *)
From S2P Require Import Prelude State Spinlock Sched Sleeplock Ring Bio Balloc Inode Kalloc.

Definition USER_TOP : Z := 0x800000000000.
Definition PGSIZE_2MB : Z := 2 * 1024 * 1024.
Definition PGSIZE_1GB : Z := 1024 * 1024 * 1024.
Definition PTE_P : Z := 0x1.
Definition PTE_W : Z := 0x2.
Definition PTE_U : Z := 0x4.
Definition PTE_PCD : Z := 0x10.
Definition PTE_PS : Z := 0x80.
Definition PTE_G : Z := 0x100.
Definition K_FLAGS : Z := Z.lor (Z.lor PTE_P PTE_G) PTE_W.
Definition PTE_ADDR (pte : Z) : Z := Z.land pte (Z.lnot 0xFFF).
Definition PTE_FLAGS (pte : Z) : Z := Z.land pte 0xFFF.
Definition PML4_IDX (va : Z) : Z := Z.land (Z.shiftr va 39) 0x1FF.
Definition PDPT_IDX (va : Z) : Z := Z.land (Z.shiftr va 30) 0x1FF.

(** [e & mask], as a condition. *)
Definition has (e mask : Z) : bool := bool_decide (Z.land e mask ≠ 0).

(** ** Kernel memory accesses

    The physical address behind a kernel virtual address: [kpml4] maps the
    first 2 GiB of memory at [KERN_BASE] and 128 GiB of it at [PAGE_OFFSET]. *)
Definition kva_pa (v : Z) : Z := if bool_decide (KERN_BASE ≤ v) then V2P_KERN v else V2P v.
Definition load64 (v : Z) (s : kstate) : Z :=
  let pa := kva_pa v in
  get_le 8 (Z.to_nat (pa `mod` PGSIZE_4KB)) (page (ROUNDDOWN pa PGSIZE_4KB) (k_kmem s)).
Definition store64 (v x : Z) : M kstate unit :=
  let pa := kva_pa v in
  modify (put_page (ROUNDDOWN pa PGSIZE_4KB) (set_le 8 (Z.to_nat (pa `mod` PGSIZE_4KB)) x)).
Definition zero_fill (v : Z) : M kstate unit := modify (put_page (kva_pa v) (λ _, zero_page)).

(** ** Walking the tables *)

(** The levels of the table, by the shift of their index. *)
Fixpoint walk_loop (shifts : list Z) (entry_tables va : Z) (alloc : bool) : M kstate Z :=
  match shifts with
  | [] => ret 0
  | shift :: rest =>
    let entry_pointer := entry_tables + 8 * Z.land (Z.shiftr va shift) 0x1FF in
    let! entry := gets (load64 entry_pointer) in
    match rest with
    | [] =>
      if alloc then ret entry_pointer
      else ret (if has entry PTE_P then entry_pointer else 0)
    | _ :: _ =>
      if has entry PTE_P then
        if has entry PTE_PS then ret entry_pointer
        else walk_loop rest (P2V (Z.land entry (Z.lnot 0xFFF))) va alloc
      else if negb alloc then ret 0
      else
        let! t := kalloc in
        if bool_decide (t = 0) then ret 0 else
        zero_fill t ;;;
        store64 entry_pointer (Z.lor (Z.lor (Z.lor (V2P t) PTE_P) PTE_W) PTE_U) ;;;
        walk_loop rest t va alloc
    end
  end.

Definition walk_pml4 (pml4 va : Z) (alloc : bool) : M kstate Z :=
  walk_loop [39; 30; 21; 12] pml4 va alloc.

(** [for(it = large_start;; it += PGSIZE_4KB, pa += PGSIZE_4KB)] *)
Fixpoint map_loop (fuel : nat) (pml4 it last pa perm : Z) : M kstate Z :=
  match fuel with
  | O => no_fuel
  | S fuel' =>
    let! pte := walk_pml4 pml4 it true in
    if bool_decide (pte = 0) then ret (-1) else
    let! e := gets (load64 pte) in
    if has e PTE_P then panic "remap" else
    store64 pte (Z.lor (Z.lor pa perm) PTE_P) ;;;
    if bool_decide (it = last) then ret 0
    else map_loop fuel' pml4 (u64 (it + PGSIZE_4KB)) last (u64 (pa + PGSIZE_4KB)) perm
  end.

Definition map_pages (pml4 va size pa perm : Z) : M kstate Z :=
  let large_start := ROUNDDOWN va PGSIZE_4KB in
  let last := ROUNDDOWN (u64 (va + size - 1)) PGSIZE_4KB in
  map_loop (S (Z.to_nat (u64 (last - large_start) / PGSIZE_4KB))) pml4 large_start last pa perm.

Definition io_remap (pa size : Z) : M kstate Z :=
  let! v := gets k_vm in
  let va_start := v_io_bump v in
  let pa_offset := Z.land pa 0xFFF in
  let! res := map_pages (v_kpml4 v) va_start size (ROUNDDOWN pa PGSIZE_4KB) (Z.lor PTE_PCD PTE_W) in
  if bool_decide (res ≠ 0) then panic "io_remap failed by map_pages failure" else
  modify (set_k_vm (set_v_io_bump (ROUNDDOWN (u64 (va_start + size - 1)) PGSIZE_4KB + PGSIZE_4KB))) ;;;
  ret (va_start + pa_offset).

(** ** The kernel's own table *)

Definition fill_1gb (pdpt base : Z) (n : nat) : M kstate unit :=
  for_each (seqZ 0 (Z.of_nat n)) (λ i,
    store64 (pdpt + 8 * (PDPT_IDX base + i)) (Z.lor (Z.lor (i * PGSIZE_1GB) PTE_PS) K_FLAGS)).

Definition direct_map_init (pml4 : Z) : M kstate unit :=
  let! e := gets (load64 (pml4 + 8 * PML4_IDX PAGE_OFFSET)) in
  if bool_decide (e ≠ 0) then panic "direct mapping init failed" else
  let! pdpt := bump_alloc_page_4kb in
  store64 (pml4 + 8 * PML4_IDX PAGE_OFFSET) (Z.lor (V2P_KERN pdpt) K_FLAGS) ;;;
  fill_1gb pdpt PAGE_OFFSET 128.

Definition kernel_map_init (pml4 : Z) : M kstate unit :=
  let! e := gets (load64 (pml4 + 8 * PML4_IDX KERN_BASE)) in
  if bool_decide (e ≠ 0) then panic "kernel mapping init failed" else
  let! pdpt := bump_alloc_page_4kb in
  store64 (pml4 + 8 * PML4_IDX KERN_BASE) (Z.lor (V2P_KERN pdpt) K_FLAGS) ;;;
  fill_1gb pdpt KERN_BASE 2.

Definition setup_kvm : M kstate Z :=
  let! pml4 := bump_alloc_page_4kb in
  if bool_decide (pml4 = 0) then ret 0 else
  direct_map_init pml4 ;;;
  kernel_map_init pml4 ;;;
  ret pml4.

Definition get_kpml4 : M kstate Z := gets (λ s, v_kpml4 (k_vm s)).
Definition wcr3 (v : Z) : M kstate unit := modify (set_k_cpu (set_c_cr3 v)).
Definition switch_kvm : M kstate unit :=
  let! k := get_kpml4 in wcr3 (V2P_KERN k).
Definition kvmalloc : M kstate unit :=
  let! pml4 := setup_kvm in
  modify (set_k_vm (set_v_kpml4 pml4)) ;;;
  switch_kvm.

Definition switch_uvm (p : option nat) : M kstate unit :=
  match p with
  | None => panic "switch_uvm: no proc"
  | Some i =>
    let! p := gets (the_proc i) in
    if bool_decide (p_kstack p = 0) then panic "switch+uvm: no kstack" else
    if bool_decide (p_pml4 p = 0) then panic "switch_uvm: no pml4" else
    push_cli ;;;
    modify (set_k_cpu (set_c_rsp0 (p_kstack p + KSTACKSIZE))) ;;;
    modify (set_k_cpu (set_c_kernel_stack (p_kstack p + KSTACKSIZE))) ;;;
    wcr3 (V2P (p_pml4 p)) ;;;
    pop_cli
  end.

(** ** User address spaces *)

Definition setup_uvm : M kstate Z :=
  let! pml4 := kalloc in
  if bool_decide (pml4 = 0) then ret 0 else
  zero_fill pml4 ;;;
  for_each (seqZ 256 256) (λ i,
    let! kpml4 := get_kpml4 in
    let! e := gets (load64 (kpml4 + 8 * i)) in
    store64 (pml4 + 8 * i) e) ;;;
  ret pml4.

(** [memset] through a null pointer faults. *)
Definition init_uvm (pml4 : Z) (init : list byte) : M kstate unit :=
  if bool_decide (PGSIZE_4KB ≤ Z.of_nat (length init)) then panic "init is too big" else
  let! mem := kalloc in
  if bool_decide (mem = 0) then panic "kernel page fault" else
  zero_fill mem ;;;
  map_pages pml4 0 PGSIZE_4KB (V2P mem) (Z.lor PTE_W PTE_U) ;;;
  modify (put_page (V2P mem) (splice 0 init)).

Fixpoint dealloc_loop (fuel : nat) (pml4 addr old_sz : Z) : M kstate unit :=
  if bool_decide (addr < old_sz) then
    match fuel with
    | O => no_fuel
    | S fuel' =>
      let! pte := walk_pml4 pml4 addr false in
      if bool_decide (pte = 0) then
        dealloc_loop fuel' pml4
          (Z.land (addr + PGSIZE_2MB) (Z.lnot (PGSIZE_2MB - 1)) - PGSIZE_4KB + PGSIZE_4KB) old_sz
      else
        let! e := gets (load64 pte) in
        when (has e PTE_P) (
          let pa := PTE_ADDR e in
          if bool_decide (pa = 0) then panic "dealloc_uvm : can't free" else
          kfree (P2V pa) ;;;
          store64 pte 0) ;;;
        dealloc_loop fuel' pml4 (addr + PGSIZE_4KB) old_sz
    end
  else ret tt.

Definition page_fuel (from upto : Z) : nat := S (Z.to_nat ((upto - from) / PGSIZE_4KB)).

Definition dealloc_uvm (pml4 old_sz new_sz : Z) : M kstate Z :=
  if bool_decide (old_sz ≤ new_sz) then ret old_sz else
  let addr := ROUNDUP new_sz PGSIZE_4KB in
  dealloc_loop (page_fuel addr old_sz) pml4 addr old_sz ;;;
  ret new_sz.

Fixpoint alloc_loop (fuel : nat) (pml4 addr old_sz new_sz : Z) : M kstate Z :=
  if bool_decide (addr < new_sz) then
    match fuel with
    | O => no_fuel
    | S fuel' =>
      let! mem := kalloc in
      if bool_decide (mem = 0) then
        dealloc_uvm pml4 new_sz old_sz ;;;
        ret 0
      else
        zero_fill mem ;;;
        let! r := map_pages pml4 addr PGSIZE_4KB (V2P mem) (Z.lor PTE_W PTE_U) in
        if bool_decide (r < 0) then
          dealloc_uvm pml4 new_sz old_sz ;;;
          kfree mem ;;;
          ret 0
        else alloc_loop fuel' pml4 (addr + PGSIZE_4KB) old_sz new_sz
    end
  else ret new_sz.

Definition alloc_uvm (pml4 old_sz new_sz : Z) : M kstate Z :=
  if bool_decide (new_sz < old_sz) then ret old_sz else
  if bool_decide (USER_TOP ≤ new_sz) then ret 0 else
  let addr := ROUNDUP old_sz PGSIZE_4KB in
  alloc_loop (page_fuel addr new_sz) pml4 addr old_sz new_sz.

(** [free_entry(table, 3 - n)] *)
Fixpoint free_entry (n : nat) (table : Z) : M kstate unit :=
  match n with
  | O => kfree table
  | S n' =>
    for_each (seqZ 0 (if bool_decide (n = 3%nat) then 256 else 512)) (λ i,
      let! e := gets (load64 (table + 8 * i)) in
      when (has e PTE_P) (free_entry n' (P2V (PTE_ADDR e)))) ;;;
    kfree table
  end.

Definition free_vm (pml4 sz : Z) : M kstate unit :=
  if bool_decide (pml4 = 0) then panic "free_vm: no pml4" else
  dealloc_uvm pml4 sz 0 ;;;
  free_entry 3 pml4.

Fixpoint copy_loop (fuel : nat) (pml4 new_pml4 addr sz : Z) : M kstate Z :=
  if bool_decide (addr < sz) then
    match fuel with
    | O => no_fuel
    | S fuel' =>
      let! pte := walk_pml4 pml4 addr false in
      if bool_decide (pte = 0) then panic "copy_uvm: pte should exist" else
      let! e := gets (load64 pte) in
      if negb (has e PTE_P) then panic "copy_uvm: page not present" else
      let pa := PTE_ADDR e in
      let flags := PTE_FLAGS e in
      let! mem := kalloc in
      if bool_decide (mem = 0) then free_vm new_pml4 addr ;;; ret 0 else
      modify (λ s, put_page (V2P mem) (λ _, page pa (k_kmem s)) s) ;;;
      let! r := map_pages new_pml4 addr PGSIZE_4KB (V2P mem) flags in
      if bool_decide (r < 0) then kfree mem ;;; free_vm new_pml4 addr ;;; ret 0
      else copy_loop fuel' pml4 new_pml4 (addr + PGSIZE_4KB) sz
    end
  else ret new_pml4.

Definition copy_uvm (pml4 sz : Z) : M kstate Z :=
  let! new_pml4 := setup_uvm in
  if bool_decide (new_pml4 = 0) then ret 0 else
  copy_loop (page_fuel PGSIZE_4KB sz) pml4 new_pml4 PGSIZE_4KB sz.

Section LoadUvm.
Context {wf : WakeFuel} {dsw : DevSw}.

Fixpoint load_loop (fuel : nat) (pml4 addr : Z) (ip : nat) (offset i sz : Z) : M kstate Z :=
  if bool_decide (i < sz) then
    match fuel with
    | O => no_fuel
    | S fuel' =>
      let! pte := walk_pml4 pml4 (addr + i) false in
      if bool_decide (pte = 0) then panic "load_uvm : pte doesnt exist" else
      let! e := gets (load64 pte) in
      let pa := PTE_ADDR e in
      let how_many_to_read := Z.min (sz - i) PGSIZE_4KB in
      let! r := readi ip (offset + i) how_many_to_read in
      modify (put_page pa (splice 0 (snd r))) ;;;
      if bool_decide (fst r ≠ how_many_to_read) then ret (-1)
      else load_loop fuel' pml4 addr ip offset (i + PGSIZE_4KB) sz
    end
  else ret 0.

Definition load_uvm (pml4 addr : Z) (ip : nat) (offset sz : Z) : M kstate Z :=
  if bool_decide (addr `mod` PGSIZE_4KB ≠ 0) then panic "load_uvm : addr must be 4kb aligned" else
  load_loop (page_fuel 0 sz) pml4 addr ip offset 0 sz.
End LoadUvm.

Definition clear_pte_u (pml4 uva : Z) : M kstate unit :=
  let! pte := walk_pml4 pml4 uva false in
  if bool_decide (pte = 0) then panic "clear_pte_u: clear what?" else
  let! e := gets (load64 pte) in
  store64 pte (Z.land e (Z.lnot PTE_U)).

Definition uva2dma (pml4 uva : Z) : M kstate Z :=
  let! pte := walk_pml4 pml4 uva false in
  if bool_decide (pte = 0) then ret 0 else
  let! e := gets (load64 pte) in
  if negb (has e PTE_P) then ret 0 else
  if negb (has e PTE_U) then ret 0 else
  ret (P2V (PTE_ADDR e)).

(** The bytes from [buf] on. *)
Fixpoint copy_out_loop (fuel : nat) (pml4 va : Z) (buf : list byte) : M kstate Z :=
  if bool_decide (0 < length buf)%nat then
    match fuel with
    | O => no_fuel
    | S fuel' =>
      let va0 := ROUNDDOWN va PGSIZE_4KB in
      let! pa0 := uva2dma pml4 va0 in
      if bool_decide (pa0 = 0) then ret (-1) else
      let to_write := Z.min (PGSIZE_4KB - (va - va0)) (Z.of_nat (length buf)) in
      modify (put_page (V2P pa0) (splice (Z.to_nat (va - va0)) (take (Z.to_nat to_write) buf))) ;;;
      copy_out_loop fuel' pml4 (va0 + PGSIZE_4KB) (drop (Z.to_nat to_write) buf)
    end
  else ret 0.

Definition copy_out (pml4 va : Z) (p : list byte) : M kstate Z :=
  copy_out_loop (S (S (Z.to_nat (Z.of_nat (length p) / PGSIZE_4KB)))) pml4 va p.
