(* ===== verification/PageTable.v ===== *)
(** * Page tables as trees (the reference model of kernel/vm.c's walk)

    A table page is given a height - 0 for a page table, 3 for the PML4 - and
    the prefix of the virtual addresses it serves.  A finite map [O] from
    physical pages to (height, prefix) says which pages are tables of an
    address space; being a map, it makes the tables a tree. *)
From S2P Require Import Prelude State Spinlock Sched Sleeplock Ring Bio Balloc Inode Kalloc Vm.

(** ** Bits of an entry *)

Lemma land_4095 x : Z.land x 4095 = x `mod` 4096.
Proof. change 4095 with (Z.ones 12). by rewrite Z.land_ones by lia. Qed.

Lemma PTE_ADDR_eq x : PTE_ADDR x = x - x `mod` 4096.
Proof.
  unfold PTE_ADDR. change (Z.lnot 0xFFF) with (Z.lnot (Z.ones 12)).
  rewrite <- Z.ldiff_land, Z.ldiff_ones_r by lia. rewrite Z.shiftl_mul_pow2, Z.shiftr_div_pow2 by lia.
  change (2 ^ 12) with 4096. pose proof (Z.div_mod x 4096 ltac:(done)). lia.
Qed.

Section Entry.
Context (pa f : Z) (Hpa : pa `mod` 4096 = 0) (Hf : 0 ≤ f < 4096).

Lemma entry_mod : (pa + f) `mod` 4096 = f.
Proof. rewrite Zplus_mod, Hpa, Z.add_0_l, Z.mod_mod by done. by apply Z.mod_small. Qed.

Lemma entry_lor : Z.lor pa f = pa + f.
Proof.
  pose proof (Z.add_lor_land pa f) as H. enough (Z.land pa f = 0) by lia.
  rewrite <- (Z.mod_small f 4096) by lia. rewrite <- land_4095, Z.land_comm, <- Z.land_assoc.
  rewrite (Z.land_comm 4095), land_4095, Hpa. apply Z.land_0_r.
Qed.

Lemma entry_addr : PTE_ADDR (pa + f) = pa.
Proof. rewrite PTE_ADDR_eq, entry_mod. lia. Qed.

Lemma entry_flags : PTE_FLAGS (pa + f) = f.
Proof. unfold PTE_FLAGS. change 0xFFF with 4095. by rewrite land_4095, entry_mod. Qed.

Lemma entry_has m : Z.land 4095 m = m → has (pa + f) m = has f m.
Proof.
  intros Hm. unfold has. rewrite <- Hm, !Z.land_assoc, !land_4095, entry_mod. by rewrite Z.mod_small.
Qed.
End Entry.

Lemma has_0 m : has 0 m = false.
Proof. done. Qed.

(** ** Indices and prefixes *)

Definition sh (h : nat) : Z := 12 + 9 * Z.of_nat h.
Definition idx (h : nat) (va : Z) : Z := Z.land (Z.shiftr va (sh h)) 0x1FF.
Definition pfx (h : nat) (va : Z) : Z := va / 2 ^ sh (S h).
Definition in_user (va : Z) : Prop := 0 ≤ va < USER_TOP.

Lemma idx_eq h va : idx h va = (va / 2 ^ sh h) `mod` 512.
Proof.
  unfold idx. change 0x1FF with (Z.ones 9). rewrite Z.land_ones by lia.
  rewrite Z.shiftr_div_pow2 by (unfold sh; lia). done.
Qed.

Lemma idx_range h va : 0 ≤ idx h va < 512.
Proof. rewrite idx_eq. by apply Z.mod_pos_bound. Qed.

Lemma pfx_step h va : pfx h va = pfx (S h) va * 512 + idx (S h) va.
Proof.
  rewrite idx_eq. unfold pfx. assert (2 ^ sh (S (S h)) = 2 ^ sh (S h) * 512) as ->.
  { change 512 with (2 ^ 9). rewrite <- Z.pow_add_r by (unfold sh; lia). f_equal. unfold sh. lia. }
  rewrite <- Z.div_div by (try apply Z.pow_nonzero; unfold sh; lia).
  pose proof (Z.div_mod (va / 2 ^ sh (S h)) 512 ltac:(done)). lia.
Qed.

(** The page number is the prefix below a page table. *)
Lemma page_number va : va / 4096 = pfx 0 va * 512 + idx 0 va.
Proof.
  rewrite idx_eq. unfold pfx. change (2 ^ sh 1) with (4096 * 512). change (2 ^ sh 0) with 4096.
  rewrite <- Z.div_div by lia. pose proof (Z.div_mod (va / 4096) 512 ltac:(done)). lia.
Qed.

Lemma pfx_root va : in_user va → pfx 3 va = 0.
Proof. intros Hu. unfold in_user, USER_TOP, pfx, sh in *. apply Z.div_small. simpl. lia. Qed.

Lemma idx_root va : in_user va → idx 3 va < 256.
Proof.
  intros Hu. unfold in_user, USER_TOP in *. rewrite idx_eq. change (2 ^ sh 3) with (2 ^ 39).
  assert (va / 2 ^ 39 < 256) by (apply Z.div_lt_upper_bound; lia).
  pose proof (Z.div_pos va (2 ^ 39)). rewrite Z.mod_small; lia.
Qed.

(** ** Entries in memory *)

Definition ent (pa i : Z) (s : kstate) : Z := get_le 8 (Z.to_nat (8 * i)) (page pa (k_kmem s)).

Record table_page (pa : Z) (s : kstate) : Prop := {
  tp_align : pa `mod` 4096 = 0;
  tp_range : 0 < pa < PHY_STOP;
  tp_len : length (page pa (k_kmem s)) = page_nat
}.

Lemma kva_entry pa i : 0 ≤ pa < PHY_STOP → 0 ≤ i < 512 → kva_pa (P2V pa + 8 * i) = pa + 8 * i.
Proof.
  intros Hp Hi. unfold kva_pa. rewrite P2V_small by lia. unfold PHY_STOP in Hp.
  rewrite bool_decide_false by (unfold KERN_BASE, PAGE_OFFSET; lia).
  unfold V2P. replace (PAGE_OFFSET + pa + 8 * i - PAGE_OFFSET) with (pa + 8 * i) by lia. apply u64_small. lia.
Qed.

Lemma entry_place pa i : pa `mod` 4096 = 0 → 0 ≤ i < 512 →
  ROUNDDOWN (pa + 8 * i) PGSIZE_4KB = pa ∧ (pa + 8 * i) `mod` PGSIZE_4KB = 8 * i.
Proof.
  intros Hp Hi. unfold ROUNDDOWN, PGSIZE_4KB.
  assert ((pa + 8 * i) `mod` 4096 = 8 * i) as Hm.
  { rewrite Zplus_mod, Hp, Z.add_0_l, Z.mod_mod by done. apply Z.mod_small. lia. }
  split; [|done]. pose proof (Z.div_mod (pa + 8 * i) 4096 ltac:(done)). lia.
Qed.

Lemma load64_entry pa i s : pa `mod` 4096 = 0 → 0 ≤ pa < PHY_STOP → 0 ≤ i < 512 →
  load64 (P2V pa + 8 * i) s = ent pa i s.
Proof.
  intros Ha Hp Hi. unfold load64. rewrite kva_entry by done.
  destruct (entry_place pa i Ha Hi) as [-> ->]. done.
Qed.

Lemma store64_entry pa i x s : pa `mod` 4096 = 0 → 0 ≤ pa < PHY_STOP → 0 ≤ i < 512 →
  store64 (P2V pa + 8 * i) x s = Done tt (put_page pa (set_le 8 (Z.to_nat (8 * i)) x) s).
Proof.
  intros Ha Hp Hi. unfold store64. rewrite kva_entry by done.
  destruct (entry_place pa i Ha Hi) as [-> ->]. done.
Qed.

Lemma page_put pa f s pa' :
  page pa' (k_kmem (put_page pa f s)) = if decide (pa = pa') then f (page pa (k_kmem s)) else page pa' (k_kmem s).
Proof.
  unfold put_page. ksimpl. case_decide as E; [subst pa'; apply page_insert_eq|by apply page_insert_ne].
Qed.

Lemma ent_store pa i x s pa' j :
  table_page pa s → 0 ≤ i < 512 → 0 ≤ j < 512 → 0 ≤ x < 2 ^ 64 →
  ent pa' j (put_page pa (set_le 8 (Z.to_nat (8 * i)) x) s) =
    if decide (pa = pa' ∧ i = j) then x else ent pa' j s.
Proof.
  intros [Ha Hr Hl] Hi Hj Hx. unfold ent. rewrite page_put. unfold page_nat in Hl.
  destruct (decide (pa = pa')) as [<-|]; [|by rewrite decide_False by tauto].
  destruct (decide (i = j)) as [<-|].
  - rewrite decide_True by done. rewrite get_set_le_eq by lia. by apply Z.mod_small.
  - rewrite decide_False by tauto. apply get_set_le_ne; lia.
Qed.

Lemma table_page_store pa i x s pa' :
  0 ≤ i < 512 → table_page pa' s → table_page pa' (put_page pa (set_le 8 (Z.to_nat (8 * i)) x) s).
Proof.
  intros Hi [Ha Hr Hl]. split; [done|done|]. rewrite page_put. case_decide; [subst pa'|done].
  rewrite set_le_length; [done|]. rewrite Hl. unfold page_nat. lia.
Qed.

(** ** The invariant *)

Notation tables := (gmap Z (nat * Z)).

(** Entries of a table that belong to user space. *)
Definition width (h : nat) : Z := if decide (h = 3%nat) then 256 else 512.

Lemma idx_width h va : in_user va → idx h va < width h.
Proof. intros Hu. unfold width. case_decide as E; [subst; by apply idx_root|apply idx_range]. Qed.
Lemma width_512 h : width h ≤ 512.
Proof. unfold width. case_decide; lia. Qed.

Record vm_ok (O : tables) (root : Z) (l : list Z) (s : kstate) : Prop := {
  vo_bump : 0 < m_bump_ptr (k_kmem s) < PHY_STOP;
  vo_free : free_list_is (k_kmem s) l;
  vo_root : O !! root = Some (3%nat, 0);
  vo_table : ∀ pa x, O !! pa = Some x → table_page pa s ∧ P2V pa ∉ l;
  vo_child : ∀ pa h p i, O !! pa = Some (S h, p) → 0 ≤ i < width (S h) → has (ent pa i s) PTE_P = true →
    has (ent pa i s) PTE_PS = false ∧ O !! PTE_ADDR (ent pa i s) = Some (h, p * 512 + i)
}.

(** The value of the last-level entry of [va], following the tables from a
    table of height [h]; 0 where a table is missing.  This is the address
    space as the hardware sees it. *)
Fixpoint leaf (h : nat) (pa va : Z) (s : kstate) : Z :=
  let e := ent pa (idx h va) s in
  match h with
  | O => e
  | S h' => if has e PTE_P then leaf h' (PTE_ADDR e) va s else 0
  end.
Definition pte_of (root va : Z) (s : kstate) : Z := leaf 3 root va s.

(** The page table (height 0) of [va], if it is there. *)
Fixpoint pt_of (h : nat) (pa va : Z) (s : kstate) : option Z :=
  match h with
  | O => Some pa
  | S h' =>
    let e := ent pa (idx h va) s in
    if has e PTE_P then pt_of h' (PTE_ADDR e) va s else None
  end.

Lemma leaf_pt h pa va s :
  leaf h pa va s = match pt_of h pa va s with Some pt => ent pt (idx 0 va) s | None => 0 end.
Proof. revert pa. induction h as [|h IH]; intros pa; simpl; [done|]. case_match; [apply IH|done]. Qed.

(** ** Pages from the free list *)

Record fresh_page (pa : Z) : Prop := {
  fp_align : pa `mod` 4096 = 0;
  fp_range : 0 < pa < PHY_STOP
}.

Lemma free_page_fresh m l v : free_list_is m l → 0 < m_bump_ptr m < PHY_STOP → v ∈ l →
  fresh_page (V2P v) ∧ P2V (V2P v) = v.
Proof.
  intros [_ [Hok _]] Hb Hv. destruct (Hok v Hv) as [Hk Hr].
  unfold kfree_ok in Hk. rewrite !andb_true_iff, !bool_decide_eq_true in Hk. destruct Hk as [[Ha Hb'] Hp].
  split; [|apply P2V_V2P; lia]. rewrite P2V_small in Hb' by lia. 
  assert (V2P v = v - PAGE_OFFSET) as E by (unfold V2P; apply u64_small; unfold PAGE_OFFSET in *; lia).
  split; rewrite E; [|unfold PHY_STOP, PAGE_OFFSET in *; lia].
  unfold PGSIZE_4KB in Ha. rewrite Zminus_mod, Ha. done.
Qed.

Lemma kva_pa_page pa : 0 ≤ pa < PHY_STOP → kva_pa (P2V pa) = pa.
Proof.
  intros H. pose proof (kva_entry pa 0 H ltac:(lia)) as E. by rewrite Z.mul_0_r, !Z.add_0_r in E.
Qed.

(** How an operation on one address space may change the machine: it takes
    pages from the front of the free list, some of which become tables, and
    writes to nothing but those pages and its own tables - and of the PML4
    only to the user half. *)
Record vm_step (root : Z) (O O' : tables) (l l' : list Z) (s s' : kstate) : Prop := {
  vs_frame : kmem_frame s s';
  vs_bump : m_bump_ptr (k_kmem s') = m_bump_ptr (k_kmem s);
  vs_tables : O ⊆ O';
  vs_taken : ∃ t, l = t ++ l';
  vs_new : ∀ pa x, O' !! pa = Some x → O !! pa = None → P2V pa ∈ l ∧ P2V pa ∉ l';
  vs_page : ∀ pa, O !! pa = None → P2V pa ∉ l → page pa (k_kmem s') = page pa (k_kmem s);
  vs_kernel : ∀ i, 256 ≤ i < 512 → ent root i s' = ent root i s
}.

Lemma vm_step_refl root O l s : vm_step root O O l l s s.
Proof. split; try done; [by destruct s|by exists []|]. intros pa x H H'. congruence. Qed.

Lemma vm_step_trans root O1 O2 O3 l1 l2 l3 s1 s2 s3 :
  vm_step root O1 O2 l1 l2 s1 s2 → vm_step root O2 O3 l2 l3 s2 s3 → vm_step root O1 O3 l1 l3 s1 s3.
Proof.
  intros [F1 B1 T1 [t1 L1] N1 P1 K1] [F2 B2 T2 [t2 L2] N2 P2 K2].
  split.
  - unfold kmem_frame in *. rewrite F2, F1. by kext.
  - congruence.
  - by etrans.
  - exists (t1 ++ t2). by rewrite <- app_assoc, <- L2.
  - intros pa x H3 H1. destruct (O2 !! pa) as [y|] eqn:H2.
    + destruct (N1 pa y H2 H1) as [Hin Hni]. split; [done|]. intros Hc. apply Hni. rewrite L2. set_solver.
    + destruct (N2 pa x H3 H2) as [Hin Hni]. split; [|done]. rewrite L1. set_solver.
  - intros pa H1 Hl. assert (O2 !! pa = None) as H2.
    { destruct (O2 !! pa) as [y|] eqn:H2; [|done]. by destruct (N1 pa y H2 H1). }
    rewrite P2, P1; try done. intros Hc. apply Hl. rewrite L1. set_solver.
  - intros i Hi. by rewrite K2, K1.
Qed.

(** ** Taking a page, storing an entry, adding a table *)

Lemma free_list_put pa f s l :
  0 ≤ pa < 2 ^ 64 → free_list_is (k_kmem s) l → P2V pa ∉ l → free_list_is (k_kmem (put_page pa f s)) l.
Proof.
  intros Hpa [Hl [Hok Hnd]] Hnin. split; [|split; done].
  change (m_free_list (k_kmem (put_page pa f s))) with (m_free_list (k_kmem s)).
  eapply linked_frame; [|exact Hl]. intros v Hv. rewrite page_put, decide_False; [done|].
  intros ->. apply Hnin. destruct (Hok v Hv). by rewrite P2V_V2P by lia.
Qed.

(** A page taken from the free list and filled by [f]. *)
Definition took (v : Z) (f : list byte → list byte) (s : kstate) : kstate :=
  put_page (V2P v) f (set_k_kmem kmem_alloced s).

Section Take.
Context (O : tables) (root v : Z) (l : list Z) (s : kstate) (f : list byte → list byte).
Hypothesis Hok : vm_ok O root (v :: l) s.

Lemma take_fresh : fresh_page (V2P v) ∧ P2V (V2P v) = v ∧ v ∉ l ∧ O !! V2P v = None.
Proof.
  destruct (free_page_fresh (k_kmem s) (v :: l) v) as [Hf Hv]; [apply Hok|apply Hok|left|].
  split; [done|]. split; [done|]. split.
  - destruct (vo_free _ _ _ _ Hok) as [_ [_ Hnd]]. by apply NoDup_cons in Hnd as [? _].
  - destruct (O !! V2P v) as [x|] eqn:E; [|done]. destruct (vo_table _ _ _ _ Hok _ _ E) as [_ Hn].
    rewrite Hv in Hn. set_solver.
Qed.

Lemma take_kalloc : kalloc s = Done v (set_k_kmem kmem_alloced s) ∧ v ≠ 0.
Proof.
  destruct (vo_free _ _ _ _ Hok) as [[E _] [Hpo _]]. destruct (Hpo v ltac:(left)) as [_ Hv].
  rewrite kalloc_run, E, decide_False by lia. split; [done|lia].
Qed.

Lemma take_page pa : pa ≠ V2P v → page pa (k_kmem (took v f s)) = page pa (k_kmem s).
Proof.
  intros Hne. unfold took. rewrite page_put, decide_False by done.
  destruct (vo_free _ _ _ _ Hok) as [[E _] _]. unfold kmem_alloced, page. ksimpl. simpl. rewrite E.
  by rewrite lookup_insert_ne.
Qed.

Lemma take_page_new :
  page (V2P v) (k_kmem (took v f s)) = f (replicate page_nat x02).
Proof.
  unfold took. rewrite page_put, decide_True by done.
  destruct (vo_free _ _ _ _ Hok) as [[E _] _]. unfold kmem_alloced, page. ksimpl. simpl. rewrite E.
  by rewrite lookup_insert_eq.
Qed.

Lemma table_not_taken pa x : O !! pa = Some x → pa ≠ V2P v.
Proof. intros H ->. destruct take_fresh as (_ & _ & _ & Hn). congruence. Qed.

Lemma take_ent pa x i : O !! pa = Some x → ent pa i (took v f s) = ent pa i s.
Proof. intros H. unfold ent. rewrite take_page; [done|]. by eapply table_not_taken. Qed.

Lemma take_ok : vm_ok O root l (took v f s).
Proof.
  destruct take_fresh as ([Hfa Hfr] & Hv & Hnl & Hn). pose proof Hok as [Hb Hf Hr Ht Hc].
  split.
  - done.
  - apply free_list_put; [unfold PHY_STOP in *; lia|by eapply kmem_alloced_list|by rewrite Hv].
  - done.
  - intros pa x Hx. destruct (Ht pa x Hx) as [[H1 H2 H3] H4]. split; [|set_solver].
    split; [done|done|]. rewrite take_page; [done|by eapply table_not_taken].
  - intros pa h p i Hx Hi. rewrite (take_ent pa _ i Hx). by apply Hc.
Qed.

Lemma take_step : vm_step root O O (v :: l) l s (took v f s).
Proof.
  destruct take_fresh as (_ & Hv & _ & _). split; try done.
  - by exists [v].
  - intros pa x H H'. congruence.
  - intros pa _ Hl. apply take_page. intros ->. rewrite Hv in Hl. set_solver.
  - intros i _. eapply take_ent, Hok.
Qed.

Lemma take_leaf h pa p va : in_user va →
  O !! pa = Some (h, p) → leaf h pa va (took v f s) = leaf h pa va s.
Proof.
  intros Hu. revert pa p. induction h as [|h IH]; intros pa p Hpa; cbn [leaf]; rewrite (take_ent pa _ _ Hpa); [done|].
  destruct (has _ PTE_P) eqn:E; [|done].
  destruct (vo_child _ _ _ _ Hok pa h p (idx (S h) va) Hpa) as [_ Hch]; [|done|by eapply IH].
  split; [apply idx_range|by apply idx_width].
Qed.
End Take.

(** Storing [x] into entry [i] of table [pa]. *)
Definition stored (pa i x : Z) (s : kstate) : kstate := put_page pa (set_le 8 (Z.to_nat (8 * i)) x) s.

Lemma stored_page pa i x s pa' : pa' ≠ pa → page pa' (k_kmem (stored pa i x s)) = page pa' (k_kmem s).
Proof. intros Hne. unfold stored. by rewrite page_put, decide_False. Qed.

Section Store.
Context (O : tables) (root : Z) (l : list Z) (s : kstate) (pa : Z) (h : nat) (p i x : Z).
Hypothesis Hok : vm_ok O root l s.
Hypothesis Hpa : O !! pa = Some (h, p).
Hypothesis Hi : 0 ≤ i < width h.
Hypothesis Hx : 0 ≤ x < 2 ^ 64.

Lemma store_ent pa' j : 0 ≤ j < 512 →
  ent pa' j (stored pa i x s) = if decide (pa = pa' ∧ i = j) then x else ent pa' j s.
Proof.
  intros Hj. pose proof (width_512 h). apply ent_store; [apply (vo_table _ _ _ _ Hok _ _ Hpa)|lia|done|done].
Qed.

Lemma store_table pa' : table_page pa' s → table_page pa' (stored pa i x s).
Proof. pose proof (width_512 h). apply table_page_store. lia. Qed.

Lemma store_free : free_list_is (k_kmem (stored pa i x s)) l.
Proof.
  destruct (vo_table _ _ _ _ Hok _ _ Hpa) as [[_ Hr _] Hn].
  apply free_list_put; [unfold PHY_STOP in *; lia|apply Hok|done].
Qed.

Lemma store_run : store64 (P2V pa + 8 * i) x s = Done tt (stored pa i x s).
Proof.
  destruct (vo_table _ _ _ _ Hok _ _ Hpa) as [[Ha Hr _] _]. pose proof (width_512 h).
  apply store64_entry; [done|lia|lia].
Qed.

Lemma load_run : load64 (P2V pa + 8 * i) s = ent pa i s.
Proof.
  destruct (vo_table _ _ _ _ Hok _ _ Hpa) as [[Ha Hr _] _]. pose proof (width_512 h).
  apply load64_entry; [done|lia|lia].
Qed.

Lemma store_step : vm_step root O O l l s (stored pa i x s).
Proof.
  split; try done; [by exists []|intros ?? H1 H2; congruence| |].
  - intros pa' H' _. apply stored_page. intros ->. congruence.
  - intros j Hj. rewrite store_ent by lia. apply decide_False. intros [E1 E2].
    rewrite E1, (vo_root _ _ _ _ Hok) in Hpa. injection Hpa as <- _. unfold width in Hi. simpl in Hi. lia.
Qed.
End Store.

Lemma le_get_zeros n : le_get (replicate n x00) = 0.
Proof. induction n as [|n IH]; [done|]. cbn [replicate le_get]. rewrite IH. done. Qed.

Lemma get_le_zeros n off m : get_le n off (replicate m x00) = 0.
Proof. unfold get_le, slice. rewrite drop_replicate, take_replicate. apply le_get_zeros. Qed.

Section AddTable.
Context (O : tables) (root v : Z) (l : list Z) (s : kstate) (pa : Z) (h : nat) (p i : Z).
Hypothesis Hok : vm_ok O root (v :: l) s.
Hypothesis Hpa : O !! pa = Some (S h, p).
Hypothesis Hi : 0 ≤ i < width (S h).
Hypothesis Habs : has (ent pa i s) PTE_P = false.

Let e := V2P v + 7.
Let s1 := took v (λ _, zero_page) s.
Let s2 := stored pa i e s1.
Let O' := <[V2P v := (h, p * 512 + i)]> O.

Lemma new_entry :
  Z.lor (Z.lor (Z.lor (V2P v) PTE_P) PTE_W) PTE_U = e ∧ PTE_ADDR e = V2P v ∧
  has e PTE_P = true ∧ has e PTE_PS = false ∧ 0 ≤ e < 2 ^ 64.
Proof.
  destruct (take_fresh O root v l s Hok) as ([Ha Hr] & _). subst e.
  rewrite <- !Z.lor_assoc. change (Z.lor PTE_P (Z.lor PTE_W PTE_U)) with 7.
  rewrite entry_lor, entry_addr, !entry_has by (done || lia). unfold PHY_STOP in Hr. split_and!; try done; lia.
Qed.

Lemma new_absent : O !! V2P v = None.
Proof. apply (take_fresh O root v l s Hok). Qed.

Lemma new_ne pa' x : O !! pa' = Some x → pa' ≠ V2P v.
Proof. intros H ->. pose proof new_absent. congruence. Qed.

Lemma s1_vm_ok : vm_ok O root l s1.
Proof. by apply take_ok. Qed.

Lemma ent_s2 pa' j : 0 ≤ j < 512 →
  ent pa' j s2 = if decide (pa = pa' ∧ i = j) then e else ent pa' j s1.
Proof. intros Hj. apply (store_ent O root l s1 pa (S h) p); [apply s1_vm_ok|done|done|apply new_entry|done]. Qed.

Lemma ent_s2_old pa' x j : O !! pa' = Some x → 0 ≤ j < 512 →
  ent pa' j s2 = if decide (pa = pa' ∧ i = j) then e else ent pa' j s.
Proof. intros H Hj. rewrite ent_s2 by done. case_decide; [done|]. by eapply (take_ent O root v l). Qed.

Lemma ent_s2_new j : 0 ≤ j < 512 → ent (V2P v) j s2 = 0.
Proof.
  intros Hj. rewrite ent_s2, decide_False by (done || (intros [E _]; by eapply new_ne)).
  unfold ent, s1. rewrite (take_page_new O root v l s); [apply get_le_zeros|done].
Qed.

Lemma leaf_new h' va : leaf h' (V2P v) va s2 = 0.
Proof. destruct h'; cbn [leaf]; rewrite ent_s2_new by apply idx_range; done. Qed.

Lemma add_table_leaf va : in_user va →
  ∀ h' pa', O !! pa' = Some (h', pfx h' va) → leaf h' pa' va s2 = leaf h' pa' va s.
Proof.
  intros Hu. induction h' as [|h' IH]; intros pa' Hpa'; cbn [leaf]; rewrite (ent_s2_old pa' _ _ Hpa') by apply idx_range.
  - rewrite decide_False; [done|]. intros [<- _]. congruence.
  - case_decide as E.
    + destruct E as [<- Ei]. rewrite Hpa in Hpa'. injection Hpa' as <- _.
      destruct new_entry as (_ & Ea & Ep & _). rewrite Ep, Ea, leaf_new. rewrite Ei in Habs. by rewrite Habs.
    + destruct (has (ent pa' _ s) PTE_P) eqn:Ep; [|done]. apply IH.
      destruct (vo_child _ _ _ _ Hok pa' h' _ (idx (S h') va) Hpa') as [_ ->];
        [split; [apply idx_range|by apply idx_width]|done|]. by rewrite <- pfx_step.
Qed.

Lemma add_table_ok : vm_ok O' root l s2.
Proof.
  pose proof s1_vm_ok as H1. pose proof Hok as [Hb Hf Hr Ht Hc].
  destruct (take_fresh O root v l s Hok) as ([Hfa Hfr] & Hv & Hnl & Hn).
  destruct new_entry as (_ & Ea & Ep & Eps & Ex).
  split.
  - done.
  - by apply (store_free O root l s1 pa (S h) p).
  - unfold O'. rewrite lookup_insert_ne; [done|]. intros <-. congruence.
  - intros pa' x Hx. unfold O' in Hx. apply lookup_insert_Some in Hx as [[<- _]|[Hne Hx]].
    + split; [|by rewrite Hv]. eapply store_table; [exact Hi|].
      split; [done|done|]. unfold s1. rewrite (take_page_new O root v l s) by done. apply length_replicate.
    + destruct (vo_table _ _ _ _ H1 pa' x Hx) as [T1 T2]. split; [|done].
      by eapply store_table; [exact Hi|].
  - intros pa' h' p' j Hx Hj. pose proof (width_512 (S h')). unfold O' in Hx.
    apply lookup_insert_Some in Hx as [[<- E]|[Hne Hx]]; [by rewrite ent_s2_new by lia|].
    rewrite (ent_s2_old pa' _ _ Hx) by lia. case_decide as E.
    + destruct E as [<- <-]. intros _. split; [done|]. rewrite Ea. unfold O'. rewrite lookup_insert_eq.
      rewrite Hpa in Hx. by injection Hx as <- <-.
    + intros Hpr. destruct (Hc pa' h' p' j Hx Hj Hpr) as [C1 C2]. split; [done|]. unfold O'.
      rewrite lookup_insert_ne; [done|]. intros Eq. rewrite <- Eq in C2. congruence.
Qed.

Lemma add_table_step : vm_step root O O' (v :: l) l s s2.
Proof.
  destruct (take_fresh O root v l s Hok) as (_ & Hv & Hnl & Hn).
  pose proof (vm_step_trans _ _ _ _ _ _ _ _ _ _ (take_step O root v l s (λ _, zero_page) Hok)
    (store_step O root l s1 pa (S h) p i e s1_vm_ok Hpa Hi (proj2 (proj2 (proj2 (proj2 new_entry)))))) as [F B T L N P K].
  split; try done.
  - unfold O'. by apply insert_subseteq.
  - intros pa' x Hx Ho. unfold O' in Hx. apply lookup_insert_Some in Hx as [[<- _]|[_ Hx]]; [|congruence].
    rewrite Hv. split; [left|done].
Qed.
End AddTable.
