(* ===== verification/VmSpec.v ===== *)
(** * Address spaces: what the operations of kernel/vm.c do to them *)
From S2P Require Import Prelude State Spinlock Sched Sleeplock Ring Bio Balloc Inode Kalloc Vm PageTable.

Fixpoint lvl_shifts (h : nat) : list Z :=
  match h with O => [12] | S h' => sh h :: lvl_shifts h' end.

Lemma walk_pml4_shifts pml4 va a : walk_pml4 pml4 va a = walk_loop (lvl_shifts 3) pml4 va a.
Proof. done. Qed.

(** One step of the walk above the last level. *)
Lemma walk_loop_S h t va a :
  walk_loop (lvl_shifts (S h)) t va a =
  (let! entry := gets (load64 (t + 8 * idx (S h) va)) in
   if has entry PTE_P then
     if has entry PTE_PS then ret (t + 8 * idx (S h) va)
     else walk_loop (lvl_shifts h) (P2V (PTE_ADDR entry)) va a
   else if negb a then ret 0
   else
     let! t' := kalloc in
     if bool_decide (t' = 0) then ret 0 else
     zero_fill t' ;;;
     store64 (t + 8 * idx (S h) va) (Z.lor (Z.lor (Z.lor (V2P t') PTE_P) PTE_W) PTE_U) ;;;
     walk_loop (lvl_shifts h) t' va a).
Proof. destruct h; reflexivity. Qed.

Lemma walk_loop_0 t va a :
  walk_loop (lvl_shifts 0) t va a =
  (let! entry := gets (load64 (t + 8 * idx 0 va)) in
   if a then ret (t + 8 * idx 0 va)
   else ret (if has entry PTE_P then t + 8 * idx 0 va else 0)).
Proof. reflexivity. Qed.

(** The address of the last-level entry of [va], 0 unless it is present. *)
Definition slot_of (h : nat) (pa va : Z) (s : kstate) : Z :=
  match pt_of h pa va s with
  | Some pt => if has (ent pt (idx 0 va) s) PTE_P then P2V pt + 8 * idx 0 va else 0
  | None => 0
  end.

Section Walk.
Context (root va : Z).
Hypothesis Hu : in_user va.

Lemma idx_ok h : 0 ≤ idx h va < width h.
Proof. split; [apply idx_range|by apply idx_width]. Qed.

Lemma child_ok O l s h pa :
  vm_ok O root l s → O !! pa = Some (S h, pfx (S h) va) → has (ent pa (idx (S h) va) s) PTE_P = true →
  has (ent pa (idx (S h) va) s) PTE_PS = false ∧ O !! PTE_ADDR (ent pa (idx (S h) va) s) = Some (h, pfx h va).
Proof.
  intros Hok Hpa Hp. rewrite (pfx_step h). by apply (vo_child _ _ _ _ Hok); [|apply idx_ok|].
Qed.

Lemma walk_load O l s h pa :
  vm_ok O root l s → O !! pa = Some (h, pfx h va) →
  load64 (P2V pa + 8 * idx h va) s = ent pa (idx h va) s.
Proof. intros Hok Hpa. by apply (load_run O root l s pa h (pfx h va)); [| |apply idx_ok]. Qed.

(** Without allocation the walk only reads, and finds the entry the tables lead to. *)
Lemma walk_false O l s : vm_ok O root l s → ∀ h pa, O !! pa = Some (h, pfx h va) →
  walk_loop (lvl_shifts h) (P2V pa) va false s = Done (slot_of h pa va s) s.
Proof.
  intros Hok. induction h as [|h IH]; intros pa Hpa.
  - rewrite walk_loop_0, bind_gets, (walk_load O l) by done. done.
  - rewrite walk_loop_S, bind_gets, (walk_load O l) by done. unfold slot_of. cbn [pt_of].
    destruct (has _ PTE_P) eqn:E; [|done].
    destruct (child_ok _ _ _ _ _ Hok Hpa E) as [-> Hch]. by apply IH.
Qed.

(** With allocation it adds the tables that are missing: the address space
    stays the same, and entries that were present are not touched. *)
Record walked (O : tables) (l : list Z) (s : kstate) (O' : tables) (l' : list Z) (s' : kstate) : Prop := {
  wk_ok : vm_ok O' root l' s';
  wk_step : vm_step root O O' l l' s s';
  wk_same : ∀ va', in_user va' → pte_of root va' s' = pte_of root va' s;
  wk_present : ∀ pa x j, O !! pa = Some x → 0 ≤ j < 512 → has (ent pa j s) PTE_P = true → ent pa j s' = ent pa j s;
  wk_account : ∀ v, v ∈ l → v ∈ l' ∨ is_Some (O' !! V2P v)
}.

Lemma walked_refl O l s : vm_ok O root l s → walked O l s O l s.
Proof. intros Hok. split; [done|apply vm_step_refl|done|done|by left]. Qed.

Lemma walked_trans O1 l1 s1 O2 l2 s2 O3 l3 s3 :
  walked O1 l1 s1 O2 l2 s2 → walked O2 l2 s2 O3 l3 s3 → walked O1 l1 s1 O3 l3 s3.
Proof.
  intros [A1 B1 C1 D1 E1] [A2 B2 C2 D2 E2]. split; [done|by eapply vm_step_trans| | |].
  - intros va' H'. by rewrite C2, C1.
  - intros pa x j Hx Hj Hp. rewrite (D2 pa x j); [by eapply D1| |done|].
    + by eapply lookup_weaken; [|apply (vs_tables _ _ _ _ _ _ _ B1)].
    + by rewrite (D1 pa x j).
  - intros v Hv. destruct (E1 v Hv) as [Hv2|[x Hx]]; [by apply E2|right].
    exists x. by eapply lookup_weaken; [|apply (vs_tables _ _ _ _ _ _ _ B2)].
Qed.

Lemma walked_add_table O v l s pa h :
  vm_ok O root (v :: l) s → O !! pa = Some (S h, pfx (S h) va) → has (ent pa (idx (S h) va) s) PTE_P = false →
  let s2 := stored pa (idx (S h) va) (V2P v + 7) (took v (λ _, zero_page) s) in
  walked O (v :: l) s (<[V2P v := (h, pfx h va)]> O) l s2 ∧
  ent pa (idx (S h) va) s2 = V2P v + 7.
Proof.
  intros Hok Hpa Hab s2. pose proof (idx_ok (S h)) as Hi. rewrite (pfx_step h va). split.
  - split.
    + by apply add_table_ok.
    + by apply add_table_step.
    + intros va' Hu'. apply (add_table_leaf O root v l s pa h (pfx (S h) va)); try done.
      rewrite pfx_root by done. apply Hok.
    + intros pa' x j Hx Hj Hp. unfold s2. rewrite (ent_s2_old O root v l s pa h (pfx (S h) va) _ Hok Hpa Hi pa' x j Hx Hj).
      case_decide as E; [|done]. destruct E as [<- <-]. congruence.
    + intros w [->|Hw]%elem_of_cons; [right; by rewrite lookup_insert_eq|by left].
  - unfold s2. rewrite (ent_s2_old O root v l s pa h (pfx (S h) va) _ Hok Hpa Hi pa _ _ Hpa) by apply idx_range.
    by rewrite decide_True.
Qed.

Lemma walk_true h : ∀ O l s pa,
  vm_ok O root l s → O !! pa = Some (h, pfx h va) →
  ∃ r O' l' s', walk_loop (lvl_shifts h) (P2V pa) va true s = Done r s' ∧ walked O l s O' l' s' ∧
    (length l ≤ length l' + h)%nat ∧
    ((r = 0 ∧ l' = [] ∧ (length l < h)%nat) ∨
     ∃ pt, r = P2V pt + 8 * idx 0 va ∧ pt_of h pa va s' = Some pt ∧ O' !! pt = Some (0%nat, pfx 0 va)).
Proof.
  induction h as [|h IH]; intros O l s pa Hok Hpa.
  - exists (P2V pa + 8 * idx 0 va), O, l, s. rewrite walk_loop_0, bind_gets.
    split; [done|]. split; [by apply walked_refl|]. split; [lia|]. right. by exists pa.
  - rewrite walk_loop_S, bind_gets, (walk_load O l) by done. destruct (has _ PTE_P) eqn:E.
    + destruct (child_ok _ _ _ _ _ Hok Hpa E) as [-> Hch].
      destruct (IH O l s _ Hok Hch) as (r & O' & l' & s' & Hr & Hw & Hlen & Hres).
      exists r, O', l', s'. split; [done|]. split; [done|]. split; [lia|].
      destruct Hres as [(-> & -> & ?)|(pt & -> & Hpt & HO)]; [left; split; [done|split; [done|lia]]|right].
      exists pt. split; [done|]. split; [|done]. cbn [pt_of].
      rewrite (wk_present _ _ _ _ _ _ Hw pa _ _ Hpa) by (done || apply idx_range). by rewrite E.
    + cbn [negb]. cbv iota. destruct l as [|v l].
      * exists 0, O, [], s. erewrite bind_done by apply kalloc_run.
        destruct (vo_free _ _ _ _ Hok) as [E0 _]. simpl in E0. rewrite E0.
        rewrite decide_True, bool_decide_true by done.
        split; [done|]. split; [by apply walked_refl|]. split; [simpl; lia|]. left. split; [done|]. split; [done|simpl; lia].
      * destruct (take_kalloc O root v l s Hok) as [Hk Hnz]. erewrite bind_done by exact Hk.
        rewrite bool_decide_false by done. destruct (take_fresh O root v l s Hok) as ([Hfa Hfr] & Hv & _).
        destruct (walked_add_table O v l s pa h Hok Hpa E) as [Hw He].
        assert (kva_pa v = V2P v) as Ekv by (rewrite <- Hv at 1; apply kva_pa_page; lia).
        unfold zero_fill. rewrite bind_modify, Ekv.
        change (put_page (V2P v) (λ _, zero_page) (set_k_kmem kmem_alloced s)) with (took v (λ _, zero_page) s).
        destruct (new_entry O root v l s Hok) as (Elor & Ea & Ep & _ & Ex).
        erewrite bind_done.
        2:{ rewrite Elor. apply (store_run O root l _ pa (S h) (pfx (S h) va)); [by apply take_ok|done|apply idx_ok]. }
        set (s2 := stored pa _ _ _) in *.
        destruct (IH _ l s2 (V2P v) (wk_ok _ _ _ _ _ _ Hw)) as (r & O' & l' & s' & Hr & Hw' & Hlen & Hres);
          [apply lookup_insert_eq|]. rewrite Hv in Hr.
        exists r, O', l', s'. split; [done|]. split; [by eapply walked_trans|]. split; [simpl; lia|].
        destruct Hres as [(-> & -> & ?)|(pt & -> & Hpt & HO)]; [left; split; [done|split; [done|simpl; lia]]|right].
        exists pt. split; [done|]. split; [|done]. cbn [pt_of].
        rewrite (wk_present _ _ _ _ _ _ Hw' pa (S h, pfx (S h) va)); [by rewrite He, Ep, Ea| |apply idx_range|by rewrite He].
        rewrite lookup_insert_ne; [done|]. intros Eq. rewrite <- Eq in Hpa.
        destruct (take_fresh O root v l s Hok) as (_ & _ & _ & Hn). congruence.
Qed.
End Walk.

(** ** Storing a last-level entry *)

Lemma idx_page h va va' : va / 4096 = va' / 4096 → idx h va = idx h va'.
Proof.
  intros E. rewrite !idx_eq. unfold sh. rewrite Z.pow_add_r by lia. change (2 ^ 12) with 4096.
  rewrite <- !Z.div_div by (try apply Z.pow_nonzero; lia). by rewrite E.
Qed.

Lemma pt_of_page va va' s h : ∀ pa, va / 4096 = va' / 4096 → pt_of h pa va s = pt_of h pa va' s.
Proof.
  induction h as [|h IH]; intros pa E; simpl; [done|]. rewrite (idx_page (S h) va va') by done.
  case_match; [by apply IH|done].
Qed.

Lemma pte_of_page root va va' s : va / 4096 = va' / 4096 → pte_of root va s = pte_of root va' s.
Proof.
  intros E. unfold pte_of. rewrite !leaf_pt, (pt_of_page va va') by done. by rewrite (idx_page 0 va va').
Qed.

Lemma pt_of_table O root l s va : vm_ok O root l s → in_user va → ∀ h pa pt,
  O !! pa = Some (h, pfx h va) → pt_of h pa va s = Some pt → O !! pt = Some (0%nat, pfx 0 va).
Proof.
  intros Hok Hu. induction h as [|h IH]; intros pa pt Hpa Hpt; simpl in Hpt; [congruence|].
  destruct (has _ PTE_P) eqn:E; [|done]. eapply IH; [|exact Hpt]. by eapply child_ok.
Qed.

Lemma root_user O root l s va : vm_ok O root l s → in_user va → O !! root = Some (3%nat, pfx 3 va).
Proof. intros Hok Hu. rewrite pfx_root by done. apply Hok. Qed.

Section StoreLeaf.
Context (O : tables) (root : Z) (l : list Z) (s : kstate) (pt va x : Z).
Hypothesis Hok : vm_ok O root l s.
Hypothesis Hu : in_user va.
Hypothesis Hpt : pt_of 3 root va s = Some pt.
Hypothesis Hx : 0 ≤ x < 2 ^ 64.
Let s' := stored pt (idx 0 va) x s.

Lemma leaf_table : O !! pt = Some (0%nat, pfx 0 va).
Proof. eapply (pt_of_table O root l s va); [done|done|by eapply root_user|done]. Qed.

Lemma leaf_ent pa j : 0 ≤ j < 512 → ent pa j s' = if decide (pt = pa ∧ idx 0 va = j) then x else ent pa j s.
Proof.
  intros Hj. apply (store_ent O root l s pt 0 (pfx 0 va)); [done|apply leaf_table|by apply idx_ok|done|done].
Qed.

Lemma store_leaf_pt va' : in_user va' → ∀ h pa, O !! pa = Some (h, pfx h va') → pt_of h pa va' s' = pt_of h pa va' s.
Proof.
  intros Hu'. induction h as [|h IH]; intros pa Hpa; cbn [pt_of]; [done|].
  rewrite leaf_ent by apply idx_range. rewrite decide_False.
  - destruct (has _ PTE_P) eqn:E; [|done]. apply IH. by eapply child_ok.
  - intros [<- _]. rewrite leaf_table in Hpa. discriminate.
Qed.

Lemma store_leaf_ok : vm_ok O root l s'.
Proof.
  pose proof leaf_table as Ht. destruct Hok as [Hb Hf Hr Hta Hc]. split; [done| |done| |].
  - by apply (store_free O root l s pt 0 (pfx 0 va)).
  - intros pa y Hy. destruct (Hta pa y Hy). split; [|done]. by eapply store_table; [by apply (idx_ok va Hu 0)|].
  - intros pa h p i Hpa Hi. pose proof (width_512 (S h)). rewrite leaf_ent by lia.
    rewrite decide_False; [by apply Hc|]. intros [<- _]. congruence.
Qed.

Lemma store_leaf_step : vm_step root O O l l s s'.
Proof. apply (store_step O root l s pt 0 (pfx 0 va)); [done|apply leaf_table|by apply idx_ok|done]. Qed.

Lemma store_leaf_run : store64 (P2V pt + 8 * idx 0 va) x s = Done tt s'.
Proof. apply (store_run O root l s pt 0 (pfx 0 va)); [done|apply leaf_table|by apply idx_ok]. Qed.

Lemma store_leaf_pte va' : in_user va' →
  pte_of root va' s' = if decide (va' / 4096 = va / 4096) then x else pte_of root va' s.
Proof.
  intros Hu'. unfold pte_of. rewrite !leaf_pt, store_leaf_pt by (done || by eapply root_user).
  destruct (decide (va' / 4096 = va / 4096)) as [E|E].
  - rewrite (pt_of_page va' va) by done. rewrite Hpt, leaf_ent by apply idx_range.
    by rewrite decide_True by (split; [done|]; symmetry; by apply idx_page).
  - destruct (pt_of 3 root va' s) as [pt'|] eqn:Ept; [|done]. rewrite leaf_ent by apply idx_range.
    apply decide_False. intros [<- Ei]. apply E.
    pose proof (pt_of_table O root l s va' Hok Hu' 3 root pt (root_user _ _ _ _ _ Hok Hu') Ept) as Ht.
    rewrite leaf_table in Ht. injection Ht as Ep. rewrite !page_number, Ep. congruence.
Qed.
End StoreLeaf.

(** A present page is found by the walk. *)
Lemma present_slot O root l s va : vm_ok O root l s → in_user va → has (pte_of root va s) PTE_P = true →
  ∃ pt, pt_of 3 root va s = Some pt ∧ slot_of 3 root va s = P2V pt + 8 * idx 0 va ∧
    load64 (P2V pt + 8 * idx 0 va) s = pte_of root va s ∧ P2V pt + 8 * idx 0 va ≠ 0.
Proof.
  intros Hok Hu Hp. pose proof (root_user _ _ _ _ _ Hok Hu) as Hroot.
  destruct (pt_of 3 root va s) as [pt|] eqn:Ept.
  2:{ unfold pte_of in Hp. rewrite leaf_pt, Ept in Hp. done. }
  pose proof (pt_of_table O root l s va Hok Hu 3 root pt Hroot Ept) as Ht.
  assert (pte_of root va s = ent pt (idx 0 va) s) as Epte by (unfold pte_of; by rewrite leaf_pt, Ept).
  destruct (vo_table _ _ _ _ Hok pt _ Ht) as [[Hpa Hpr _] _].
  exists pt. split; [done|]. split; [unfold slot_of; by rewrite Ept, <- Epte, Hp|]. split.
  - rewrite (load_run O root l s pt 0 (pfx 0 va)) by (done || by apply idx_ok). done.
  - rewrite P2V_small by lia. pose proof (idx_range 0 va). unfold PAGE_OFFSET. lia.
Qed.

(** ** Mapping a page *)

Lemma map_pages_one pml4 va pa perm : in_user va → va `mod` 4096 = 0 →
  map_pages pml4 va PGSIZE_4KB pa perm = map_loop 1 pml4 va va pa perm.
Proof.
  intros Hu Ha. unfold map_pages, in_user, USER_TOP in *.
  assert (ROUNDDOWN va PGSIZE_4KB = va) as E1.
  { unfold ROUNDDOWN, PGSIZE_4KB. pose proof (Z.div_mod va 4096 ltac:(done)). lia. }
  assert (ROUNDDOWN (u64 (va + PGSIZE_4KB - 1)) PGSIZE_4KB = va) as E2.
  { unfold ROUNDDOWN, PGSIZE_4KB. rewrite u64_small by lia.
    replace (va + 4096 - 1) with (4095 + (va / 4096) * 4096) by (pose proof (Z.div_mod va 4096 ltac:(done)); lia).
    rewrite Z.div_add by done. change (4095 / 4096) with 0. pose proof (Z.div_mod va 4096 ltac:(done)). lia. }
  rewrite E1, E2, Z.sub_diag. done.
Qed.

Section MapPage.
Context (O : tables) (root : Z) (l : list Z) (s : kstate) (va pa perm : Z).
Hypothesis Hok : vm_ok O root l s.
Hypothesis Hu : in_user va.
Hypothesis Hva : va `mod` 4096 = 0.
Hypothesis Hnew : has (pte_of root va s) PTE_P = false.
Hypothesis Hx : 0 ≤ Z.lor (Z.lor pa perm) PTE_P < 2 ^ 64.

Lemma map_page_ok :
  ∃ r O' l' s', map_pages (P2V root) va PGSIZE_4KB pa perm s = Done r s' ∧
    vm_ok O' root l' s' ∧ vm_step root O O' l l' s s' ∧ (length l ≤ length l' + 3)%nat ∧
    (∀ v, v ∈ l → v ∈ l' ∨ is_Some (O' !! V2P v)) ∧
    ((r = -1 ∧ l' = [] ∧ (length l < 3)%nat ∧ ∀ va', in_user va' → pte_of root va' s' = pte_of root va' s) ∨
     (r = 0 ∧ ∀ va', in_user va' →
        pte_of root va' s' = if decide (va' / 4096 = va / 4096) then Z.lor (Z.lor pa perm) PTE_P else pte_of root va' s)).
Proof.
  rewrite map_pages_one by done. cbn [map_loop]. rewrite walk_pml4_shifts.
  destruct (walk_true root va Hu 3 O l s root Hok (root_user _ _ _ _ _ Hok Hu))
    as (r & O' & l' & s' & Hr & [W1 W2 W3 W4 W5] & Hlen & Hres).
  erewrite bind_done by exact Hr.
  destruct (vo_table _ _ _ _ W1 root _ (vo_root _ _ _ _ W1)) as [[_ Hrr _] _].
  destruct Hres as [(-> & El & Hl)|(pt & -> & Hpt & HO)].
  - exists (-1), O', l', s'. rewrite bool_decide_true by done. split; [done|]. split; [done|]. split; [done|].
    split; [done|]. split; [done|]. left. done.
  - pose proof (leaf_table O' root l' s' pt va W1 Hu Hpt) as Ht.
    destruct (vo_table _ _ _ _ W1 pt _ Ht) as [[Hpa Hpr _] _].
    rewrite bool_decide_false.
    2:{ rewrite P2V_small by lia. pose proof (idx_range 0 va). unfold PAGE_OFFSET. lia. }
    rewrite bind_gets, (load_run O' root l' s' pt 0 (pfx 0 va)) by (done || by apply idx_ok).
    assert (ent pt (idx 0 va) s' = pte_of root va s) as ->.
    { rewrite <- (W3 va Hu). unfold pte_of. by rewrite leaf_pt, Hpt. }
    rewrite Hnew. erewrite bind_done by by apply (store_leaf_run O' root l').
    rewrite bool_decide_true by done. eexists 0, O', l', _. split; [done|].
    split; [by apply store_leaf_ok|]. split; [eapply vm_step_trans; [done|by apply store_leaf_step]|].
    split; [done|]. split; [done|]. right. split; [done|]. intros va' Hu'.
    rewrite (store_leaf_pte O' root l') by done. case_decide; [done|]. by apply W3.
Qed.
End MapPage.

(** A page taken from the free list, filled by [g] and mapped at [addr] - unless
    the tables that are missing on the way take the last free page, which
    leaves every address as it was. *)
Lemma map_new_page_total O root v l s addr perm g x :
  vm_ok O root (v :: l) s → in_user addr → addr `mod` 4096 = 0 → has (pte_of root addr s) PTE_P = false →
  Z.lor (Z.lor (V2P v) perm) PTE_P = x → 0 ≤ x < 2 ^ 64 →
  ∃ r O' l' s', map_pages (P2V root) addr PGSIZE_4KB (V2P v) perm (took v g s) = Done r s' ∧
    vm_ok O' root l' s' ∧ vm_step root O O' (v :: l) l' s s' ∧ (length l ≤ length l' + 3)%nat ∧
    (∀ w, w ∈ l → w ∈ l' ∨ is_Some (O' !! V2P w)) ∧ O' !! V2P v = None ∧ v ∉ l' ∧
    page (V2P v) (k_kmem s') = g (replicate page_nat x02) ∧
    ((r = -1 ∧ l' = [] ∧ (length l < 3)%nat ∧ ∀ va, in_user va → pte_of root va s' = pte_of root va s) ∨
     (r = 0 ∧ ∀ va, in_user va →
        pte_of root va s' = if decide (va / 4096 = addr / 4096) then x else pte_of root va s)).
Proof.
  intros Hok Hu Ha Hnew Ex Hx. destruct (take_fresh O root v l s Hok) as (Hf & Hv & Hnl & Hn).
  pose proof (take_ok O root v l s g Hok) as Hok1.
  assert (∀ va, in_user va → pte_of root va (took v g s) = pte_of root va s) as Hsame.
  { intros va Hva. apply (take_leaf O root v l s _ Hok 3 root 0 va Hva), Hok. }
  destruct (map_page_ok O root l (took v g s) addr (V2P v) perm Hok1 Hu Ha) as (r & O' & l' & s' & Hr & Hok' & Hst' & Hl' & Hacc' & Hres).
  { by rewrite Hsame. } { by rewrite Ex. }
  assert (v ∉ l') as Hnl'. { destruct (vs_taken _ _ _ _ _ _ _ Hst') as [t ->]. set_solver. }
  exists r, O', l', s'. split; [done|]. split; [done|]. split; [eapply vm_step_trans; [by apply take_step|done]|].
  split; [done|]. split; [done|]. split; [|split; [done|split]].
  - destruct (O' !! V2P v) as [y|] eqn:E; [|done]. destruct (vs_new _ _ _ _ _ _ _ Hst' _ y E Hn) as [Hin _].
    by rewrite Hv in Hin.
  - rewrite (vs_page _ _ _ _ _ _ _ Hst') by (done || by rewrite Hv). by apply (take_page_new O root v l).
  - destruct Hres as [(-> & -> & Hl & Hpte)|(-> & Hpte)]; [left|right].
    + do 3 (split; [done|]). intros va Hva. by rewrite Hpte, Hsame.
    + split; [done|]. intros va Hva. rewrite Hpte, Ex by done. case_decide; [done|]. by apply Hsame.
Qed.

(** ** Growing an address space *)

(** The addresses from [start] to [addr] have been mapped: to one page of memory
    each, taken from the free list, page number [k] with the flags [fl k] and
    the contents [ct k]; all other addresses are as they were. *)
Record grown (fl : nat → Z) (ct : nat → list byte) (root start addr : Z)
    (O0 : tables) (l0 : list Z) (s0 : kstate) (D : list Z) (O : tables) (l : list Z) (s : kstate) : Prop := {
  gr_ok : vm_ok O root l s;
  gr_step : vm_step root O0 O l0 l s0 s;
  gr_data : ∀ k d, D !! k = Some d →
    fresh_page d ∧ P2V d ∈ l0 ∧ P2V d ∉ l ∧ O !! d = None ∧ page d (k_kmem s) = ct k;
  gr_nodup : NoDup D;
  gr_len : start + Z.of_nat (length D) * 4096 = addr;
  gr_map : ∀ va, in_user va → pte_of root va s =
    if decide (start ≤ va < addr)
    then default 0 (D !! Z.to_nat ((va - start) / 4096)) + fl (Z.to_nat ((va - start) / 4096))
    else pte_of root va s0;
  gr_account : ∀ v, v ∈ l0 → v ∈ l ∨ is_Some (O !! V2P v) ∨ V2P v ∈ D;
  gr_cost : (length l0 ≤ length l + 4 * length D)%nat
}.

(** What [alloc_uvm] does: user-writable pages of zeros. *)
Notation zero_grown := (grown (λ _, 7) (λ _, zero_page)).

Definition UFLAGS : Z := Z.lor PTE_W PTE_U.

Lemma user_entry d : fresh_page d → Z.lor (Z.lor d UFLAGS) PTE_P = d + 7.
Proof.
  intros [Ha Hr]. rewrite <- Z.lor_assoc. change (Z.lor UFLAGS PTE_P) with 7. apply entry_lor; [done|lia].
Qed.

Lemma same_page_range start k va :
  start `mod` 4096 = 0 → (va / 4096 = (start + k * 4096) / 4096 ↔ start + k * 4096 ≤ va < start + k * 4096 + 4096).
Proof.
  intros Hs. rewrite Z.div_add by done. pose proof (Z.div_mod start 4096 ltac:(done)).
  pose proof (Z.div_mod va 4096 ltac:(done)). pose proof (Z.mod_pos_bound va 4096 ltac:(done)). lia.
Qed.

(** The page behind the last of [D]'s. *)
Lemma last_index start addr (D : list Z) va :
  start + Z.of_nat (length D) * 4096 = addr → addr ≤ va < addr + 4096 →
  Z.to_nat ((va - start) / 4096) = length D.
Proof.
  intros Hlen E. replace (va - start) with ((va - addr) + Z.of_nat (length D) * 4096) by lia.
  rewrite Z.div_add, Z.div_small by lia. lia.
Qed.

Section Grow.
Context (fl : nat → Z) (ct : nat → list byte) (root start : Z) (O0 : tables) (l0 : list Z) (s0 : kstate).
Hypothesis Hst : start `mod` 4096 = 0.
Hypothesis Hst0 : 0 ≤ start.

Lemma grown_start : vm_ok O0 root l0 s0 → grown fl ct root start start O0 l0 s0 [] O0 l0 s0.
Proof.
  intros Hok. split; [done|apply vm_step_refl|done|apply NoDup_nil_2|simpl; lia| |by left|lia].
  intros va Hu. rewrite decide_False by lia. done.
Qed.

Lemma grown_lookup addr D O l s va : grown fl ct root start addr O0 l0 s0 D O l s →
  start ≤ va < addr → ∃ d, D !! Z.to_nat ((va - start) / 4096) = Some d.
Proof.
  intros G Hva. apply lookup_lt_is_Some_2. pose proof (gr_len _ _ _ _ _ _ _ _ _ _ _ _ G).
  assert ((va - start) / 4096 < Z.of_nat (length D)) by (apply Z.div_lt_upper_bound; lia).
  pose proof (Z.div_pos (va - start) 4096). lia.
Qed.

(** One more page: what [map_new_page_total] gives. *)
Lemma grow_extend addr D O v l s x O' l' s' :
  grown fl ct root start addr O0 l0 s0 D O (v :: l) s → x = V2P v + fl (length D) →
  vm_ok O' root l' s' → vm_step root O O' (v :: l) l' s s' → (length l ≤ length l' + 3)%nat →
  (∀ w, w ∈ l → w ∈ l' ∨ is_Some (O' !! V2P w)) → O' !! V2P v = None → v ∉ l' →
  page (V2P v) (k_kmem s') = ct (length D) →
  (∀ va, in_user va → pte_of root va s' = if decide (va / 4096 = addr / 4096) then x else pte_of root va s) →
  grown fl ct root start (addr + 4096) O0 l0 s0 (D ++ [V2P v]) O' l' s'.
Proof.
  intros G -> Hok' Hst2 Hl' Hacc' HnO Hnl' Hpg Hpte. pose proof G as [Hok Hstep Hdata Hnd Hlen Hmap Hacc Hcost].
  destruct (take_fresh O root v l s Hok) as (Hf & Hv & Hnl & Hn).
  assert (∀ w, w ∈ l' → w ∈ v :: l) as Hsub.
  { destruct (vs_taken _ _ _ _ _ _ _ Hst2) as [t ->]. set_solver. }
  split.
  - done.
  - by eapply vm_step_trans.
  - intros k d [Hd|[Hk Hd%list_lookup_singleton_Some]]%lookup_app_Some.
    + destruct (Hdata k d Hd) as (D1 & D2 & D3 & D4 & D5).
      split; [done|]. split; [done|]. split; [set_solver|]. split.
      * destruct (O' !! d) as [x|] eqn:E; [|done]. destruct (vs_new _ _ _ _ _ _ _ Hst2 d x E D4) as [? _]. set_solver.
      * rewrite (vs_page _ _ _ _ _ _ _ Hst2) by done. done.
    + destruct Hd as [Hk0 <-]. assert (k = length D) as -> by lia. split; [done|]. rewrite Hv. split; [|by split_and!].
      destruct (vs_taken _ _ _ _ _ _ _ Hstep) as [t ->]. set_solver.
  - apply NoDup_app. split; [done|]. split; [|apply NoDup_singleton]. intros d Hd ->%list_elem_of_singleton.
    apply list_elem_of_lookup_1 in Hd as [k Hd]. destruct (Hdata _ _ Hd) as (_ & _ & D3 & _). rewrite Hv in D3. set_solver.
  - rewrite length_app. simpl. lia.
  - intros va Hva. rewrite Hpte by done.
    assert (va / 4096 = addr / 4096 ↔ addr ≤ va < addr + 4096) as Hiff.
    { pose proof (same_page_range start (Z.of_nat (length D)) va Hst). by rewrite Hlen in *. }
    destruct (decide (va / 4096 = addr / 4096)) as [E|E].
    + rewrite decide_True by (apply Hiff in E; lia). apply Hiff in E.
      rewrite (last_index start addr D va) by lia. by rewrite lookup_app_r, Nat.sub_diag by lia.
    + rewrite Hmap by done. destruct (decide (start ≤ va < addr)) as [R|R].
      * rewrite decide_True by lia. destruct (grown_lookup _ _ _ _ _ va G R) as [d Hd].
        by rewrite (lookup_app_l_Some _ _ _ _ Hd), Hd.
      * rewrite decide_False; [done|]. intros ?. apply E, Hiff. lia.
  - intros w Hw. destruct (Hacc w Hw) as [[->|Hw']%elem_of_cons|[[x Hx]|Hd]].
    + right; right. set_solver.
    + destruct (Hacc' w Hw') as [?|?]; [by left|right; by left].
    + right; left. exists x. by eapply lookup_weaken; [|apply (vs_tables _ _ _ _ _ _ _ Hst2)].
    + right; right. set_solver.
  - rewrite length_app. simpl in *. lia.
Qed.

Lemma grow_step addr D O v l s perm g :
  grown fl ct root start addr O0 l0 s0 D O (v :: l) s → in_user addr →
  has (pte_of root addr s0) PTE_P = false →
  Z.lor (Z.lor (V2P v) perm) PTE_P = V2P v + fl (length D) → 0 ≤ fl (length D) < 4096 →
  (∀ y, g y = ct (length D)) →
  ∃ r O' l' s', map_pages (P2V root) addr PGSIZE_4KB (V2P v) perm (took v g s) = Done r s' ∧
    vm_step root O O' (v :: l) l' s s' ∧ (length l ≤ length l' + 3)%nat ∧
    ((r = -1 ∧ l' = [] ∧ (length l < 3)%nat ∧ vm_ok O' root l' s' ∧ O' !! V2P v = None ∧
      (∀ w, w ∈ l → w ∈ l' ∨ is_Some (O' !! V2P w)) ∧
      ∀ va, in_user va → pte_of root va s' = pte_of root va s) ∨
     (r = 0 ∧ grown fl ct root start (addr + 4096) O0 l0 s0 (D ++ [V2P v]) O' l' s')).
Proof.
  intros G Hu Hnew Hperm Hfl Hg. pose proof G as [Hok _ _ _ Hlen Hmap _ _].
  destruct (take_fresh O root v l s Hok) as ([_ Hr] & _).
  assert (addr `mod` 4096 = 0) as Haddr by (rewrite <- Hlen, Z.mod_add by done; done).
  destruct (map_new_page_total O root v l s addr perm g (V2P v + fl (length D)) Hok Hu Haddr)
    as (r & O' & l' & s' & Hrun & Hok' & Hst2 & Hl' & Hacc' & HnO & Hnl' & Hpg & Hres).
  { rewrite Hmap, decide_False by (done || lia). done. }
  { done. } { unfold PHY_STOP in *. lia. }
  rewrite Hg in Hpg. exists r, O', l', s'. split; [done|]. split; [done|]. split; [done|].
  destruct Hres as [(-> & -> & Hl & Hpte)|(-> & Hpte)]; [left; by split_and!|right]. split; [done|].
  by apply (grow_extend addr D O v l s _ _ _ _ G eq_refl).
Qed.
End Grow.

(** Pages still to be mapped from [addr] to [upto]. *)
Definition pages_left (addr upto : Z) : nat := Z.to_nat ((upto - addr + 4095) / 4096).

Lemma pages_left_step addr upto : addr < upto → pages_left addr upto = S (pages_left (addr + 4096) upto).
Proof.
  intros H. unfold pages_left. replace (upto - addr + 4095) with ((upto - (addr + 4096) + 4095) + 1 * 4096) by lia.
  rewrite Z.div_add by done. pose proof (Z.div_pos (upto - (addr + 4096) + 4095) 4096).
  destruct (decide (0 ≤ upto - (addr + 4096) + 4095)); lia.
Qed.

Lemma page_fuel_enough addr upto : (pages_left addr upto ≤ page_fuel addr upto)%nat.
Proof.
  unfold pages_left, page_fuel, PGSIZE_4KB. destruct (decide (addr ≤ upto)).
  - replace (upto - addr + 4095) with ((upto - addr - 1) + 1 * 4096) by lia. rewrite Z.div_add by done.
    assert ((upto - addr - 1) / 4096 ≤ (upto - addr) / 4096) by (apply Z.div_le_mono; lia).
    pose proof (Z.div_pos (upto - addr) 4096). lia.
  - assert ((upto - addr + 4095) / 4096 < 1) by (apply Z.div_lt_upper_bound; lia). lia.
Qed.

(** The first page boundary at which a loop from [start] to [upto] stops. *)
Definition stops (start upto last : Z) : Prop := start ≤ last ∧ upto ≤ last ∧ (start < last → last < upto + 4096).
