(* ===== verification/VmFree.v ===== *)
(** * Shrinking address spaces (kernel/vm.c: dealloc_uvm, free_vm) *)
From S2P Require Import Prelude State Spinlock Sched Sleeplock Ring Bio Balloc Inode Kalloc Vm PageTable VmSpec.

(** A page of user memory: it can be freed, and is neither a table nor free. *)
Record user_page (O : tables) (l : list Z) (s : kstate) (d : Z) : Prop := {
  up_fresh : fresh_page d;
  up_ok : kfree_ok (m_bump_ptr (k_kmem s)) (P2V d) = true;
  up_table : O !! d = None;
  up_free : P2V d ∉ l
}.

Lemma P2V_inj a b : 0 ≤ a < PHY_STOP → 0 ≤ b < PHY_STOP → P2V a = P2V b → a = b.
Proof. intros Ha Hb. rewrite !P2V_small by lia. lia. Qed.

Section FreePage.
Context (O : tables) (root : Z) (l : list Z) (s : kstate) (d : Z).
Hypothesis Hok : vm_ok O root l s.
Hypothesis Hd : user_page O l s d.

Definition gave (d : Z) (s : kstate) : kstate := set_k_kmem (kmem_freed (P2V d)) s.

Lemma gave_run : kfree (P2V d) s = Done tt (gave d s).
Proof. apply kfree_run, Hd. Qed.

Lemma gave_page pa : pa ≠ d → page pa (k_kmem (gave d s)) = page pa (k_kmem s).
Proof.
  intros Hne. destruct Hd as [[_ Hr] _ _ _]. unfold gave, kmem_freed, page. ksimpl. simpl.
  rewrite V2P_P2V by (unfold PHY_STOP in *; lia). by rewrite lookup_insert_ne.
Qed.

Lemma gave_ent pa x i : O !! pa = Some x → ent pa i (gave d s) = ent pa i s.
Proof. intros H. unfold ent. rewrite gave_page; [done|]. intros ->. pose proof (up_table _ _ _ _ Hd). congruence. Qed.

Lemma gave_ok : vm_ok O root (P2V d :: l) (gave d s).
Proof.
  pose proof Hd as [[Ha Hr] Hk Ho Hn]. pose proof Hok as [Hb Hf Hro Ht Hc]. split; [done| |done| |].
  - apply kmem_freed_list; [done|done| |done]. rewrite P2V_small by lia. unfold PHY_STOP, PAGE_OFFSET in *. lia.
  - intros pa x Hx. destruct (Ht pa x Hx) as [[T1 T2 T3] T4].
    assert (pa ≠ d) as Hne by (intros ->; congruence).
    split; [split; [done|done|by rewrite gave_page]|].
    intros [E|?]%elem_of_cons; [|done]. apply Hne. apply P2V_inj; [lia|lia|done].
  - intros pa h p i Hx Hi. rewrite (gave_ent pa _ i Hx). by apply Hc.
Qed.

Lemma gave_pt va : in_user va → ∀ h pa, O !! pa = Some (h, pfx h va) → pt_of h pa va (gave d s) = pt_of h pa va s.
Proof.
  intros Hu. induction h as [|h IH]; intros pa Hpa; cbn [pt_of]; [done|]. rewrite (gave_ent pa _ _ Hpa).
  destruct (has _ PTE_P) eqn:E; [|done]. apply IH. by eapply child_ok.
Qed.

Lemma gave_pte va : in_user va → pte_of root va (gave d s) = pte_of root va s.
Proof.
  intros Hu. unfold pte_of. rewrite !leaf_pt, gave_pt by (done || by eapply root_user).
  destruct (pt_of 3 root va s) as [pt|] eqn:E; [|done]. eapply gave_ent.
  by eapply (pt_of_table O root l s va); [done|done|by eapply root_user|].
Qed.
End FreePage.

(** The pages [D] mapped from [addr] on. *)
Definition mapped_pages (O : tables) (root : Z) (l : list Z) (s : kstate) (addr : Z) (D : list Z) : Prop :=
  NoDup D ∧ ∀ k d, D !! k = Some d → user_page O l s d ∧ in_user (addr + Z.of_nat k * 4096) ∧
    has (pte_of root (addr + Z.of_nat k * 4096) s) PTE_P = true ∧
    PTE_ADDR (pte_of root (addr + Z.of_nat k * 4096) s) = d.

(** What freeing the pages [D] leaves. *)
Record freed_range (root addr last : Z) (D : list Z) (O : tables) (l : list Z) (s s' : kstate) : Prop := {
  fg_ok : vm_ok O root (reverse (P2V <$> D) ++ l) s';
  fg_frame : kmem_frame s s';
  fg_bump : m_bump_ptr (k_kmem s') = m_bump_ptr (k_kmem s);
  fg_page : ∀ pa, O !! pa = None → pa ∉ D → page pa (k_kmem s') = page pa (k_kmem s);
  fg_map : ∀ va, in_user va → pte_of root va s' = if decide (addr ≤ va < last) then 0 else pte_of root va s;
  fg_root : ∀ i, ent root i s' = ent root i s
}.

(** No page is mapped from [a] to [b]. *)
Definition unmapped (root a b : Z) (s : kstate) : Prop :=
  ∀ va, a ≤ va < b → has (pte_of root va s) PTE_P = false.

Lemma slot_absent root va s : has (pte_of root va s) PTE_P = false → slot_of 3 root va s = 0.
Proof. unfold pte_of, slot_of. rewrite leaf_pt. case_match; [by intros ->|done]. Qed.

(** Where [dealloc_uvm] goes on after a missing entry: the next 2 MiB. *)
Definition next_2mb (addr : Z) : Z :=
  Z.land (addr + PGSIZE_2MB) (Z.lnot (PGSIZE_2MB - 1)) - PGSIZE_4KB + PGSIZE_4KB.

Lemma next_2mb_spec addr : 0 ≤ addr → addr `mod` 4096 = 0 →
  addr + 4096 ≤ next_2mb addr ∧ next_2mb addr `mod` 4096 = 0.
Proof.
  intros H0 Ha. assert (next_2mb addr = (addr / (4096 * 512) + 1) * 512 * 4096) as ->.
  { unfold next_2mb, PGSIZE_2MB. change (2 * 1024 * 1024 - 1) with (Z.ones 21).
    rewrite <- Z.ldiff_land, Z.ldiff_ones_r by lia. rewrite Z.shiftl_mul_pow2, Z.shiftr_div_pow2 by lia.
    change (2 ^ 21) with (4096 * 512). replace (2 * 1024 * 1024) with (1 * (4096 * 512)) by done.
    rewrite Z.div_add by done. lia. }
  split; [|by rewrite Z.mod_mul]. rewrite <- Z.div_div by done.
  pose proof (Z.div_mod addr 4096 ltac:(done)). pose proof (Z.div_mod (addr / 4096) 512 ltac:(done)).
  pose proof (Z.mod_pos_bound (addr / 4096) 512 ltac:(done)). lia.
Qed.

Lemma pages_left_top a upto : upto ≤ a + Z.of_nat (pages_left a upto) * 4096.
Proof.
  unfold pages_left. pose proof (Z.div_mod (upto - a + 4095) 4096 ltac:(done)).
  pose proof (Z.mod_pos_bound (upto - a + 4095) 4096 ltac:(done)). lia.
Qed.

Lemma pages_left_mono a b upto : a ≤ b → (pages_left b upto ≤ pages_left a upto)%nat.
Proof. intros H. unfold pages_left. assert ((upto - b + 4095) / 4096 ≤ (upto - a + 4095) / 4096) by (apply Z.div_le_mono; lia). lia. Qed.

Section Dealloc.
Context (root upto : Z).
Hypothesis Htop : upto < USER_TOP.

Lemma mapped_head O l s addr d D :
  vm_ok O root l s → in_user addr → addr `mod` 4096 = 0 → mapped_pages O root l s addr (d :: D) →
  let s' := stored (default 0 (pt_of 3 root addr s)) (idx 0 addr) 0 (gave d s) in
  (∃ pt, pt_of 3 root addr s = Some pt ∧ slot_of 3 root addr s = P2V pt + 8 * idx 0 addr ∧
     load64 (P2V pt + 8 * idx 0 addr) s = pte_of root addr s ∧ P2V pt + 8 * idx 0 addr ≠ 0 ∧
     store64 (P2V pt + 8 * idx 0 addr) 0 (gave d s) = Done tt s') ∧
  vm_ok O root (P2V d :: l) s' ∧ mapped_pages O root (P2V d :: l) s' (addr + 4096) D ∧
  (∀ va, in_user va → pte_of root va s' = if decide (va / 4096 = addr / 4096) then 0 else pte_of root va s) ∧
  (∀ pa, O !! pa = None → pa ≠ d → page pa (k_kmem s') = page pa (k_kmem s)) ∧
  (∀ i, ent root i s' = ent root i s).
Proof.
  intros Hok Hu Ha [Hnd HD] s'. destruct (HD 0%nat d eq_refl) as (Hd & _ & Hp & Hda).
  rewrite Z.mul_0_l, Z.add_0_r in Hp, Hda. pose proof (root_user _ _ _ _ _ Hok Hu) as Hroot.
  destruct (present_slot O root l s addr Hok Hu Hp) as (pt & Ept & Eslot & Eload & Enz).
  pose proof (gave_ok O root l s d Hok Hd) as Hok1. set (s1 := gave d s) in *.
  assert (pt_of 3 root addr s1 = Some pt) as Ept1 by (rewrite <- Ept; by eapply gave_pt).
  pose proof (pt_of_table O root l s addr Hok Hu 3 root pt Hroot Ept) as Ht.
  assert (∀ va, in_user va → pte_of root va s' = if decide (va / 4096 = addr / 4096) then 0 else pte_of root va s) as Hpte.
  { intros va Hva. unfold s'. rewrite Ept. cbn [default]. rewrite (store_leaf_pte O root (P2V d :: l) s1 pt addr 0) by (done || lia).
    case_decide; [done|]. by eapply gave_pte. }
  split; [|split; [unfold s'; rewrite Ept; by apply store_leaf_ok|split; [|split; [done|split]]]].
  - exists pt. split; [done|]. split; [done|]. split; [done|]. split; [done|].
    unfold s'. rewrite Ept. by apply (store_leaf_run O root (P2V d :: l) s1 pt addr 0).
  - apply NoDup_cons in Hnd as [Hnin Hnd]. split; [done|]. intros k d' Hk.
    destruct (HD (S k) d' Hk) as ([[F1 F2] U2 U3 U4] & Hin & Hp' & Ha').
    replace (addr + Z.of_nat (S k) * 4096) with (addr + 4096 + Z.of_nat k * 4096) in Hin, Hp', Ha' by lia.
    assert (d' ≠ d) as Hne by (intros ->; apply Hnin; by eapply list_elem_of_lookup_2).
    split.
    + split; [done|done|done|]. intros [E|?]%elem_of_cons; [|done]. apply Hne.
      destruct Hd as [[_ ?] _ _ _]. apply P2V_inj; [lia|lia|done].
    + split; [done|]. rewrite Hpte by done. rewrite decide_False; [done|].
      replace (addr + 4096 + Z.of_nat k * 4096) with (addr + (1 + Z.of_nat k) * 4096) by lia.
      rewrite Z.div_add by done. lia.
  - intros pa Hpa' Hne. unfold s'. rewrite Ept. rewrite stored_page by (simpl; intros ->; congruence).
    by eapply gave_page.
  - intros i. rewrite <- (gave_ent O l s d Hd root _ i Hroot). unfold s', ent. rewrite Ept. cbn [default].
    rewrite stored_page; [done|]. intros E. simpl in E. congruence.
Qed.

(** Where nothing is mapped, nothing happens. *)
Lemma dealloc_unmapped O l s (Hok : vm_ok O root l s) fuel : ∀ addr,
  0 ≤ addr → addr `mod` 4096 = 0 → unmapped root addr upto s → (pages_left addr upto ≤ fuel)%nat →
  dealloc_loop fuel (P2V root) addr upto s = Done tt s.
Proof.
  induction fuel as [|fuel IH]; intros addr Ha Hal Hun Hfuel; cbn [dealloc_loop]; case_bool_decide as Hlt; try done;
    rewrite pages_left_step in Hfuel by done; [lia|].
  assert (in_user addr) as Hu by (unfold in_user; lia).
  rewrite walk_pml4_shifts. erewrite bind_done by (apply (walk_false root addr Hu O l s Hok); by eapply root_user).
  rewrite slot_absent, bool_decide_true by (done || apply Hun; lia). fold (next_2mb addr).
  destruct (next_2mb_spec addr Ha Hal) as [Hn Hm]. pose proof (pages_left_mono _ _ upto Hn).
  apply IH; [lia|done| |lia]. intros va Hva. apply Hun. lia.
Qed.

Lemma dealloc_loop_ok D : ∀ O l s addr fuel,
  vm_ok O root l s → 0 ≤ addr → addr `mod` 4096 = 0 → mapped_pages O root l s addr D →
  (length D ≤ pages_left addr upto)%nat → unmapped root (addr + Z.of_nat (length D) * 4096) upto s →
  (pages_left addr upto ≤ fuel)%nat →
  wp (dealloc_loop fuel (P2V root) addr upto s) (λ _ s',
    freed_range root addr (addr + Z.of_nat (length D) * 4096) D O l s s').
Proof.
  induction D as [|d D IH]; intros O l s addr fuel Hok Ha Hal HD Hlen Hun Hfuel; cbn [length] in *.
  { rewrite Z.mul_0_l, Z.add_0_r in *. rewrite (dealloc_unmapped O l) by done. split; try done; [by destruct s|].
    intros va Hu. by rewrite decide_False by lia. }
  assert (addr < upto) as Hlt.
  { destruct (decide (addr < upto)); [done|]. unfold pages_left in Hlen.
    assert ((upto - addr + 4095) / 4096 < 1) by (apply Z.div_lt_upper_bound; lia). lia. }
  rewrite pages_left_step in Hlen, Hfuel by done. destruct fuel as [|fuel]; [lia|].
  cbn [dealloc_loop]. rewrite bool_decide_true by done. assert (in_user addr) as Hu by (unfold in_user; lia).
  destruct (mapped_head O l s addr d D Hok Hu Hal HD)
    as ((pt & Ept & Eslot & Eload & Enz & Estore) & Hok' & HD' & Hpte & Hpage & Hroot).
  rewrite walk_pml4_shifts. erewrite bind_done by (apply (walk_false root addr Hu O l s Hok); by eapply root_user).
  rewrite Eslot, bool_decide_false, bind_gets, Eload by done.
  destruct HD as [Hnd HD]. destruct (HD 0%nat d eq_refl) as (Hd & _ & Hp & Hda).
  rewrite Z.mul_0_l, Z.add_0_r in Hp, Hda. rewrite Hp, Hda. unfold when.
  erewrite bind_done.
  2:{ rewrite bool_decide_false by (destruct Hd as [[_ ?] _ _ _]; lia).
      erewrite bind_done by by eapply gave_run. exact Estore. }
  set (s1 := stored _ _ _ _) in *.
  kuse (IH O (P2V d :: l) s1 (addr + 4096) fuel Hok'); [lia|rewrite (Z.add_mod addr), Hal by done; done|done|lia| |lia|].
  { intros va Hva. rewrite Hpte by (unfold in_user; lia). case_decide; [done|]. apply Hun. lia. }
  intros _ s' [F1 F2 F3 F4 F5 F6]. split.
  - cbn [fmap list_fmap]. rewrite reverse_cons, <- app_assoc. exact F1.
  - unfold kmem_frame in *. rewrite F2. by kext.
  - by rewrite F3.
  - intros pa Hpa Hnin. apply not_elem_of_cons in Hnin as [Hn1 Hn2]. rewrite F4, Hpage by done. done.
  - intros va Hva. rewrite F5 by done. pose proof (same_page_range addr 0 va Hal) as Hsp.
    rewrite Z.mul_0_l, Z.add_0_r in Hsp.
    repeat case_decide; try lia; rewrite Hpte by done; case_decide; try done; try (apply Hsp in H1; lia).
    destruct H1. apply Hsp. lia.
  - intros i. by rewrite F6.
Qed.
End Dealloc.

(** C22. Shrinking an address space whose pages above the new size are all
    mapped gives exactly those pages back to the page allocator and unmaps
    them; no other address and no other memory changes. *)
Theorem dealloc_uvm_spec root O l s old_sz new_sz D :
  vm_ok O root l s → 0 ≤ new_sz < old_sz → old_sz < USER_TOP →
  mapped_pages O root l s (ROUNDUP new_sz PGSIZE_4KB) D →
  length D = pages_left (ROUNDUP new_sz PGSIZE_4KB) old_sz →
  wp (dealloc_uvm (P2V root) old_sz new_sz s) (λ r s', r = new_sz ∧
    freed_range root (ROUNDUP new_sz PGSIZE_4KB)
      (ROUNDUP new_sz PGSIZE_4KB + Z.of_nat (length D) * 4096) D O l s s').
Proof.
  intros Hok Hsz Htop HD Hlen. unfold dealloc_uvm. rewrite bool_decide_false by lia.
  destruct (roundup_spec new_sz) as [Hr Hm]; [lia|]. apply wp_bind.
  kuse (dealloc_loop_ok root old_sz Htop D O l s (ROUNDUP new_sz PGSIZE_4KB) (page_fuel (ROUNDUP new_sz PGSIZE_4KB) old_sz) Hok);
    [lia|done|done|lia| |apply page_fuel_enough|].
  { intros va Hva. pose proof (pages_left_top (ROUNDUP new_sz PGSIZE_4KB) old_sz). lia. }
  intros _ s' F. by apply wp_ret.
Qed.

(** What [free_vm] and [exec] rely on does not hold for processes with an
    unmapped null page: [dealloc_uvm(pml4, sz, 0)] takes the missing entry of
    page 0 for a missing page table and skips the first 2 MiB, so for a process
    of up to 2 MiB it returns without freeing a single page. *)
Theorem dealloc_uvm_null_page root O l s sz :
  vm_ok O root l s → has (pte_of root 0 s) PTE_P = false → 0 < sz ≤ PGSIZE_2MB →
  dealloc_uvm (P2V root) sz 0 s = Done 0 s.
Proof.
  intros Hok Hnull Hsz. unfold dealloc_uvm. rewrite bool_decide_false by lia.
  change (ROUNDUP 0 PGSIZE_4KB) with 0. rewrite (bind_done _ _ _ tt s); [done|].
  assert (in_user 0) as Hu by done. unfold page_fuel. cbn [dealloc_loop]. rewrite bool_decide_true by lia.
  rewrite walk_pml4_shifts. erewrite bind_done by (apply (walk_false root 0 Hu O l s Hok); by eapply root_user).
  rewrite slot_absent, bool_decide_true by done. change (Z.land _ _ - _ + _) with PGSIZE_2MB.
  destruct (Z.to_nat _); cbn [dealloc_loop]; by rewrite bool_decide_false by lia.
Qed.

(** ** Witnesses *)

Definition vm_root : Z := 0x300000.

Lemma vm_root_page : page vm_root (k_kmem kstate_kinit) = zero_page.
Proof. vm_compute. reflexivity. Qed.

Lemma kstate_kinit_vm : vm_ok {[vm_root := (3%nat, 0)]} vm_root small_free kstate_kinit.
Proof.
  split.
  - vm_compute. done.
  - exact kstate_kinit_free.
  - apply lookup_insert_eq.
  - intros pa x [<- _]%lookup_singleton_Some. split; [split; [done|by vm_compute|by rewrite vm_root_page]|].
    apply (bool_decide_unpack _). vm_compute. done.
  - intros pa h p i [<- _]%lookup_singleton_Some Hi. unfold ent. rewrite vm_root_page. unfold zero_page.
    by rewrite get_le_zeros.
Qed.

Lemma kstate_kinit_pte va : pte_of vm_root va kstate_kinit = 0.
Proof.
  unfold pte_of. cbn [leaf]. assert (∀ i, ent vm_root i kstate_kinit = 0) as ->; [|done].
  intros i. unfold ent. rewrite vm_root_page. apply get_le_zeros.
Qed.

Lemma dealloc_uvm_null_page_witness :
  dealloc_uvm (P2V vm_root) 0x5000 0 kstate_kinit = Done 0 kstate_kinit.
Proof.
  eapply dealloc_uvm_null_page; [apply kstate_kinit_vm|by rewrite kstate_kinit_pte|].
  unfold PGSIZE_2MB; lia.
Defined.
