(* ===== verification/VmAlloc.v ===== *)
(** * Growing address spaces (kernel/vm.c: alloc_uvm)

    [alloc_uvm] either maps every page it was asked for or, when the page
    allocator runs dry half way, unmaps and gives back what it had mapped. *)
From S2P Require Import Prelude State Spinlock Sched Sleeplock Ring Bio Balloc Inode Kalloc Vm PageTable VmSpec VmFree.

(** What a failed attempt leaves: every address maps to what it mapped to, no
    memory but the free pages and the tables has been touched, and no page is
    lost - each page of the free list is on the free list again or has become
    a (still empty) page table. *)
Record rolled_back (root : Z) (O O' : tables) (l l' : list Z) (s s' : kstate) : Prop := {
  rb_ok : vm_ok O' root l' s';
  rb_tables : O ⊆ O';
  rb_frame : kmem_frame s s';
  rb_map : ∀ va, in_user va →
    pte_of root va s' = pte_of root va s ∨ has (pte_of root va s) PTE_P = false ∧ pte_of root va s' = 0;
  rb_pages : ∀ v, v ∈ l → v ∈ l' ∨ is_Some (O' !! V2P v);
  rb_free : ∀ v, v ∈ l' → v ∈ l;
  rb_new : ∀ pa x, O' !! pa = Some x → O !! pa = None → P2V pa ∈ l;
  rb_other : ∀ pa, O !! pa = None → P2V pa ∉ l → page pa (k_kmem s') = page pa (k_kmem s);
  rb_kernel : ∀ i, 256 ≤ i < 512 → ent root i s' = ent root i s
}.

(** One more page given back, which was mapped nowhere. *)
Lemma freed_one_more root a b D O l s s' d :
  freed_range root a b D O l s s' → (∀ x, x ∈ D → fresh_page x) → vm_ok O root l s →
  user_page O l s d → d ∉ D →
  kfree (P2V d) s' = Done tt (gave d s') ∧ freed_range root a b (D ++ [d]) O l s (gave d s').
Proof.
  intros F HD Hok Hd Hn. pose proof F as [F1 F2 F3 F4 F5 F6].
  assert (user_page O (reverse (P2V <$> D) ++ l) s' d) as Hd'.
  { destruct Hd as [U1 U2 U3 U4]. split; [done|by rewrite F3|done|].
    rewrite elem_of_app, elem_of_reverse, list_elem_of_fmap. intros [(x & E & Hx)|?]; [|done].
    destruct (HD x Hx) as [_ Hr]. destruct U1 as [_ Hr']. apply Hn. by rewrite (P2V_inj d x) by (done || lia). }
  split; [by eapply gave_run|]. split.
  - rewrite fmap_app, reverse_app. by eapply gave_ok.
  - unfold kmem_frame, gave in *. rewrite F2. by kext.
  - by rewrite <- F3.
  - intros pa Hpa Hnin. rewrite (gave_page _ _ _ _ Hd') by set_solver. apply F4; set_solver.
  - intros va Hva. rewrite (gave_pte _ _ _ _ _ F1 Hd') by done. by apply F5.
  - intros i. rewrite <- F6. eapply gave_ent; [exact Hd'|apply F1].
Qed.

(** Mapping pages and giving them back is a failed attempt. *)
Lemma undone root start addr D O0 O l0 l s0 s s' :
  vm_ok O0 root l0 s0 → vm_step root O0 O l0 l s0 s → (∀ d, d ∈ D → fresh_page d ∧ P2V d ∈ l0) →
  (∀ v, v ∈ l0 → v ∈ l ∨ is_Some (O !! V2P v) ∨ V2P v ∈ D) →
  unmapped root start addr s0 →
  (∀ va, in_user va → ¬ start ≤ va < addr → pte_of root va s = pte_of root va s0) →
  freed_range root start addr D O l s s' →
  rolled_back root O0 O l0 (reverse (P2V <$> D) ++ l) s0 s'.
Proof.
  intros Hok St HD Hacc Hun Hmap [F1 F2 F3 F4 F5 F6]. pose proof St as [V1 V2 V3 [t V4] V5 V6 V7].
  split; try done.
  - unfold kmem_frame in *. rewrite F2, V1. by kext.
  - intros va Hva. rewrite F5 by done. case_decide as E; [right; split; [by apply Hun|done]|left; by apply Hmap].
  - intros v Hv. destruct (Hacc v Hv) as [?|[?|Hd]]; [left; set_solver|by right|].
    left. apply elem_of_app. left. apply elem_of_reverse. apply list_elem_of_fmap. exists (V2P v). split; [|done].
    destruct (free_page_fresh _ _ _ (vo_free _ _ _ _ Hok) (vo_bump _ _ _ _ Hok) Hv) as [_ ->]. done.
  - intros v. rewrite elem_of_app, elem_of_reverse, list_elem_of_fmap.
    intros [(d & -> & Hd)|Hv]; [by apply HD|set_solver].
  - intros pa x Hx Ho. by apply (V5 pa x).
  - intros pa Ho Hn. rewrite F4; [by apply V6| |intros Hd; by destruct (HD pa Hd)].
    destruct (O !! pa) as [x|] eqn:E; [|done]. by destruct (V5 pa x E Ho).
  - intros i Hi. by rewrite F6, V7.
Qed.

(** The pages [alloc_uvm] has mapped can be freed. *)
Lemma grown_mapped (fl : nat → Z) ct root start addr O0 l0 s0 D O l s :
  (∀ k, 0 ≤ fl k < 4096 ∧ has (fl k) PTE_P = true) →
  start `mod` 4096 = 0 → 0 ≤ start → addr ≤ USER_TOP → vm_ok O0 root l0 s0 →
  grown fl ct root start addr O0 l0 s0 D O l s → mapped_pages O root l s start D.
Proof.
  intros Hfl Hst Hst0 Htop Hok0 G. pose proof G as [Hok Hstep Hdata Hnd Hlen Hmap _ _]. split; [done|].
  intros k d Hk. destruct (Hdata k d Hk) as (F1 & F2 & F3 & F4 & F5).
  pose proof (lookup_lt_Some _ _ _ Hk). assert (in_user (start + Z.of_nat k * 4096)) as Hu by (unfold in_user; lia).
  split; [|split; [done|]].
  - split; [done| |done|done]. rewrite (vs_bump _ _ _ _ _ _ _ Hstep).
    destruct (vo_free _ _ _ _ Hok0) as [_ [Hpo _]]. by apply Hpo.
  - rewrite Hmap, decide_True by (done || lia).
    replace (start + Z.of_nat k * 4096 - start) with (Z.of_nat k * 4096) by lia.
    rewrite Z.div_mul, Nat2Z.id, Hk by done. cbn [default id]. destruct F1 as [Fa Fr].
    destruct (Hfl k) as [Hf Hp]. by rewrite entry_has, entry_addr by (done || lia).
Qed.

Lemma zero_flags (k : nat) : 0 ≤ (λ _ : nat, 7) k < 4096 ∧ has ((λ _ : nat, 7) k) PTE_P = true.
Proof. done. Qed.

Lemma mapped_pages_step root O O' l l' s s' start D :
  mapped_pages O root l s start D → vm_step root O O' l l' s s' →
  (∀ va, in_user va → pte_of root va s' = pte_of root va s) → mapped_pages O' root l' s' start D.
Proof.
  intros [Hnd HD] [V1 V2 V3 [t V4] V5 V6 V7] Hpte. split; [done|]. intros k d Hk.
  destruct (HD k d Hk) as ([U1 U2 U3 U4] & Hu & Hp & Ha). rewrite Hpte by done. split; [|done].
  split; [exact U1|rewrite V2; exact U2| |rewrite V4 in U4; intros Hc; apply U4, elem_of_app; by right].
  destruct (O' !! d) as [x|] eqn:E; [|done]. by destruct (V5 d x E U3).
Qed.


Section AllocLoop.
Context (root old_sz new_sz : Z) (O0 : tables) (l0 : list Z) (s0 : kstate).
Let start := ROUNDUP old_sz PGSIZE_4KB.
Hypothesis Hok0 : vm_ok O0 root l0 s0.
Hypothesis Hold : 0 ≤ old_sz.
Hypothesis Htop : new_sz < USER_TOP.
Hypothesis Hfree : unmapped root start new_sz s0.

(** The two outcomes of the loop. *)
Definition alloc_outcome (r : Z) (s' : kstate) : Prop :=
  (r = new_sz ∧ ∃ last D O' l', stops start new_sz last ∧ zero_grown root start last O0 l0 s0 D O' l' s') ∨
  (r = 0 ∧ (length l0 < 4 * pages_left start new_sz)%nat ∧ ∃ O' l', rolled_back root O0 O' l0 l' s0 s').

Lemma start_ok : old_sz ≤ start ∧ start `mod` 4096 = 0.
Proof. destruct (roundup_spec old_sz) as [? ?]; [done|]. split; [lia|done]. Qed.

Lemma grown_left addr D O l s : zero_grown root start addr O0 l0 s0 D O l s → addr < new_sz →
  (length D < pages_left start new_sz)%nat.
Proof.
  intros G Ha. pose proof (gr_len _ _ _ _ _ _ _ _ _ _ _ _ G). pose proof (pages_left_top start new_sz). lia.
Qed.

(** The clean-up unmaps exactly what has been mapped. *)
Lemma clean_up addr D O l s :
  vm_ok O root l s → mapped_pages O root l s start D → start + Z.of_nat (length D) * 4096 = addr →
  (length D < pages_left start new_sz)%nat → addr < new_sz → unmapped root addr new_sz s →
  ∃ s', dealloc_uvm (P2V root) new_sz old_sz s = Done old_sz s' ∧ freed_range root start addr D O l s s'.
Proof.
  intros Hok HD <- Hlen Ha Hun. destruct start_ok as [Hs Hm]. pose proof (page_fuel_enough start new_sz) as Hfu.
  pose proof (dealloc_loop_ok root new_sz Htop D O l s start _ Hok ltac:(lia) Hm HD ltac:(lia) Hun Hfu) as W.
  unfold dealloc_uvm. rewrite bool_decide_false by lia. fold start.
  destruct (dealloc_loop _ _ _ _ s) as [u s'| | | |] eqn:E; try done. exists s'.
  by erewrite bind_done by exact E.
Qed.

(** [kalloc] finds no page. *)
Lemma no_page addr D O s : zero_grown root start addr O0 l0 s0 D O [] s → addr < new_sz →
  wp ((dealloc_uvm (P2V root) new_sz old_sz ;;; ret 0) s) alloc_outcome.
Proof.
  intros G Ha. pose proof G as [Hok St Hdata Hnd Hlen Hmap Hacc Hcost]. destruct start_ok as [Hs Hm].
  pose proof (grown_left _ _ _ _ _ G Ha) as Hl.
  destruct (clean_up addr D O [] s Hok) as (s' & Hrun & F); [|done|done|done| |].
  { by eapply grown_mapped; [exact zero_flags|exact Hm|lia| |exact Hok0|exact G]; lia. }
  { intros va Hva. rewrite Hmap, decide_False by (unfold in_user; lia). apply Hfree. lia. }
  erewrite bind_done by exact Hrun. right. split; [done|]. split; [simpl in Hcost; lia|].
  eexists O, _. eapply (undone root start addr); [done|exact St| | | | |exact F].
  - intros d [k Hk]%list_elem_of_lookup_1. destruct (Hdata k d Hk) as (? & ? & _). done.
  - done.
  - intros va Hva. apply Hfree. lia.
  - intros va Hu Hva. by rewrite Hmap, decide_False.
Qed.

(** A table on the way finds no page: the page meant for the user goes back too. *)
Lemma no_table addr D O O' v l s s1 :
  zero_grown root start addr O0 l0 s0 D O (v :: l) s → addr < new_sz → (length l < 3)%nat →
  vm_ok O' root [] s1 → vm_step root O O' (v :: l) [] s s1 → O' !! V2P v = None →
  (∀ w, w ∈ l → is_Some (O' !! V2P w)) → (∀ va, in_user va → pte_of root va s1 = pte_of root va s) →
  wp ((dealloc_uvm (P2V root) new_sz old_sz ;;; kfree v ;;; ret 0) s1) alloc_outcome.
Proof.
  intros G Ha Hl3 Hok1 St1 HnO Hacc1 Hpte. pose proof G as [Hok St Hdata Hnd Hlen Hmap Hacc Hcost].
  destruct start_ok as [Hs Hm]. pose proof (grown_left _ _ _ _ _ G Ha) as Hl.
  destruct (take_fresh O root v l s Hok) as (Hf & Hv & _ & _).
  assert (mapped_pages O' root [] s1 start D) as HD1.
  { eapply mapped_pages_step; [|exact St1|exact Hpte].
    by eapply grown_mapped; [exact zero_flags|exact Hm|lia| |exact Hok0|exact G]; lia. }
  assert (unmapped root addr new_sz s1) as Hun.
  { intros va Hva. rewrite Hpte, Hmap, decide_False by (unfold in_user; lia). apply Hfree. lia. }
  destruct (clean_up addr D O' [] s1 Hok1 HD1 Hlen Hl Ha Hun) as (s2 & Hrun & F).
  erewrite bind_done by exact Hrun.
  destruct (freed_one_more root start addr D O' [] s1 s2 (V2P v) F) as [Hk F2].
  { intros x [k Hx]%list_elem_of_lookup_1. apply (Hdata k x Hx). }
  { done. }
  { split; [done| |done|set_solver]. rewrite Hv. destruct (vo_free _ _ _ _ Hok) as [_ [Hpo _]].
    rewrite (vs_bump _ _ _ _ _ _ _ St1). apply Hpo. left. }
  { intros [k Hx]%list_elem_of_lookup_1. destruct (Hdata k _ Hx) as (_ & _ & Hn & _). rewrite Hv in Hn. set_solver. }
  rewrite Hv in Hk. erewrite bind_done by exact Hk. right. split; [done|]. split; [simpl in Hcost; lia|].
  eexists O', _. eapply (undone root start addr); [done|eapply vm_step_trans; [exact St|exact St1]| | | | |exact F2].
  - intros d [Hd| ->%list_elem_of_singleton]%elem_of_app.
    + apply list_elem_of_lookup_1 in Hd as [k Hk']. destruct (Hdata k d Hk') as (? & ? & _). done.
    + rewrite Hv. split; [done|]. destruct (vs_taken _ _ _ _ _ _ _ St) as [t ->]. set_solver.
  - intros w Hw. destruct (Hacc w Hw) as [[->|Hin]%elem_of_cons|[[x Hx]|?]]; right.
    + right. set_solver.
    + left. by apply Hacc1.
    + left. exists x. by eapply lookup_weaken; [|apply (vs_tables _ _ _ _ _ _ _ St1)].
    + right. set_solver.
  - intros va Hva. apply Hfree. lia.
  - intros va Hu Hva. by rewrite Hpte, Hmap, decide_False.
Qed.

Lemma alloc_loop_ok fuel : ∀ addr D O l s,
  zero_grown root start addr O0 l0 s0 D O l s → start ≤ addr → (start < addr → addr < new_sz + 4096) →
  (pages_left addr new_sz ≤ fuel)%nat → wp (alloc_loop fuel (P2V root) addr old_sz new_sz s) alloc_outcome.
Proof.
  destruct start_ok as [Hs Hm].
  induction fuel as [|fuel IH]; intros addr D O l s G Hle Hlt Hfuel; cbn [alloc_loop]; case_bool_decide as Ha.
  1: by rewrite pages_left_step in Hfuel by done; lia.
  1,3: left; split; [done|]; exists addr, D, O, l; split; [|done]; (split; [done|]); (split; [lia|done]).
  rewrite pages_left_step in Hfuel by done. pose proof (gr_ok _ _ _ _ _ _ _ _ _ _ _ _ G) as Hok.
  destruct l as [|v l].
  { destruct (vo_free _ _ _ _ Hok) as [E0 _]. simpl in E0.
    erewrite bind_done by apply kalloc_run. rewrite E0, decide_True, bool_decide_true by done. by eapply no_page. }
  destruct (take_kalloc _ _ _ _ _ Hok) as [Hk Hnz]. destruct (take_fresh _ _ _ _ _ Hok) as ([Hfa Hfr] & Hv & _).
  erewrite bind_done by exact Hk. rewrite bool_decide_false by done.
  assert (kva_pa v = V2P v) as Ekv by (rewrite <- Hv at 1; apply kva_pa_page; lia).
  unfold zero_fill. rewrite bind_modify, Ekv.
  change (put_page (V2P v) (λ _, zero_page) (set_k_kmem kmem_alloced s)) with (took v (λ _, zero_page) s).
  destruct (grow_step _ _ root start O0 l0 s0 Hm ltac:(lia) addr D O v l s UFLAGS (λ _, zero_page) G)
    as (r & O' & l' & s' & Hr & St & Hl' & Hres);
    [unfold in_user; lia|apply Hfree; lia|by apply user_entry|done|done|].
  erewrite bind_done by exact Hr. destruct Hres as [(-> & -> & Hl3 & Hok1 & HnO & Hacc1 & Hpte)|(-> & G')].
  - rewrite bool_decide_true by lia. eapply (no_table addr D O O'); try done.
    intros w Hw. by destruct (Hacc1 w Hw) as [?%not_elem_of_nil|?].
  - rewrite bool_decide_false by lia. apply (IH (addr + 4096) _ O' l' s' G'); lia.
Qed.
End AllocLoop.

Lemma alloc_uvm_outcome root O l s old_sz new_sz :
  vm_ok O root l s → 0 ≤ old_sz ≤ new_sz → new_sz < USER_TOP →
  unmapped root (ROUNDUP old_sz PGSIZE_4KB) new_sz s →
  wp (alloc_uvm (P2V root) old_sz new_sz s) (alloc_outcome root old_sz new_sz O l s).
Proof.
  intros Hok Hsz Htop Hfree. destruct (start_ok old_sz) as [Hr Hm]; [lia|].
  unfold alloc_uvm. rewrite !bool_decide_false by lia. set (start := ROUNDUP old_sz PGSIZE_4KB) in *.
  eapply (alloc_loop_ok root old_sz new_sz O l s Hok ltac:(lia) Htop Hfree _ start []).
  - apply grown_start; done || (unfold start; lia).
  - done.
  - unfold start. lia.
  - apply page_fuel_enough.
Qed.

(** With four free pages for every page to be mapped it succeeds. *)
Lemma alloc_uvm_enough root O l s old_sz new_sz :
  vm_ok O root l s → 0 ≤ old_sz ≤ new_sz → new_sz < USER_TOP →
  unmapped root (ROUNDUP old_sz PGSIZE_4KB) new_sz s →
  (4 * pages_left (ROUNDUP old_sz PGSIZE_4KB) new_sz ≤ length l)%nat →
  wp (alloc_uvm (P2V root) old_sz new_sz s) (λ r s', r = new_sz ∧
    ∃ last D O' l', stops (ROUNDUP old_sz PGSIZE_4KB) new_sz last ∧
      zero_grown root (ROUNDUP old_sz PGSIZE_4KB) last O l s D O' l' s').
Proof.
  intros Hok Hsz Htop Hfree Hmem. eapply wp_mono; [by apply alloc_uvm_outcome|].
  intros r s' [H|(_ & ? & _)]; [done|lia].
Qed.


(** Growing an address space and shrinking it back restores it: every
    address maps to what it mapped to, and no page is lost - each page of the
    free list is on the free list again or has become a page table. *)
Theorem alloc_dealloc_roundtrip root O l s old_sz new_sz :
  vm_ok O root l s → 0 ≤ old_sz < new_sz → new_sz + 4096 < USER_TOP →
  (∀ va, ROUNDUP old_sz PGSIZE_4KB ≤ va < new_sz + 4096 → pte_of root va s = 0) →
  (4 * pages_left (ROUNDUP old_sz PGSIZE_4KB) new_sz ≤ length l)%nat →
  wp ((let! r := alloc_uvm (P2V root) old_sz new_sz in dealloc_uvm (P2V root) r old_sz) s) (λ r s',
    r = old_sz ∧ ∃ O' l', vm_ok O' root l' s' ∧ (∀ va, in_user va → pte_of root va s' = pte_of root va s) ∧
      ∀ v, v ∈ l → v ∈ l' ∨ is_Some (O' !! V2P v)).
Proof.
  intros Hok Hsz Htop Hzero Hmem. destruct (roundup_spec old_sz) as [Hr Hm]; [lia|].
  apply wp_bind. kuse (alloc_uvm_enough root O l s old_sz new_sz Hok); [lia|lia| |done|].
  { intros va Hva. by rewrite Hzero by lia. }
  set (start := ROUNDUP old_sz PGSIZE_4KB) in *.
  intros r s1 (-> & last & D & O1 & l1 & [S1 [S2 S3]] & G).
  assert (last ≤ USER_TOP) as Hlast by (destruct (decide (start < last)); unfold USER_TOP, PGSIZE_4KB in *; lia).
  pose proof (grown_mapped _ _ root start last O l s D O1 l1 s1 zero_flags Hm ltac:(lia) Hlast Hok G) as HD.
  pose proof (gr_len _ _ _ _ _ _ _ _ _ _ _ _ G) as HlenD.
  assert (length D = pages_left start new_sz) as Hlen.
  { unfold pages_left. assert (Z.of_nat (length D) = (new_sz - start + 4095) / 4096); [|lia].
    destruct (decide (start < last)) as [Hlt|Hlt].
    - apply (Z.div_unique _ _ _ (new_sz - start + 4095 - Z.of_nat (length D) * 4096)); lia.
    - assert (last = start) by lia. apply (Z.div_unique _ _ _ (new_sz - start + 4095)); unfold PGSIZE_4KB in *; lia. }
  unfold dealloc_uvm. rewrite bool_decide_false by lia. fold start. apply wp_bind.
  kuse (dealloc_loop_ok root new_sz ltac:(lia) D O1 l1 s1 start (page_fuel start new_sz) (gr_ok _ _ _ _ _ _ _ _ _ _ _ _ G));
    [lia|done|done|lia|intros va Hva; lia|apply page_fuel_enough|].
  intros _ s2 [F1 _ _ _ F5 _]. apply wp_ret. split; [done|]. exists O1, (reverse (P2V <$> D) ++ l1).
  split; [done|]. split.
  - intros va Hva. rewrite F5, HlenD by done. rewrite (gr_map _ _ _ _ _ _ _ _ _ _ _ _ G) by done.
    repeat case_decide; try done. symmetry. apply Hzero. unfold PGSIZE_4KB in *. lia.
  - intros v Hv. destruct (gr_account _ _ _ _ _ _ _ _ _ _ _ _ G v Hv) as [?|[?|Hd]]; [left; set_solver|by right|].
    left. apply elem_of_app. left. apply elem_of_reverse. apply list_elem_of_fmap. exists (V2P v). split; [|done].
    destruct (free_page_fresh _ _ _ (vo_free _ _ _ _ Hok) (vo_bump _ _ _ _ Hok) Hv) as [_ ->]. done.
Qed.

(** ** Witnesses *)


Lemma dealloc_uvm_spec_witness :
  wp (alloc_uvm (P2V vm_root) 0x1000 0x2000 kstate_kinit) (λ _ s',
    wp (dealloc_uvm (P2V vm_root) 0x2000 0x1000 s') (λ r s'', r = 0x1000 ∧ pte_of vm_root 0x1234 s'' = 0)).
Proof.
  eapply wp_mono; [eapply (alloc_uvm_enough vm_root _ _ _ 0x1000 0x2000); [apply kstate_kinit_vm|lia|by vm_compute| |vm_compute; lia]|].
  - intros va _. by rewrite kstate_kinit_pte.
  - change (ROUNDUP 0x1000 PGSIZE_4KB) with 0x1000. intros r s' (-> & last & D & O' & l' & [S1 [S2 S3]] & G). pose proof (gr_len _ _ _ _ _ _ _ _ _ _ _ _ G) as Hlen.
    eapply wp_mono; [eapply dealloc_uvm_spec with (D := D); [apply G|lia|by vm_compute| |]|].
    + eapply grown_mapped; [exact zero_flags| | | |apply kstate_kinit_vm|exact G]; unfold USER_TOP; try done; lia.
    + change (pages_left _ _) with 1%nat. lia.
    + intros r s'' (-> & F). split; [reflexivity|]. rewrite (fg_map _ _ _ _ _ _ _ _ F) by done.
      change (ROUNDUP 0x1000 PGSIZE_4KB) with 0x1000. rewrite decide_True by lia. reflexivity.
Defined.

Lemma alloc_dealloc_roundtrip_witness :
  wp ((let! r := alloc_uvm (P2V vm_root) 0x1000 0x1800 in dealloc_uvm (P2V vm_root) r 0x1000) kstate_kinit)
    (λ r s', r = 0x1000 ∧ pte_of vm_root 0x1234 s' = 0).
Proof.
  eapply wp_mono; [eapply alloc_dealloc_roundtrip; [apply kstate_kinit_vm|lia|by vm_compute| |vm_compute; lia]|].
  - intros va _. by rewrite kstate_kinit_pte.
  - intros r s' (-> & O' & l' & _ & Hp & _). split; [reflexivity|]. rewrite Hp by done. apply kstate_kinit_pte.
Defined.
