(* ===== verification/VmCopy.v ===== *)
(** * Address spaces: a new one (setup_uvm) and a copy (copy_uvm) *)
From S2P Require Import Prelude State Spinlock Sched Sleeplock Ring Bio Balloc Inode Kalloc Vm PageTable VmSpec VmFree VmAlloc.

(** The kernel's PML4, which [kpml4] points to: a page below the memory that
    the page allocator hands out. *)
Record kernel_table (kp : Z) (s : kstate) : Prop := {
  kt_ptr : v_kpml4 (k_vm s) = P2V_KERN kp;
  kt_align : kp `mod` 4096 = 0;
  kt_range : 0 ≤ kp < 2 ^ 31 - 4096;
  kt_bump : kp < m_bump_ptr (k_kmem s);
  kt_length : length (page kp (k_kmem s)) = page_nat
}.

Lemma kernel_entry kp i s : kernel_table kp s → 0 ≤ i < 512 → load64 (P2V_KERN kp + 8 * i) s = ent kp i s.
Proof.
  intros [_ Ha Hr _ _] Hi. unfold load64, kva_pa.
  assert (P2V_KERN kp = KERN_BASE + kp) as -> by (unfold P2V_KERN; rewrite u64_small; unfold KERN_BASE; lia).
  rewrite bool_decide_true by lia.
  assert (V2P_KERN (KERN_BASE + kp + 8 * i) = kp + 8 * i) as ->.
  { unfold V2P_KERN. rewrite u64_small; lia. }
  destruct (entry_place kp i Ha Hi) as [-> ->]. done.
Qed.

Lemma kernel_not_free O root kp l s : vm_ok O root l s → kernel_table kp s → P2V kp ∉ l.
Proof.
  intros Hok [_ _ ? ? _] Hin. destruct (vo_free _ _ _ _ Hok) as [_ [Hpo _]]. destruct (Hpo _ Hin) as [Hv _].
  unfold kfree_ok in Hv. rewrite !andb_true_iff, !bool_decide_eq_true in Hv. destruct Hv as [[_ Hb] _].
  pose proof (vo_bump _ _ _ _ Hok) as Hbb. unfold PHY_STOP in Hbb.
  rewrite !P2V_small in Hb by (unfold PHY_STOP; lia). lia.
Qed.

(** A page that has been filled from the kernel's table up to entry [i]. *)
Definition filled (kp i : Z) (s : kstate) (d : list byte) : Prop :=
  length d = page_nat ∧ ∀ j, 0 ≤ j < 512 → get_le 8 (Z.to_nat (8 * j)) d = if decide (256 ≤ j < i) then ent kp j s else 0.

Section Setup.
Context (O : tables) (root v kp : Z) (l : list Z) (s : kstate).
Hypothesis Hok : vm_ok O root (v :: l) s.
Hypothesis Hk : kernel_table kp s.

Lemma kernel_page_kept f : page kp (k_kmem (took v f s)) = page kp (k_kmem s).
Proof.
  apply (take_page O root v l s f Hok). intros E. destruct (take_fresh O root v l s Hok) as (_ & Ev & _).
  apply (kernel_not_free O root kp (v :: l) s Hok Hk). rewrite E, Ev. left.
Qed.

Lemma setup_uvm_run : ∃ d, filled kp 512 s d ∧ setup_uvm s = Done v (took v (λ _, d) s).
Proof.
  destruct (take_kalloc O root v l s Hok) as [Hka Hnz]. destruct (take_fresh O root v l s Hok) as ([Ha Hr] & Ev & _).
  assert (wp (setup_uvm s) (λ r s', r = v ∧ ∃ d, filled kp 512 s d ∧ s' = took v (λ _, d) s)) as H.
  2:{ apply wp_done in H as (r & s' & E & -> & d & Hd & ->). by exists d. }
  unfold setup_uvm. apply wp_bind. rewrite Hka. cbn [wp]. rewrite bool_decide_false by done.
  assert (kva_pa v = V2P v) as Ekv by (rewrite <- Ev at 1; apply kva_pa_page; lia).
  unfold zero_fill. rewrite bind_modify, Ekv.
  change (put_page (V2P v) (λ _, zero_page) (set_k_kmem kmem_alloced s)) with (took v (λ _, zero_page) s).
  apply wp_bind. eapply wp_mono.
  - apply (wp_for_each_seqZ (λ i s', ∃ d, filled kp i s d ∧ s' = took v (λ _, d) s) 256 256); [lia| |].
    + exists zero_page. split; [|done]. split; [apply length_replicate|]. intros j Hj.
      rewrite decide_False by lia. apply get_le_zeros.
    + intros i s1 Hi (d & [Hd1 Hd2] & ->). unfold get_kpml4. rewrite !bind_gets.
      change (v_kpml4 (k_vm (took v (λ _, d) s))) with (v_kpml4 (k_vm s)). rewrite (kt_ptr _ _ Hk).
      rewrite (kernel_entry kp).
      2:{ destruct Hk as [H1 H2 H3 H4 H5]. split; [done|done|done|done|]. by rewrite kernel_page_kept. }
      2: lia.
      assert (∀ x, store64 (v + 8 * i) x = store64 (P2V (V2P v) + 8 * i) x) as -> by (intros; by rewrite Ev).
      rewrite store64_entry by lia. cbn [wp].
      assert (ent kp i (took v (λ _, d) s) = ent kp i s) as -> by (unfold ent; by rewrite kernel_page_kept).
      exists (set_le 8 (Z.to_nat (8 * i)) (ent kp i s) d). unfold filled, page_nat in *. split.
      * split; [rewrite set_le_length; lia|]. intros j Hj. destruct (decide (i = j)) as [<-|Hne].
        -- rewrite get_set_le_eq, decide_True by lia. apply Z.mod_small. unfold ent.
           apply (get_le_range 8). rewrite (kt_length _ _ Hk). unfold page_nat. lia.
        -- rewrite get_set_le_ne, Hd2 by lia. repeat case_decide; done || lia.
      * unfold took, put_page. kext. unfold page; simpl. rewrite lookup_insert_eq, !insert_insert_eq. done.
  - intros [] s' Hs'. apply wp_ret. done.
Qed.

Section Filled.
Context (d : list byte).
Hypothesis Hd : filled kp 512 s d.
Let s1 := took v (λ _, d) s.

Lemma new_ent j : 0 ≤ j < 512 → ent (V2P v) j s1 = if decide (256 ≤ j < 512) then ent kp j s else 0.
Proof. intros Hj. unfold ent at 1, s1. rewrite (take_page_new O root v l s) by done. by apply Hd. Qed.

Lemma new_space_ok : vm_ok {[V2P v := (3%nat, 0)]} (V2P v) l s1.
Proof.
  destruct (take_ok O root v l s (λ _, d) Hok) as [Hb Hf _ _ _]. fold s1 in Hb, Hf.
  destruct (take_fresh O root v l s Hok) as ([Ha Hr] & Ev & Hnl & _).
  split; [done|done|apply lookup_insert_eq| |].
  - intros pa x [<- _]%lookup_singleton_Some. rewrite Ev. split; [|done]. split; [done|lia|].
    unfold s1. rewrite (take_page_new O root v l s) by done. apply Hd.
  - intros pa h p i [<- [= <- <-]]%lookup_singleton_Some Hi. unfold width in Hi. simpl in Hi.
    rewrite new_ent, decide_False by lia. done.
Qed.

Lemma new_space_pte va : in_user va → pte_of (V2P v) va s1 = 0.
Proof.
  intros Hu. unfold pte_of. cbn [leaf]. pose proof (idx_range 3 va). pose proof (idx_root va Hu).
  rewrite new_ent, decide_False by lia. done.
Qed.
End Filled.
End Setup.

(** An address space is untouched by work on another one. *)
Section Other.
Context (O : tables) (root : Z) (l l' : list Z) (s s' : kstate).
Hypothesis Hok : vm_ok O root l s.
Hypothesis Hbump : m_bump_ptr (k_kmem s') = m_bump_ptr (k_kmem s).
Hypothesis Hfree : free_list_is (k_kmem s') l'.
Hypothesis Hsub : ∀ v, v ∈ l' → v ∈ l.
Hypothesis Hpage : ∀ pa x, O !! pa = Some x → page pa (k_kmem s') = page pa (k_kmem s).

Lemma other_ent pa x i : O !! pa = Some x → ent pa i s' = ent pa i s.
Proof. intros H. unfold ent. by rewrite (Hpage pa x). Qed.

Lemma other_ok : vm_ok O root l' s'.
Proof.
  destruct Hok as [Hb Hf Hr Ht Hc]. split.
  - by rewrite Hbump.
  - done.
  - done.
  - intros pa x Hx. destruct (Ht pa x Hx) as [[T1 T2 T3] T4]. split; [|set_solver].
    split; [done|done|]. by rewrite (Hpage pa x).
  - intros pa h p i Hx Hi. rewrite (other_ent pa _ i Hx). by apply Hc.
Qed.

Lemma other_leaf va : in_user va → ∀ h pa, O !! pa = Some (h, pfx h va) → leaf h pa va s' = leaf h pa va s.
Proof.
  intros Hu. induction h as [|h IH]; intros pa Hpa; cbn [leaf]; rewrite (other_ent pa _ _ Hpa); [done|].
  destruct (has _ PTE_P) eqn:E; [|done]. apply IH. by eapply child_ok.
Qed.

Lemma other_pte va : in_user va → pte_of root va s' = pte_of root va s.
Proof. intros Hu. apply other_leaf; [done|]. by eapply root_user. Qed.
End Other.

(** ** Copying *)

(** The entry of the parent's page number [k] from [PGSIZE_4KB] on. *)
Definition source (root : Z) (s : kstate) (k : nat) : Z := pte_of root (4096 + Z.of_nat k * 4096) s.

(** The pages that [fork] copies: mapped, and not on the free list. *)
Definition copyable (root sz : Z) (l : list Z) (s : kstate) : Prop :=
  ∀ va, 4096 ≤ va < sz → has (pte_of root va s) PTE_P = true ∧ P2V (PTE_ADDR (pte_of root va s)) ∉ l.

Section CopyLoop.
Context (Op Oc : tables) (rp rc sz : Z) (l0 l1 : list Z) (s0 s1 : kstate).
Hypothesis Hp0 : vm_ok Op rp l0 s0.
Hypothesis Hsz : sz < USER_TOP.
Hypothesis Hsrc : copyable rp sz l0 s0.
Hypothesis Hoc : Oc = {[rc := (3%nat, 0)]}.
Hypothesis Hrc : P2V rc ∈ l0 ∧ P2V rc ∉ l1.
Hypothesis Hl1 : ∀ v, v ∈ l1 → v ∈ l0.
Hypothesis Hbump : m_bump_ptr (k_kmem s1) = m_bump_ptr (k_kmem s0).
Hypothesis Hpage1 : ∀ pa, pa ≠ rc → page pa (k_kmem s1) = page pa (k_kmem s0).
Hypothesis Hzero : ∀ va, in_user va → pte_of rc va s1 = 0.

Let fl (k : nat) : Z := PTE_FLAGS (source rp s0 k).
Let ct (k : nat) : list byte := page (PTE_ADDR (source rp s0 k)) (k_kmem s0).

(** What is not the child's has not changed. *)
Lemma copy_page addr D O l s pa : grown fl ct rc 4096 addr Oc l1 s1 D O l s → P2V pa ∉ l0 →
  page pa (k_kmem s) = page pa (k_kmem s0).
Proof.
  intros G Hn. assert (pa ≠ rc) as Hne by (intros ->; by destruct Hrc).
  rewrite (vs_page _ _ _ _ _ _ _ (gr_step _ _ _ _ _ _ _ _ _ _ _ _ G)); [by apply Hpage1| |naive_solver].
  rewrite Hoc. by apply lookup_singleton_ne.
Qed.

(** The parent's tables are not on the free list. *)
Lemma copy_parent addr D O l s : grown fl ct rc 4096 addr Oc l1 s1 D O l s →
  vm_ok Op rp l s ∧ ∀ va, in_user va → pte_of rp va s = pte_of rp va s0.
Proof.
  intros G. pose proof (gr_step _ _ _ _ _ _ _ _ _ _ _ _ G) as St.
  assert (∀ pa x, Op !! pa = Some x → page pa (k_kmem s) = page pa (k_kmem s0)) as Hpg.
  { intros pa x Hx. eapply copy_page; [done|]. by destruct (vo_table _ _ _ _ Hp0 pa x Hx). }
  split.
  - eapply (other_ok Op rp l0 l s0 s); [done| | | |done].
    + by rewrite (vs_bump _ _ _ _ _ _ _ St).
    + apply (vo_free _ _ _ _ (gr_ok _ _ _ _ _ _ _ _ _ _ _ _ G)).
    + intros v Hv. apply Hl1. destruct (vs_taken _ _ _ _ _ _ _ St) as [t ->]. set_solver.
  - intros va Hu. by eapply (other_pte Op rp l0 s0 s).
Qed.

Lemma lor_present d f : has f PTE_P = true → 0 ≤ f < 4096 → fresh_page d → Z.lor (Z.lor d f) PTE_P = d + f.
Proof.
  intros Hf Hr [Ha _]. rewrite <- Z.lor_assoc. assert (Z.lor f PTE_P = f) as ->; [|by apply entry_lor].
  unfold has in Hf. rewrite bool_decide_eq_true in Hf. unfold PTE_P in *.
  assert (Z.testbit f 0 = true) as Hb.
  { destruct (Z.testbit f 0) eqn:E; [done|]. exfalso. apply Hf. apply Z.bits_inj'. intros n Hn.
    rewrite Z.land_spec, Z.bits_0. destruct (decide (n = 0)) as [->|]; [by rewrite E|].
    rewrite (Z.bits_above_log2 1 n) by (simpl; lia). apply andb_false_r. }
  apply Z.bits_inj'. intros n Hn. rewrite Z.lor_spec. destruct (decide (n = 0)) as [->|]; [by rewrite Hb|].
  rewrite (Z.bits_above_log2 1 n) by (simpl; lia). apply orb_false_r.
Qed.

Lemma flags_range e : 0 ≤ PTE_FLAGS e < 4096.
Proof. unfold PTE_FLAGS. change 0xFFF with 4095. rewrite land_4095. apply Z.mod_pos_bound. done. Qed.

Lemma has_flags e : has (PTE_FLAGS e) PTE_P = has e PTE_P.
Proof. unfold has, PTE_FLAGS, PTE_P. rewrite <- Z.land_assoc. done. Qed.

Lemma copy_loop_ok fuel : ∀ addr D O l s,
  grown fl ct rc 4096 addr Oc l1 s1 D O l s → 4096 ≤ addr →
  (4096 < addr → addr < sz + 4096) →
  (pages_left addr sz ≤ fuel)%nat → (4 * pages_left addr sz ≤ length l)%nat →
  wp (copy_loop fuel (P2V rp) (P2V rc) addr sz s) (λ r s', r = P2V rc ∧
    ∃ last D' O' l', stops 4096 sz last ∧ grown fl ct rc 4096 last Oc l1 s1 D' O' l' s').
Proof.
  induction fuel as [|fuel IH]; intros addr D O l s G Hle Hlt Hfuel Hmem; cbn [copy_loop]; case_bool_decide as Ha.
  1: by rewrite pages_left_step in Hfuel by done; lia.
  1,3: split; [done|]; exists addr, D, O, l; split; [|done]; (split; [done|]); (split; [lia|done]).
  rewrite pages_left_step in Hfuel, Hmem by done. destruct l as [|v l]; [simpl in Hmem; lia|].
  pose proof (gr_ok _ _ _ _ _ _ _ _ _ _ _ _ G) as Hok. destruct (copy_parent _ _ _ _ _ G) as [Hpo Hpp].
  assert (in_user addr) as Hu by (unfold in_user; lia).
  destruct (Hsrc addr) as [Hpr Hnf]; [lia|].
  assert (source rp s0 (length D) = pte_of rp addr s0) as Esrc.
  { unfold source. pose proof (gr_len _ _ _ _ _ _ _ _ _ _ _ _ G) as E. by replace (4096 + _) with addr by lia. }
  destruct (present_slot Op rp (v :: l) s addr Hpo Hu) as (pt & _ & Eslot & Eload & Enz); [by rewrite Hpp|].
  rewrite walk_pml4_shifts. erewrite bind_done by (apply (walk_false rp addr Hu Op (v :: l) s Hpo); by eapply root_user).
  rewrite Eslot, bool_decide_false, bind_gets, Eload, Hpp, Hpr by done. cbn [negb].
  destruct (take_kalloc _ _ _ _ _ Hok) as [Hk Hnz]. destruct (take_fresh _ _ _ _ _ Hok) as (Hf & Hv & _).
  erewrite bind_done by exact Hk. rewrite bool_decide_false by done. rewrite bind_modify.
  set (src := PTE_ADDR (pte_of rp addr s0)) in *.
  assert (src ≠ V2P v) as Hne.
  { intros E. apply Hnf. rewrite E, Hv. apply Hl1.
    destruct (vs_taken _ _ _ _ _ _ _ (gr_step _ _ _ _ _ _ _ _ _ _ _ _ G)) as [t ->]. set_solver. }
  assert (page src (k_kmem (set_k_kmem kmem_alloced s)) = page src (k_kmem s0)) as ->.
  { rewrite <- (copy_page _ _ _ _ _ src G Hnf). rewrite <- (take_page _ _ _ _ _ (λ d, d) Hok src Hne).
    unfold took. rewrite page_put, decide_False by done. done. }
  change (put_page (V2P v) ?f (set_k_kmem kmem_alloced s)) with (took v f s).
  destruct (grow_step fl ct rc 4096 Oc l1 s1 eq_refl ltac:(done) addr D O v l s (PTE_FLAGS (pte_of rp addr s0))
              (λ _, page src (k_kmem s0)) G Hu) as (r & O' & l' & s' & Hr & _ & Hl' & Hres).
  { by rewrite Hzero. }
  { unfold fl. rewrite Esrc. apply lor_present; [by rewrite has_flags|apply flags_range|done]. }
  { apply flags_range. } { intros _. unfold ct. by rewrite Esrc. }
  erewrite bind_done by exact Hr. destruct Hres as [(_ & _ & ? & _)|(-> & G')]; [simpl in Hmem; lia|].
  rewrite bool_decide_false by lia. apply (IH (addr + 4096) _ O' l' s' G'); [lia|lia|lia|simpl in Hmem; lia].
Qed.
End CopyLoop.

(** What a copy of the address space [rp] up to [sz] is: pages of its own with
    the contents and the flags of the parent's, the null page unmapped, and
    the kernel's half of the PML4. *)
Record copied (rp rc kp sz : Z) (l : list Z) (s : kstate)
    (D : list Z) (O : tables) (l' : list Z) (s' : kstate) : Prop := {
  co_ok : vm_ok O rc l' s';
  co_frame : kmem_frame s s';
  co_tables : ∀ pa x, O !! pa = Some x → P2V pa ∈ l ∧ P2V pa ∉ l';
  co_fresh : NoDup D ∧ ∀ d, d ∈ D → P2V d ∈ l ∧ P2V d ∉ l' ∧ O !! d = None;
  co_free : ∀ v, v ∈ l' → v ∈ l;
  co_map : ∀ va, 4096 ≤ va < sz → ∃ d, D !! Z.to_nat ((va - 4096) / 4096) = Some d ∧
    pte_of rc va s' = d + PTE_FLAGS (pte_of rp va s) ∧
    page d (k_kmem s') = page (PTE_ADDR (pte_of rp va s)) (k_kmem s);
  co_unmapped : ∀ va, in_user va → va < 4096 ∨ sz + 4096 ≤ va → pte_of rc va s' = 0;
  co_kernel : ∀ i, 256 ≤ i < 512 → ent rc i s' = ent kp i s;
  co_other : ∀ pa, P2V pa ∉ l → page pa (k_kmem s') = page pa (k_kmem s)
}.

Lemma grown_copied rp kp sz Op v l1 s d D O l s' last :
  vm_ok Op rp (v :: l1) s → kernel_table kp s → filled kp 512 s d → sz < USER_TOP →
  stops 4096 sz last → 
  grown (λ k, PTE_FLAGS (source rp s k)) (λ k, page (PTE_ADDR (source rp s k)) (k_kmem s)) (V2P v) 4096 last
    {[V2P v := (3%nat, 0)]} l1 (took v (λ _, d) s) D O l s' →
  copied rp (V2P v) kp sz (v :: l1) s D O l s'.
Proof.
  intros Hp Hk Hd Htop [S1 [S2 S3]] G. pose proof G as [Hok St Hdata Hnd Hlen Hmap _ Hcost].
  destruct (take_fresh Op rp v l1 s Hp) as (Hf & Ev & Hnl & _).
  assert (∀ w, w ∈ l → w ∈ l1) as Hsub.
  { destruct (vs_taken _ _ _ _ _ _ _ St) as [t ->]. set_solver. }
  split.
  - done.
  - unfold kmem_frame. rewrite (vs_frame _ _ _ _ _ _ _ St). by kext.
  - intros pa x Hx. destruct (decide (pa = V2P v)) as [->|Hne]; [rewrite Ev; split; [left|by intros ?%Hsub]|].
    destruct (vs_new _ _ _ _ _ _ _ St pa x Hx) as [? ?]; [by apply lookup_singleton_ne|]. split; [by right|done].
  - split; [done|]. intros x [k Hx]%list_elem_of_lookup_1. destruct (Hdata k x Hx) as (_ & ? & ? & ? & _).
    split_and!; [by right|done|done].
  - intros w Hw. right. by apply Hsub.
  - intros va Hva. destruct (grown_lookup _ _ _ _ _ _ _ _ _ _ _ _ va G) as [x Hx]; [lia|].
    exists x. split; [done|]. set (k := Z.to_nat ((va - 4096) / 4096)) in *.
    assert (source rp s k = pte_of rp va s) as E.
    { apply pte_of_page. pose proof (Z.div_pos (va - 4096) 4096). subst k. rewrite Z2Nat.id by lia.
      rewrite Z.div_add by done. change (4096 / 4096) with 1.
      replace va with ((va - 4096) + 1 * 4096) at 2 by lia. rewrite Z.div_add by done. lia. }
    rewrite Hmap by (unfold in_user; lia). rewrite decide_True by lia. cbv zeta. fold k. rewrite Hx, <- E.
    split; [done|]. apply (Hdata k x Hx).
  - intros va Hu Hva. rewrite Hmap by done. destruct (decide (4096 < last)).
    + rewrite decide_False by lia. by apply (new_space_pte Op rp v kp l1).
    + rewrite decide_False by lia. by apply (new_space_pte Op rp v kp l1).
  - intros i Hi. rewrite (vs_kernel _ _ _ _ _ _ _ St) by done.
    rewrite (new_ent Op rp v kp l1 s Hp d Hd) by lia. by rewrite decide_True.
  - intros pa Hn. assert (pa ≠ V2P v) as Hne by (intros ->; rewrite Ev in Hn; set_solver).
    rewrite (vs_page _ _ _ _ _ _ _ St); [by apply (take_page Op rp v l1)|by apply lookup_singleton_ne|set_solver].
Qed.

(** C39. [copy_uvm], the copy that [fork] gives its child: with enough free
    pages it succeeds, and the child's address space has, for every page of
    the parent from the second one (0x1000) up to [sz], a page of its own with the same
    contents and flags; the first page and everything above stay unmapped, the
    kernel's half of the PML4 is the kernel's, and no memory outside the pages
    taken changes - so the parent's address space is what it was. *)
Theorem copy_uvm_spec O root kp l s sz :
  vm_ok O root l s → kernel_table kp s → sz < USER_TOP → copyable root sz l s →
  (4 * pages_left 4096 sz < length l)%nat →
  wp (copy_uvm (P2V root) sz s) (λ r s', ∃ rc D O' l', r = P2V rc ∧
    copied root rc kp sz l s D O' l' s' ∧
    vm_ok O root l' s' ∧ ∀ va, in_user va → pte_of root va s' = pte_of root va s).
Proof.
  intros Hok Hk Htop Hsrc Hmem. destruct l as [|v l]; [simpl in Hmem; lia|].
  destruct (setup_uvm_run O root v kp l s Hok Hk) as (d & Hd & Hrun).
  destruct (take_kalloc O root v l s Hok) as [_ Hnz]. destruct (take_fresh O root v l s Hok) as (Hf & Ev & Hnl & _).
  unfold copy_uvm. apply wp_bind. rewrite Hrun. cbn [wp]. rewrite bool_decide_false by done.
  pose proof (new_space_ok O root v kp l s Hok d Hd) as Hnew. set (s1 := took v (λ _, d) s) in *.
  rewrite <- Ev at 1.
  eapply wp_mono.
  - apply (copy_loop_ok O {[V2P v := (3%nat, 0)]} root (V2P v) sz (v :: l) l s s1 Hok Htop Hsrc eq_refl) with
      (addr := 4096) (D := []) (O := {[V2P v := (3%nat, 0)]}) (l := l).
    + rewrite Ev. split; [left|done].
    + set_solver.
    + done.
    + intros pa Hne. by apply (take_page O root v l).
    + intros va Hu. by apply (new_space_pte O root v kp l).
    + by apply grown_start.
    + done.
    + done.
    + apply page_fuel_enough.
    + simpl in Hmem. lia.
  - intros r s' (-> & last & D & O' & l' & Hst & G). exists (V2P v), D, O', l'. split; [done|].
    split; [by eapply grown_copied|]. eapply (copy_parent O {[V2P v := (3%nat, 0)]} root (V2P v) sz (v :: l) l s s1); try done.
    + rewrite Ev. split; [left|done].
    + set_solver.
    + intros pa Hne. by apply (take_page O root v l).
    + intros va Hu. by apply (new_space_pte O root v kp l).
Qed.

(** ** Witness: sixteen free pages, the kernel's PML4 just below them *)

Definition big_map : list mmap_entry := [mk_mmap 0x100000 0x110000 1].
Definition kstate_vm : kstate :=
  set_k_vm (set_v_kpml4 (P2V_KERN 0x1ff000))
    (match kinit big_map kstate_kmem with Done _ s => s | _ => kstate0 end).
Definition vm_free : list Z := reverse ((λ i, P2V (0x200000 + i * 4096)) <$> seqZ 0 16).

Lemma kstate_vm_free : free_list_is (k_kmem kstate_vm) vm_free.
Proof.
  split; [vm_compute; tauto|]. split.
  - intros v Hv. change vm_free with (ltac:(let l := eval vm_compute in vm_free in exact l)) in Hv.
    repeat (apply elem_of_cons in Hv as [->|Hv]); [..|by apply elem_of_nil in Hv];
      (split; [vm_compute; done|split; vm_compute; done]).
  - apply (bool_decide_unpack _). vm_compute. done.
Qed.

Lemma kstate_vm_page : page vm_root (k_kmem kstate_vm) = zero_page.
Proof. vm_compute. reflexivity. Qed.

Lemma kstate_vm_ok : vm_ok {[vm_root := (3%nat, 0)]} vm_root vm_free kstate_vm.
Proof.
  split.
  - vm_compute. done.
  - exact kstate_vm_free.
  - apply lookup_insert_eq.
  - intros pa x [<- _]%lookup_singleton_Some. split; [split; [done|by vm_compute|by rewrite kstate_vm_page]|].
    apply (bool_decide_unpack _). vm_compute. done.
  - intros pa h p i [<- _]%lookup_singleton_Some Hi. unfold ent. rewrite kstate_vm_page. unfold zero_page.
    by rewrite get_le_zeros.
Qed.

Lemma kstate_vm_pte va : pte_of vm_root va kstate_vm = 0.
Proof.
  unfold pte_of. cbn [leaf]. assert (∀ i, ent vm_root i kstate_vm = 0) as ->; [|done].
  intros i. unfold ent. rewrite kstate_vm_page. apply get_le_zeros.
Qed.

Lemma kstate_vm_kernel : kernel_table 0x1ff000 kstate_vm.
Proof. split; vm_compute; done. Qed.

(** The kernel's table stays while pages are taken from the free list. *)
Lemma kernel_table_step O O' root kp l l' s s' :
  vm_ok O root l s → vm_step root O O' l l' s s' → kernel_table kp s → O !! kp = None → kernel_table kp s'.
Proof.
  intros Hok St Hk HO. pose proof (kernel_not_free _ _ _ _ _ Hok Hk) as Hn. destruct Hk as [H1 H2 H3 H4 H5].
  pose proof (vs_frame _ _ _ _ _ _ _ St) as E. unfold kmem_frame in E. split; try done.
  - rewrite E. done.
  - by rewrite (vs_bump _ _ _ _ _ _ _ St).
  - by rewrite (vs_page _ _ _ _ _ _ _ St).
Qed.

(** One page of user memory, at 0x1000. *)
Record one_page (s s' : kstate) (O : tables) (l : list Z) (d : Z) : Prop := {
  op_ok : vm_ok O vm_root l s';
  op_step : vm_step vm_root {[vm_root := (3%nat, 0)]} O vm_free l s s';
  op_pte : ∀ va, 0x1000 ≤ va < 0x2000 → pte_of vm_root va s' = d + 7;
  op_page : fresh_page d ∧ P2V d ∉ l ∧ page d (k_kmem s') = zero_page;
  op_left : (12 ≤ length l)%nat
}.

Lemma alloc_one_page s : vm_ok {[vm_root := (3%nat, 0)]} vm_root vm_free s → (∀ va, pte_of vm_root va s = 0) →
  wp (alloc_uvm (P2V vm_root) 0x1000 0x2000 s) (λ _ s', ∃ O l d, one_page s s' O l d).
Proof.
  intros Hok H0.
  eapply wp_mono; [eapply (alloc_uvm_enough vm_root _ _ _ 0x1000 0x2000); [exact Hok|lia|by vm_compute| |vm_compute; lia]|].
  - intros va _. by rewrite H0.
  - change (ROUNDUP 0x1000 PGSIZE_4KB) with 0x1000. intros r s' (-> & last & D & O' & l' & [S1 [S2 S3]] & G).
    pose proof G as [Hok' St Hdata _ Hlen Hmap _ Hcost].
    destruct D as [|d [|? ?]]; simpl in Hlen; [lia| |lia]. change (length vm_free) with 16%nat in Hcost.
    destruct (Hdata 0%nat d eq_refl) as (Hf & _ & Hn & _ & Hz).
    exists O', l', d. split; try done; [|simpl in Hcost; lia].
    intros va Hva. rewrite Hmap, decide_True by (unfold in_user, USER_TOP; lia). cbv zeta.
    replace ((va - 4096) / 4096) with 0; [done|]. symmetry. apply Z.div_small. lia.
Qed.

Lemma one_page_kernel s s' O l d : vm_ok {[vm_root := (3%nat, 0)]} vm_root vm_free s → kernel_table 0x1ff000 s →
  one_page s s' O l d → kernel_table 0x1ff000 s'.
Proof. intros Hok Hk [? ? _ _ _]. by eapply (kernel_table_step _ _ _ _ _ _ s s' Hok), lookup_singleton_ne. Qed.

Lemma one_page_copyable s s' O l d : one_page s s' O l d → copyable vm_root 0x2000 l s'.
Proof.
  intros [_ _ Hpte ([Ha Hr] & Hn & _) _] va Hva. rewrite Hpte, entry_has, entry_addr by (done || lia). done.
Qed.

Lemma copy_uvm_spec_witness :
  wp (alloc_uvm (P2V vm_root) 0x1000 0x2000 kstate_vm) (λ _ s',
    wp (copy_uvm (P2V vm_root) 0x2000 s') (λ r s'', ∃ rc d, r = P2V rc ∧
      pte_of rc 0x1234 s'' = d + 7 ∧ page d (k_kmem s'') = zero_page)).
Proof.
  eapply wp_mono; [apply alloc_one_page; [exact kstate_vm_ok|exact kstate_vm_pte]|].
  intros _ s' (O' & l' & d & P). pose proof P as [Hok' St Hpte ([Ha Hr] & Hn & Hz) Hl].
  eapply wp_mono; [eapply (copy_uvm_spec O' vm_root 0x1ff000 l' s' 0x2000)|].
  - exact Hok'.
  - by eapply one_page_kernel; [exact kstate_vm_ok|exact kstate_vm_kernel|].
  - reflexivity.
  - by eapply one_page_copyable.
  - change (pages_left 4096 0x2000) with 1%nat. lia.
  - intros r s'' (rc & D' & O'' & l'' & -> & C & _). destruct (co_map _ _ _ _ _ _ _ _ _ _ C 0x1234) as (e & _ & Hp & Hc); [lia|].
    rewrite Hpte in Hp, Hc by lia. rewrite entry_flags in Hp by (done || lia). rewrite entry_addr, Hz in Hc by (done || lia).
    exists rc, e. split; [reflexivity|]. split; [exact Hp|exact Hc].
Defined.
