(* ===== verification/Font.v ===== *)
(** * The 8x16 font (kernel/driver/font8x16.h)

    A glyph is sixteen bytes, one per pixel row from the top, most significant
    bit leftmost; here each glyph is the big-endian number of its bytes. *)
From Stdlib Require Import ZArith List.
Import ListNotations.
Open Scope Z_scope.

Definition FONT_CHAR_W : Z := 8.
Definition FONT_CHAR_H : Z := 16.
Definition FONT_FIRST : Z := 0x20.
Definition FONT_LAST : Z := 0x7e.

Definition glyph (n : Z) : list Z :=
  map (fun row => Z.land (Z.shiftr n (8 * (15 - Z.of_nat row))) 0xFF) (seq 0 16).

Definition font8x16 : list (list Z) := map glyph [
  0x00000000000000000000000000000000;
  0x00000010101010101010000018180000;
  0x00123624480000000000000000000000;
  0x000000242424FE484848FE4848480000;
  0x00001038545450301814145454381010;
  0x00000044A4A8A8A8541A2A2A2A440000;
  0x00000030484848506EA4948889760000;
  0x00606020C00000000000000000000000;
  0x00020408081010101010100808040200;
  0x00402010100808080808081010204000;
  0x000000001010D63838D6101000000000;
  0x0000000010101010FE10101010000000;
  0x000000000000000000000000606020C0;
  0x00000000000000007F00000000000000;
  0x00000000000000000000000060600000;
  0x00000102020404080810102020404000;
  0x00000018244242424242424224180000;
  0x000000107010101010101010107C0000;
  0x0000003C4242420404081020427E0000;
  0x0000003C424204180402024244380000;
  0x000000040C14242444447E04041E0000;
  0x0000007E404040586402024244380000;
  0x0000001C244040586442424224180000;
  0x0000007E444408081010101010100000;
  0x0000003C4242422418244242423C0000;
  0x0000001824424242261A020224380000;
  0x00000000000018180000000018180000;
  0x00000000000000100000000000101020;
  0x00000002040810204020100804020000;
  0x000000000000FE000000FE0000000000;
  0x00000040201008040204081020400000;
  0x0000003C424262020408080018180000;
  0x00000038445AAAAAAAAAB44244380000;
  0x0000001010182828243C444242E70000;
  0x000000F8444444784442424244F80000;
  0x0000003E424280808080804244380000;
  0x000000F8444242424242424244F80000;
  0x000000FC424848784848404242FC0000;
  0x000000FC424848784848404040E00000;
  0x0000003C44448080808E844444380000;
  0x000000E7424242427E42424242E70000;
  0x0000007C1010101010101010107C0000;
  0x0000003E0808080808080808080888F0;
  0x000000EE444850705048484444EE0000;
  0x000000E0404040404040404042FE0000;
  0x000000EE6C6C6C6C5454545454D60000;
  0x000000C7626252524A4A4A4646E20000;
  0x00000038448282828282828244380000;
  0x000000FC424242427C40404040E00000;
  0x00000038448282828282B2CA4C380600;
  0x000000FC4242427C4848444442E30000;
  0x0000003E4242402018040242427C0000;
  0x000000FE921010101010101010380000;
  0x000000E74242424242424242423C0000;
  0x000000E7424244242428281810100000;
  0x000000D692929292AAAA6C4444440000;
  0x000000E7422424181818242442E70000;
  0x000000EE444428281010101010380000;
  0x0000007E840408081020204242FC0000;
  0x001E1010101010101010101010101E00;
  0x00004040202010101008080404040202;
  0x00780808080808080808080808087800;
  0x001C2200000000000000000000000000;
  0x000000000000000000000000000000FF;
  0x00601000000000000000000000000000;
  0x000000000000003C421E2242423F0000;
  0x000000C0404040586442424264580000;
  0x000000000000001C22404040221C0000;
  0x000000060202021E22424242261B0000;
  0x000000000000003C427E4040423C0000;
  0x0000000F1110107E10101010107C0000;
  0x000000000000003E444438403C42423C;
  0x000000C04040405C6242424242E70000;
  0x000000303000007010101010107C0000;
  0x0000000C0C00001C0404040404044478;
  0x000000C04040404E4850684844EE0000;
  0x000000701010101010101010107C0000;
  0x00000000000000FE4949494949ED0000;
  0x00000000000000DC6242424242E70000;
  0x000000000000003C42424242423C0000;
  0x00000000000000D864424242447840E0;
  0x000000000000001E22424242221E0207;
  0x00000000000000EE3220202020F80000;
  0x000000000000003E42403C02427C0000;
  0x000000000010107C10101010100C0000;
  0x00000000000000C642424242463B0000;
  0x00000000000000E74224242810100000;
  0x00000000000000D79292AAAA44440000;
  0x000000000000006E2418181824760000;
  0x00000000000000E742242428181010E0;
  0x000000000000007E44081010227E0000;
  0x00030404040404080404040404040300;
  0x08080808080808080808080808080808;
  0x00601010101010081010101010106000;
  0x304C4300000000000000000000000000
].
