(* ===== verification/Gop.v ===== *)
(** * The frame buffer (kernel/gop.c) *)
From S2P Require Import Prelude State Spinlock Sched Sleeplock Ring Bio Balloc Inode Kalloc Vm.

Definition GOP_BLK : Z := 0.
Definition GOP_WHI : Z := 0x00FFFFFF.

(** Assignments to the fields of the devices. *)
Definition set_gop (g : gop_fb) : kstate → kstate := set_k_dev (set_d_gop g).
Definition upd_fb (f : gmap Z byte → gmap Z byte) : kstate → kstate :=
  set_k_dev (λ d, set_d_fb (f (d_fb d)) d).

(** A tag of the boot information: the frame buffer's, or another one. *)
Record mb2_tag_fb := mk_tag_fb {
  tf_addr : Z; tf_pitch : Z; tf_width : Z; tf_height : Z; tf_bpp : Z; tf_fb_type : Z
}.

(** The loop of [gop_init] over the frame buffer tags: the final [found]. *)
Fixpoint gop_tags (tags : list mb2_tag_fb) (found : bool) : M kstate bool :=
  match tags with
  | [] => ret found
  | t :: tags' =>
    if bool_decide (tf_fb_type t ≠ 1) then panic "unsupported fb type" else
    modify (λ s, set_gop (mk_gop (g_base (d_gop (k_dev s))) (tf_width t) (tf_height t) (tf_pitch t)
                                 (tf_bpp t) (tf_fb_type t)) s) ;;;
    let! base := io_remap (tf_addr t) (u32 (tf_pitch t * tf_height t)) in
    modify (λ s, set_gop (mk_gop base (tf_width t) (tf_height t) (tf_pitch t)
                                 (tf_bpp t) (tf_fb_type t)) s) ;;;
    gop_tags tags' true
  end.

Definition gop_init (tags : list mb2_tag_fb) : M kstate unit :=
  let! found := gop_tags tags false in
  if negb found then panic "No GOP found" else ret tt.

Definition gop_draw_pixel (x y color : Z) : M kstate unit :=
  let! g := gets (λ s, d_gop (k_dev s)) in
  let bytes_per_pixel := g_bpp g / 8 in
  let pixel := u64 (g_base g + y * g_pitch g + x * bytes_per_pixel) in
  for_each (seqZ 0 bytes_per_pixel) (λ i,
    modify (upd_fb (<[u64 (pixel + i) := z2b (Z.land (Z.shiftr color (i * 8)) 0xFF)]>))).

Definition gop_draw_rect (x y w h color : Z) : M kstate unit :=
  let! g := gets (λ s, d_gop (k_dev s)) in
  let x_end := if bool_decide (g_width g < u64 (x + w)) then g_width g else u64 (x + w) in
  let y_end := if bool_decide (g_height g < u64 (y + h)) then g_height g else u64 (y + h) in
  for_each (seqZ y (y_end - y)) (λ row,
    for_each (seqZ x (x_end - x)) (λ col, gop_draw_pixel col row color)).
