(* ===== verification/Kbd.v ===== *)
(** * The keyboard (kernel/driver/kbd.c, kernel/driver/kbd.h)

    The controller's output buffer is the queue [d_ps2]: reading the data port
    takes its first byte, and the status port says whether there is one. *)
From S2P Require Import Prelude State.

Definition NO : Z := 0.
Definition SHIFT : Z := Z.shiftl 1 0.
Definition CTL : Z := Z.shiftl 1 1.
Definition ALT : Z := Z.shiftl 1 2.
Definition CAPSLOCK : Z := Z.shiftl 1 3.
Definition NUMLOCK : Z := Z.shiftl 1 4.
Definition SCROLLLOCK : Z := Z.shiftl 1 5.
Definition E0ESC : Z := Z.shiftl 1 6.
Definition KEY_HOME : Z := 0xE0.
Definition KEY_END : Z := 0xE1.
Definition KEY_UP : Z := 0xE2.
Definition KEY_DN : Z := 0xE3.
Definition KEY_LF : Z := 0xE4.
Definition KEY_RT : Z := 0xE5.
Definition KEY_PGUP : Z := 0xE6.
Definition KEY_PGDN : Z := 0xE7.
Definition KEY_INS : Z := 0xE8.
Definition KEY_DEL : Z := 0xE9.

(** An array initialiser: the leading elements in order, then the designated
    ones; the rest is zero, and elements are bytes. *)
Definition table (l : list Z) (d : list (nat * Z)) : list Z :=
  (λ z, z `mod` 256) <$> foldl (λ t p, <[p.1 := p.2]> t) (l ++ replicate (256 - length l) 0) d.

Definition shiftcode : list Z := table []
  [(0x1D%nat, CTL); (0x2A%nat, SHIFT); (0x36%nat, SHIFT); (0x38%nat, ALT);
   (0x9D%nat, CTL); (0xB8%nat, ALT)].
Definition togglecode : list Z := table []
  [(0x3A%nat, CAPSLOCK); (0x45%nat, NUMLOCK); (0x46%nat, SCROLLLOCK)].
Definition normalmap : list Z := table [
   NO; 0x1B; 49; 50; 51; 52; 53; 54;
   55; 56; 57; 48; 45; 61; 8; 9;
   113; 119; 101; 114; 116; 121; 117; 105;
   111; 112; 91; 93; 10; NO; 97; 115;
   100; 102; 103; 104; 106; 107; 108; 59;
   39; 96; NO; 92; 122; 120; 99; 118;
   98; 110; 109; 44; 46; 47; NO; 42;
   NO; 32; NO; NO; NO; NO; NO; NO;
   NO; NO; NO; NO; NO; NO; NO; 55;
   56; 57; 45; 52; 53; 54; 43; 49;
   50; 51; 48; 46; NO; NO; NO; NO]
  [(0x9C%nat, 10); (0xB5%nat, 47); (0xC8%nat, KEY_UP); (0xD0%nat, KEY_DN);
   (0xC9%nat, KEY_PGUP); (0xD1%nat, KEY_PGDN); (0xCB%nat, KEY_LF); (0xCD%nat, KEY_RT);
   (0x97%nat, KEY_HOME); (0xCF%nat, KEY_END); (0xD2%nat, KEY_INS); (0xD3%nat, KEY_DEL)].
Definition shiftmap : list Z := table [
   NO; 27; 33; 64; 35; 36; 37; 94;
   38; 42; 40; 41; 95; 43; 8; 9;
   81; 87; 69; 82; 84; 89; 85; 73;
   79; 80; 123; 125; 10; NO; 65; 83;
   68; 70; 71; 72; 74; 75; 76; 58;
   34; 126; NO; 124; 90; 88; 67; 86;
   66; 78; 77; 60; 62; 63; NO; 42;
   NO; 32; NO; NO; NO; NO; NO; NO;
   NO; NO; NO; NO; NO; NO; NO; 55;
   56; 57; 45; 52; 53; 54; 43; 49;
   50; 51; 48; 46; NO; NO; NO; NO]
  [(0x9C%nat, 10); (0xB5%nat, 47); (0xC8%nat, KEY_UP); (0xD0%nat, KEY_DN);
   (0xC9%nat, KEY_PGUP); (0xD1%nat, KEY_PGDN); (0xCB%nat, KEY_LF); (0xCD%nat, KEY_RT);
   (0x97%nat, KEY_HOME); (0xCF%nat, KEY_END); (0xD2%nat, KEY_INS); (0xD3%nat, KEY_DEL)].
(** [C('/')] is -17, stored as 239. *)
Definition ctlmap : list Z := table [
   NO; NO; NO; NO; NO; NO; NO; NO;
   NO; NO; NO; NO; NO; NO; NO; NO;
   17; 23; 5; 18; 20; 25; 21; 9;
   15; 16; NO; NO; 13; NO; 1; 19;
   4; 6; 7; 8; 10; 11; 12; NO;
   NO; NO; NO; 28; 26; 24; 3; 22;
   2; 14; 13; NO; NO; 239; NO; NO]
  [(0x9C%nat, 13); (0xB5%nat, 239); (0xC8%nat, KEY_UP); (0xD0%nat, KEY_DN);
   (0xC9%nat, KEY_PGUP); (0xD1%nat, KEY_PGDN); (0xCB%nat, KEY_LF); (0xCD%nat, KEY_RT);
   (0x97%nat, KEY_HOME); (0xCF%nat, KEY_END); (0xD2%nat, KEY_INS); (0xD3%nat, KEY_DEL)].

(** [char_code[status & (CTL | SHIFT)]]. *)
Definition char_code (i : Z) : list Z :=
  if bool_decide (i = 0) then normalmap else if bool_decide (i = 1) then shiftmap else ctlmap.

(** What [kbd_getc] does with one scan code: the new [kbd_status] and the
    value returned. *)
Definition kbd_step (st sc : Z) : Z * Z :=
  if bool_decide (sc = 0xE0) then (Z.lor st E0ESC, 0)
  else if bool_decide (Z.land sc 0x80 ≠ 0) then
    let sc := if bool_decide (Z.land st E0ESC ≠ 0) then sc else Z.land sc 0x7F in
    (Z.land st (Z.lnot (Z.lor (shiftcode !!! Z.to_nat sc) E0ESC)), 0)
  else
    let '(sc, st) :=
      if bool_decide (Z.land st E0ESC ≠ 0) then (Z.lor sc 0x80, Z.land st (Z.lnot E0ESC)) else (sc, st) in
    let st := Z.lor st (shiftcode !!! Z.to_nat sc) in
    let st := Z.lxor st (togglecode !!! Z.to_nat sc) in
    let c := char_code (Z.land st (Z.lor CTL SHIFT)) !!! Z.to_nat sc in
    let c :=
      if bool_decide (Z.land st CAPSLOCK ≠ 0) then
        if bool_decide (97 ≤ c ≤ 122) then c - 97 + 65
        else if bool_decide (65 ≤ c ≤ 90) then c - 65 + 97
        else c
      else c in
    (st, c).

Definition kbd_getc : M kstate Z :=
  let! d := gets k_dev in
  match d_ps2 d with
  | [] => ret (-1)
  | sc :: rest =>
    let '(st, c) := kbd_step (d_kbd d) sc in
    modify (set_k_dev (λ d, set_d_kbd st (set_d_ps2 rest d))) ;;;
    ret c
  end.
