(* ===== verification/Console.v ===== *)
(** * The console (kernel/driver/console.c)

    A grid of characters drawn with [Font] on the frame buffer, and the line
    discipline of the keyboard: [input.buf] is a ring with a read, a write and
    an edit index; a line becomes readable when it is ended. *)
From S2P Require Import Prelude State Spinlock Sched Sleeplock Ring Bio Balloc Inode Kalloc Pipe Vm Font Gop Kbd.

Definition MAX_COLS : Z := 256.
Definition MAX_ROWS : Z := 128.
Definition CONSOLE_DEVNUM : Z := 1.

Definition upd_cons (f : console → console) : kstate → kstate :=
  set_k_dev (λ d, set_d_cons (f (d_cons d)) d).
Definition upd_input (f : input → input) : kstate → kstate :=
  set_k_dev (λ d, set_d_input (f (d_input d)) d).
Definition the_cons (s : kstate) : console := d_cons (k_dev s).
Definition the_input (s : kstate) : input := d_input (k_dev s).

(** Characters by their code, and [C(x)] of kbd.h. *)
Definition chr (n : Z) : byte := z2b n.
Definition BS : byte := x08.
Definition LF : byte := x0a.
Definition CR : byte := x0d.
Definition SP : byte := x20.
Definition C (x : Z) : Z := x - 64.

(** [char] is signed: codes above 127 lie below [FONT_FIRST]. *)
Definition font_draw_char (x y : Z) (c : byte) (fg bg : Z) : M kstate unit :=
  let c := sgn 8 (b2z c) in
  let c := if bool_decide (c < FONT_FIRST) || bool_decide (FONT_LAST < c) then 63 else c in
  let bitmap := font8x16 !!! Z.to_nat (c - FONT_FIRST) in
  for_each (seqZ 0 FONT_CHAR_H) (λ row,
    let bits := bitmap !!! Z.to_nat row in
    for_each (seqZ 0 FONT_CHAR_W) (λ col,
      let color := if bool_decide (Z.land bits (Z.shiftl 1 (7 - col)) ≠ 0) then fg else bg in
      gop_draw_pixel (x + col) (y + row) color)).

(** [cons.buffer[y][x]]: an index outside the array is an error. *)
Definition cell (y x : Z) : M kstate Z :=
  let i := y * MAX_COLS + x in
  if bool_decide (0 ≤ i < MAX_ROWS * MAX_COLS) then ret i else panic "out of bounds".
Definition cell_get (y x : Z) : M kstate byte :=
  let! i := cell y x in gets (λ s, default x00 (cn_buffer (the_cons s) !! i)).
Definition cell_set (y x : Z) (c : byte) : M kstate unit :=
  let! i := cell y x in modify (upd_cons (λ k, set_cn_buffer (<[i := c]> (cn_buffer k)) k)).

Definition console_redraw_all : M kstate unit :=
  let! g := gets (λ s, d_gop (k_dev s)) in
  let! k := gets the_cons in
  gop_draw_rect 0 0 (g_width g) (g_height g) (cn_bg k) ;;;
  for_each (seqZ 0 (cn_max_rows k)) (λ y,
    for_each (seqZ 0 (cn_max_cols k)) (λ x,
      let! c := cell_get y x in
      when (negb (bool_decide (c = SP)) && negb (bool_decide (c = x00)))
        (font_draw_char (x * cn_font_w k) (y * cn_font_h k) c (cn_fg k) (cn_bg k)))).

Definition console_scroll : M kstate unit :=
  let! k := gets the_cons in
  for_each (seqZ 0 (cn_max_rows k - 1)) (λ y,
    for_each (seqZ 0 (cn_max_cols k)) (λ x,
      let! c := cell_get (y + 1) x in cell_set y x c)) ;;;
  for_each (seqZ 0 (cn_max_cols k)) (λ x, cell_set (cn_max_rows k - 1) x SP) ;;;
  console_redraw_all.

(** The two checks at the end of [console_putc]. *)
Definition console_wrap : M kstate unit :=
  let! k := gets the_cons in
  when (bool_decide (cn_max_cols k ≤ cn_cur_x k)) (
    modify (upd_cons (set_cn_cur_x 0)) ;;;
    modify (upd_cons (λ k, set_cn_cur_y (cn_cur_y k + 1) k))) ;;;
  let! k := gets the_cons in
  when (bool_decide (cn_max_rows k ≤ cn_cur_y k)) (
    console_scroll ;;;
    modify (upd_cons (λ k, set_cn_cur_y (cn_max_rows k - 1) k))).

(** [cons.buffer[cur_y][cur_x] = c] and its glyph. *)
Definition put_cell (c : byte) : M kstate unit :=
  let! k := gets the_cons in
  cell_set (cn_cur_y k) (cn_cur_x k) c ;;;
  font_draw_char (cn_cur_x k * cn_font_w k) (cn_cur_y k * cn_font_h k) c (cn_fg k) (cn_bg k).

Definition console_putc (c : byte) : M kstate unit :=
  if bool_decide (c = LF) then
    modify (upd_cons (set_cn_cur_x 0)) ;;;
    modify (upd_cons (λ k, set_cn_cur_y (cn_cur_y k + 1) k)) ;;;
    console_wrap
  else if bool_decide (c = CR) then
    modify (upd_cons (set_cn_cur_x 0)) ;;;
    console_wrap
  else if bool_decide (c = BS) then
    let! k := gets the_cons in
    if bool_decide (cn_cur_x k = 0) then ret tt else
    modify (upd_cons (λ k, set_cn_cur_x (cn_cur_x k - 1) k)) ;;;
    put_cell SP ;;;
    console_wrap
  else
    put_cell c ;;;
    modify (upd_cons (λ k, set_cn_cur_x (cn_cur_x k + 1) k)) ;;;
    console_wrap.

(** ** Formatted output *)

Definition digits : list byte :=
  [x30; x31; x32; x33; x34; x35; x36; x37; x38; x39; x61; x62; x63; x64; x65; x66].

(** [do buf[i++] = digits[x % base]; while((x /= base) != 0);] *)
Fixpoint print_digits (fuel : nat) (x base : Z) : list byte :=
  match fuel with
  | O => []
  | S fuel' =>
    default x00 (digits !! Z.to_nat (x mod base)) ::
    (if bool_decide (x / base ≠ 0) then print_digits fuel' (x / base) base else [])
  end.

Definition print_int (xx base : Z) (sign : bool) : M kstate unit :=
  let neg := sign && bool_decide (xx < 0) in
  let x := if neg then u32 (- xx) else u32 xx in
  when neg (console_putc x2d) ;;;
  for_each (rev (print_digits 32 x base)) console_putc.

(** The variable arguments of [cprintf]; taking one that is not there, or of
    another type, is undefined. *)
Inductive carg := AInt (n : Z) | AStr (s : option (list byte)).

(** "[null]" *)
Definition null_str : list byte := [x5b; x6e; x75; x6c; x6c; x5d].

(** The loop over the format, a string with its terminator. *)
Fixpoint cprintf_loop (fmt : list byte) (args : list carg) : M kstate unit :=
  match fmt with
  | [] => panic "out of bounds"
  | c :: fmt =>
    if bool_decide (c = x00) then ret tt else
    if bool_decide (c ≠ x25) then console_putc c ;;; cprintf_loop fmt args else
    match fmt with
    | [] => panic "out of bounds"
    | c :: fmt =>
      if bool_decide (c = x00) then ret tt else
      if bool_decide (c = x64) then
        match args with
        | AInt n :: args => print_int n 10 true ;;; cprintf_loop fmt args
        | _ => panic "out of bounds"
        end
      else if bool_decide (c = x78) then
        match args with
        | AInt n :: args => print_int n 16 false ;;; cprintf_loop fmt args
        | _ => panic "out of bounds"
        end
      else if bool_decide (c = x25) then console_putc x25 ;;; cprintf_loop fmt args
      else if bool_decide (c = x73) then
        match args with
        | AStr str :: args => for_each (default null_str str) console_putc ;;; cprintf_loop fmt args
        | _ => panic "out of bounds"
        end
      else console_putc x25 ;;; console_putc c ;;; cprintf_loop fmt args
    end
  end.

Definition cprintf (fmt : list byte) (args : list carg) : M kstate unit :=
  let! k := gets the_cons in
  when (cn_locking k) (acquire LkCons) ;;;
  cprintf_loop fmt args ;;;
  let! k := gets the_cons in
  when (cn_locking k) (release LkCons).

(** ** Input *)

Definition in_idx (i : Z) : nat := Z.to_nat (i mod Z.of_nat INPUT_BUF).
Definition in_get (i : Z) (n : input) : byte := default x00 (in_buf n !! in_idx i).

Section Input.
Context {wf : WakeFuel}.

(** Control-U. *)
Fixpoint kill_line (fuel : nat) : M kstate unit :=
  let! n := gets the_input in
  if negb (bool_decide (in_e n = in_w n)) && negb (bool_decide (in_get (u32 (in_e n - 1)) n = LF)) then
    match fuel with
    | O => no_fuel
    | S fuel' =>
      modify (upd_input (λ n, set_in_e (u32 (in_e n - 1)) n)) ;;;
      console_putc BS ;;;
      kill_line fuel'
    end
  else ret tt.

(** The switch in [console_intr], for one character. *)
Definition console_char (c : Z) : M kstate unit :=
  if bool_decide (c = C 85) then
    let! n := gets the_input in
    kill_line (S (Z.to_nat (u32 (in_e n - in_w n))))
  else if bool_decide (c = C 72) then
    let! n := gets the_input in
    if bool_decide (in_e n = in_w n) then ret tt else
    modify (upd_input (λ n, set_in_e (u32 (in_e n - 1)) n)) ;;;
    console_putc BS
  else
    let! n := gets the_input in
    if bool_decide (c = 0) || negb (bool_decide (u32 (in_e n - in_r n) < Z.of_nat INPUT_BUF)) then ret tt else
    let c := if bool_decide (c = 13) then 10 else c in
    modify (upd_input (λ n, set_in_e (u32 (in_e n + 1))
                              (set_in_buf (<[in_idx (in_e n) := chr c]> (in_buf n)) n))) ;;;
    console_putc (chr c) ;;;
    let! n := gets the_input in
    when (bool_decide (c = 10) || bool_decide (c = C 68) ||
          bool_decide (in_e n = u32 (in_r n + Z.of_nat INPUT_BUF))) (
      modify (upd_input (λ n, set_in_w (in_e n) n)) ;;;
      wakeup ChInput).

(** [while((c = kbd_getc()) >= 0)]: one turn per waiting scan code. *)
Fixpoint console_intr_loop (fuel : nat) : M kstate unit :=
  let! c := kbd_getc in
  if bool_decide (0 ≤ c) then
    match fuel with
    | O => no_fuel
    | S fuel' => console_char c ;;; console_intr_loop fuel'
    end
  else ret tt.

Definition console_intr : M kstate unit :=
  acquire LkCons ;;;
  let! d := gets k_dev in
  console_intr_loop (length (d_ps2 d)) ;;;
  release LkCons.

Definition kbd_intr : M kstate Z := console_intr ;;; ret 0.

Definition console_write (ip : nat) (buf : list byte) (n : Z) : M kstate Z :=
  iunlock (Some ip) ;;;
  acquire LkCons ;;;
  for_each (take (Z.to_nat n) buf) console_putc ;;;
  release LkCons ;;;
  ilock (Some ip) ;;;
  ret n.

(** [while(input.r == input.w)]: [false] when the process was killed. *)
Fixpoint wait_input (fuel : nat) : M kstate bool :=
  let! n := gets the_input in
  if negb (bool_decide (in_r n = in_w n)) then ret true else
  let! p := myproc in
  let! i := deref p in
  let! q := gets (the_proc i) in
  if bool_decide (p_killed q ≠ 0) then ret false else
  match fuel with
  | O => no_fuel
  | S fuel' => sleep ChInput LkCons ;;; wait_input fuel'
  end.

(** [while(n > 0)]: what is left of [n], or [None] when the process was killed,
    and the bytes stored. *)
Fixpoint console_read_loop (fuel : nat) (n target : Z) (dst : list byte) : M kstate (option Z * list byte) :=
  if bool_decide (0 < n) then
    match fuel with
    | O => no_fuel
    | S fuel' =>
      let! ok := wait_input wake_fuel in
      if negb ok then ret (None, dst) else
      let! i := gets the_input in
      let c := in_get (in_r i) i in
      modify (upd_input (λ i, set_in_r (u32 (in_r i + 1)) i)) ;;;
      if bool_decide (sgn 8 (b2z c) = C 68) then
        when (bool_decide (n < u64 target)) (modify (upd_input (λ i, set_in_r (u32 (in_r i - 1)) i))) ;;;
        ret (Some n, dst)
      else if bool_decide (c = LF) then ret (Some (n - 1), dst ++ [c])
      else console_read_loop fuel' (n - 1) target (dst ++ [c])
    end
  else ret (Some n, dst).

(** [int target = n]. *)
Definition console_read (ip : nat) (n : Z) : M kstate (Z * list byte) :=
  iunlock (Some ip) ;;;
  let target := s32 n in
  acquire LkCons ;;;
  let! r := console_read_loop (S (Z.to_nat n)) n target [] in
  release LkCons ;;;
  ilock (Some ip) ;;;
  match r with
  | (None, dst) => ret (-1, dst)
  | (Some n, dst) => ret (s64 (u64 (target - n)), dst)
  end.

Definition console_init : M kstate unit :=
  init_lock LkCons ;;;
  let! g := gets (λ s, d_gop (k_dev s)) in
  modify (upd_cons (set_cn_font_w 8)) ;;;
  modify (upd_cons (set_cn_font_h 16)) ;;;
  modify (upd_cons (set_cn_max_cols (s32 (g_width g / 8)))) ;;;
  modify (upd_cons (set_cn_max_rows (s32 (g_height g / 16)))) ;;;
  modify (upd_cons (set_cn_cur_y 0)) ;;;
  modify (upd_cons (set_cn_cur_x 0)) ;;;
  modify (upd_cons (set_cn_fg GOP_WHI)) ;;;
  modify (upd_cons (set_cn_bg GOP_BLK)) ;;;
  modify (upd_cons (set_cn_pixels_per_scanline (g_pitch g / (g_bpp g / 8)))) ;;;
  modify (upd_cons (set_cn_locking true)).

(** [devs[]] once [console_init] has filled in its entry. *)
Definition console_devs : DevSw := {|
  dev_read := λ major, if bool_decide (major = CONSOLE_DEVNUM) then Some console_read else None;
  dev_write := λ major, if bool_decide (major = CONSOLE_DEVNUM) then Some console_write else None
|}.
End Input.
