(* ===== verification/Proc.v ===== *)
(** * Processes (kernel/proc.c)

    The process table [ptable.procs] and the operations on it that [Sched]
    does not hold: creation, [fork], [wait], [exit], [grow_proc] and the
    scheduler's scan. *)
From S2P Require Import Prelude State Spinlock Sched Sleeplock Ring Bio Balloc CString Inode Dir Kalloc Pipe File Vm.

(** Addresses of the code a new kernel thread returns to: [fork_ret], then
    [syscall_ret] of syscall_entry.asm. *)
Class KernelText := { fork_ret_addr : Z; syscall_ret_addr : Z }.

Definition REGI_PILE_SIZE : Z := 128.
Definition CONTEXT_SIZE : Z := 56.
Definition FL_IF : Z := Z.shiftl 1 9.

(** Byte offsets of the fields of [struct regi_pile] and [struct context]. *)
Definition RP_r11 : Z := 32.
Definition RP_r10 : Z := 40.
Definition RP_r8 : Z := 56.
Definition RP_rdi : Z := 72.
Definition RP_rsi : Z := 80.
Definition RP_rdx : Z := 88.
Definition RP_rcx : Z := 96.
Definition RP_rax : Z := 112.
Definition RP_rsp : Z := 120.
Definition CTX_rip : Z := 48.

(** The bytes of an object inside one page, read and overwritten as a whole. *)
Definition load_bytes (v : Z) (n : nat) (s : kstate) : list byte :=
  slice (Z.to_nat (kva_pa v `mod` PGSIZE_4KB)) n (page (ROUNDDOWN (kva_pa v) PGSIZE_4KB) (k_kmem s)).
Definition store_bytes (v : Z) (bs : list byte) : M kstate unit :=
  modify (put_page (ROUNDDOWN (kva_pa v) PGSIZE_4KB) (splice (Z.to_nat (kva_pa v `mod` PGSIZE_4KB)) bs)).

Section Proc.
Context {wf : WakeFuel} {dsw : DevSw} {kt : KernelText}.

(** The contents of the uninitialised [char name[DIRSIZ]] of [namei]. *)
Context (name0 : list byte).

Definition process_init : M kstate unit := init_lock LkPtable.

(** The first scheduling of a forked process lands here. *)
Definition fork_ret : M kstate unit := release LkPtable.

(** The search that [alloc_kthread] and [alloc_proc] share: it claims the first
    UNUSED slot and leaves the lock released when it finds one. *)
Definition claim_slot : M kstate (option nat) :=
  for_return (seq 0 NPROC) (λ i,
    let! p := gets (the_proc i) in
    if bool_decide (p_state p = UNUSED) then
      modify (upd_proc i (set_p_state EMBRYO)) ;;;
      let! pid := gets k_next_pid in
      modify (upd_proc i (set_p_pid (u64 pid))) ;;;
      modify (set_k_next_pid (λ n, s32 (n + 1))) ;;;
      release LkPtable ;;;
      ret (Some i)
    else ret None).

Definition alloc_kthread : M kstate (option nat) :=
  acquire LkPtable ;;;
  let! r := claim_slot in
  match r with
  | None => release LkPtable ;;; ret None
  | Some i =>
    let! new_stack := kalloc in
    if bool_decide (new_stack = 0) then
      modify (upd_proc i (set_p_state UNUSED)) ;;; ret None
    else
      modify (upd_proc i (set_p_kstack new_stack)) ;;;
      ret (Some i)
  end.

Definition kthread_init (thread_func : Z) : M kstate unit :=
  let! p := alloc_kthread in
  let! kpml4 := get_kpml4 in
  let! i := deref p in
  modify (upd_proc i (set_p_pml4 (P2V (V2P_KERN kpml4)))) ;;;
  modify (upd_proc i (set_p_sz PGSIZE_4KB)) ;;;
  let! q := gets (the_proc i) in
  let sp := p_kstack q + KSTACKSIZE - CONTEXT_SIZE in
  modify (upd_proc i (set_p_context sp)) ;;;
  store_bytes sp (replicate (Z.to_nat CONTEXT_SIZE) x00) ;;;
  store64 (sp + CTX_rip) thread_func ;;;
  acquire LkPtable ;;;
  modify (upd_proc i (set_p_state RUNNABLE)) ;;;
  release LkPtable.

Definition alloc_proc : M kstate (option nat) :=
  acquire LkPtable ;;;
  let! r := claim_slot in
  match r with
  | None => release LkPtable ;;; ret None
  | Some i =>
    let! new_stack := kalloc in
    if bool_decide (new_stack = 0) then
      modify (upd_proc i (set_p_state UNUSED)) ;;; ret None
    else
      modify (upd_proc i (set_p_kstack new_stack)) ;;;
      let sp := new_stack + KSTACKSIZE - REGI_PILE_SIZE in
      modify (upd_proc i (set_p_rp sp)) ;;;
      let sp := sp - 8 in
      store64 sp syscall_ret_addr ;;;
      let sp := sp - CONTEXT_SIZE in
      modify (upd_proc i (set_p_context sp)) ;;;
      store_bytes sp (replicate (Z.to_nat CONTEXT_SIZE) x00) ;;;
      store64 (sp + CTX_rip) fork_ret_addr ;;;
      ret (Some i)
  end.

(** "initcode" and "/" with their terminators. *)
Definition initcode_name : list byte := [x69; x6e; x69; x74; x63; x6f; x64; x65; x00].
Definition root_path : list byte := [x2f; x00].

(** [safe_strcpy(p->name, t, sizeof(p->name))]. *)
Definition set_name (i : nat) (t : list byte) : M kstate unit :=
  let! nm := in_bounds (safe_strcpy t 32) in
  modify (upd_proc i (λ p, set_p_name (splice 0 nm (p_name p)) p)).

Definition user_init (initcode : list byte) : M kstate unit :=
  let! p := alloc_proc in
  modify (set_k_init (λ _, p)) ;;;
  let! pml4 := setup_uvm in
  let! i := deref p in
  modify (upd_proc i (set_p_pml4 pml4)) ;;;
  if bool_decide (pml4 = 0) then panic "user_init: setup_uvm failed" else
  init_uvm pml4 initcode ;;;
  modify (upd_proc i (set_p_sz PGSIZE_4KB)) ;;;
  let! q := gets (the_proc i) in
  store_bytes (p_rp q) (replicate (Z.to_nat REGI_PILE_SIZE) x00) ;;;
  store64 (p_rp q + RP_r11) FL_IF ;;;
  store64 (p_rp q + RP_rcx) 0 ;;;
  store64 (p_rp q + RP_rsp) PGSIZE_4KB ;;;
  set_name i initcode_name ;;;
  let! cwd := namei root_path name0 in
  modify (upd_proc i (set_p_cwd cwd)) ;;;
  acquire LkPtable ;;;
  modify (upd_proc i (set_p_state RUNNABLE)) ;;;
  release LkPtable.

(** The body of the scan in [scheduler].  [swtch] to the process suspends the
    scheduler: it continues when the process calls [sched]. *)
Definition scheduler_slot (i : nat) : M kstate unit :=
  let! p := gets (the_proc i) in
  if bool_decide (p_state p ≠ RUNNABLE) then ret tt else
  modify (set_k_cpu (set_c_proc (Some i))) ;;;
  switch_uvm (Some i) ;;;
  modify (upd_proc i (set_p_state RUNNING)) ;;;
  suspend ;;;
  switch_kvm ;;;
  modify (set_k_cpu (set_c_proc None)).

(** One turn of [for(;;)]. *)
Definition scheduler_round : M kstate unit :=
  sti ;;;
  acquire LkPtable ;;;
  for_each (seq 0 NPROC) scheduler_slot ;;;
  release LkPtable.

(** [n] turns. *)
Fixpoint scheduler_rounds (n : nat) : M kstate unit :=
  match n with
  | O => no_fuel
  | S n' => scheduler_round ;;; scheduler_rounds n'
  end.
Definition scheduler (n : nat) : M kstate unit :=
  modify (set_k_cpu (set_c_proc None)) ;;;
  scheduler_rounds n.

Definition fork : M kstate Z :=
  let! new_p := alloc_proc in
  let! cur_p := myproc in
  match new_p with
  | None => ret (-1)
  | Some n =>
    let! c := deref cur_p in
    let! cp := gets (the_proc c) in
    let! pml4 := copy_uvm (p_pml4 cp) (p_sz cp) in
    modify (upd_proc n (set_p_pml4 pml4)) ;;;
    if bool_decide (pml4 = 0) then
      let! np := gets (the_proc n) in
      kfree (p_kstack np) ;;;
      modify (upd_proc n (set_p_kstack 0)) ;;;
      modify (upd_proc n (set_p_state UNUSED)) ;;;
      ret (-1)
    else
      modify (λ s, upd_proc n (set_p_sz (p_sz (the_proc c s))) s) ;;;
      modify (upd_proc n (set_p_parent (Some c))) ;;;
      let! np := gets (the_proc n) in
      let! cp := gets (the_proc c) in
      let! regs := gets (load_bytes (p_rp cp) (Z.to_nat REGI_PILE_SIZE)) in
      store_bytes (p_rp np) regs ;;;
      store64 (p_rp np + RP_rax) 0 ;;;
      for_each (seq 0 NOFILE) (λ fd,
        let! cp := gets (the_proc c) in
        match p_ofile cp !!! fd with
        | None => ret tt
        | Some f =>
          let! f' := file_dup f in
          modify (upd_proc n (λ p, set_p_ofile (<[fd := Some f']> (p_ofile p)) p))
        end) ;;;
      let! cp := gets (the_proc c) in
      let! cwd := deref (p_cwd cp) in
      let! cwd := idup cwd in
      modify (upd_proc n (set_p_cwd (Some cwd))) ;;;
      let! cp := gets (the_proc c) in
      set_name n (p_name cp) ;;;
      let! np := gets (the_proc n) in
      let pid := p_pid np in
      acquire LkPtable ;;;
      modify (upd_proc n (set_p_state RUNNABLE)) ;;;
      release LkPtable ;;;
      ret (s64 pid)
  end.

(** The scan of [wait]: [inl pid] when a zombie child was reaped (the lock is
    released), otherwise [have_kids]. *)
Fixpoint wait_scan (l : list nat) (curp : option nat) (have_kids : bool) : M kstate (Z + bool) :=
  match l with
  | [] => ret (inr have_kids)
  | i :: l' =>
    let! p := gets (the_proc i) in
    if bool_decide (p_parent p ≠ curp) then wait_scan l' curp have_kids else
    if bool_decide (p_state p = ZOMBIE) then
      let pid := p_pid p in
      kfree (p_kstack p) ;;;
      modify (upd_proc i (set_p_kstack 0)) ;;;
      let! p := gets (the_proc i) in
      free_vm (p_pml4 p) (p_sz p) ;;;
      modify (upd_proc i (set_p_pid 0)) ;;;
      modify (upd_proc i (set_p_parent None)) ;;;
      modify (upd_proc i (λ p, set_p_name (<[0%nat := x00]> (p_name p)) p)) ;;;
      modify (upd_proc i (set_p_killed 0)) ;;;
      modify (upd_proc i (set_p_state UNUSED)) ;;;
      release LkPtable ;;;
      ret (inl (s64 pid))
    else wait_scan l' curp true
  end.

Fixpoint wait_loop (fuel : nat) (curp : option nat) : M kstate Z :=
  match fuel with
  | O => no_fuel
  | S fuel' =>
    let! r := wait_scan (seq 0 NPROC) curp false in
    match r with
    | inl pid => ret pid
    | inr have_kids =>
      let! c := deref curp in
      let! p := gets (the_proc c) in
      if negb have_kids || bool_decide (p_killed p ≠ 0) then
        release LkPtable ;;;
        ret (-1)
      else
        sleep (ChProc c) LkPtable ;;;
        wait_loop fuel' curp
    end
  end.

Definition wait : M kstate Z :=
  let! curp := myproc in
  acquire LkPtable ;;;
  wait_loop wake_fuel curp.

(** [exit] never returns: what follows [sched] is a panic. *)
Definition exit : M kstate unit :=
  let! curp := myproc in
  let! init := gets k_init in
  if bool_decide (curp = init) then panic "exit: init??" else
  let! c := deref curp in
  for_each (seq 0 NOFILE) (λ fd,
    let! p := gets (the_proc c) in
    match p_ofile p !!! fd with
    | None => ret tt
    | Some f =>
      file_close f ;;;
      modify (upd_proc c (λ p, set_p_ofile (<[fd := None]> (p_ofile p)) p))
    end) ;;;
  let! p := gets (the_proc c) in
  match p_cwd p with
  | None => ret tt
  | Some ip => iput ip ;;; modify (upd_proc c (set_p_cwd None))
  end ;;;
  acquire LkPtable ;;;
  let! p := gets (the_proc c) in
  wakeup_pure (ChProc <$> p_parent p) ;;;
  for_each (seq 0 NPROC) (λ i,
    let! p := gets (the_proc i) in
    when (bool_decide (p_parent p = Some c)) (
      let! init := gets k_init in
      modify (upd_proc i (set_p_parent init)) ;;;
      let! p := gets (the_proc i) in
      when (bool_decide (p_state p = ZOMBIE)) (wakeup_pure (ChProc <$> init)))) ;;;
  modify (upd_proc c (set_p_state ZOMBIE)) ;;;
  sched ;;;
  panic "I am dead".

Definition grow_proc (n : Z) : M kstate Z :=
  let! p := myproc in
  let! i := deref p in
  let! cp := gets (the_proc i) in
  let sz := p_sz cp in
  let! sz :=
    if bool_decide (0 < n) then alloc_uvm (p_pml4 cp) sz (u64 (sz + n))
    else if bool_decide (n < 0) then dealloc_uvm (p_pml4 cp) sz (u64 (sz + n))
    else ret sz in
  if bool_decide (n ≠ 0) && bool_decide (sz = 0) then ret (-1) else
  modify (upd_proc i (set_p_sz sz)) ;;;
  switch_uvm p ;;;
  ret 0.
End Proc.
