(* ===== verification/SchedSpec.v ===== *)
(** * The scheduler serves every process

    The scheduler and the kernel threads are coroutines: a suspended scheduler
    is resumed in whatever state the process it picked leaves.  [turn] is what
    a process may do with the processor before it gives it back; under it no
    process that is ready to run waits for more than [NPROC] turns. *)
From S2P Require Import Prelude State Spinlock Sched Sleeplock Ring Bio Kalloc Vm Proc.

(** A process that may be picked has a kernel stack and a page table. *)
Definition procs_ok (s : kstate) : Prop := ∀ j, (j < NPROC)%nat →
  p_state (the_proc j s) = RUNNABLE → p_kstack (the_proc j s) ≠ 0 ∧ p_pml4 (the_proc j s) ≠ 0.

(** The scheduler inside its scan: it holds [ptable.lock] and nothing else. *)
Record scanning (s : kstate) : Prop := {
  sn_locks : k_locks s = {[LkPtable := spin_held]};
  sn_ncli : c_ncli (k_cpu s) = 1;
  sn_if : c_if (k_cpu s) = false;
  sn_len : length (k_procs s) = NPROC;
  sn_ok : procs_ok s
}.

(** What a process may do between being picked and giving up the processor in
    [sched]: anything that leaves it in a state other than RUNNING, holds
    [ptable.lock] alone, and leaves every other ready process ready. *)
Record turn (c : nat) (s s' : kstate) : Prop := {
  tn_scan : scanning s';
  tn_state : p_state (the_proc c s') ≠ RUNNING;
  tn_ready : ∀ j, j ≠ c → p_state (the_proc j s) = RUNNABLE → p_state (the_proc j s') = RUNNABLE
}.

(** [runs_soon i n r]: whatever the processes do in their turns, process [i]
    gets the processor after at most [n] turns of others. *)
Inductive runs_soon (i : nat) : nat → res kstate unit → Prop :=
| rs_now n s k : c_proc (k_cpu s) = Some i → p_state (the_proc i s) = RUNNING → runs_soon i n (Susp s k)
| rs_later n c s k : c_proc (k_cpu s) = Some c → (∀ s', turn c s s' → runs_soon i n (k s')) →
    runs_soon i (S n) (Susp s k).

Lemma runs_soon_le i n m r : runs_soon i n r → (n ≤ m)%nat → runs_soon i m r.
Proof.
  intros H. revert m. induction H as [n s k Hc Hs|n c s k Hc _ IH]; intros m Hm; [by constructor|].
  destruct m as [|m]; [lia|]. apply (rs_later _ _ c); [done|]. intros s' Ht. apply IH; [done|lia].
Qed.

(** ** One slot *)

(** The state in which process [c] starts its turn, and the one in which the
    scan goes on after it. *)
Definition picked (c : nat) (s : kstate) : kstate :=
  upd_proc c (set_p_state RUNNING)
    (set_k_cpu (λ u, set_c_cr3 (V2P (p_pml4 (the_proc c s)))
       (set_c_kernel_stack (p_kstack (the_proc c s) + KSTACKSIZE)
       (set_c_rsp0 (p_kstack (the_proc c s) + KSTACKSIZE) (set_c_proc (Some c) u)))) s).
Definition put_back (s : kstate) : kstate :=
  set_k_cpu (λ u, set_c_proc None (set_c_cr3 (V2P_KERN (v_kpml4 (k_vm s))) u)) s.

Lemma slot_skip c s : p_state (the_proc c s) ≠ RUNNABLE → scheduler_slot c s = Done tt s.
Proof. intros H. unfold scheduler_slot. by rewrite bind_gets, bool_decide_true. Qed.

(** [switch_uvm] with interrupts already off. *)
Lemma switch_uvm_run c s : c_ncli (k_cpu s) = 1 → c_if (k_cpu s) = false →
  p_kstack (the_proc c s) ≠ 0 → p_pml4 (the_proc c s) ≠ 0 →
  switch_uvm (Some c) s = Done tt (set_k_cpu (λ u, set_c_cr3 (V2P (p_pml4 (the_proc c s)))
       (set_c_kernel_stack (p_kstack (the_proc c s) + KSTACKSIZE)
       (set_c_rsp0 (p_kstack (the_proc c s) + KSTACKSIZE) u))) s).
Proof.
  intros Hn Hif Hk Hp. unfold switch_uvm. rewrite bind_gets, !bool_decide_false by done.
  erewrite bind_done by apply push_cli_run. unfold wcr3. rewrite !bind_modify.
  rewrite pop_cli_run; ksimpl; [|done|change (1 ≤ c_ncli (cpu_push (k_cpu s))); rewrite cpu_push_ncli; lia]. f_equal. kext.
  destruct (k_cpu s) as [n e p r ks f c3]. simpl in *. subst. done.
Qed.

Lemma slot_pick c s : scanning s → (c < NPROC)%nat → p_state (the_proc c s) = RUNNABLE →
  ∃ k, scheduler_slot c s = Susp (picked c s) k ∧ ∀ s', k s' = Done tt (put_back s').
Proof.
  intros [Hl Hn Hif Hlen Hok] Hc Hst. destruct (Hok c Hc Hst) as [Hks Hpm]. unfold scheduler_slot.
  rewrite bind_gets, bool_decide_false by (intros X; by apply X). rewrite bind_modify.
  erewrite bind_done by by apply switch_uvm_run.
  rewrite bind_modify. eexists. split; [by erewrite bind_susp|]. intros s'. done.
Qed.

Lemma picked_facts c s : scanning s → (c < NPROC)%nat →
  c_proc (k_cpu (picked c s)) = Some c ∧ p_state (the_proc c (picked c s)) = RUNNING ∧
  ∀ j, j ≠ c → the_proc j (picked c s) = the_proc j s.
Proof.
  intros [_ _ _ Hlen _] Hc. split; [done|]. unfold picked. split.
  - rewrite the_proc_upd_eq by (ksimpl; lia). done.
  - intros j Hj. rewrite the_proc_upd_ne by done. done.
Qed.

(** ** The scan from slot [c] on, followed by [n] more rounds *)
Definition scan_from (c n : nat) : M kstate unit :=
  for_each (seq c (NPROC - c)) scheduler_slot ;;; release LkPtable ;;; scheduler_rounds n.

(** One step of the scan: a slot that is not ready is passed over without a
    trace; a ready one gets the processor, with its own page table and kernel
    stack, and the scan goes on with the next slot when it gives it back. *)
Lemma scan_step c n s : scanning s → (c < NPROC)%nat →
  if decide (p_state (the_proc c s) = RUNNABLE)
  then ∃ k, scan_from c n s = Susp (picked c s) k ∧ ∀ s', k s' = scan_from (S c) n (put_back s')
  else scan_from c n s = scan_from (S c) n s.
Proof.
  intros Hs Hc. unfold scan_from. replace (NPROC - c)%nat with (S (NPROC - S c)) by lia. cbn [seq for_each].
  case_decide as Hst.
  - destruct (slot_pick c s Hs Hc Hst) as (k & E & Hk).
    eexists. split.
    + erewrite bind_susp; [done|]. by erewrite bind_susp.
    + intros s'. cbn beta. unfold bind at 1. rewrite Hk. done.
  - assert ((scheduler_slot c ;;; for_each (seq (S c) (NPROC - S c)) scheduler_slot) s =
      for_each (seq (S c) (NPROC - S c)) scheduler_slot s) as E by (by erewrite bind_done by by apply slot_skip).
    unfold bind at 1. rewrite E. done.
Qed.

Lemma runs_soon_req i n r r' : runs_soon i n r → req r r' → runs_soon i n r'.
Proof.
  intros H. revert r'. induction H as [n s k Hc Hs|n c s k Hc Hk IH]; intros r' E; inversion E; subst.
  - by constructor.
  - by constructor.
  - apply (rs_later _ _ c); [done|]. exact Hk.
  - apply (rs_later _ _ c); [done|]. intros s' Ht. by eapply IH.
Qed.

(** A round starts with interrupts on and the table locked. *)
Lemma round_start n s : k_locks s = ∅ → c_ncli (k_cpu s) = 0 → length (k_procs s) = NPROC → procs_ok s →
  ∃ s', req (scheduler_rounds (S n) s) (scan_from 0 n s') ∧ scanning s' ∧ k_procs s' = k_procs s.
Proof.
  intros Hl Hn Hlen Hok. cbn [scheduler_rounds]. unfold scheduler_round.
  set (s2 := set_k_cpu (set_c_if true) s).
  set (s3 := set_k_locks (insert LkPtable spin_held) (set_k_cpu cpu_push s2)).
  assert (acquire LkPtable s2 = Done tt s3) as EA.
  { apply acquire_run; [split; unfold s2; ksimpl; cbn [c_ncli set_c_if]; [lia|intros; lia]|]. unfold s2. ksimpl. by rewrite Hl. }
  exists s3. split; [|split; [|done]].
  - etrans; [apply bind_assoc|]. rewrite (bind_done _ _ _ _ _ (sti_run s)). fold s2.
    etrans; [apply bind_assoc|]. erewrite (bind_done _ _ _ _ _ EA).
    etrans; [apply bind_assoc|]. unfold scan_from. rewrite Nat.sub_0_r. done.
  - split; unfold s3, s2; ksimpl; [by rewrite Hl| |done|done|exact Hok]. change (c_ncli (k_cpu s) + 1 = 1). lia.
Qed.

Lemma scheduler_start n s : calm s → c_ncli (k_cpu s) = 0 → length (k_procs s) = NPROC → procs_ok s →
  ∃ s', req (scheduler (S n) s) (scan_from 0 n s') ∧ scanning s' ∧ k_procs s' = k_procs s.
Proof. intros [Hl _] Hn Hlen Hok. unfold scheduler. rewrite bind_modify. by apply (round_start n (set_k_cpu (set_c_proc None) s)). Qed.

(** From the end of one pass to the start of the next. *)
Lemma scan_wrap n s : scanning s →
  ∃ s', req (scan_from NPROC (S n) s) (scan_from 0 n s') ∧ scanning s' ∧ k_procs s' = k_procs s.
Proof.
  intros [Hl Hn Hif Hlen Hok]. unfold scan_from at 1. rewrite Nat.sub_diag. cbn [seq for_each]. rewrite bind_ret_l.
  erewrite bind_done by (apply release_run; [split; [lia|done]|lia|by rewrite Hl, lookup_singleton_eq]).
  apply (round_start n (set_k_cpu cpu_pop (set_k_locks (delete LkPtable) s))); ksimpl; [by rewrite Hl, delete_singleton_eq| |done|exact Hok].
  change (c_ncli (k_cpu s) - 1 = 0). lia.
Qed.

(** ** No process starves *)

Lemma put_back_scanning s : scanning s → scanning (put_back s).
Proof. intros [Hl Hn Hif Hlen Hok]. by split. Qed.

(** One step of the scan towards process [i], on which the rest builds. *)
Lemma scan_advance i c n s (m : nat) : scanning s → (c < NPROC)%nat → c ≠ i → p_state (the_proc i s) = RUNNABLE →
  (∀ s', scanning s' → p_state (the_proc i s') = RUNNABLE → runs_soon i m (scan_from (S c) n s')) →
  runs_soon i (S m) (scan_from c n s).
Proof.
  intros Hs Hc Hne Hi IH. pose proof (scan_step c n s Hs Hc) as Hstep. case_decide as Hst.
  - destruct Hstep as (k & -> & Hk). destruct (picked_facts c s Hs Hc) as (Hcp & _ & Hoth).
    apply (rs_later _ _ c); [done|]. intros s' [Hs' _ Hr]. rewrite Hk. apply IH; [by apply put_back_scanning|].
    apply Hr; [done|]. by rewrite Hoth.
  - rewrite Hstep. apply (runs_soon_le _ m); [by apply IH|lia].
Qed.

Lemma scan_reaches i d : ∀ c n s, (i = c + d)%nat → (i < NPROC)%nat → scanning s → p_state (the_proc i s) = RUNNABLE →
  runs_soon i d (scan_from c n s).
Proof.
  induction d as [|d IH]; intros c n s Hd Hi Hs Hr.
  - rewrite Nat.add_0_r in Hd. subst c. pose proof (scan_step i n s Hs Hi) as Hstep. rewrite decide_True in Hstep by done.
    destruct Hstep as (k & -> & _). destruct (picked_facts i s Hs Hi) as (? & ? & _). by constructor.
  - apply scan_advance; [done|lia|lia|done|]. intros s' Hs' Hr'. apply IH; [lia|done..].
Qed.

Lemma scan_around i d : ∀ c n s, (c + d = NPROC)%nat → (i < c)%nat → scanning s → p_state (the_proc i s) = RUNNABLE →
  runs_soon i (d + i) (scan_from c (S n) s).
Proof.
  induction d as [|d IH]; intros c n s Hd Hi Hs Hr.
  - assert (c = NPROC) as -> by lia. destruct (scan_wrap n s Hs) as (s' & E & Hs' & Ep). symmetry in E.
    eapply runs_soon_req; [|exact E]. apply scan_reaches; [lia|lia|done|]. unfold the_proc in *. by rewrite Ep.
  - apply scan_advance; [done|lia|lia|done|]. intros s' Hs' Hr'. apply IH; [lia|lia|done|done].
Qed.

(** C24. No process starves: wherever in its scan the scheduler is, as long as
    it goes on to the next round, a process that is ready to run gets the
    processor after at most [NPROC - 1] turns of others - whatever the others
    do with their turns, so long as each gives the processor back through
    [sched] and leaves ready processes ready. *)
Theorem scheduler_no_starvation c n i s :
  (c ≤ NPROC)%nat → (i < NPROC)%nat → scanning s → p_state (the_proc i s) = RUNNABLE →
  runs_soon i (NPROC - 1) (scan_from c (S n) s).
Proof.
  intros Hc Hi Hs Hr. destruct (decide (c ≤ i)%nat).
  - apply (runs_soon_le _ (i - c)); [apply scan_reaches; [lia|done..]|lia].
  - apply (runs_soon_le _ (NPROC - c + i)); [apply scan_around; [lia|lia|done..]|lia].
Qed.

(** ** A turn of the kernel's own making: the timer tick

    A process that was taken off the processor by [yield] resumes behind
    [sched], drops the lock, runs in user space, and is taken off again at the
    next tick. *)
Definition timer_turn (int_ena : bool) : M kstate unit :=
  modify (set_k_cpu (set_c_int_ena int_ena)) ;;;
  release LkPtable ;;;
  yield.

Lemma timer_turn_run c e s : scanning s → (c < NPROC)%nat → p_state (the_proc c s) = RUNNABLE →
  ∃ s' k, timer_turn e (picked c s) = Susp s' k ∧ turn c (picked c s) s' ∧
    p_state (the_proc c s') = RUNNABLE ∧ c_proc (k_cpu s') = Some c.
Proof.
  intros Hs Hc Hst. destruct (picked_facts c s Hs Hc) as (_ & _ & Hoth). destruct Hs as [Hl Hn Hif Hlen Hok].
  unfold timer_turn. rewrite bind_modify. set (s0 := set_k_cpu _ (picked c s)).
  assert (k_locks s0 = {[LkPtable := spin_held]} ∧ c_ncli (k_cpu s0) = 1 ∧ c_if (k_cpu s0) = false ∧
    c_int_ena (k_cpu s0) = e ∧ c_proc (k_cpu s0) = Some c) as (Hl0 & Hn0 & Hi0 & He0 & Hp0) by (by split_and!).
  assert (length (k_procs s0) = NPROC) as Hlen0 by (unfold s0, picked, upd_proc; ksimpl; by rewrite length_alter).
  assert (∀ j, the_proc j s0 = the_proc j (picked c s)) as Eproc by done.
  clearbody s0. 
  erewrite bind_done by (apply release_run; [split; [lia|done]|lia|by rewrite Hl0, lookup_singleton_eq]).
  set (s1 := set_k_cpu cpu_pop _).
  assert (k_locks s1 = ∅) as Hl1 by (unfold s1; ksimpl; by rewrite Hl0, delete_singleton_eq).
  assert (c_ncli (k_cpu s1) = 0 ∧ c_if (k_cpu s1) = e ∧ c_int_ena (k_cpu s1) = e ∧ c_proc (k_cpu s1) = Some c) as (Hn1 & Hi1 & He1 & Hp1).
  { unfold s1, cpu_pop. ksimpl. rewrite decide_True by done. cbn [c_ncli c_if c_int_ena c_proc set_c_if set_c_ncli]. split_and!; [lia|done..]. }
  unfold yield. erewrite bind_done by (apply acquire_run; [split; [lia|intros; lia]|by rewrite Hl1]).
  set (s2 := set_k_locks _ _).
  assert (k_locks s2 = {[LkPtable := spin_held]}) as Hl2 by (unfold s2; ksimpl; by rewrite Hl1).
  assert (c_ncli (k_cpu s2) = 1 ∧ c_if (k_cpu s2) = false ∧ c_proc (k_cpu s2) = Some c) as (Hn2 & Hi2 & Hp2).
  { unfold s2, cpu_push. ksimpl. rewrite decide_True by done. cbn [c_ncli c_if c_proc set_c_if set_c_ncli set_c_int_ena]. split_and!; [lia|done..]. }
  erewrite bind_done by (apply myproc_run; split; [split; [lia|done]|lia]). rewrite Hp2. cbn [deref]. rewrite bind_ret_l, bind_modify.
  set (s3 := upd_proc c _ s2).
  assert (k_procs s3 = alter (set_p_state RUNNABLE) c (k_procs s0)) as E3 by done.
  assert (the_proc c s3 = set_p_state RUNNABLE (the_proc c s0)) as Ec.
  { unfold s3. rewrite the_proc_upd_eq by (change (k_procs s2) with (k_procs s0); lia). done. }
  assert (∀ j, j ≠ c → the_proc j s3 = the_proc j s) as Eo.
  { intros j Hj. rewrite <- Hoth, <- Eproc by done. unfold s3. by rewrite the_proc_upd_ne. }
  erewrite bind_susp by (apply (sched_run c); [done|done|done|done|by rewrite Ec]).
  eexists s3, _. split; [done|]. split; [|by rewrite Ec].
  destruct (Hok c Hc Hst) as [Hk Hpm].
  assert (p_kstack (the_proc c s0) = p_kstack (the_proc c s) ∧ p_pml4 (the_proc c s0) = p_pml4 (the_proc c s)) as [Ek Em].
  { rewrite !Eproc. unfold picked. rewrite !the_proc_upd_eq by (ksimpl; lia). done. }
  split.
  - split; [done|done|done|by rewrite E3, length_alter|]. intros j Hj Hr. destruct (decide (j = c)) as [->|Hne].
    + rewrite Ec. cbn [p_kstack p_pml4 set_p_state]. by rewrite Ek, Em.
    + rewrite Eo in Hr |- * by done. by apply Hok.
  - by rewrite Ec.
  - intros j Hj. by rewrite Eo, Hoth.
Qed.

(** The timer tick is a turn: a process that resumes from [yield], runs in
    user space with interrupts on or off, and yields again at the next tick
    gives the processor back as the scheduler needs it, ready to run again,
    with every other process untouched. *)
Theorem timer_tick_is_turn c e s : scanning s → (c < NPROC)%nat → p_state (the_proc c s) = RUNNABLE →
  ∃ s' k, timer_turn e (picked c s) = Susp s' k ∧ turn c (picked c s) s' ∧
    p_state (the_proc c s') = RUNNABLE ∧ c_proc (k_cpu s') = Some c.
Proof. apply timer_turn_run. Qed.

(** ** Witnesses: two ready processes *)
Definition ready_proc (p : proc) : proc := set_p_state RUNNABLE (set_p_kstack 1 (set_p_pml4 1 p)).
Definition kstate_ready : kstate :=
  upd_proc 5 ready_proc (upd_proc 2 ready_proc (set_k_locks (λ _, {[LkPtable := spin_held]}) (set_k_cpu (λ c, set_c_if false (set_c_ncli 1 c)) kstate0))).

Lemma kstate_ready_scanning : scanning kstate_ready.
Proof.
  split; [done|done|done|done|]. intros j Hj.
  assert (Forall (λ j, p_state (the_proc j kstate_ready) = RUNNABLE →
    p_kstack (the_proc j kstate_ready) ≠ 0 ∧ p_pml4 (the_proc j kstate_ready) ≠ 0) (seq 0 NPROC)) as HF.
  { apply (bool_decide_unpack _). vm_compute. exact I. }
  rewrite Forall_forall in HF. apply HF, elem_of_seq. lia.
Qed.

Lemma scheduler_no_starvation_witness : runs_soon 2 (NPROC - 1) (scan_from 3 1 kstate_ready).
Proof.
  apply scheduler_no_starvation; [vm_compute; lia|vm_compute; lia|apply kstate_ready_scanning|reflexivity].
Defined.

Lemma timer_tick_is_turn_witness : ∃ s' k, timer_turn true (picked 5 kstate_ready) = Susp s' k ∧ turn 5 (picked 5 kstate_ready) s'.
Proof.
  destruct (timer_tick_is_turn 5 true kstate_ready kstate_ready_scanning) as (s' & k & E & T & _); [vm_compute; lia|reflexivity|].
  exists s', k. split; [exact E|exact T].
Defined.
