(* ===== verification/Fork.v ===== *)
(** * Creating processes: what alloc_proc and fork of kernel/proc.c do *)
From S2P Require Import Prelude State Spinlock Sched Sleeplock Ring Bio Balloc CString Inode Dir Kalloc Pipe File Vm PageTable VmSpec VmFree VmAlloc VmCopy Proc.

Section Fork.
Context {kt : KernelText}.

(** The stack [alloc_proc] lays out at the top of the new kernel stack, below
    the saved registers: the context that returns to [fork_ret], then the
    return address [syscall_ret]. *)
Definition RP_OFF : nat := 3968.
Definition RET_OFF : nat := 3960.
Definition CTX_OFF : nat := 3904.
Definition new_stack (d : list byte) : list byte :=
  set_le 8 (CTX_OFF + 48) fork_ret_addr
    (splice CTX_OFF (replicate 56 x00) (set_le 8 RET_OFF syscall_ret_addr d)).

(** The first free slot. *)
Definition free_slot (n : nat) (s : kstate) : Prop :=
  (n < length (k_procs s))%nat ∧ p_state (the_proc n s) = UNUSED ∧
  ∀ i, (i < n)%nat → p_state (the_proc i s) ≠ UNUSED.

Definition claimed (n : nat) (s : kstate) : kstate :=
  set_k_next_pid (λ p, s32 (p + 1))
    (upd_proc n (λ p, set_p_pid (u64 (k_next_pid s)) (set_p_state EMBRYO p)) s).

Lemma upd_proc_upd_proc n f g s : upd_proc n f (upd_proc n g s) = upd_proc n (f ∘ g) s.
Proof. unfold upd_proc. kext. apply alter_alter. Qed.

Lemma put_page_put_page pa f g s : put_page pa f (put_page pa g s) = put_page pa (λ d, f (g d)) s.
Proof.
  unfold put_page. kext. unfold page, set_m_pages; simpl. by rewrite lookup_insert_eq, insert_insert_eq.
Qed.

Definition ptable_locked (s : kstate) : kstate :=
  set_k_locks (insert LkPtable spin_held) (set_k_cpu cpu_push s).

Lemma acquire_ptable_run s : calm s → acquire LkPtable s = Done tt (ptable_locked s).
Proof. intros [Hl Hc]. apply acquire_run; [apply Hc|]. by rewrite Hl. Qed.

(** Whatever was done with the lock held, releasing it gives back the calm state. *)
Lemma release_ptable_run s s' : calm s → k_cpu s' = cpu_push (k_cpu s) →
  k_locks s' = <[LkPtable := spin_held]> (k_locks s) →
  release LkPtable s' = Done tt (set_k_cpu (λ _, k_cpu s) (set_k_locks (λ _, k_locks s) s')).
Proof. intros [Hl Hc] E1 E2. apply release_after_acquire; try done. by rewrite Hl. Qed.

Lemma claim_slot_run n s : calm s → length (k_procs s) = NPROC → free_slot n s →
  claim_slot (ptable_locked s) = Done (Some n) (claimed n s).
Proof.
  intros Hcalm Hlen (Hn & Hst & Hfirst). unfold claim_slot.
  eapply (for_return_first _ _ n); [lia|..].
  - intros i [_ Hi]. rewrite bind_gets, bool_decide_false; [done|]. by apply Hfirst.
  - rewrite bind_gets, bool_decide_true by done. rewrite bind_modify, bind_gets, bind_modify, bind_modify.
    erewrite bind_done by by apply (release_ptable_run s).
    unfold ret. f_equal. unfold claimed, upd_proc. kext. by rewrite alter_alter.
Qed.

Definition born (n : nat) (v : Z) (p : proc) : proc :=
  set_p_context (v + Z.of_nat CTX_OFF) (set_p_rp (v + Z.of_nat RP_OFF) (set_p_kstack v p)).

(** An address inside a page of the direct map. *)
Lemma direct_place pa off : pa `mod` 4096 = 0 → 0 ≤ pa < PHY_STOP → (off < 4096)%nat →
  ROUNDDOWN (kva_pa (P2V pa + Z.of_nat off)) PGSIZE_4KB = pa ∧
  Z.to_nat (kva_pa (P2V pa + Z.of_nat off) `mod` PGSIZE_4KB) = off.
Proof.
  intros Ha Hr Ho.
  assert (kva_pa (P2V pa + Z.of_nat off) = pa + Z.of_nat off) as ->.
  { unfold kva_pa. rewrite P2V_small by lia. unfold PHY_STOP in Hr.
    rewrite bool_decide_false by (unfold KERN_BASE, PAGE_OFFSET; lia).
    unfold V2P. replace (PAGE_OFFSET + pa + Z.of_nat off - PAGE_OFFSET) with (pa + Z.of_nat off) by lia.
    apply u64_small. lia. }
  unfold ROUNDDOWN, PGSIZE_4KB. pose proof (Z.div_mod pa 4096 ltac:(done)).
  replace (pa + Z.of_nat off) with (Z.of_nat off + (pa / 4096) * 4096) by lia.
  rewrite Z.div_add, Z.mod_add, Z.div_small, Z.mod_small by lia. split; lia.
Qed.

Section StackPage.
Context (O : tables) (root v : Z) (l : list Z) (s : kstate).
Hypothesis Hok : vm_ok O root (v :: l) s.

Lemma stack_place off : (off < 4096)%nat →
  ROUNDDOWN (kva_pa (v + Z.of_nat off)) PGSIZE_4KB = V2P v ∧
  Z.to_nat (kva_pa (v + Z.of_nat off) `mod` PGSIZE_4KB) = off.
Proof.
  intros Ho. destruct (take_fresh O root v l s Hok) as ([Ha Hr] & Ev & _).
  rewrite <- Ev at 1 3. apply direct_place; [done|lia|done].
Qed.

Lemma stack_store off x s' : (off < 4096)%nat →
  store64 (v + Z.of_nat off) x s' = Done tt (put_page (V2P v) (set_le 8 off x) s').
Proof. intros Ho. unfold store64. destruct (stack_place off Ho) as [-> ->]. done. Qed.

Lemma stack_store_bytes off bs s' : (off < 4096)%nat →
  store_bytes (v + Z.of_nat off) bs s' = Done tt (put_page (V2P v) (splice off bs) s').
Proof. intros Ho. unfold store_bytes. destruct (stack_place off Ho) as [-> ->]. done. Qed.

End StackPage.

Section Alloc.
Context (O : tables) (root v : Z) (l : list Z) (s : kstate) (n : nat).
Hypothesis Hok : vm_ok O root (v :: l) s.
Hypothesis Hcalm : calm s.
Hypothesis Hlen : length (k_procs s) = NPROC.
Hypothesis Hn : free_slot n s.

Lemma alloc_proc_run :
  alloc_proc s = Done (Some n) (took v new_stack (upd_proc n (born n v) (claimed n s))).
Proof.
  unfold alloc_proc. erewrite bind_done by by apply acquire_ptable_run.
  erewrite bind_done by by apply claim_slot_run. cbv beta iota.
  destruct (take_kalloc O root v l s Hok) as [Hk Hnz].
  assert (kalloc (claimed n s) = Done v (set_k_kmem kmem_alloced (claimed n s))) as Hk'.
  { revert Hk. rewrite !kalloc_run. change (k_kmem (claimed n s)) with (k_kmem s). case_decide; intros [= E]; [|by rewrite E].
    congruence. }
  erewrite bind_done by exact Hk'. rewrite bool_decide_false by done. rewrite !bind_modify.
  change (v + KSTACKSIZE - REGI_PILE_SIZE) with (v + 4096 - 128).
  replace (v + 4096 - 128) with (v + Z.of_nat RP_OFF) by (unfold RP_OFF; lia).
  replace (v + Z.of_nat RP_OFF - 8) with (v + Z.of_nat RET_OFF) by (unfold RP_OFF, RET_OFF; lia).
  replace (v + Z.of_nat RET_OFF - CONTEXT_SIZE) with (v + Z.of_nat CTX_OFF) by (unfold CONTEXT_SIZE, CTX_OFF, RET_OFF; lia).
  replace (v + Z.of_nat CTX_OFF + CTX_rip) with (v + Z.of_nat (CTX_OFF + 48)) by (unfold CTX_rip, CTX_OFF; lia).
  erewrite bind_done by (apply (stack_store O root v l s Hok); unfold RET_OFF; lia). rewrite bind_modify.
  erewrite bind_done by (apply (stack_store_bytes O root v l s Hok); unfold CTX_OFF; lia).
  erewrite bind_done by (apply (stack_store O root v l s Hok); unfold CTX_OFF; lia).
  unfold ret. f_equal. change (upd_proc n ?f (put_page ?p ?g ?s)) with (put_page p g (upd_proc n f s)).
  rewrite !put_page_put_page, !upd_proc_upd_proc. unfold took.
  assert (∀ km f g s', f = g → put_page (V2P v) f (upd_proc n (born n v) (set_k_kmem km s')) =
    put_page (V2P v) g (set_k_kmem km (upd_proc n (born n v) s'))) as E by (by intros ???? ->).
  apply E. change (Z.to_nat CONTEXT_SIZE) with 56%nat. unfold new_stack. reflexivity.
Qed.
End Alloc.

(** ** The loop over the open files *)

(** Every open file of [fds] gets one more reference, and is entered in the
    child's table from descriptor [fd] on. *)
Fixpoint dup_refs (fds : list (option nat)) (files : list file) : list file :=
  match fds with
  | [] => files
  | None :: fds' => dup_refs fds' files
  | Some f :: fds' => dup_refs fds' (alter (λ f, set_f_ref (f_ref f + 1) f) f files)
  end.
Fixpoint dup_table (fd : nat) (fds tbl : list (option nat)) : list (option nat) :=
  match fds with
  | [] => tbl
  | None :: fds' => dup_table (S fd) fds' tbl
  | Some f :: fds' => dup_table (S fd) fds' (<[fd := Some f]> tbl)
  end.
Definition dup_ofiles (n fd : nat) (fds : list (option nat)) (s : kstate) : kstate :=
  set_k_files (dup_refs fds) (upd_proc n (λ p, set_p_ofile (dup_table fd fds (p_ofile p)) p) s).

Definition dup_body (c n fd : nat) : M kstate unit :=
  let! cp := gets (the_proc c) in
  match p_ofile cp !!! fd with
  | None => ret tt
  | Some f =>
    let! f' := file_dup f in
    modify (upd_proc n (λ p, set_p_ofile (<[fd := Some f']> (p_ofile p)) p))
  end.

Definition files_open (fds : list (option nat)) (files : list file) : Prop :=
  ∀ f, Some f ∈ fds → ∃ x, files !! f = Some x ∧ 1 ≤ f_ref x.

Lemma files_open_step f fds files : files_open (Some f :: fds) files →
  files_open fds (alter (λ f, set_f_ref (f_ref f + 1) f) f files).
Proof.
  intros H g Hg. destruct (H g) as (x & Hx & Hr); [by right|]. rewrite list_lookup_alter.
  destruct (decide (f = g)) as [->|]; rewrite Hx; simpl; [|by eauto]. eexists. split; [done|]. simpl. lia.
Qed.

Lemma dup_loop_run c n fds : ∀ fd s, c ≠ n → calm s → files_open fds (k_files s) →
  drop fd (p_ofile (the_proc c s)) = fds →
  for_each (seq fd (length fds)) (dup_body c n) s = Done tt (dup_ofiles n fd fds s).
Proof.
  induction fds as [|o fds IH]; intros fd s Hne Hc Hf Hd; simpl.
  - unfold ret, dup_ofiles, upd_proc. f_equal. kext. symmetry. apply alter_noop. by intros [] _.
  - assert (p_ofile (the_proc c s) !!! fd = o) as Ho.
    { apply list_lookup_total_correct. pose proof (lookup_drop (p_ofile (the_proc c s)) fd 0) as E.
      rewrite Hd, Nat.add_0_r in E. by symmetry. }
    assert (∀ s', the_proc c s' = the_proc c s → drop (S fd) (p_ofile (the_proc c s')) = fds) as Hd'.
    { intros s' ->. replace (S fd) with (fd + 1)%nat by lia. rewrite <- drop_drop, Hd. done. }
    destruct o as [f|].
    + destruct (Hf f) as (x & Hx & Hr); [left|]. pose proof (lookup_lt_Some _ _ _ Hx) as Hlt.
      set (s1 := upd_file f (λ f, set_f_ref (f_ref f + 1) f) s).
      set (s2 := upd_proc n (λ p, set_p_ofile (<[fd := Some f]> (p_ofile p)) p) s1).
      rewrite (bind_done _ _ _ tt s2).
      * rewrite (IH (S fd) s2 Hne Hc); [|by apply files_open_step|apply Hd'; unfold s2; by rewrite the_proc_upd_ne by done].
        f_equal. unfold dup_ofiles, upd_proc. kext. apply alter_alter.
      * unfold dup_body. rewrite bind_gets, Ho.
        erewrite bind_done by (apply file_dup_run; [done|done|by rewrite (the_file_lookup _ _ _ Hx)]). done.
    + rewrite (bind_done _ _ _ tt s); [|unfold dup_body; by rewrite bind_gets, Ho].
      rewrite (IH (S fd) s Hne Hc); [done| |by apply Hd']. intros g Hg. apply Hf. by right.
Qed.

(** The child's table becomes the parent's when it was empty. *)
Lemma dup_table_lookup fds : ∀ fd tbl i, (fd + length fds ≤ length tbl)%nat →
  dup_table fd fds tbl !! i =
    if decide (fd ≤ i < fd + length fds)%nat
    then match fds !! (i - fd)%nat with Some (Some f) => Some (Some f) | _ => tbl !! i end
    else tbl !! i.
Proof.
  induction fds as [|o fds IH]; intros fd tbl i Hl; simpl in *; [by rewrite decide_False by lia|].
  destruct o as [f|]; rewrite IH by (rewrite ?length_insert; lia).
  - destruct (decide (i = fd)) as [->|].
    + rewrite decide_False, decide_True by lia. rewrite Nat.sub_diag. simpl. by rewrite list_lookup_insert_eq by lia.
    + rewrite list_lookup_insert_ne by done. destruct (decide (S fd ≤ i < S fd + length fds)%nat).
      * rewrite decide_True by lia. replace (i - fd)%nat with (S (i - S fd)) by lia. done.
      * by rewrite decide_False by lia.
  - destruct (decide (i = fd)) as [->|].
    + rewrite decide_False, decide_True by lia. by rewrite Nat.sub_diag.
    + destruct (decide (S fd ≤ i < S fd + length fds)%nat).
      * rewrite decide_True by lia. replace (i - fd)%nat with (S (i - S fd)) by lia. done.
      * by rewrite decide_False by lia.
Qed.

Lemma dup_table_full fds : dup_table 0 fds (replicate (length fds) None) = fds.
Proof.
  apply list_eq. intros i. rewrite dup_table_lookup by (rewrite length_replicate; lia).
  case_decide as E.
  - rewrite Nat.sub_0_r. destruct (lookup_lt_is_Some_2 fds i) as [[f|] Hf]; [lia| |]; rewrite Hf; [done|].
    apply lookup_replicate_2. lia.
  - rewrite !lookup_ge_None_2 by (rewrite ?length_replicate; lia). done.
Qed.

(** The references of each file grow by the number of descriptors that name it. *)
Definition opens (f : nat) (fds : list (option nat)) : Z := Z.of_nat (length (filter (λ o, o = Some f) fds)).

Lemma dup_refs_lookup fds f : ∀ files,
  dup_refs fds files !! f = (λ x, set_f_ref (f_ref x + opens f fds) x) <$> files !! f.
Proof.
  unfold opens. induction fds as [|[g|] fds IH]; intros files; simpl.
  - destruct (files !! f) as [[]|]; simpl; [|done]. unfold set_f_ref; simpl. by rewrite Z.add_0_r.
  - rewrite IH, list_lookup_alter, filter_cons. destruct (decide (g = f)) as [->|].
    + rewrite decide_True by done. destruct (files !! f); simpl; [|done]. unfold set_f_ref; simpl. do 2 f_equal. lia.
    + rewrite decide_False by congruence. done.
  - rewrite IH, filter_cons, decide_False by done. done.
Qed.

(** ** [fork] *)

Lemma idup_run i s : calm s →
  idup i s = Done i (upd_inode i (λ ip, set_i_ref (u64 (i_ref ip + 1)) ip) s).
Proof.
  intros [Hl Hc]. unfold idup. erewrite bind_done by (apply acquire_run; [apply Hc|by rewrite Hl]).
  rewrite bind_modify. erewrite bind_done by (apply (release_after_acquire LkIcache s); [done|by rewrite Hl|done|done]).
  unfold ret. by f_equal; kext.
Qed.

Lemma set_name_run n t w s : safe_strcpy t 32 = Some w →
  set_name n t s = Done tt (upd_proc n (λ p, set_p_name (splice 0 w (p_name p)) p) s).
Proof. intros E. unfold set_name. by rewrite E. Qed.

(** Making a claimed process runnable. *)
Lemma make_runnable_run n (r : Z) s : calm s →
  (acquire LkPtable ;;; modify (upd_proc n (set_p_state RUNNABLE)) ;;; release LkPtable ;;; ret r) s =
    Done r (upd_proc n (set_p_state RUNNABLE) s).
Proof.
  intros Hc. erewrite bind_done by by apply acquire_ptable_run. rewrite bind_modify.
  erewrite bind_done by by apply (release_ptable_run s). unfold ret. by f_equal; kext.
Qed.

(** When a call of [fork] by process [c] finds what it needs: process [n] is
    the first free slot, [v] the first free page (the child's kernel stack),
    [pk] holds the parent's kernel stack. *)
Record forkable (O : tables) (root kp pk v : Z) (l : list Z) (c n ci : nat) (s : kstate) : Prop := {
  fb_vm : vm_ok O root (v :: l) s;
  fb_kernel : kernel_table kp s;
  fb_calm : calm s;
  fb_len : length (k_procs s) = NPROC;
  fb_slot : free_slot n s;
  fb_cur : c_proc (k_cpu s) = Some c;
  fb_ne : c ≠ n;
  fb_pml4 : p_pml4 (the_proc c s) = P2V root;
  fb_sz : p_sz (the_proc c s) < USER_TOP;
  fb_pages : copyable root (p_sz (the_proc c s)) (v :: l) s;
  fb_mem : (4 * pages_left 4096 (p_sz (the_proc c s)) < length l)%nat;
  fb_rp : p_rp (the_proc c s) = P2V pk + Z.of_nat RP_OFF;
  fb_stack : table_page pk s ∧ P2V pk ∉ v :: l;
  fb_files : files_open (p_ofile (the_proc c s)) (k_files s);
  fb_ofile : length (p_ofile (the_proc c s)) = NOFILE ∧ p_ofile (the_proc n s) = replicate NOFILE None;
  fb_names : length (p_name (the_proc c s)) = 32%nat ∧ length (p_name (the_proc n s)) = 32%nat;
  fb_cwd : p_cwd (the_proc c s) = Some ci
}.

(** The child and its surroundings after [fork]. *)
Record forked (root v : Z) (l : list Z) (c n ci : nat) (s s' : kstate) : Prop := {
  fk_state : p_state (the_proc n s') = RUNNABLE;
  fk_pid : p_pid (the_proc n s') = u64 (k_next_pid s);
  fk_parent : p_parent (the_proc n s') = Some c;
  fk_sz : p_sz (the_proc n s') = p_sz (the_proc c s);
  fk_ofile : p_ofile (the_proc n s') = p_ofile (the_proc c s);
  fk_cwd : p_cwd (the_proc n s') = Some ci;
  fk_name : cstr (p_name (the_proc n s')) = take 31 (cstr (p_name (the_proc c s)));
  fk_regs : p_rp (the_proc n s') = v + Z.of_nat RP_OFF ∧
    load_bytes (v + Z.of_nat RP_OFF) 128 s' = set_le 8 112 0 (load_bytes (p_rp (the_proc c s)) 128 s);
  fk_start : p_context (the_proc n s') = v + Z.of_nat CTX_OFF ∧
    load64 (v + Z.of_nat (CTX_OFF + 48)) s' = u64 fork_ret_addr ∧ load64 (v + Z.of_nat RET_OFF) s' = u64 syscall_ret_addr;
  fk_memory : ∃ rc D, p_pml4 (the_proc n s') = P2V rc ∧ P2V rc ∈ l ∧ NoDup D ∧ (∀ d, d ∈ D → P2V d ∈ l) ∧
    ∀ va, 4096 ≤ va < p_sz (the_proc c s) → ∃ d, D !! Z.to_nat ((va - 4096) / 4096) = Some d ∧
      pte_of rc va s' = d + PTE_FLAGS (pte_of root va s) ∧
      page d (k_kmem s') = page (PTE_ADDR (pte_of root va s)) (k_kmem s);
  fk_procs : ∀ i, i ≠ n → the_proc i s' = the_proc i s;
  fk_files : ∀ f, k_files s' !! f =
    (λ x, set_f_ref (f_ref x + opens f (p_ofile (the_proc c s))) x) <$> k_files s !! f;
  fk_inodes : k_inodes s' = alter (λ ip, set_i_ref (u64 (i_ref ip + 1)) ip) ci (k_inodes s);
  fk_calm : k_cpu s' = k_cpu s ∧ k_locks s' = k_locks s
}.

(** The child's kernel stack page. *)
Definition child_stack (regs d : list byte) : list byte :=
  set_le 8 (RP_OFF + 112) 0 (splice RP_OFF regs (new_stack d)).

Section Stack.
Context (regs d : list byte).
Hypothesis Hr : length regs = 128%nat.
Hypothesis Hd : length d = 4096%nat.

Lemma new_stack_length : length (new_stack d) = 4096%nat.
Proof.
  unfold new_stack, CTX_OFF, RET_OFF. rewrite set_le_length.
  all: rewrite splice_length; rewrite set_le_length, ?length_replicate; lia.
Qed.

Lemma child_stack_regs : slice RP_OFF 128 (child_stack regs d) = set_le 8 112 0 regs.
Proof.
  pose proof new_stack_length as Hn. unfold child_stack, set_le.
  set (w := le_put 8 0). assert (length w = 8%nat) as Hw by apply le_put_length.
  assert (length (splice RP_OFF regs (new_stack d)) = 4096%nat) as Hl.
  { unfold RP_OFF. rewrite splice_length; lia. }
  apply list_eq. intros i. destruct (decide (i < 128)%nat) as [Hi|Hi].
  - rewrite slice_lookup by done. destruct (decide (112 ≤ i < 120)%nat).
    + rewrite !splice_lookup_in by (unfold RP_OFF in *; lia). f_equal; lia.
    + rewrite (splice_lookup_out (RP_OFF + 112)) by (unfold RP_OFF in *; lia).
      rewrite (splice_lookup_out 112) by lia.
      rewrite splice_lookup_in by (unfold RP_OFF in *; lia). f_equal; lia.
  - rewrite !lookup_ge_None_2; [done|rewrite splice_length; lia|].
    rewrite slice_length; [lia|]. rewrite splice_length; unfold RP_OFF in *; lia.
Qed.

Lemma child_stack_word off x : (off + 8 ≤ RP_OFF)%nat → get_le 8 off (new_stack d) = x → get_le 8 off (child_stack regs d) = x.
Proof.
  intros Ho <-. pose proof new_stack_length as Hn. unfold child_stack.
  rewrite get_set_le_ne; [|rewrite splice_length; unfold RP_OFF in *; lia|lia].
  unfold get_le. rewrite slice_splice_ne; [done|unfold RP_OFF in *; lia|lia].
Qed.

Lemma child_stack_start : get_le 8 (CTX_OFF + 48) (child_stack regs d) = u64 fork_ret_addr.
Proof.
  apply child_stack_word; [unfold RP_OFF, CTX_OFF; lia|]. unfold new_stack. rewrite get_set_le_eq; [done|].
  unfold CTX_OFF, RET_OFF. rewrite splice_length; rewrite set_le_length, ?length_replicate; lia.
Qed.

Lemma child_stack_return : get_le 8 RET_OFF (child_stack regs d) = u64 syscall_ret_addr.
Proof.
  apply child_stack_word; [unfold RP_OFF, RET_OFF; lia|]. unfold new_stack, CTX_OFF, RET_OFF.
  rewrite get_set_le_ne; [|rewrite splice_length; rewrite set_le_length, ?length_replicate; lia|lia].
  unfold get_le. rewrite slice_splice_ne; [|rewrite set_le_length, length_replicate; lia|rewrite length_replicate; lia].
  fold (get_le 8 3960 (set_le 8 3960 syscall_ret_addr d)). rewrite get_set_le_eq by lia. done.
Qed.
End Stack.

(** What only depends on the memory. *)
Lemma vm_ok_kmem O root l s s' : k_kmem s' = k_kmem s → vm_ok O root l s → vm_ok O root l s'.
Proof.
  intros E [H1 H2 H3 H4 H5]. unfold ent in H5. rewrite <- E in H1, H2, H5. split; try done.
  intros pa x Hx. destruct (H4 pa x Hx) as [[T1 T2 T3] T4]. rewrite <- E in T3. done.
Qed.
Lemma pte_of_kmem root va s s' : k_kmem s' = k_kmem s → pte_of root va s' = pte_of root va s.
Proof.
  intros E. assert (∀ pa i, ent pa i s' = ent pa i s) as He by (intros; unfold ent; by rewrite E).
  unfold pte_of. generalize 3%nat as h. intros h. generalize root. induction h as [|h IH]; intros pa; cbn [leaf]; rewrite He; [done|].
  case_match; [apply IH|done].
Qed.

(** The state after the new process has its slot and its kernel stack. *)
Definition with_stack (n : nat) (v : Z) (s : kstate) : kstate :=
  took v new_stack (upd_proc n (born n v) (claimed n s)).

(** The child's fields, assigned after its memory is copied. *)
Definition child_fields (c n ci : nat) (rc sz : Z) (fds : list (option nat)) (w : list byte) (p : proc) : proc :=
  set_p_state RUNNABLE (set_p_name (splice 0 w (p_name p)) (set_p_cwd (Some ci)
    (set_p_ofile (dup_table 0 fds (p_ofile p)) (set_p_parent (Some c) (set_p_sz sz (set_p_pml4 (P2V rc) p)))))).

Section ForkRun.
Context (O : tables) (root kp pk v : Z) (l : list Z) (c n ci : nat) (s : kstate).
Hypothesis H : forkable O root kp pk v l c n ci s.

Let sA := with_stack n v s.
Let par := the_proc c s.

Lemma sA_proc i : i ≠ n → the_proc i sA = the_proc i s.
Proof. intros Hne. unfold sA, with_stack, took, put_page. ksimpl. rewrite the_proc_upd_ne by done.
  unfold claimed. ksimpl. by rewrite the_proc_upd_ne. Qed.
Lemma sA_child : the_proc n sA = born n v (set_p_pid (u64 (k_next_pid s)) (set_p_state EMBRYO (the_proc n s))).
Proof.
  destruct (fb_slot _ _ _ _ _ _ _ _ _ _ H) as (Hn & _). unfold sA, with_stack, took, put_page. ksimpl.
  rewrite the_proc_upd_eq by (unfold claimed, upd_proc; ksimpl; by rewrite length_alter).
  unfold claimed. ksimpl. by rewrite the_proc_upd_eq.
Qed.
Lemma sA_ok : vm_ok O root l sA.
Proof. apply (vm_ok_kmem _ _ _ (took v new_stack s)); [done|]. apply take_ok, H. Qed.
Lemma sA_page pa : pa ≠ V2P v → page pa (k_kmem sA) = page pa (k_kmem s).
Proof. intros Hne. apply (take_page O root v l s new_stack (fb_vm _ _ _ _ _ _ _ _ _ _ H) pa Hne). Qed.
Lemma sA_stack : page (V2P v) (k_kmem sA) = new_stack (replicate page_nat x02).
Proof. apply (take_page_new O root v l s new_stack (fb_vm _ _ _ _ _ _ _ _ _ _ H)). Qed.
Lemma sA_pte va : in_user va → pte_of root va sA = pte_of root va s.
Proof.
  intros Hu. rewrite (pte_of_kmem root va (took v new_stack s)) by done.
  apply (take_leaf O root v l s _ (fb_vm _ _ _ _ _ _ _ _ _ _ H) 3 root 0 va Hu), H.
Qed.

Lemma sA_copyable : copyable root (p_sz par) l sA.
Proof.
  intros va Hva. pose proof (fb_sz _ _ _ _ _ _ _ _ _ _ H). rewrite sA_pte by (unfold in_user, par in *; lia).
  destruct (fb_pages _ _ _ _ _ _ _ _ _ _ H va Hva) as [? Hn]. split; [done|]. set_solver.
Qed.

Lemma sA_kernel : kernel_table kp sA.
Proof.
  pose proof (fb_kernel _ _ _ _ _ _ _ _ _ _ H) as Hk. pose proof (fb_vm _ _ _ _ _ _ _ _ _ _ H) as Hok.
  pose proof (kernel_page_kept O root v kp l s Hok Hk new_stack) as E. destruct Hk as [? ? ? ? ?].
  split; try done. change (length (page kp (k_kmem (took v new_stack s))) = page_nat). by rewrite E.
Qed.

Lemma stack_load s' : load_bytes (P2V pk + Z.of_nat RP_OFF) 128 s' = slice RP_OFF 128 (page pk (k_kmem s')).
Proof.
  destruct (fb_stack _ _ _ _ _ _ _ _ _ _ H) as [[Ha Hr Hl] _]. unfold load_bytes.
  destruct (direct_place pk RP_OFF) as [-> ->]; [done|lia|unfold RP_OFF; lia|done].
Qed.

Section Tail.
Context (rc : Z) (m : kmem) (w : list byte).
Hypothesis Hw : safe_strcpy (p_name par) 32 = Some w.
Hypothesis Hrc : P2V rc ≠ 0.

Let sB := set_k_kmem (λ _, m) sA.
Let regs := slice RP_OFF 128 (page pk m).
Let sz := p_sz par.
Let fds := p_ofile par.
Let s1 := upd_proc n (λ p, set_p_parent (Some c) (set_p_sz sz (set_p_pml4 (P2V rc) p))) sB.
Let s2 := put_page (V2P v) (λ d, set_le 8 (RP_OFF + 112) 0 (splice RP_OFF regs d)) s1.
Let s3 := dup_ofiles n 0 fds s2.
Let s4 := upd_inode ci (λ ip, set_i_ref (u64 (i_ref ip + 1)) ip) s3.

Definition fork_final : kstate :=
  upd_proc n (set_p_state RUNNABLE) (upd_proc n (λ p, set_p_name (splice 0 w (p_name p)) p)
    (upd_proc n (set_p_cwd (Some ci)) s4)).

Let Hne := fb_ne _ _ _ _ _ _ _ _ _ _ H.
Let Hok := fb_vm _ _ _ _ _ _ _ _ _ _ H.

Lemma other_par f s' : the_proc c s' = par → the_proc c (upd_proc n f s') = par.
Proof. intros <-. by apply the_proc_upd_ne. Qed.
Lemma sB_par : the_proc c sB = par.
Proof. by apply sA_proc. Qed.
Lemma s1_par : the_proc c s1 = par.
Proof. apply other_par, sB_par. Qed.
Lemma slot_in : (n < length (k_procs sB))%nat.
Proof.
  destruct (fb_slot _ _ _ _ _ _ _ _ _ _ H) as (Hn & _). change (k_procs sB) with (k_procs sA).
  unfold sA, with_stack, took, put_page, claimed, upd_proc. ksimpl. by rewrite !length_alter.
Qed.
Lemma s1_rp : p_rp (the_proc n s1) = v + Z.of_nat RP_OFF.
Proof. unfold s1. rewrite the_proc_upd_eq by apply slot_in. change (the_proc n sB) with (the_proc n sA). by rewrite sA_child. Qed.
Lemma s3_par : the_proc c s3 = par.
Proof. unfold s3, dup_ofiles. ksimpl. apply other_par. exact s1_par. Qed.
Lemma sA_calm : calm sA.
Proof. apply (fb_calm _ _ _ _ _ _ _ _ _ _ H). Qed.

Lemma assign_memory :
  upd_proc n (set_p_parent (Some c)) (upd_proc n (set_p_sz sz) (upd_proc n (set_p_pml4 (P2V rc)) sB)) = s1.
Proof. rewrite !upd_proc_upd_proc. done. Qed.

Lemma stack_offs : (RP_OFF < 4096)%nat ∧ (RP_OFF + 112 < 4096)%nat.
Proof. split; apply Nat.ltb_lt; reflexivity. Qed.

Lemma copy_regs_run k : bind (store_bytes (v + Z.of_nat RP_OFF) regs) (λ _, bind (store64 (v + Z.of_nat RP_OFF + RP_rax) 0) (λ _, k)) s1 =
  (k : M kstate Z) s2.
Proof.
  erewrite bind_done by (apply (stack_store_bytes O root v l s Hok), stack_offs).
  replace (v + Z.of_nat RP_OFF + RP_rax) with (v + Z.of_nat (RP_OFF + 112)) by (unfold RP_rax, RP_OFF; lia).
  erewrite bind_done by (apply (stack_store O root v l s Hok), stack_offs).
  by rewrite put_page_put_page.
Qed.

Lemma dup_files_run : for_each (seq 0 NOFILE) (dup_body c n) s2 = Done tt s3.
Proof.
  destruct (fb_ofile _ _ _ _ _ _ _ _ _ _ H) as [Hl _]. rewrite <- Hl. apply dup_loop_run.
  - done.
  - exact sA_calm.
  - exact (fb_files _ _ _ _ _ _ _ _ _ _ H).
  - change (the_proc c s2) with (the_proc c s1). rewrite s1_par. apply drop_0.
Qed.

(** The child, before it is made runnable. *)
Definition child : proc :=
  set_p_name (splice 0 w (p_name (the_proc n s))) (set_p_cwd (Some ci)
    (set_p_ofile (dup_table 0 fds (p_ofile (the_proc n s)))
      (set_p_parent (Some c) (set_p_sz sz (set_p_pml4 (P2V rc)
        (born n v (set_p_pid (u64 (k_next_pid s)) (set_p_state EMBRYO (the_proc n s))))))))).

Let s6 := upd_proc n (λ p, set_p_name (splice 0 w (p_name p)) p) (upd_proc n (set_p_cwd (Some ci)) s4).

Lemma child_in : (n < length (k_procs s6))%nat.
Proof.
  pose proof slot_in as Hi. unfold s6, s4, s3, dup_ofiles, s2, put_page, s1, upd_proc. ksimpl.
  rewrite !length_alter. exact Hi.
Qed.
Lemma s6_child : the_proc n s6 = child.
Proof.
  pose proof child_in as Hi. unfold s6, upd_proc in Hi. ksimpl_in Hi. rewrite !length_alter in Hi.
  unfold s6. rewrite upd_proc_upd_proc, the_proc_upd_eq by done.
  unfold s4, s3, dup_ofiles. ksimpl. rewrite the_proc_upd_eq.
  2:{ revert Hi. unfold s4, s3, dup_ofiles, upd_proc. ksimpl. by rewrite length_alter. }
  change (the_proc n s2) with (the_proc n s1). unfold s1. rewrite the_proc_upd_eq by apply slot_in.
  change (the_proc n sB) with (the_proc n sA). rewrite sA_child. unfold child, born, compose.
  generalize (v + Z.of_nat CTX_OFF) (v + Z.of_nat RP_OFF) (the_proc n s) (dup_table 0 fds). by intros ?? [] ?.
Qed.

Hypothesis Hk : copy_uvm (P2V root) (p_sz par) sA = Done (P2V rc) sB.
Hypothesis Hcwd : p_cwd par = Some ci.

Lemma fork_run : fork s = Done (s64 (u64 (k_next_pid s))) fork_final.
Proof.
  unfold fork. erewrite bind_done by by apply (alloc_proc_run O root v l s n); apply H.
  fold (with_stack n v s). fold sA.
  erewrite bind_done by (apply myproc_run, sA_calm).
  change (c_proc (k_cpu sA)) with (c_proc (k_cpu s)). rewrite (fb_cur _ _ _ _ _ _ _ _ _ _ H). cbn [deref].
  rewrite bind_ret_l, bind_gets, sA_proc by done. fold par. rewrite (fb_pml4 _ _ _ _ _ _ _ _ _ _ H : p_pml4 par = _).
  erewrite bind_done by exact Hk. rewrite bind_modify, bool_decide_false by done.
  rewrite bind_modify, other_par by apply sB_par. fold sz. rewrite bind_modify, assign_memory.
  rewrite bind_gets, bind_gets, bind_gets, s1_rp, s1_par.
  rewrite (fb_rp _ _ _ _ _ _ _ _ _ _ H : p_rp par = _), stack_load.
  change (k_kmem s1) with m. rewrite copy_regs_run.
  erewrite bind_done by exact dup_files_run.
  rewrite bind_gets, s3_par, Hcwd. cbn [deref]. rewrite bind_ret_l.
  erewrite bind_done by (apply idup_run; exact sA_calm). rewrite bind_modify, bind_gets.
  rewrite other_par by exact s3_par. erewrite bind_done by by apply set_name_run.
  match goal with |- bind _ _ ?st = _ => change st with s6 end.
  rewrite bind_gets, s6_child. change (p_pid child) with (u64 (k_next_pid s)).
  rewrite (make_runnable_run n _ s6 sA_calm). reflexivity.
Qed.

Lemma final_child : the_proc n fork_final = set_p_state RUNNABLE child.
Proof. change fork_final with (upd_proc n (set_p_state RUNNABLE) s6). rewrite the_proc_upd_eq by exact child_in. by rewrite s6_child. Qed.
Lemma final_proc i : i ≠ n → the_proc i fork_final = the_proc i s.
Proof.
  intros Hi. unfold fork_final. rewrite !the_proc_upd_ne by done. unfold s4, s3, dup_ofiles. ksimpl.
  rewrite the_proc_upd_ne by done. change (the_proc i s2) with (the_proc i s1). unfold s1.
  rewrite the_proc_upd_ne by done. by apply sA_proc.
Qed.
Lemma final_page pa : page pa (k_kmem fork_final) =
  if decide (V2P v = pa) then set_le 8 (RP_OFF + 112) 0 (splice RP_OFF regs (page (V2P v) m)) else page pa m.
Proof. change (k_kmem fork_final) with (k_kmem s2). unfold s2. rewrite page_put. done. Qed.
Lemma final_files f : k_files fork_final !! f = (λ x, set_f_ref (f_ref x + opens f fds) x) <$> k_files s !! f.
Proof. change (k_files fork_final) with (dup_refs fds (k_files s)). apply dup_refs_lookup. Qed.

Lemma child_name : cstr (p_name child) = take 31 (cstr (p_name par)).
Proof.
  destruct (safe_strcpy_bounds _ _ _ Hw) as (Hl & <- & Hlast). unfold child. cbn [p_name set_p_name].
  unfold splice. rewrite take_0. simpl app. by rewrite cstr_app.
Qed.
Lemma child_ofile : p_ofile child = fds.
Proof.
  destruct (fb_ofile _ _ _ _ _ _ _ _ _ _ H) as [Hl Ho]. unfold child. cbn [p_ofile set_p_ofile set_p_cwd set_p_name].
  rewrite Ho, <- Hl. apply dup_table_full.
Qed.

Section Memory.
Context (D : list Z) (O' : tables) (l' : list Z).
Hypothesis HC : copied root rc kp (p_sz par) l sA D O' l' sB.

Lemma taken_ne pa : P2V pa ∈ l → V2P v ≠ pa.
Proof. destruct (take_fresh O root v l s Hok) as (_ & Ev & Hnl & _). intros Hin <-. by rewrite Ev in Hin. Qed.
Lemma stack_kept : page (V2P v) m = new_stack (replicate page_nat x02).
Proof.
  destruct (take_fresh O root v l s Hok) as (_ & Ev & Hnl & _).
  rewrite <- sA_stack. apply (co_other _ _ _ _ _ _ _ _ _ _ HC). by rewrite Ev.
Qed.
Lemma parent_stack_kept : regs = load_bytes (p_rp par) 128 s.
Proof.
  destruct (fb_stack _ _ _ _ _ _ _ _ _ _ H) as [_ Hn]. destruct (take_fresh O root v l s Hok) as (_ & Ev & _).
  rewrite (fb_rp _ _ _ _ _ _ _ _ _ _ H : p_rp par = _), stack_load. unfold regs. f_equal.
  rewrite <- sA_page by (intros ->; rewrite Ev in Hn; apply Hn; left).
  apply (co_other _ _ _ _ _ _ _ _ _ _ HC). intros Hin. apply Hn. by right.
Qed.
Lemma final_pte va : in_user va → pte_of rc va fork_final = pte_of rc va sB.
Proof.
  intros Hu. eapply (other_pte O' rc l' sB fork_final); [apply HC| |done].
  intros pa x Hx. rewrite final_page, decide_False; [done|]. apply taken_ne. by apply (co_tables _ _ _ _ _ _ _ _ _ _ HC pa x).
Qed.

Lemma final_memory : ∀ va, 4096 ≤ va < p_sz par → ∃ d, D !! Z.to_nat ((va - 4096) / 4096) = Some d ∧
  pte_of rc va fork_final = d + PTE_FLAGS (pte_of root va s) ∧
  page d (k_kmem fork_final) = page (PTE_ADDR (pte_of root va s)) (k_kmem s).
Proof.
  intros va Hva. pose proof (fb_sz _ _ _ _ _ _ _ _ _ _ H) as Hsz. assert (in_user va) as Hu by (unfold in_user, par in *; lia).
  destruct (co_map _ _ _ _ _ _ _ _ _ _ HC va Hva) as (d & Hd & Hp & Hpg). exists d. split; [done|].
  rewrite sA_pte in Hp, Hpg by done. rewrite final_pte by done. split; [done|].
  destruct (co_fresh _ _ _ _ _ _ _ _ _ _ HC) as [_ Hin]. destruct (Hin d) as (Hdl & _); [by eapply list_elem_of_lookup_2|].
  rewrite final_page, decide_False by by apply taken_ne. change (page d m) with (page d (k_kmem sB)). rewrite Hpg.
  apply sA_page. destruct (fb_pages _ _ _ _ _ _ _ _ _ _ H va Hva) as [_ Hn]. intros E. rewrite E in Hn.
  destruct (take_fresh O root v l s Hok) as (_ & Ev & _). rewrite Ev in Hn. apply Hn. left.
Qed.

Lemma final_stack : load_bytes (v + Z.of_nat RP_OFF) 128 fork_final = set_le 8 112 0 (load_bytes (p_rp par) 128 s) ∧
  load64 (v + Z.of_nat (CTX_OFF + 48)) fork_final = u64 fork_ret_addr ∧
  load64 (v + Z.of_nat RET_OFF) fork_final = u64 syscall_ret_addr.
Proof.
  assert (length regs = 128%nat) as Hr.
  { destruct (fb_stack _ _ _ _ _ _ _ _ _ _ H) as [[_ _ Hl] _]. rewrite parent_stack_kept.
    rewrite (fb_rp _ _ _ _ _ _ _ _ _ _ H : p_rp par = _), stack_load. apply slice_length. rewrite Hl.
    apply Nat.leb_le. reflexivity. }
  assert (∀ off, (off < 4096)%nat → ROUNDDOWN (kva_pa (v + Z.of_nat off)) PGSIZE_4KB = V2P v ∧
    Z.to_nat (kva_pa (v + Z.of_nat off) `mod` PGSIZE_4KB) = off) as Hpl by apply (stack_place O root v l s Hok).
  assert (page (V2P v) (k_kmem fork_final) = child_stack regs (replicate page_nat x02)) as Hpage.
  { by rewrite final_page, decide_True, stack_kept. }
  assert (length (replicate page_nat x02 : list byte) = 4096%nat) as Hd by apply length_replicate.
  rewrite <- parent_stack_kept. split_and!.
  - unfold load_bytes. destruct (Hpl RP_OFF) as [-> ->]; [apply stack_offs|]. rewrite Hpage.
    by apply child_stack_regs.
  - unfold load64. destruct (Hpl (CTX_OFF + 48)%nat) as [-> ->]; [apply Nat.ltb_lt; reflexivity|].
    rewrite Hpage. by apply child_stack_start.
  - unfold load64. destruct (Hpl RET_OFF) as [-> ->]; [apply Nat.ltb_lt; reflexivity|].
    rewrite Hpage. by apply child_stack_return.
Qed.

Lemma final_fields :
  (p_state (the_proc n fork_final) = RUNNABLE ∧ p_pid (the_proc n fork_final) = u64 (k_next_pid s)) ∧
  (p_parent (the_proc n fork_final) = Some c ∧ p_sz (the_proc n fork_final) = sz) ∧
  (p_cwd (the_proc n fork_final) = Some ci ∧ p_pml4 (the_proc n fork_final) = P2V rc) ∧
  p_rp (the_proc n fork_final) = v + Z.of_nat RP_OFF ∧ p_context (the_proc n fork_final) = v + Z.of_nat CTX_OFF.
Proof.
  rewrite final_child. unfold child, born.
  generalize (v + Z.of_nat CTX_OFF) (v + Z.of_nat RP_OFF) (the_proc n s) (dup_table 0 fds) (splice 0 w) (u64 (k_next_pid s)).
  intros. by split_and!.
Qed.
Lemma running_fields (p : proc) : p_ofile (set_p_state RUNNABLE p) = p_ofile p ∧ p_name (set_p_state RUNNABLE p) = p_name p.
Proof. done. Qed.

Lemma final_forked : forked root v l c n ci s fork_final.
Proof.
  destruct final_stack as (F1 & F2 & F3). destruct final_fields as ([E1 E2] & [E3 E4] & [E5 E6] & E7 & E8).
  destruct (running_fields child) as [E9 E10]. split.
  - exact E1.
  - exact E2.
  - exact E3.
  - exact E4.
  - rewrite final_child, E9. exact child_ofile.
  - exact E5.
  - rewrite final_child, E10. exact child_name.
  - split; [exact E7|exact F1].
  - split; [exact E8|split; [exact F2|exact F3]].
  - exists rc, D. destruct (co_fresh _ _ _ _ _ _ _ _ _ _ HC) as [Hnd Hin].
    split; [exact E6|]. split; [by apply (co_tables _ _ _ _ _ _ _ _ _ _ HC rc (3%nat, 0)), (vo_root _ _ _ _ (co_ok _ _ _ _ _ _ _ _ _ _ HC))|].
    split; [exact Hnd|]. split; [intros d Hd; apply (Hin d Hd)|exact final_memory].
  - exact final_proc.
  - exact final_files.
  - change (k_inodes fork_final) with (k_inodes s4). reflexivity.
  - split; reflexivity.
Qed.
End Memory.
End Tail.
Lemma rc_not_null r : P2V r ∈ v :: l → P2V r ≠ 0.
Proof.
  destruct (vo_free _ _ _ _ (fb_vm _ _ _ _ _ _ _ _ _ _ H)) as [_ [Hp _]]. intros Hin E.
  destruct (Hp _ Hin) as (_ & Hr). rewrite E in Hr. unfold V2P, KERN_BASE in Hr. lia.
Qed.

End ForkRun.

(** C40. [fork] succeeds whenever there is a free process slot and enough free
    memory, and then the child is the parent's copy: it is the first free
    slot, runnable, with the next pid (which is also the value [fork] returns)
    and the caller as its parent; it has the parent's size, working directory,
    name and descriptors, and every open file's and the directory's reference
    count grew accordingly; its registers are the parent's with [rax] = 0, so
    it returns 0; its first switch enters [fork_ret], which returns to
    [syscall_ret]; each of its pages is a distinct formerly free page holding
    what the parent's page at the same address holds, with the same flags.
    No other process changes, and every lock is released. *)
Theorem fork_spec O root kp pk v l c n ci s : forkable O root kp pk v l c n ci s →
  wp (fork s) (λ r s', r = s64 (u64 (k_next_pid s)) ∧ forked root v l c n ci s s').
Proof.
  intros H. assert (31 ≤ length (p_name (the_proc c s)))%nat as Hw by (rewrite (proj1 (fb_names _ _ _ _ _ _ _ _ _ _ H)); lia).
  apply safe_strcpy_Some in Hw as [w Hw].
  assert (wp (copy_uvm (P2V root) (p_sz (the_proc c s)) (with_stack n v s)) (λ r s', ∃ rc D O' l', r = P2V rc ∧
    copied root rc kp (p_sz (the_proc c s)) l (with_stack n v s) D O' l' s' ∧
    vm_ok O root l' s' ∧ ∀ va, in_user va → pte_of root va s' = pte_of root va (with_stack n v s))) as Hc.
  { apply copy_uvm_spec.
    - by apply (sA_ok O root kp pk v l c n ci s).
    - by apply (sA_kernel O root kp pk v l c n ci s).
    - apply H.
    - by apply (sA_copyable O root kp pk v l c n ci s).
    - apply H. }
  apply wp_done in Hc as (r & sB & Hk & rc & D & O' & l' & -> & HC & _).
  pose proof (co_frame _ _ _ _ _ _ _ _ _ _ HC) as E. unfold kmem_frame in E.
  assert (P2V rc ≠ 0) as Hrc.
  { apply (rc_not_null O root kp pk v l c n ci s H). right.
    by apply (co_tables _ _ _ _ _ _ _ _ _ _ HC rc (3%nat, 0)), (vo_root _ _ _ _ (co_ok _ _ _ _ _ _ _ _ _ _ HC)). }
  rewrite E in Hk, HC.
  rewrite (fork_run O root kp pk v l c n ci s H rc _ w Hw Hrc Hk (fb_cwd _ _ _ _ _ _ _ _ _ _ H)).
  split; [done|]. by eapply final_forked.
Qed.
End Fork.

(** ** Witness: a process with one page of memory and two open files forks *)

Definition text0 : KernelText := {| fork_ret_addr := 0xFFFFFFFF80102000; syscall_ret_addr := 0xFFFFFFFF80103000 |}.
Definition parent0 : proc :=
  mk_proc 0x2000 (P2V vm_root) (P2V 0x1fe000) RUNNING 1 None (P2V 0x1fe000 + Z.of_nat RP_OFF) 0 None 0
    (Some 0%nat :: Some 1%nat :: Some 1%nat :: replicate 13 None) (Some 2%nat) ([x73; x68] ++ replicate 30 x00).
Definition with_parent (s : kstate) : kstate :=
  set_k_files (alter (set_f_ref 2) 1%nat ∘ alter (set_f_ref 1) 0%nat)
    (set_k_cpu (set_c_proc (Some 0%nat)) (upd_proc 0 (λ _, parent0) (set_k_next_pid (λ _, 2) s))).
Definition kstate_fork : kstate := with_parent kstate_vm.

Lemma with_parent_kmem s : k_kmem (with_parent s) = k_kmem s.
Proof. done. Qed.
Lemma kstate_fork_ok : vm_ok {[vm_root := (3%nat, 0)]} vm_root vm_free kstate_fork.
Proof. apply (vm_ok_kmem _ _ _ kstate_vm); [apply with_parent_kmem|exact kstate_vm_ok]. Qed.

Lemma with_parent_kernel kp s : kernel_table kp s → kernel_table kp (with_parent s).
Proof. by intros []. Qed.
(** Everything but the memory, without running [kinit]. *)
Definition small_fork : kstate := with_parent (set_k_vm (set_v_kpml4 (P2V_KERN 0x1ff000)) kstate0).
Lemma kstate_fork_frame : kmem_frame small_fork kstate_fork.
Proof. vm_compute. reflexivity. Qed.
Lemma kmem_frame_trans a b s : kmem_frame a b → kmem_frame b s → s = set_k_kmem (λ _, k_kmem s) a.
Proof. unfold kmem_frame. intros E1 E2. rewrite E2 at 1. rewrite E1. by kext. Qed.
Lemma small_fork_frame s : kmem_frame kstate_fork s → s = set_k_kmem (λ _, k_kmem s) small_fork.
Proof. exact (kmem_frame_trans _ _ s kstate_fork_frame). Qed.

Lemma one_page_forkable s O l d v : one_page kstate_fork s O (v :: l) d →
  @forkable O vm_root 0x1ff000 0x1fe000 v l 0 1 2 s.
Proof.
  intros P. pose proof P as [Hok St Hpte Hd Hl]. pose proof (small_fork_frame _ (vs_frame _ _ _ _ _ _ _ St)) as E.
  assert (∀ i, the_proc i s = the_proc i small_fork) as Hp by (intros i; by rewrite E).
  assert (P2V 0x1fe000 ∉ vm_free) as Hpk by (apply (bool_decide_unpack _); vm_compute; done).
  split; rewrite ?Hp.
  - exact Hok.
  - eapply one_page_kernel; [exact kstate_fork_ok| |exact P]. apply with_parent_kernel, kstate_vm_kernel.
  - rewrite E. split; [reflexivity|split; [by vm_compute|reflexivity]].
  - rewrite E. reflexivity.
  - unfold free_slot. rewrite Hp. split; [rewrite E; apply Nat.ltb_lt; reflexivity|]. split; [reflexivity|].
    intros i Hi. replace i with 0%nat by lia. rewrite Hp. discriminate.
  - rewrite E. reflexivity.
  - lia.
  - reflexivity.
  - reflexivity.
  - by eapply one_page_copyable.
  - change (pages_left 4096 (p_sz (the_proc 0 small_fork))) with 1%nat. simpl in Hl. lia.
  - reflexivity.
  - split; [split; [reflexivity|vm_compute; done|]|].
    + by rewrite (vs_page _ _ _ _ _ _ _ St 0x1fe000) by (by apply lookup_singleton_ne || done).
    + destruct (vs_taken _ _ _ _ _ _ _ St) as [t Ht]. rewrite Ht in Hpk. set_solver.
  - intros f Hf. assert (f = 0 ∨ f = 1)%nat as [-> | ->].
    { revert Hf. change (p_ofile (the_proc 0 small_fork)) with (Some 0%nat :: Some 1%nat :: Some 1%nat :: replicate 13 None).
      rewrite !elem_of_cons, elem_of_replicate. naive_solver. }
    + rewrite E. exists (set_f_ref 1 file0). split; [reflexivity|simpl; lia].
    + rewrite E. exists (set_f_ref 2 file0). split; [reflexivity|simpl; lia].
  - split; reflexivity.
  - split; reflexivity.
  - reflexivity.
Qed.

Lemma fork_spec_witness :
  wp (alloc_uvm (P2V vm_root) 0x1000 0x2000 kstate_fork) (λ _ s, wp (@fork text0 s) (λ r s',
    r = 2 ∧ p_parent (the_proc 1 s') = Some 0%nat ∧ p_pml4 (the_proc 1 s') ≠ P2V vm_root ∧
    f_ref <$> k_files s' !! 1%nat = Some 4 ∧ k_locks s' = ∅)).
Proof.
  eapply wp_mono; [apply alloc_one_page; [exact kstate_fork_ok|]|].
  - intros va. rewrite <- (kstate_vm_pte va). apply pte_of_kmem, with_parent_kmem.
  - intros _ s (O & l & d & P). pose proof (op_left _ _ _ _ _ P) as Hl. destruct l as [|v l]; [simpl in Hl; lia|].
    pose proof (small_fork_frame _ (vs_frame _ _ _ _ _ _ _ (op_step _ _ _ _ _ P))) as E.
    eapply wp_mono; [eapply fork_spec, one_page_forkable, P|]. intros r s' [-> F].
    split; [rewrite E; reflexivity|]. split; [apply F|]. split; [|split].
    + destruct (fk_memory _ _ _ _ _ _ _ _ F) as (rc & D & -> & Hin & _). intros Heq. rewrite Heq in Hin.
      eapply (vo_table _ _ _ _ (op_ok _ _ _ _ _ P)); [apply (vo_root _ _ _ _ (op_ok _ _ _ _ _ P))|]. by right.
    + rewrite (fk_files _ _ _ _ _ _ _ _ F). rewrite E. reflexivity.
    + rewrite (proj2 (fk_calm _ _ _ _ _ _ _ _ F)), E. reflexivity.
Defined.
