(* ===== verification/Umem.v ===== *)
(** * User memory as the kernel sees it

    The system calls dereference user pointers directly, so an access goes
    through the page table that [cr3] holds.  [user_pa] is the processor's
    walk of that table, which has the structure of [walk_pml4]; the kernel's
    own half of the address space is not modelled here. *)
From S2P Require Import Prelude State Spinlock Sched Sleeplock Ring Bio Balloc Inode Kalloc Vm.

(** The physical address behind a user address, if it is mapped. *)
Definition user_pa (s : kstate) (va : Z) : option Z :=
  if bool_decide (USER_TOP ≤ va) then None else
  match walk_pml4 (P2V (c_cr3 (k_cpu s))) va false s with
  | Done pte _ =>
    if bool_decide (pte = 0) then None else
    let e := load64 pte s in
    if has e PTE_P then Some (PTE_ADDR e + va `mod` PGSIZE_4KB) else None
  | _ => None
  end.

Definition byte_at (s : kstate) (pa : Z) : byte :=
  default x00 (page (ROUNDDOWN pa PGSIZE_4KB) (k_kmem s) !! Z.to_nat (pa `mod` PGSIZE_4KB)).

Definition user_byte (s : kstate) (va : Z) : option byte := byte_at s <$> user_pa s va.

(** The [n] bytes at [va] (an unmapped byte reads as zero), and the check that
    the first [n] of them can be read: a kernel access that faults panics. *)
Definition user_bytes (va : Z) (n : nat) (s : kstate) : list byte :=
  (λ i, default x00 (user_byte s (u64 (va + Z.of_nat i)))) <$> seq 0 n.
Definition user_check (va : Z) (n : nat) : M kstate unit :=
  λ s, if forallb (λ i, bool_decide (is_Some (user_pa s (u64 (va + Z.of_nat i))))) (seq 0 n)
       then Done tt s else Panic "kernel page fault".

(** Stores [bs] at [va], byte by byte. *)
Fixpoint user_store (va : Z) (bs : list byte) : M kstate unit :=
  match bs with
  | [] => ret tt
  | b :: bs' =>
    let! pa := gets (λ s, user_pa s va) in
    match pa with
    | None => panic "kernel page fault"
    | Some pa =>
      modify (put_page (ROUNDDOWN pa PGSIZE_4KB) (<[Z.to_nat (pa `mod` PGSIZE_4KB) := b]>)) ;;;
      user_store (u64 (va + 1)) bs'
    end
  end.

(** The string at [va], up to its terminator, of at most [fuel] bytes. *)
Fixpoint user_str (fuel : nat) (va : Z) : M kstate (list byte) :=
  match fuel with
  | O => no_fuel
  | S fuel' =>
    let! b := gets (λ s, user_byte s va) in
    match b with
    | None => panic "kernel page fault"
    | Some b =>
      if bool_decide (b = x00) then ret [x00]
      else let! l := user_str fuel' (u64 (va + 1)) in ret (b :: l)
    end
  end.

(** A word of user memory. *)
Definition user_load64 (va : Z) : M kstate Z :=
  user_check va 8 ;;;
  gets (λ s, le_get (user_bytes va 8 s)).
