(* ===== verification/Exec.v ===== *)
(** * Loading a program (kernel/exec.c) *)
From S2P Require Import Prelude State Spinlock Sched Sleeplock Ring Bio Balloc CString Inode Dir Kalloc Pipe File Vm Font Gop Kbd Console Proc Umem.

Definition ELF_MAGIC : Z := 0x464C457F.
Definition ELF_PROG_LOAD : Z := 1.
Definition ELF_HEADER_SIZE : Z := 64.
Definition PROG_HEADER_SIZE : Z := 56.
Definition MAXARG : nat := 32.

(** Fields of [struct elf_header] and [struct prog_header]. *)
Definition elf_magic (d : list byte) : Z := get_le 4 0 d.
Definition elf_entry (d : list byte) : Z := get_le 8 24 d.
Definition elf_ph_off (d : list byte) : Z := get_le 8 32 d.
Definition elf_ph_num (d : list byte) : Z := get_le 2 56 d.
Definition ph_type (d : list byte) : Z := get_le 4 0 d.
Definition ph_offset (d : list byte) : Z := get_le 8 8 d.
Definition ph_vaddr (d : list byte) : Z := get_le 8 16 d.
Definition ph_file_sz (d : list byte) : Z := get_le 8 32 d.
Definition ph_mem_sz (d : list byte) : Z := get_le 8 40 d.

Section Exec.
Context {wf : WakeFuel} {dsw : DevSw}.
Context (name0 : list byte).

(** How far a string in user memory is followed. *)
Context (str_fuel : nat).

(** The label [bad]. *)
Definition exec_bad (pml4 sz : Z) (ip : option nat) : M kstate Z :=
  when (bool_decide (pml4 ≠ 0)) (free_vm pml4 sz) ;;;
  match ip with
  | None => ret tt
  | Some i => iunlock (Some i) ;;; iput i
  end ;;;
  ret (-1).

(** The loop over the program headers from [i] on: [inl sz] is a jump to
    [bad], [inr sz] the end of the loop. *)
Fixpoint load_segments (fuel : nat) (ip : nat) (elf : list byte) (pml4 sz i : Z) : M kstate (Z + Z) :=
  if bool_decide (i < elf_ph_num elf) then
    match fuel with
    | O => no_fuel
    | S fuel' =>
      let offset := u64 (elf_ph_off elf + PROG_HEADER_SIZE * i) in
      let! r := readi ip offset PROG_HEADER_SIZE in
      let '(res, ph) := r in
      if bool_decide (res ≠ PROG_HEADER_SIZE) then ret (inl sz) else
      if bool_decide (ph_type ph ≠ ELF_PROG_LOAD) then load_segments fuel' ip elf pml4 sz (s16 (i + 1)) else
      if bool_decide (ph_mem_sz ph < ph_file_sz ph) then ret (inl sz) else
      let end_ := u64 (ph_vaddr ph + ph_mem_sz ph) in
      if bool_decide (end_ < ph_vaddr ph) then ret (inl sz) else
      let! sz := alloc_uvm pml4 sz end_ in
      if bool_decide (sz = 0) then ret (inl sz) else
      if bool_decide (ph_vaddr ph < PGSIZE_4KB) then ret (inl sz) else
      if bool_decide (ph_vaddr ph `mod` PGSIZE_4KB ≠ 0) then ret (inl sz) else
      let! r := load_uvm pml4 (ph_vaddr ph) ip (ph_offset ph) (ph_file_sz ph) in
      if bool_decide (r < 0) then ret (inl sz) else
      load_segments fuel' ip elf pml4 sz (s16 (i + 1))
    end
  else ret (inr sz).

(** The loop that copies the argument strings: [None] is a jump to [bad],
    otherwise the stack pointer and [arg_ptrs], in order. *)
Fixpoint push_args (fuel : nat) (pml4 argv : Z) (argc : nat) (sp : Z) (arg_ptrs : list Z)
    : M kstate (option (Z * list Z)) :=
  let! a := user_load64 (u64 (argv + 8 * Z.of_nat argc)) in
  if bool_decide (a = 0) then ret (Some (sp, arg_ptrs)) else
  match fuel with
  | O => ret None
  | S fuel' =>
    let! str := user_str str_fuel a in
    let! len := in_bounds (strlen str) in
    let sp := ROUNDDOWN (u64 (sp - (len + 1))) 8 in
    let! r := copy_out pml4 sp (take (Z.to_nat (len + 1)) str) in
    if bool_decide (r < 0) then ret None else
    push_args fuel' pml4 argv (S argc) sp (arg_ptrs ++ [sp])
  end.

(** [for(last = s = path; *s; s++) if( *s == '/') last = s+1;] *)
Fixpoint prog_name (s last : list byte) : option (list byte) :=
  match s with
  | [] => None
  | c :: s' =>
    if bool_decide (c = x00) then Some last
    else prog_name s' (if bool_decide (c = slash) then s' else last)
  end.

(** From the end of the segments on. *)
Definition exec_commit (path elf : list byte) (argv pml4 sz : Z) : M kstate Z :=
  let sz := ROUNDUP sz PGSIZE_4KB in
  let! sz := alloc_uvm pml4 sz (sz + 2 * PGSIZE_4KB) in
  if bool_decide (sz = 0) then exec_bad pml4 sz None else
  clear_pte_u pml4 (sz - 2 * PGSIZE_4KB) ;;;
  let! r := push_args MAXARG pml4 argv 0 sz [] in
  match r with
  | None => exec_bad pml4 sz None
  | Some (sp, arg_ptrs) =>
    let argc := Z.of_nat (length arg_ptrs) in
    let sp := u64 (ROUNDDOWN (u64 (sp - (argc + 1) * 8 - 8)) 16 - 8) in
    let! r := copy_out pml4 (sp + 8) (le_put 8 argc) in
    if bool_decide (r < 0) then exec_bad pml4 sz None else
    let! r := copy_out pml4 (sp + 16) (addrs_bytes (arg_ptrs ++ [0])) in
    if bool_decide (r < 0) then exec_bad pml4 sz None else
    let! last := in_bounds (prog_name path path) in
    let! cur_p := myproc in
    let! c := deref cur_p in
    set_name c last ;;;
    let! p := gets (the_proc c) in
    let old_pml4 := p_pml4 p in
    let old_sz := p_sz p in
    modify (upd_proc c (set_p_pml4 pml4)) ;;;
    modify (upd_proc c (set_p_sz sz)) ;;;
    store64 (p_rp p + RP_rcx) (elf_entry elf) ;;;
    store64 (p_rp p + RP_rsp) sp ;;;
    store64 (p_rp p + RP_r11) FL_IF ;;;
    store64 (p_rp p + RP_rdi) argc ;;;
    store64 (p_rp p + RP_rsi) (sp + 16) ;;;
    switch_uvm cur_p ;;;
    free_vm old_pml4 old_sz ;;;
    ret 0
  end.

(** "exec: failed\n" *)
Definition exec_failed : list byte :=
  [x65; x78; x65; x63; x3a; x20; x66; x61; x69; x6c; x65; x64; x0a; x00].

(** [path] is the string at the user's pointer. *)
Definition exec (path : list byte) (argv : Z) : M kstate Z :=
  let! ip := namei path name0 in
  match ip with
  | None => cprintf exec_failed [] ;;; ret (-1)
  | Some i =>
    ilock (Some i) ;;;
    let! r := readi i 0 ELF_HEADER_SIZE in
    let '(res, elf) := r in
    if bool_decide (res ≠ ELF_HEADER_SIZE) then exec_bad 0 0 (Some i) else
    if bool_decide (elf_magic elf ≠ ELF_MAGIC) then exec_bad 0 0 (Some i) else
    let! pml4 := setup_uvm in
    if bool_decide (pml4 = 0) then exec_bad 0 0 (Some i) else
    let! r := load_segments (S (Z.to_nat (elf_ph_num elf))) i elf pml4 PGSIZE_4KB 0 in
    match r with
    | inl sz => exec_bad pml4 sz (Some i)
    | inr sz =>
      iunlock (Some i) ;;;
      iput i ;;;
      exec_commit path elf argv pml4 sz
    end
  end.
End Exec.
