(* ===== verification/Sysfile.v ===== *)
(** * System calls on files (kernel/sysfile.c)

    The arguments are the registers saved at [p_rp]; user pointers are
    followed with [Umem]. *)
From S2P Require Import Prelude State Spinlock Sched Sleeplock Ring Bio Balloc CString Inode Dir Kalloc Pipe File Vm Proc Umem Exec.

Section Sysfile.
Context {wf : WakeFuel} {dsw : DevSw}.
Context (name0 : list byte) (str_fuel : nat).

(** [myproc()->rp->r] for the register at offset [r]. *)
Definition arg (r : Z) : M kstate Z :=
  let! p := myproc in
  let! i := deref p in
  gets (λ s, load64 (p_rp (the_proc i s) + r) s).

Definition arg_str (r : Z) : M kstate (list byte) :=
  let! va := arg r in user_str str_fuel va.

(** [CHECKFD(fd)]: the open file, or [None] when the macro returns -1. *)
Definition CHECKFD (fd : Z) : M kstate (option nat) :=
  if bool_decide (fd < 0) || bool_decide (Z.of_nat NOFILE ≤ fd) then ret None else
  let! p := myproc in
  let! i := deref p in
  gets (λ s, p_ofile (the_proc i s) !!! Z.to_nat fd).

Definition fd_alloc (f : nat) : M kstate Z :=
  let! cur_p := myproc in
  let! c := deref cur_p in
  let! r := for_return (seq 0 NOFILE) (λ fd,
    let! p := gets (the_proc c) in
    match p_ofile p !!! fd with
    | None =>
      modify (upd_proc c (λ p, set_p_ofile (<[fd := Some f]> (p_ofile p)) p)) ;;;
      ret (Some (Z.of_nat fd))
    | Some _ => ret None
    end) in
  ret (default (-1) r).

(** [myproc()->ofile[fd] = 0]. *)
Definition fd_clear (fd : Z) : M kstate unit :=
  let! p := myproc in
  let! i := deref p in
  modify (upd_proc i (λ p, set_p_ofile (<[Z.to_nat fd := None]> (p_ofile p)) p)).

Definition sys_dup : M kstate Z :=
  let! a := arg RP_rdi in
  let! o := CHECKFD (s32 a) in
  match o with
  | None => ret (-1)
  | Some f =>
    let! fd := fd_alloc f in
    if bool_decide (fd < 0) then ret (-1) else
    file_dup f ;;;
    ret fd
  end.

Definition sys_read : M kstate Z :=
  let! a := arg RP_rdi in
  let! o := CHECKFD (s32 a) in
  match o with
  | None => ret (-1)
  | Some f =>
    let! p := arg RP_rsi in
    let! n := arg RP_rdx in
    let! r := file_read f n in
    user_store p (snd r) ;;;
    ret (fst r)
  end.

(** The bytes are taken from user memory up front; that the ones consumed were
    there is checked once their number is known. *)
Definition sys_write : M kstate Z :=
  let! a := arg RP_rdi in
  let! o := CHECKFD (s32 a) in
  match o with
  | None => ret (-1)
  | Some f =>
    let! p := arg RP_rsi in
    let! n := arg RP_rdx in
    let! src := gets (user_bytes p (Z.to_nat n)) in
    let! r := file_write f src in
    user_check p (Z.to_nat r) ;;;
    ret r
  end.

Definition sys_close : M kstate Z :=
  let! a := arg RP_rdi in
  let! o := CHECKFD (s32 a) in
  match o with
  | None => ret (-1)
  | Some f =>
    fd_clear (s32 a) ;;;
    file_close f ;;;
    ret 0
  end.

(** The fields of [struct stat] at their offsets; the padding stays. *)
Definition store_stat (va : Z) (st : stat) : M kstate unit :=
  user_store va (le_put 2 (st_type st)) ;;;
  user_store (u64 (va + 8)) (le_put 8 (st_dev st)) ;;;
  user_store (u64 (va + 16)) (le_put 8 (st_ino st)) ;;;
  user_store (u64 (va + 24)) (le_put 2 (st_nlink st)) ;;;
  user_store (u64 (va + 32)) (le_put 8 (st_size st)).

Definition sys_fstat : M kstate Z :=
  let! a := arg RP_rdi in
  let! o := CHECKFD (s32 a) in
  match o with
  | None => ret (-1)
  | Some f =>
    let! st := arg RP_rsi in
    if bool_decide (st = 0) then ret (-1) else
    let! r := file_stat f in
    match snd r with Some v => store_stat st v | None => ret tt end ;;;
    ret (fst r)
  end.

Definition dot : list byte := [x2e; x00].
Definition dotdot : list byte := [x2e; x2e; x00].

(** The inode is returned locked. *)
Definition create (path : list byte) (type major minor : Z) : M kstate (option nat) :=
  let! r := namei_parent path name0 in
  let '(dp, name) := r in
  match dp with
  | None => ret None
  | Some d =>
    ilock (Some d) ;;;
    let! e := dir_lookup d name in
    match e with
    | Some (ip, _) =>
      iunlock (Some d) ;;;
      iput d ;;;
      ilock (Some ip) ;;;
      let! x := gets (the_inode ip) in
      if bool_decide (type = T_FILE) && bool_decide (i_type x = T_FILE) then ret (Some ip) else
      iunlock (Some ip) ;;;
      iput ip ;;;
      ret None
    | None =>
      let! x := gets (the_inode d) in
      let! ip := ialloc (i_dev x) type in
      ilock (Some ip) ;;;
      modify (upd_inode ip (set_i_major major)) ;;;
      modify (upd_inode ip (set_i_minor minor)) ;;;
      modify (upd_inode ip (set_i_nlink 1)) ;;;
      iupdate ip ;;;
      when (bool_decide (type = T_DIR)) (
        modify (upd_inode d (λ x, set_i_nlink (s16 (i_nlink x + 1)) x)) ;;;
        iupdate d ;;;
        let! x := gets (the_inode ip) in
        let! r := dir_link ip dot (i_inum x) in
        if bool_decide (r < 0) then panic "create: dots" else
        let! y := gets (the_inode d) in
        let! r := dir_link ip dotdot (i_inum y) in
        if bool_decide (r < 0) then panic "create: dots" else ret tt) ;;;
      let! x := gets (the_inode ip) in
      let! r := dir_link d name (i_inum x) in
      if bool_decide (r < 0) then panic "create: cant belong to the dir" else
      iunlock (Some d) ;;;
      iput d ;;;
      ret (Some ip)
    end
  end.

(** The part of [sys_open] that follows the lookup of a locked [ip]. *)
Definition open_inode (ip : nat) (omode : Z) : M kstate Z :=
  let! f := file_alloc in
  match f with
  | None => iunlock (Some ip) ;;; iput ip ;;; ret (-1)
  | Some f =>
    let! fd := fd_alloc f in
    if bool_decide (fd < 0) then
      file_close f ;;;
      iunlock (Some ip) ;;;
      iput ip ;;;
      ret (-1)
    else
      iunlock (Some ip) ;;;
      modify (upd_file f (set_f_type FD_INODE)) ;;;
      modify (upd_file f (set_f_ip (Some ip))) ;;;
      modify (upd_file f (set_f_off 0)) ;;;
      modify (upd_file f (set_f_readable (negb (has omode O_WRONLY)))) ;;;
      modify (upd_file f (set_f_writable (has omode O_WRONLY || has omode O_RDWR))) ;;;
      ret fd
  end.

Definition sys_open : M kstate Z :=
  let! path := arg_str RP_rdi in
  let! omode := arg RP_rsi in
  if has omode O_CREATE then
    let! ip := create path T_FILE 0 0 in
    match ip with None => ret (-1) | Some ip => open_inode ip omode end
  else
    let! ip := namei path name0 in
    match ip with
    | None => ret (-1)
    | Some ip =>
      ilock (Some ip) ;;;
      let! x := gets (the_inode ip) in
      if bool_decide (i_type x = T_DIR) && bool_decide (omode ≠ O_RDONLY) then
        iunlock (Some ip) ;;; iput ip ;;; ret (-1)
      else open_inode ip omode
    end.

Definition sys_mkdir : M kstate Z :=
  let! path := arg_str RP_rdi in
  let! ip := create path T_DIR 0 0 in
  match ip with
  | None => ret (-1)
  | Some ip => iunlock (Some ip) ;;; iput ip ;;; ret 0
  end.

(** "/console". *)
Definition console_path : list byte := [x2f; x63; x6f; x6e; x73; x6f; x6c; x65; x00].
Definition mknod_con : M kstate Z :=
  let! ip := create console_path T_DEV 1 1 in
  match ip with
  | None => ret 0
  | Some ip => iunlock (Some ip) ;;; iput ip ;;; ret 0
  end.

Definition sys_mknod : M kstate Z :=
  let! path := arg_str RP_rdi in
  let! major := arg RP_rsi in
  let! minor := arg RP_rdx in
  let! ip := create path T_DEV (s16 major) (s16 minor) in
  match ip with
  | None => ret (-1)
  | Some ip => iunlock (Some ip) ;;; iput ip ;;; ret 0
  end.

Definition sys_chdir : M kstate Z :=
  let! path := arg_str RP_rdi in
  let! ip := namei path name0 in
  match ip with
  | None => ret (-1)
  | Some ip =>
    ilock (Some ip) ;;;
    let! x := gets (the_inode ip) in
    if bool_decide (i_type x ≠ T_DIR) then
      iunlock (Some ip) ;;; iput ip ;;; ret (-1)
    else
      iunlock (Some ip) ;;;
      let! p := myproc in
      let! i := deref p in
      let! q := gets (the_proc i) in
      let! cwd := deref (p_cwd q) in
      iput cwd ;;;
      modify (upd_proc i (set_p_cwd (Some ip))) ;;;
      ret 0
  end.

Definition sys_exec : M kstate Z :=
  let! path := arg_str RP_rdi in
  let! argv := arg RP_rsi in
  exec name0 str_fuel path argv.

(** The loop of [is_dir_empty] from [off] on. *)
Fixpoint is_dir_empty_loop (fuel : nat) (dp : nat) (off : Z) : M kstate bool :=
  let! d := gets (the_inode dp) in
  if bool_decide (off < i_size d) then
    match fuel with
    | O => no_fuel
    | S fuel' =>
      let! r := readi dp off DIRENT_SIZE in
      let '(k, de) := r in
      if bool_decide (k ≠ DIRENT_SIZE) then panic "is_dir_empty: cannot read" else
      if bool_decide (de_inum de ≠ 0) then ret false else is_dir_empty_loop fuel' dp (off + DIRENT_SIZE)
    end
  else ret true.
Definition is_dir_empty (dp : nat) : M kstate bool :=
  let! fuel := gets (dir_fuel dp) in
  is_dir_empty_loop fuel dp (2 * DIRENT_SIZE).

(** The label [bad] of [sys_unlink]. *)
Definition unlink_bad (dp : nat) : M kstate Z :=
  iunlock (Some dp) ;;; iput dp ;;; ret (-1).

Definition sys_unlink : M kstate Z :=
  let! path := arg_str RP_rdi in
  let! r := namei_parent path name0 in
  let '(dp, name) := r in
  match dp with
  | None => ret (-1)
  | Some dp =>
    ilock (Some dp) ;;;
    let! c1 := in_bounds (strncmp name dot DIRSIZ) in
    let! c2 := if bool_decide (c1 = 0) then ret 0 else in_bounds (strncmp name dotdot DIRSIZ) in
    if bool_decide (c1 = 0) || bool_decide (c2 = 0) then unlink_bad dp else
    let! e := dir_lookup dp name in
    match e with
    | None => unlink_bad dp
    | Some (ip, off) =>
      ilock (Some ip) ;;;
      let! x := gets (the_inode ip) in
      if bool_decide (i_nlink x < 1) then panic "unlink: nlink < 1" else
      let! empty := if bool_decide (i_type x = T_DIR) then is_dir_empty ip else ret true in
      if negb empty then
        iunlock (Some ip) ;;; iput ip ;;; unlink_bad dp
      else
        let! k := writei dp (replicate (Z.to_nat DIRENT_SIZE) x00) off DIRENT_SIZE in
        if bool_decide (k ≠ DIRENT_SIZE) then panic "unlink: writei" else
        let! x := gets (the_inode ip) in
        when (bool_decide (i_type x = T_DIR)) (
          modify (upd_inode dp (λ d, set_i_nlink (s16 (i_nlink d - 1)) d)) ;;;
          iupdate dp) ;;;
        iunlock (Some dp) ;;;
        iput dp ;;;
        modify (upd_inode ip (λ x, set_i_nlink (s16 (i_nlink x - 1)) x)) ;;;
        iupdate ip ;;;
        iunlock (Some ip) ;;;
        iput ip ;;;
        ret 0
    end
  end.

Definition sys_pipe : M kstate Z :=
  let! fd := arg RP_rdi in
  let! r := pipe_alloc in
  match r with
  | (k, Some rf, Some wf) =>
    if bool_decide (k < 0) then ret (-1) else
    let! fd0 := fd_alloc rf in
    if bool_decide (fd0 < 0) then file_close rf ;;; file_close wf ;;; ret (-1) else
    let! fd1 := fd_alloc wf in
    if bool_decide (fd1 < 0) then
      fd_clear fd0 ;;;
      file_close rf ;;;
      file_close wf ;;;
      ret (-1)
    else
      user_store fd (le_put 4 fd0) ;;;
      user_store (u64 (fd + 4)) (le_put 4 fd1) ;;;
      ret 0
  | _ => ret (-1)
  end.
End Sysfile.
