(* ===== verification/Syscall.v ===== *)
(** * System calls and traps (kernel/syscall.c, kernel/sysproc.c, kernel/trap.c)

    The kernel's two entries from user code.  What they trace on the serial line
    and the acknowledgement of interrupts ([lapic_eoi], in Dev) do not touch
    the kernel's state and are left out here. *)
From S2P Require Import Prelude State Spinlock Sched Sleeplock Ring Bio Balloc CString Inode Dir Kalloc Pipe File Vm Font Gop Kbd Console Proc Umem Exec Sysfile.

Section Syscall.
Context {wf : WakeFuel} {dsw : DevSw} {kt : KernelText}.
Context (name0 : list byte) (str_fuel : nat).

Definition sys_fork : M kstate Z := fork.
Definition sys_wait : M kstate Z := wait.
Definition sys_exit : M kstate Z := exit ;;; ret 0.
Definition sys_getpid : M kstate Z :=
  let! p := myproc in
  let! i := deref p in
  gets (λ s, s64 (p_pid (the_proc i s))).
Definition sys_sbrk : M kstate Z :=
  let! n := arg RP_rdi in
  let! p := myproc in
  let! i := deref p in
  let! addr := gets (λ s, p_sz (the_proc i s)) in
  let! r := grow_proc (s64 n) in
  if bool_decide (r < 0) then ret (-1) else ret (s64 addr).
Definition sys_kill : M kstate Z :=
  let! pid := arg RP_rdi in kill pid.
Definition sys_draw : M kstate Z :=
  let! x := arg RP_rdi in
  let! y := arg RP_rsi in
  let! w := arg RP_rdx in
  let! h := arg RP_r10 in
  let! color := arg RP_r8 in
  gop_draw_rect x y w h color ;;;
  ret 0.

(** [syscalls[]]: [None] for the numbers without a handler. *)
Definition syscalls (num : Z) : option (M kstate Z) :=
  match num with
  | 1 => Some sys_fork
  | 2 => Some sys_exit
  | 3 => Some sys_wait
  | 4 => Some sys_pipe
  | 5 => Some sys_read
  | 6 => Some sys_kill
  | 7 => Some (sys_exec name0 str_fuel)
  | 8 => Some sys_fstat
  | 9 => Some (sys_chdir name0 str_fuel)
  | 10 => Some sys_dup
  | 11 => Some sys_getpid
  | 12 => Some sys_sbrk
  | 15 => Some (sys_open name0 str_fuel)
  | 16 => Some sys_write
  | 17 => Some (sys_mknod name0 str_fuel)
  | 18 => Some (sys_unlink name0 str_fuel)
  | 20 => Some (sys_mkdir name0 str_fuel)
  | 21 => Some sys_close
  | 22 => Some sys_draw
  | _ => None
  end.

Definition syscall_dispatch (rp : Z) : M kstate unit :=
  let! num := gets (load64 (rp + RP_rax)) in
  let! p := myproc in
  let! i := deref p in
  modify (upd_proc i (set_p_rp rp)) ;;;
  match syscalls num with
  | Some f =>
    let! r := f in
    store64 (rp + RP_rax) (u64 r)
  | None => store64 (rp + RP_rax) (u64 (-1))
  end ;;;
  let! p := myproc in
  let! i := deref p in
  let! q := gets (the_proc i) in
  when (bool_decide (p_killed q ≠ 0)) exit.

(** ** Traps *)

Definition T_DBLFLT : Z := 8.
Definition T_PGFLT : Z := 14.
Definition T_IRQ0 : Z := 32.
Definition IRQ_TIMER : Z := 0.
Definition IRQ_KBD : Z := 1.
Definition DPL_USER : Z := 3.

(** [if(myproc() && myproc()->killed && (tf->cs&3) == DPL_USER) exit();] *)
Definition kill_check (cs : Z) : M kstate unit :=
  let! p := myproc in
  match p with
  | None => ret tt
  | Some i =>
    let! q := gets (the_proc i) in
    when (bool_decide (p_killed q ≠ 0) && bool_decide (Z.land cs 3 = DPL_USER)) exit
  end.

(** [trap(tf)], by the fields [trap_no] and [cs] it reads. *)
Definition trap (trap_no cs : Z) : M kstate unit :=
  when (bool_decide (trap_no = T_PGFLT)) (
    if has cs DPL_USER then exit else panic "kernel page fault") ;;;
  when (bool_decide (trap_no = T_IRQ0 + IRQ_KBD)) (kbd_intr ;;; ret tt) ;;;
  when (bool_decide (trap_no = T_DBLFLT)) (
    gop_draw_rect 0 0 500 500 0x00FF0000 ;;;
    panic "DF DF DF") ;;;
  kill_check cs ;;;
  let! p := myproc in
  match p with
  | None => ret tt
  | Some i =>
    let! q := gets (the_proc i) in
    when (bool_decide (p_state q = RUNNING) && bool_decide (trap_no = T_IRQ0 + IRQ_TIMER)) yield
  end ;;;
  kill_check cs.
End Syscall.
