(* ===== verification/ConsoleSpec.v ===== *)
(** * The console is a terminal

    The grid with its cursor is a terminal ([term]): characters are put at the
    cursor, lines wrap, and the screen scrolls at the bottom.  The routines of
    Console.v do what this terminal does, for every screen that fits the
    256x128 array, and never leave the array. *)
From S2P Require Import Prelude State Spinlock Sched Sleeplock Ring Bio Balloc Inode Kalloc Pipe Vm Font Gop Kbd Console.

(** ** The terminal *)

Record term := mk_term { t_rows : list (list byte); t_y : nat; t_x : nat }.

Definition term_wrap (cols : nat) (t : term) : term :=
  let t := if decide (cols ≤ t_x t)%nat then mk_term (t_rows t) (S (t_y t)) 0 else t in
  if decide (length (t_rows t) ≤ t_y t)%nat
  then mk_term (drop 1 (t_rows t) ++ [replicate cols SP]) (length (t_rows t) - 1) (t_x t) else t.
Definition term_set (c : byte) (t : term) : term := mk_term (alter (<[t_x t := c]>) (t_y t) (t_rows t)) (t_y t) (t_x t).
Definition term_putc (cols : nat) (c : byte) (t : term) : term :=
  if decide (c = LF) then term_wrap cols (mk_term (t_rows t) (S (t_y t)) 0)
  else if decide (c = CR) then term_wrap cols (mk_term (t_rows t) (t_y t) 0)
  else if decide (c = BS) then
    match t_x t with
    | O => t
    | S x => term_wrap cols (term_set SP (mk_term (t_rows t) (t_y t) x))
    end
  else
    let t := term_set c t in term_wrap cols (mk_term (t_rows t) (t_y t) (S (t_x t))).
Definition term_puts (cols : nat) (l : list byte) (t : term) : term := foldl (λ t c, term_putc cols c t) t l.

(** ** The grid *)

Definition cell_of (k : console) (y x : Z) : byte := default x00 (cn_buffer k !! (y * MAX_COLS + x)).
Definition row_of (k : console) (y : Z) : list byte := cell_of k y <$> seqZ 0 (cn_max_cols k).
Definition screen (k : console) : list (list byte) := row_of k <$> seqZ 0 (cn_max_rows k).
Definition cols_of (k : console) : nat := Z.to_nat (cn_max_cols k).
Definition term_of (k : console) : term := mk_term (screen k) (Z.to_nat (cn_cur_y k)) (Z.to_nat (cn_cur_x k)).

(** The screen fits the array; the cursor is on the screen. *)
Record fits (k : console) : Prop := {
  ft_cols : 0 < cn_max_cols k ≤ MAX_COLS;
  ft_rows : 0 < cn_max_rows k ≤ MAX_ROWS
}.
Record cons_ok (k : console) : Prop := {
  co_fits : fits k;
  co_x : 0 ≤ cn_cur_x k < cn_max_cols k;
  co_y : 0 ≤ cn_cur_y k < cn_max_rows k
}.

(** Only the console's cells and cursor and the frame buffer change. *)
Definition same_shape (k k' : console) : Prop :=
  ∃ b y x, k' = set_cn_buffer b (set_cn_cur_y y (set_cn_cur_x x k)).
Record drawn (s s' : kstate) : Prop := {
  dr_dev : ∃ f k, s' = set_k_dev (λ d, set_d_fb f (set_d_cons k d)) s;
  dr_shape : same_shape (the_cons s) (the_cons s')
}.

Lemma same_shape_trans a b c : same_shape a b → same_shape b c → same_shape a c.
Proof. intros (? & ? & ? & ->) (b2 & y2 & x2 & ->). exists b2, y2, x2. by destruct a. Qed.
Lemma drawn_trans a b c : drawn a b → drawn b c → drawn a c.
Proof.
  intros [(f & k & E1) S1] [(f2 & k2 & E2) S2]. split; [|by eapply same_shape_trans].
  exists f2, k2. rewrite E2, E1. unfold set_k_dev. f_equal.
Qed.
Lemma set_dev_id f s : f (k_dev s) = k_dev s → s = set_k_dev f s.
Proof. intros E. unfold set_k_dev. rewrite E. by destruct s. Qed.
Lemma drawn_refl s : drawn s s.
Proof.
  split; [exists (d_fb (k_dev s)), (the_cons s)|exists (cn_buffer (the_cons s)), (cn_cur_y (the_cons s)), (cn_cur_x (the_cons s))].
  - apply set_dev_id. unfold the_cons. by destruct (k_dev s).
  - by destruct (the_cons s).
Qed.
Lemma same_shape_fits k k' : same_shape k k' → fits k → fits k'.
Proof. intros (b & y & x & ->) [? ?]. by split. Qed.

(** ** Drawing leaves the grid alone *)

Definition fb_step (s s' : kstate) : Prop := ∃ f, s' = set_k_dev (set_d_fb f) s.
Definition draws (m : M kstate unit) : Prop := ∀ s, wp (m s) (λ _ s', fb_step s s').

Lemma fb_trans a b c : fb_step a b → fb_step b c → fb_step a c.
Proof. intros [f ->] [g ->]. exists g. unfold set_k_dev. by destruct a. Qed.
Lemma fb_refl s : fb_step s s.
Proof. exists (d_fb (k_dev s)). apply set_dev_id. by destruct (k_dev s). Qed.
Lemma fb_drawn s s' : fb_step s s' → drawn s s' ∧ the_cons s' = the_cons s.
Proof.
  intros [f ->]. split; [|done]. split; [exists f, (the_cons s); unfold set_k_dev, the_cons; f_equal; by destruct (k_dev s)|].
  exact (dr_shape _ _ (drawn_refl s)).
Qed.

Lemma draws_for_each {I} (l : list I) (body : I → M kstate unit) : (∀ i, draws (body i)) → draws (for_each l body).
Proof.
  intros Hb s. apply wp_for_each; [apply fb_refl|]. intros i s' _ H. kuse Hb. intros _ s2. by apply fb_trans.
Qed.
Lemma draws_gets {A} (f : kstate → A) (k : A → M kstate unit) : (∀ a, draws (k a)) → draws (bind (gets f) k).
Proof. intros Hk s. rewrite bind_gets. apply Hk. Qed.
Lemma draws_seq m k : draws m → draws k → draws (bind m (λ _, k)).
Proof. intros Hm Hk s. apply wp_bind. kuse Hm. intros _ s1 H1. kuse Hk. intros _ s2. by apply fb_trans. Qed.
Lemma draws_modify f : draws (modify (upd_fb f)).
Proof. intros s. exists (f (d_fb (k_dev s))). done. Qed.
Lemma draw_pixel x y color : draws (gop_draw_pixel x y color).
Proof. apply draws_gets. intros g. apply draws_for_each. intros i. apply draws_modify. Qed.
Lemma draw_rect x y w h color : draws (gop_draw_rect x y w h color).
Proof. apply draws_gets. intros g. do 2 (apply draws_for_each; intros ?). apply draw_pixel. Qed.
Lemma draw_char x y c fg bg : draws (font_draw_char x y c fg bg).
Proof. unfold font_draw_char. cbv zeta. do 2 (apply draws_for_each; intros ?). apply draw_pixel. Qed.

(** ** Cells *)

Definition on_grid (y x : Z) : Prop := 0 ≤ y < MAX_ROWS ∧ 0 ≤ x < MAX_COLS.

Lemma cell_run y x s : on_grid y x → cell y x s = Done (y * MAX_COLS + x) s.
Proof. intros [? ?]. unfold cell, MAX_ROWS, MAX_COLS in *. cbv zeta. by rewrite bool_decide_true by lia. Qed.
Lemma cell_get_run y x s : on_grid y x → cell_get y x s = Done (cell_of (the_cons s) y x) s.
Proof. intros H. unfold cell_get. by erewrite bind_done by by apply cell_run. Qed.

Definition put_at (y x : Z) (c : byte) (s : kstate) : kstate :=
  upd_cons (λ k, set_cn_buffer (<[y * MAX_COLS + x := c]> (cn_buffer k)) k) s.
Lemma cell_set_run y x c s : on_grid y x → cell_set y x c s = Done tt (put_at y x c s).
Proof. intros H. unfold cell_set. by erewrite bind_done by by apply cell_run. Qed.
Lemma put_at_drawn y x c s : drawn s (put_at y x c s).
Proof.
  split; [exists (d_fb (k_dev s)), (the_cons (put_at y x c s)); by destruct s as [? ? ? ? ? ? ? ? ? ? ? ? ? []]|].
  exists (cn_buffer (the_cons (put_at y x c s))), (cn_cur_y (the_cons s)), (cn_cur_x (the_cons s)). unfold the_cons, put_at; simpl. by destruct (d_cons (k_dev s)).
Qed.
Lemma cell_of_put y x c s y' x' : on_grid y x → on_grid y' x' →
  cell_of (the_cons (put_at y x c s)) y' x' = if decide (y' = y ∧ x' = x) then c else cell_of (the_cons s) y' x'.
Proof.
  intros [? ?] [? ?]. unfold MAX_ROWS, MAX_COLS in *. unfold cell_of. simpl. case_decide as E.
  - destruct E as [-> ->]. by rewrite lookup_insert_eq.
  - rewrite lookup_insert_ne; [done|]. unfold MAX_COLS. lia.
Qed.

(** ** The screen as lists *)

Lemma screen_length k : length (screen k) = Z.to_nat (cn_max_rows k).
Proof. unfold screen. by rewrite length_fmap, length_seqZ. Qed.
Lemma row_length k y : length (row_of k y) = cols_of k.
Proof. unfold row_of. by rewrite length_fmap, length_seqZ. Qed.
Lemma screen_lookup k i r : screen k !! i = Some r ↔ (i < Z.to_nat (cn_max_rows k))%nat ∧ r = row_of k (Z.of_nat i).
Proof.
  unfold screen. rewrite list_lookup_fmap_Some. setoid_rewrite lookup_seqZ. split.
  - intros (y & -> & -> & H). split; [lia|done].
  - intros [H ->]. exists (Z.of_nat i). split; [done|]. split; [lia|lia].
Qed.
Lemma row_lookup k y i c : row_of k y !! i = Some c ↔ (i < cols_of k)%nat ∧ c = cell_of k y (Z.of_nat i).
Proof.
  unfold row_of, cols_of. rewrite list_lookup_fmap_Some. setoid_rewrite lookup_seqZ. split.
  - intros (x & -> & -> & H). split; [lia|done].
  - intros [H ->]. exists (Z.of_nat i). split; [done|]. split; [lia|lia].
Qed.

(** Two screens of the same size are equal when their cells are. *)
Lemma rows_eq k y (r : list byte) : length r = cols_of k → (∀ x c, 0 ≤ x < cn_max_cols k → r !! Z.to_nat x = Some c → cell_of k y x = c) → row_of k y = r.
Proof.
  intros Hl H. apply (list_eq_same_length _ _ (cols_of k)); [done|apply row_length|]. intros i a b Hi Ha Hb.
  apply row_lookup in Ha as [_ ->]. apply H; [unfold cols_of in Hi; lia|by rewrite Nat2Z.id].
Qed.
Lemma screen_eq k (g : list (list byte)) : length g = Z.to_nat (cn_max_rows k) →
  (∀ y r, 0 ≤ y < cn_max_rows k → g !! Z.to_nat y = Some r → row_of k y = r) → screen k = g.
Proof.
  intros Hl H. apply (list_eq_same_length _ _ (Z.to_nat (cn_max_rows k))); [done|apply screen_length|]. intros i a b Hi Ha Hb.
  apply screen_lookup in Ha as [_ ->]. apply H; [lia|by rewrite Nat2Z.id].
Qed.

Lemma fits_grid k y x : fits k → 0 ≤ y < cn_max_rows k → 0 ≤ x < cn_max_cols k → on_grid y x.
Proof. intros [? ?] ? ?. unfold on_grid. lia. Qed.

Lemma screen_put y x c s : fits (the_cons s) → 0 ≤ y < cn_max_rows (the_cons s) → 0 ≤ x < cn_max_cols (the_cons s) →
  screen (the_cons (put_at y x c s)) = alter (<[Z.to_nat x := c]>) (Z.to_nat y) (screen (the_cons s)).
Proof.
  intros Hf Hy Hx. apply screen_eq; [by rewrite length_alter, screen_length|]. simpl. intros y' r Hy' Hr.
  rewrite list_lookup_alter in Hr.
  assert (∀ y x c, 0 ≤ y < cn_max_rows (the_cons s) → 0 ≤ x < cn_max_cols (the_cons s) → on_grid y x) as Hg by (intros; by eapply fits_grid).
  case_decide as E.
  - apply (f_equal Z.of_nat) in E. assert (y' = y) as -> by lia. apply fmap_Some in Hr as (r0 & Hr0 & ->).
    apply screen_lookup in Hr0 as [_ ->]. apply rows_eq; [by rewrite length_insert, row_length|]. simpl. intros x' d Hx' Hd.
    rewrite cell_of_put by eauto. rewrite list_lookup_insert in Hd. case_decide as Ex.
    + destruct Ex as [Ex _]. rewrite decide_True by (split; [done|lia]). by injection Hd.
    + apply row_lookup in Hd as [_ ->]. rewrite !Z2Nat.id by lia. rewrite decide_False; [done|]. intros [_ ->]. apply Ex.
      split; [done|]. rewrite row_length. unfold cols_of. lia.
  - apply screen_lookup in Hr as [_ ->]. apply rows_eq; [by rewrite row_length|]. simpl. intros x' d Hx' Hd.
    apply row_lookup in Hd as [_ ->]. rewrite !Z2Nat.id by lia. rewrite cell_of_put by eauto. rewrite decide_False; [done|].
    intros [-> _]. done.
Qed.

(** ** Scrolling *)

Lemma redraw_run s : fits (the_cons s) → wp (console_redraw_all s) (λ _ s', fb_step s s').
Proof.
  intros Hf. unfold console_redraw_all. rewrite !bind_gets. apply wp_bind. kuse draw_rect. intros _ s1 H1.
  apply wp_for_each; [done|]. intros y s2 Hy H2. apply wp_for_each; [done|].
  intros x s3 Hx H3. apply elem_of_seqZ in Hy, Hx. erewrite bind_done by (apply cell_get_run; eapply fits_grid; [exact Hf|lia|lia]).
  destruct (_ && _); simpl; [|done]. kuse draw_char. intros _ s4. by apply fb_trans.
Qed.

(** The loop of [console_scroll] when rows below [y] and, in row [y], columns
    below [x] have been moved. *)
Record scrolling (s0 : kstate) (y x : Z) (s : kstate) : Prop := {
  sc_drawn : drawn s0 s;
  sc_cursor : cn_cur_x (the_cons s) = cn_cur_x (the_cons s0) ∧ cn_cur_y (the_cons s) = cn_cur_y (the_cons s0);
  sc_cells : ∀ y' x', 0 ≤ y' < cn_max_rows (the_cons s0) → 0 ≤ x' < cn_max_cols (the_cons s0) →
    cell_of (the_cons s) y' x' = cell_of (the_cons s0) (if decide (y' < y ∨ y' = y ∧ x' < x) then y' + 1 else y') x'
}.

Lemma scroll_step s0 y x s : fits (the_cons s0) → 0 ≤ y < cn_max_rows (the_cons s0) - 1 → 0 ≤ x < cn_max_cols (the_cons s0) →
  scrolling s0 y x s → scrolling s0 y (x + 1) (put_at y x (cell_of (the_cons s) (y + 1) x) s).
Proof.
  intros Hf Hy Hx [Hd Hc Hcells]. split.
  - eapply drawn_trans; [exact Hd|apply put_at_drawn].
  - exact Hc.
  - intros y' x' Hy' Hx'. rewrite cell_of_put by (eapply fits_grid; [exact Hf|lia|lia]). case_decide as E.
    + destruct E as [-> ->]. rewrite Hcells by lia. rewrite decide_False by lia. by rewrite decide_True by lia.
    + rewrite Hcells by done. f_equal. repeat case_decide; lia.
Qed.

Lemma scroll_rows_run s : fits (the_cons s) →
  wp (for_each (seqZ 0 (cn_max_rows (the_cons s) - 1)) (λ y, for_each (seqZ 0 (cn_max_cols (the_cons s))) (λ x,
      let! c := cell_get (y + 1) x in cell_set y x c)) s)
    (λ _ s', scrolling s (cn_max_rows (the_cons s) - 1) 0 s').
Proof.
  intros Hf. pose proof (ft_cols _ Hf). pose proof (ft_rows _ Hf).
  kuse (wp_for_each_seqZ (λ y, scrolling s y 0)); [lia| | |by rewrite Z.add_0_l].
  - split; [apply drawn_refl|done|]. intros y' x' ? ?. rewrite decide_False by lia. done.
  - intros y s1 Hy H1. kuse (wp_for_each_seqZ (λ x, scrolling s y x)); [lia|exact H1| |].
    + intros x s2 Hx H2. erewrite bind_done by (apply cell_get_run; eapply fits_grid; [exact Hf|lia|lia]).
      rewrite cell_set_run by (eapply fits_grid; [exact Hf|lia|lia]). apply scroll_step; [done|lia|lia|done].
    + intros _ s2 [Hd Hc Hcells]. split; [done|done|]. intros y' x' Hy' Hx'. rewrite Hcells by done. f_equal.
      repeat case_decide; lia.
Qed.

Lemma scroll_last_run s0 s : fits (the_cons s0) → scrolling s0 (cn_max_rows (the_cons s0) - 1) 0 s →
  wp (for_each (seqZ 0 (cn_max_cols (the_cons s0))) (λ x, cell_set (cn_max_rows (the_cons s0) - 1) x SP) s)
    (λ _ s', drawn s0 s' ∧ (cn_cur_x (the_cons s') = cn_cur_x (the_cons s0) ∧ cn_cur_y (the_cons s') = cn_cur_y (the_cons s0)) ∧
      screen (the_cons s') = drop 1 (screen (the_cons s0)) ++ [replicate (cols_of (the_cons s0)) SP]).
Proof.
  intros Hf [Hd Hc Hcells]. pose proof (ft_cols _ Hf). pose proof (ft_rows _ Hf). set (k0 := the_cons s0) in *.
  kuse (wp_for_each_seqZ (λ x s', drawn s0 s' ∧ (cn_cur_x (the_cons s') = cn_cur_x k0 ∧ cn_cur_y (the_cons s') = cn_cur_y k0) ∧
    ∀ y' x', 0 ≤ y' < cn_max_rows k0 → 0 ≤ x' < cn_max_cols k0 → cell_of (the_cons s') y' x' =
      if decide (y' = cn_max_rows k0 - 1) then (if decide (x' < x) then SP else cell_of (the_cons s) y' x') else cell_of (the_cons s) y' x')); [lia| | |].
  - split_and!; [done|apply Hc..|]. intros y' x' ? ?. by repeat case_decide; try lia.
  - intros x s1 Hx (D1 & C1 & H1). rewrite cell_set_run by (eapply fits_grid; [exact Hf|lia|lia]). cbn [wp]. split; [|split].
    + eapply drawn_trans; [exact D1|apply put_at_drawn].
    + exact C1.
    + intros y' x' ? ?. rewrite cell_of_put by (eapply fits_grid; [exact Hf|lia|lia]). rewrite H1 by done.
      by repeat case_decide; lia || done.
  - intros _ s1 (D1 & C1 & H1). rewrite Z.add_0_l in H1. split; [done|]. split; [done|].
    destruct (dr_shape _ _ D1) as (b & y & x & E). fold k0 in E.
    assert (cn_max_rows (the_cons s1) = cn_max_rows k0 ∧ cn_max_cols (the_cons s1) = cn_max_cols k0) as [Er Ec] by by rewrite E.
    apply screen_eq; rewrite Er.
    + rewrite length_app, length_drop, screen_length. simpl. lia.
    + intros y' r Hy' Hr. apply rows_eq; unfold cols_of; rewrite ?Ec.
      * apply lookup_app_Some in Hr as [Hr|[_ Hr]].
        -- rewrite lookup_drop in Hr. apply screen_lookup in Hr as [_ ->]. apply row_length.
        -- apply list_lookup_singleton_Some in Hr as [_ <-]. by rewrite length_replicate.
      * intros x' c Hx' Hl. rewrite H1 by lia. apply lookup_app_Some in Hr as [Hr|[Hge Hr]].
        -- rewrite lookup_drop in Hr. apply screen_lookup in Hr as [Hlt ->]. rewrite decide_False by lia. rewrite Hcells by lia.
           rewrite decide_True by lia. apply row_lookup in Hl as [_ ->]. f_equal; lia.
        -- rewrite length_drop, screen_length in Hge. rewrite decide_True by lia. rewrite decide_True by lia.
           apply list_lookup_singleton_Some in Hr as [_ <-]. by apply lookup_replicate in Hl as [-> _].
Qed.

Lemma scroll_run s : fits (the_cons s) →
  wp (console_scroll s) (λ _ s', drawn s s' ∧ (cn_cur_x (the_cons s') = cn_cur_x (the_cons s) ∧ cn_cur_y (the_cons s') = cn_cur_y (the_cons s)) ∧
    screen (the_cons s') = drop 1 (screen (the_cons s)) ++ [replicate (cols_of (the_cons s)) SP]).
Proof.
  intros Hf. unfold console_scroll. rewrite bind_gets. apply wp_bind. kuse scroll_rows_run; [done|]. intros _ s1 H1.
  apply wp_bind. kuse (scroll_last_run s s1 Hf H1). intros _ s2 (D2 & C2 & E2).
  assert (fits (the_cons s2)) as Hf2 by (eapply same_shape_fits; [exact (dr_shape _ _ D2)|done]).
  kuse (redraw_run s2 Hf2). intros _ s3 H3. destruct (fb_drawn _ _ H3) as [D3 E3]. rewrite E3.
  split; [by eapply drawn_trans|]. done.
Qed.

(** Moving the cursor. *)
Definition move_to (y x : Z) (s : kstate) : kstate := upd_cons (λ k, set_cn_cur_y y (set_cn_cur_x x k)) s.
Lemma move_drawn y x s : drawn s (move_to y x s).
Proof.
  split; [exists (d_fb (k_dev s)), (the_cons (move_to y x s)); by destruct s as [? ? ? ? ? ? ? ? ? ? ? ? ? []]|].
  exists (cn_buffer (the_cons s)), y, x. unfold the_cons, move_to; simpl. by destruct (d_cons (k_dev s)).
Qed.
Lemma move_id s : move_to (cn_cur_y (the_cons s)) (cn_cur_x (the_cons s)) s = s.
Proof. symmetry. apply set_dev_id. unfold the_cons. destruct (k_dev s) as [? ? []]. done. Qed.
Lemma move_x x s : upd_cons (set_cn_cur_x x) s = move_to (cn_cur_y (the_cons s)) x s.
Proof. unfold move_to, upd_cons, set_k_dev, the_cons. f_equal. Qed.
Lemma move_y y s : upd_cons (set_cn_cur_y y) s = move_to y (cn_cur_x (the_cons s)) s.
Proof. unfold move_to, upd_cons, set_k_dev, the_cons. f_equal. Qed.
Lemma move_move y x y' x' s : move_to y x (move_to y' x' s) = move_to y x s.
Proof. done. Qed.

Lemma same_shape_dims k k' : same_shape k k' → cn_max_cols k' = cn_max_cols k ∧ cn_max_rows k' = cn_max_rows k.
Proof. by intros (b & y & x & ->). Qed.

(** What a routine promises: it draws, and the screen becomes [t]. *)
Definition shows (t : term) (s s' : kstate) : Prop := drawn s s' ∧ cons_ok (the_cons s') ∧ term_of (the_cons s') = t.

Lemma move_add_y d s : upd_cons (λ k, set_cn_cur_y (cn_cur_y k + d) k) s = move_to (cn_cur_y (the_cons s) + d) (cn_cur_x (the_cons s)) s.
Proof. unfold move_to, upd_cons, set_k_dev, the_cons. f_equal. Qed.
Lemma move_bottom s : upd_cons (λ k, set_cn_cur_y (cn_max_rows k - 1) k) s = move_to (cn_max_rows (the_cons s) - 1) (cn_cur_x (the_cons s)) s.
Proof. unfold move_to, upd_cons, set_k_dev, the_cons. f_equal. Qed.

(** The second check of [console_putc]: at the bottom the screen scrolls. *)
Lemma bottom_run s y x : fits (the_cons s) → 0 ≤ x < cn_max_cols (the_cons s) → 0 ≤ y ≤ cn_max_rows (the_cons s) →
  wp (bind (gets the_cons) (λ k, when (bool_decide (cn_max_rows k ≤ cn_cur_y k)) (
        console_scroll ;;; modify (upd_cons (λ k, set_cn_cur_y (cn_max_rows k - 1) k)))) (move_to y x s))
    (λ _, shows (let t := mk_term (screen (the_cons s)) (Z.to_nat y) (Z.to_nat x) in
      if decide (length (t_rows t) ≤ t_y t)%nat
      then mk_term (drop 1 (t_rows t) ++ [replicate (cols_of (the_cons s)) SP]) (length (t_rows t) - 1) (t_x t) else t) s).
Proof.
  intros Hf Hx Hy. pose proof (ft_rows _ Hf). rewrite bind_gets. cbv zeta. cbn [t_rows t_y t_x]. rewrite screen_length.
  change (cn_max_rows (the_cons (move_to y x s))) with (cn_max_rows (the_cons s)).
  change (cn_cur_y (the_cons (move_to y x s))) with y. case_bool_decide as E; simpl when.
  - rewrite decide_True by lia. apply wp_bind. kuse (scroll_run (move_to y x s)); [by destruct Hf|]. intros _ s1 (D1 & [C1 C2] & E1).
    cbn [wp modify]. rewrite move_bottom. destruct (same_shape_dims _ _ (dr_shape _ _ D1)) as [Ec Er].
    change (cn_max_rows (the_cons (move_to y x s))) with (cn_max_rows (the_cons s)) in Er.
    change (cn_max_cols (the_cons (move_to y x s))) with (cn_max_cols (the_cons s)) in Ec.
    change (cn_cur_x (the_cons (move_to y x s))) with x in C1. rewrite C1, Er.
    assert (drawn s (move_to (cn_max_rows (the_cons s) - 1) x s1)) as D.
    { eapply drawn_trans; [apply move_drawn|]. eapply drawn_trans; [exact D1|apply move_drawn]. }
    split; [done|split].
    + split; [eapply same_shape_fits; [exact (dr_shape _ _ D)|done]|change (0 ≤ x < cn_max_cols (the_cons s1)); lia|].
      change (0 ≤ cn_max_rows (the_cons s) - 1 < cn_max_rows (the_cons s1)). lia.
    + unfold term_of. change (screen (the_cons (move_to (cn_max_rows (the_cons s) - 1) x s1))) with (screen (the_cons s1)).
      rewrite E1. change (mk_term (drop 1 (screen (the_cons s)) ++ [replicate (cols_of (the_cons s)) SP])
        (Z.to_nat (cn_max_rows (the_cons s) - 1)) (Z.to_nat x) = mk_term (drop 1 (screen (the_cons s)) ++ [replicate (cols_of (the_cons s)) SP])
        (Z.to_nat (cn_max_rows (the_cons s)) - 1) (Z.to_nat x)). f_equal. lia.
  - rewrite decide_False by lia. cbn [wp ret]. split; [apply move_drawn|]. split; [|done].
    split; [by destruct Hf|exact Hx|change (0 ≤ y < cn_max_rows (the_cons s)); lia].
Qed.

Lemma wrap_run s y x : fits (the_cons s) → 0 ≤ x ≤ cn_max_cols (the_cons s) → 0 ≤ y ≤ cn_max_rows (the_cons s) →
  (x = cn_max_cols (the_cons s) → y < cn_max_rows (the_cons s)) →
  wp (console_wrap (move_to y x s))
    (λ _, shows (term_wrap (cols_of (the_cons s)) (mk_term (screen (the_cons s)) (Z.to_nat y) (Z.to_nat x))) s).
Proof.
  intros Hf Hx Hy Hxy. pose proof (ft_cols _ Hf). unfold console_wrap. rewrite bind_gets.
  change (cn_max_cols (the_cons (move_to y x s))) with (cn_max_cols (the_cons s)).
  change (cn_cur_x (the_cons (move_to y x s))) with x. unfold term_wrap. cbn [t_rows t_y t_x]. case_bool_decide as E; simpl when.
  - erewrite bind_done by (rewrite bind_modify; reflexivity). rewrite move_x, move_add_y, !move_move.
    rewrite (decide_True (P := (cols_of (the_cons s) ≤ Z.to_nat x)%nat)) by (unfold cols_of; lia).
    replace (S (Z.to_nat y)) with (Z.to_nat (y + 1)) by lia. apply (bottom_run s (y + 1) 0); [done|lia|lia].
  - rewrite bind_ret_l, (decide_False (P := (cols_of (the_cons s) ≤ Z.to_nat x)%nat)) by (unfold cols_of; lia). apply bottom_run; [done|lia|lia].
Qed.

(** A character at the cursor, and its glyph. *)
Lemma put_cell_run s y x c : fits (the_cons s) → 0 ≤ x < cn_max_cols (the_cons s) → 0 ≤ y < cn_max_rows (the_cons s) →
  wp (put_cell c (move_to y x s)) (λ _ s', drawn s s' ∧ (cn_cur_x (the_cons s') = x ∧ cn_cur_y (the_cons s') = y) ∧
    screen (the_cons s') = alter (<[Z.to_nat x := c]>) (Z.to_nat y) (screen (the_cons s))).
Proof.
  intros Hf Hx Hy. unfold put_cell. rewrite bind_gets.
  change (cn_cur_x (the_cons (move_to y x s))) with x. change (cn_cur_y (the_cons (move_to y x s))) with y.
  erewrite bind_done by (apply cell_set_run; eapply fits_grid; [exact Hf|lia|lia]). kuse draw_char. intros _ s2 H2.
  destruct (fb_drawn _ _ H2) as [D2 E2]. rewrite E2. split; [|split; [done|]].
  - eapply drawn_trans; [apply (move_drawn y x)|]. eapply drawn_trans; [apply put_at_drawn|exact D2].
  - rewrite screen_put; [done|by destruct Hf|done|done].
Qed.

Lemma shows_more t s s1 s' : drawn s s1 → shows t s1 s' → shows t s s'.
Proof. intros D (D1 & ? & ?). split; [by eapply drawn_trans|done]. Qed.

Lemma console_putc_run c s : cons_ok (the_cons s) →
  wp (console_putc c s) (λ _, shows (term_putc (cols_of (the_cons s)) c (term_of (the_cons s))) s).
Proof.
  intros [Hf Hx Hy]. unfold console_putc, term_putc, term_of. cbn [t_rows t_y t_x]. set (k := the_cons s) in *.
  assert (∀ y x c', 0 ≤ x < cn_max_cols k → 0 ≤ y < cn_max_rows k → ∀ x', x ≤ x' ≤ x + 1 →
    wp (bind (put_cell c') (λ _, bind (modify (upd_cons (λ k, set_cn_cur_x (cn_cur_x k + (x' - x)) k))) (λ _, console_wrap)) (move_to y x s))
      (λ _, shows (term_wrap (cols_of k) (mk_term (alter (<[Z.to_nat x := c']>) (Z.to_nat y) (screen k)) (Z.to_nat y) (Z.to_nat x'))) s)) as Hput.
  { intros y x c' Hx1 Hy1 x' Hx'. apply wp_bind. kuse (put_cell_run s y x c'); [done..|]. intros _ s1 (D1 & [C1 C2] & E1).
    rewrite bind_modify. destruct (same_shape_dims _ _ (dr_shape _ _ D1)) as [Ec Er]. fold k in Ec, Er.
    assert (upd_cons (λ k, set_cn_cur_x (cn_cur_x k + (x' - x)) k) s1 = move_to y x' s1) as ->.
    { transitivity (upd_cons (set_cn_cur_x (cn_cur_x (the_cons s1) + (x' - x))) s1); [done|]. rewrite move_x, C1, C2. f_equal. lia. }
    assert (cols_of (the_cons s1) = cols_of k) as Hcols by (unfold cols_of; by rewrite Ec).
    fold k in E1. rewrite <- E1, <- Hcols. kuse (wrap_run s1 y x').
    - eapply same_shape_fits; [exact (dr_shape _ _ D1)|done].
    - lia.
    - lia.
    - lia.
    - intros _ s2. by apply shows_more. }
  case_bool_decide as E1; [rewrite decide_True by done|rewrite decide_False by done].
  { rewrite !bind_modify, move_x, move_add_y, move_move. replace (S (Z.to_nat (cn_cur_y k))) with (Z.to_nat (cn_cur_y k + 1)) by lia.
    apply (wrap_run s (cn_cur_y k + 1) 0); fold k; [done|lia..]. }
  case_bool_decide as E2; [rewrite decide_True by done|rewrite decide_False by done].
  { rewrite bind_modify, move_x. apply (wrap_run s (cn_cur_y k) 0); fold k; [done|lia..]. }
  case_bool_decide as E3; [rewrite decide_True by done|rewrite decide_False by done].
  - rewrite bind_gets. fold k. case_bool_decide as E4.
    + replace (Z.to_nat (cn_cur_x k)) with 0%nat by lia. split; [apply drawn_refl|]. split; [by split|].
      unfold term_of. fold k. f_equal. lia.
    + destruct (Z.to_nat (cn_cur_x k)) as [|x] eqn:Ex; [lia|]. rewrite bind_modify.
      assert (upd_cons (λ k, set_cn_cur_x (cn_cur_x k - 1) k) s = move_to (cn_cur_y k) (cn_cur_x k - 1) s) as -> by done.
      specialize (Hput (cn_cur_y k) (cn_cur_x k - 1) SP ltac:(lia) Hy (cn_cur_x k - 1) ltac:(lia)).
      replace (Z.to_nat (cn_cur_x k - 1)) with x in Hput by lia. apply wp_bind_inv in Hput. apply wp_bind. kuse Hput.
      intros _ s1 H1. rewrite bind_modify in H1. rewrite Z.sub_diag in H1.
      assert (upd_cons (λ k, set_cn_cur_x (cn_cur_x k + 0) k) s1 = s1) as E; [|by rewrite E in H1].
      assert (∀ k, set_cn_cur_x (cn_cur_x k + 0) k = k) as Hid by (intros []; unfold set_cn_cur_x; simpl; by rewrite Z.add_0_r).
      symmetry. apply set_dev_id. rewrite Hid. by destruct (k_dev s1).
  - specialize (Hput (cn_cur_y k) (cn_cur_x k) c Hx Hy (cn_cur_x k + 1) ltac:(lia)).
    cbv zeta. cbn [term_set t_rows t_y t_x].
    replace (S (Z.to_nat (cn_cur_x k))) with (Z.to_nat (cn_cur_x k + 1)) by lia.
    replace (cn_cur_x k + 1 - cn_cur_x k) with 1 in Hput by lia.
    change (move_to (cn_cur_y k) (cn_cur_x k) s) with (move_to (cn_cur_y (the_cons s)) (cn_cur_x (the_cons s)) s) in Hput.
    rewrite move_id in Hput. exact Hput.
Qed.

Lemma console_puts_run l : ∀ s, cons_ok (the_cons s) →
  wp (for_each l console_putc s) (λ _, shows (term_puts (cols_of (the_cons s)) l (term_of (the_cons s))) s).
Proof.
  induction l as [|c l IH]; intros s Hok; simpl; [by split; [apply drawn_refl|]|].
  apply wp_bind. kuse console_putc_run; [done|]. intros _ s1 (D1 & Hok1 & E1). kuse IH; [done|].
  intros _ s2 H2. apply (shows_more _ _ _ _ D1). unfold term_puts in H2. rewrite E1 in H2.
  assert (cols_of (the_cons s1) = cols_of (the_cons s)) as E by (unfold cols_of; f_equal; apply (same_shape_dims _ _ (dr_shape _ _ D1))).
  by rewrite E in H2.
Qed.

(** ** Numbers *)

Definition digit_value (c : byte) : Z := if decide (b2z c < 58) then b2z c - 48 else b2z c - 87.
Definition digits_value (base : Z) (l : list byte) : Z := foldl (λ v c, v * base + digit_value c) 0 l.

Lemma digit_ok d : 0 ≤ d < 16 → digit_value (default x00 (digits !! Z.to_nat d)) = d.
Proof.
  intros Hd. assert (Z.to_nat d ∈ seq 0 16) as Hin by (apply elem_of_seq; lia).
  rewrite <- (Z2Nat.id d) at 2 by lia. revert Hin. generalize (Z.to_nat d). clear. intros n Hn.
  do 16 (destruct n as [|n]; [done|]). apply elem_of_seq in Hn. lia.
Qed.

Lemma print_digits_spec base fuel : 1 < base ≤ 16 → ∀ x k, 0 ≤ x < base ^ Z.of_nat k → (0 < k ≤ fuel)%nat →
  digits_value base (rev (print_digits fuel x base)) = x ∧ (0 < length (print_digits fuel x base) ≤ k)%nat.
Proof.
  intros Hb. induction fuel as [|fuel IH]; intros x k Hx Hk; [lia|]. cbn [print_digits rev length].
  pose proof (Z.mod_pos_bound x base ltac:(lia)) as Hm. pose proof (Z.div_mod x base ltac:(lia)) as Hdm.
  unfold digits_value. rewrite foldl_app. cbn [foldl]. rewrite digit_ok by lia. case_bool_decide as E.
  - destruct k as [|k]; [lia|]. destruct (decide (k = 0%nat)) as [->|Hk0].
    { change (base ^ Z.of_nat 1) with (base ^ 1) in Hx. rewrite Z.pow_1_r in Hx. destruct E. apply Z.div_small. lia. }
    destruct (IH (x / base) k) as [E1 E2].
    + split; [apply Z.div_pos; lia|]. apply Z.div_lt_upper_bound; [lia|].
      rewrite Nat2Z.inj_succ, Z.pow_succ_r in Hx by lia. lia.
    + lia.
    + unfold digits_value in E1. rewrite E1. split; [lia|]. lia.
  - rewrite E in Hdm. simpl. split; lia.
Qed.

(** What [print_int] prints. *)
Definition int_text (xx base : Z) (sign : bool) : list byte :=
  let neg := sign && bool_decide (xx < 0) in
  (if neg then [x2d] else []) ++ rev (print_digits 32 (if neg then u32 (- xx) else u32 xx) base).

(** The number that a text denotes. *)
Definition text_value (base : Z) (l : list byte) : Z :=
  match l with
  | c :: l' => if decide (c = x2d) then - digits_value base l' else digits_value base l
  | [] => 0
  end.

Lemma digits_not_minus base fuel x : 1 < base ≤ 16 → Forall (λ c, c ≠ x2d) (print_digits fuel x base).
Proof.
  intros Hb. revert x; induction fuel as [|fuel IH]; intros x; cbn [print_digits]; [done|].
  constructor; [|by case_bool_decide].
  pose proof (Z.mod_pos_bound x base ltac:(lia)) as Hm. intros E. pose proof (digit_ok (x `mod` base) ltac:(lia)) as Hd.
  rewrite E in Hd. change (digit_value x2d) with (-3) in Hd. lia.
Qed.

(** [print_int] sends exactly that text to the console, character by character. *)
Definition prints (m : M kstate unit) (text : list byte) : Prop := m ≋ for_each text console_putc.

Lemma print_int_prints xx base sign : prints (print_int xx base sign) (int_text xx base sign).
Proof. intros s. unfold print_int, int_text. cbv zeta. by destruct (sign && bool_decide (xx < 0)). Qed.

Lemma int_text_value xx : - 2 ^ 31 ≤ xx < 2 ^ 31 →
  text_value 10 (int_text xx 10 true) = xx ∧ text_value 16 (int_text xx 16 false) = u32 xx ∧
  (length (print_digits 32 (if bool_decide (xx < 0)%Z then u32 (- xx)%Z else u32 xx) 10) ≤ 10)%nat ∧
  (length (print_digits 32 (u32 xx) 16) ≤ 8)%nat.
Proof.
  intros Hx. pose proof (u32_range xx) as Hr.
  assert (∀ base x, 1 < base ≤ 16 → digits_value base (rev (print_digits 32 x base)) = x →
    (0 < length (print_digits 32 x base))%nat → text_value base (rev (print_digits 32 x base)) = x) as Hpos.
  { intros base x Hb E Hl. pose proof (digits_not_minus base 32 x Hb) as Hn. apply Forall_rev in Hn.
    destruct (rev (print_digits 32 x base)) as [|c l] eqn:El.
    - apply (f_equal length) in El. rewrite length_rev in El. rewrite El in Hl. inversion Hl.
    - inversion Hn; subst. unfold text_value. by rewrite decide_False. }
  assert (0 ≤ (if bool_decide (xx < 0) then u32 (- xx) else u32 xx) < 10 ^ Z.of_nat 10) as H10.
  { change (10 ^ Z.of_nat 10) with 10000000000. pose proof (u32_range (- xx)). case_bool_decide; lia. }
  destruct (print_digits_spec 10 32 ltac:(lia) _ 10 H10 ltac:(lia)) as [E10 L10].
  destruct (print_digits_spec 16 32 ltac:(lia) (u32 xx) 8) as [E16 L16]; [change (16 ^ Z.of_nat 8) with (2 ^ 32); lia|lia|].
  unfold int_text. change (false && bool_decide (xx < 0)) with false. change (true && bool_decide (xx < 0)) with (bool_decide (xx < 0)).
  cbv zeta iota. cbn [app].
  split; [|split; [apply Hpos; [lia|exact E16|exact (proj1 L16)]|exact (conj (proj2 L10) (proj2 L16))]].
  case_bool_decide as E; cbn [app].
  - unfold text_value. rewrite decide_True by done. rewrite E10, u32_small; lia.
  - rewrite Hpos; [|lia|exact E10|exact (proj1 L10)]. apply u32_small. lia.
Qed.

Lemma print_digits_digits base fuel x : 1 < base ≤ 16 → Forall (λ c, c ∈ digits) (print_digits fuel x base).
Proof.
  intros Hb. revert x; induction fuel as [|fuel IH]; intros x; cbn [print_digits]; [done|].
  constructor; [|by case_bool_decide]. pose proof (Z.mod_pos_bound x base ltac:(lia)).
  destruct (lookup_lt_is_Some_2 digits (Z.to_nat (x `mod` base))) as [c Hc]; [change (length digits) with 16%nat; lia|].
  rewrite Hc. by eapply list_elem_of_lookup_2.
Qed.

(** C33. [print_int] prints numbers correctly, for every 32-bit [int]: in decimal
    it sends to the console, character by character, an optional minus sign and
    digits that read back as the number; in hexadecimal, digits that read back
    as the number's 32 bits taken unsigned.  There are at most 10 and 8 digits,
    so the 16-byte buffer of the function is never overrun. *)
Theorem print_int_roundtrip xx : - 2 ^ 31 ≤ xx < 2 ^ 31 →
  (∃ sign ds, prints (print_int xx 10 true) (sign ++ ds) ∧ sign = (if decide (xx < 0) then [x2d] else []) ∧
     Forall (λ c, c ∈ digits) ds ∧ text_value 10 (sign ++ ds) = xx ∧ (length ds ≤ 10)%nat) ∧
  (∃ ds, prints (print_int xx 16 false) ds ∧
     Forall (λ c, c ∈ digits) ds ∧ text_value 16 ds = u32 xx ∧ (length ds ≤ 8)%nat).
Proof.
  intros Hx. destruct (int_text_value xx Hx) as (V10 & V16 & L10 & L16). split.
  - eexists _, _. split; [apply print_int_prints|]. change (true && bool_decide (xx < 0)) with (bool_decide (xx < 0)).
    split; [case_bool_decide; by case_decide|]. split; [by apply Forall_rev, print_digits_digits|]. split; [exact V10|by rewrite length_rev].
  - exists (int_text xx 16 false). split; [apply print_int_prints|]. split; [by apply Forall_rev, print_digits_digits|].
    split; [exact V16|]. unfold int_text. change (false && bool_decide (xx < 0)) with false. cbn [app]. by rewrite length_rev.
Qed.
Lemma print_int_roundtrip_witness : ∃ ds, prints (print_int (-2147483648) 10 true) (x2d :: ds) ∧ text_value 10 (x2d :: ds) = -2147483648.
Proof.
  destruct (print_int_roundtrip (-2147483648)) as [(sign & ds & Hp & -> & _ & Hv & _) _]; [lia|].
  exists ds. split; [exact Hp|exact Hv].
Defined.

Lemma print_int_run xx base sign s : cons_ok (the_cons s) →
  wp (print_int xx base sign s) (λ _, shows (term_puts (cols_of (the_cons s)) (int_text xx base sign) (term_of (the_cons s))) s).
Proof.
  intros Hok. pose proof (console_puts_run (int_text xx base sign) s Hok) as H. unfold int_text in *. unfold print_int.
  cbv zeta in *. destruct (sign && bool_decide (xx < 0)); cbn [when app] in *; [exact H|]. rewrite bind_ret_l. exact H.
Qed.

(** ** Formatted output *)

(** The text of a format with its arguments; [None] when they do not match. *)
Fixpoint format (fmt : list byte) (args : list carg) : option (list byte) :=
  match fmt with
  | [] => Some []
  | c :: fmt =>
    if decide (c = x25) then
      match fmt with
      | [] => Some []
      | d :: fmt =>
        if decide (d = x64) then match args with AInt n :: args => (int_text n 10 true ++.) <$> format fmt args | _ => None end
        else if decide (d = x78) then match args with AInt n :: args => (int_text n 16 false ++.) <$> format fmt args | _ => None end
        else if decide (d = x25) then ([x25] ++.) <$> format fmt args
        else if decide (d = x73) then match args with AStr t :: args => (default null_str t ++.) <$> format fmt args | _ => None end
        else ([x25; d] ++.) <$> format fmt args
      end
    else ([c] ++.) <$> format fmt args
  end.

(** A routine that shows [text], then one that shows the rest. *)
Definition puts (m : M kstate unit) (text : list byte) : Prop :=
  ∀ s, cons_ok (the_cons s) → wp (m s) (λ _, shows (term_puts (cols_of (the_cons s)) text (term_of (the_cons s))) s).
Lemma puts_seq m k l1 l2 : puts m l1 → puts k l2 → puts (bind m (λ _, k)) (l1 ++ l2).
Proof.
  intros Hm Hk s Hok. apply wp_bind. kuse Hm; [done|]. intros _ s1 (D1 & Hok1 & E1). kuse Hk; [done|].
  intros _ s2 H2. apply (shows_more _ _ _ _ D1). unfold term_puts in *. rewrite foldl_app, <- E1.
  assert (cols_of (the_cons s1) = cols_of (the_cons s)) as E by (unfold cols_of; f_equal; apply (same_shape_dims _ _ (dr_shape _ _ D1))).
  by rewrite E in H2.
Qed.
Lemma puts_nil : puts (ret tt) [].
Proof. intros s Hok. by split; [apply drawn_refl|]. Qed.
Lemma puts_char c : puts (console_putc c) [c].
Proof. intros s Hok. exact (console_putc_run c s Hok). Qed.

Lemma cprintf_loop_run fmt : ∀ args text, Forall (λ c, c ≠ x00) fmt → format fmt args = Some text →
  puts (cprintf_loop (fmt ++ [x00]) args) text.
Proof.
  induction fmt as [|c fmt IH1 IH2] using list_ind2; intros args text Hz; [by intros [= <-]; apply puts_nil|].
  inversion Hz as [|?? Hc Hz']; subst. cbn [format app cprintf_loop]. rewrite bool_decide_false by done.
  case_decide as E; [rewrite bool_decide_false by (by intros [])|rewrite bool_decide_true by done].
  2:{ intros (text' & Ht & ->)%fmap_Some. apply (puts_seq _ _ [c] text'); [apply puts_char|by apply IH1]. }
  destruct fmt as [|d fmt]; [intros [= <-]; apply puts_nil|]. inversion Hz' as [|?? Hd Hz'']; subst.
  specialize (IH2 d fmt eq_refl). cbn [app]. rewrite bool_decide_false by done.
  repeat (case_decide; [rewrite bool_decide_true by done|rewrite bool_decide_false by done]).
  - destruct args as [|[n|] args]; try done. intros (text' & Ht & ->)%fmap_Some.
    apply (puts_seq _ _ (int_text n 10 true) text'); [intros s Hok; by apply print_int_run|by apply IH2].
  - destruct args as [|[n|] args]; try done. intros (text' & Ht & ->)%fmap_Some.
    apply (puts_seq _ _ (int_text n 16 false) text'); [intros s Hok; by apply print_int_run|by apply IH2].
  - intros (text' & Ht & ->)%fmap_Some. apply (puts_seq _ _ [x25] text'); [apply puts_char|by apply IH2].
  - destruct args as [|[|t] args]; try done. intros (text' & Ht & ->)%fmap_Some.
    apply (puts_seq _ _ (default null_str t) text'); [intros s Hok; by apply console_puts_run|by apply IH2].
  - intros (text' & Ht & ->)%fmap_Some. 
    apply (puts_seq _ _ [x25] ([d] ++ text')); [apply puts_char|]. apply (puts_seq _ _ [d] text'); [apply puts_char|by apply IH2].
Qed.

(** C32. [cprintf] is a terminal printing the formatted text: whenever the
    arguments match the format, the screen afterwards is the screen before
    with the text typed on it - characters at the cursor, lines wrapped at the
    last column, the screen scrolled at the last row, backspace and carriage
    return obeyed -, the cursor stays on the screen, no cell outside the
    array is touched, and the console lock is free again. *)
Theorem cprintf_refines_terminal fmt args text s :
  Forall (λ c, c ≠ x00) fmt → format fmt args = Some text →
  cons_ok (the_cons s) → settled (k_cpu s) → k_locks s !! LkCons = None →
  wp (cprintf (fmt ++ [x00]) args s)
    (λ _, shows (term_puts (cols_of (the_cons s)) text (term_of (the_cons s))) s).
Proof.
  intros Hz Hf Hok Hc Hl. pose proof (cprintf_loop_run fmt args text Hz Hf) as Hrun. unfold cprintf. rewrite bind_gets.
  assert (∀ s1 s', drawn s1 s' → cn_locking (the_cons s') = cn_locking (the_cons s1)) as Hlk.
  { intros s1 s' [_ (b & y & x & ->)]. done. }
  destruct (cn_locking (the_cons s)) eqn:El; cbn [when].
  - erewrite bind_done by (apply acquire_run; [apply Hc|done]).
    set (s1 := set_k_locks (insert LkCons spin_held) (set_k_cpu cpu_push s)).
    apply wp_bind. kuse (Hrun s1); [done|]. intros _ s2 ([(f & k & E) Hsh] & Hok2 & Ht). rewrite bind_gets.
    rewrite (Hlk s1 s2); [|split; [by exists f, k|done]]. change (cn_locking (the_cons s1)) with (cn_locking (the_cons s)). rewrite El. cbn [when].
    rewrite (release_after_acquire LkCons s) by (by rewrite ?E). cbn [wp].
    assert (the_cons (set_k_cpu (λ _, k_cpu s) (set_k_locks (λ _, k_locks s) s2)) = the_cons s2) as Ec by done.
    split; [|by rewrite Ec]. split; [|by rewrite Ec]. exists f, k. rewrite E. unfold s1. by kext.
  - rewrite bind_ret_l. apply wp_bind. kuse (Hrun s); [done|]. intros _ s2 H2. rewrite bind_gets, (Hlk s s2), El by apply H2. done.
Qed.

(** A 80x25 screen with the cursor in its last cell. *)
Definition kstate_screen : kstate :=
  upd_cons (λ _, mk_cons ∅ 24 79 80 25 0 0 0 8 16 true) kstate0.
Lemma cprintf_refines_terminal_witness :
  wp (cprintf ([x78; x3d; x25; x64] ++ [x00]) [AInt (-7)] kstate_screen) (λ _ s',
    cn_cur_y (the_cons s') = 24 ∧ cn_cur_x (the_cons s') = 3).
Proof.
  eapply wp_mono; [apply (cprintf_refines_terminal _ _ [x78; x3d; x2d; x37])|].
  - repeat constructor; done.
  - vm_compute. reflexivity.
  - repeat split; vm_compute; done.
  - split; [split; vm_compute; done|done].
  - reflexivity.
  - intros _ s' (_ & [_ Hx Hy] & Ht). apply (f_equal (λ t, (t_y t, t_x t))) in Ht.
    assert (Z.to_nat (cn_cur_y (the_cons s')) = 24%nat ∧ Z.to_nat (cn_cur_x (the_cons s')) = 3%nat) as [Ey Ex]; [|lia].
    revert Ht. unfold term_of at 1. cbn [t_y t_x]. vm_compute (term_puts _ _ _). by intros [= -> ->].
Defined.
