(* ===== verification/ConsoleInput.v ===== *)
(** * The line discipline of the console

    Keyboard input is edited line by line.  [line] is the reference: the bytes
    that may be read, and the line being typed, which backspace and control-U
    edit and which newline, control-D or a full buffer release.  The ring with
    its three 32-bit indices is that, across index overflow. *)
From S2P Require Import Prelude State Spinlock Sched Sleeplock Ring Bio Balloc CString Inode Dir FileMap InodeSpec FileSpec InodeCache Kalloc Pipe File FileRead Vm Font Gop Kbd Console ConsoleSpec.

(** ** The reference *)

Record line := mk_line { l_ready : list byte; l_edit : list byte }.

Definition ends_line (c : Z) (l : line) : bool :=
  bool_decide (c = 10) || bool_decide (c = 4) || bool_decide (length (l_ready l ++ l_edit l) = INPUT_BUF).

(** One character from the keyboard: the new line, and what is echoed. *)
Definition type_char (c : Z) (l : line) : line * list byte :=
  if decide (c = 21) then (mk_line (l_ready l) [], replicate (length (l_edit l)) BS)
  else if decide (c = 8) then
    (mk_line (l_ready l) (removelast (l_edit l)), match l_edit l with [] => [] | _ => [BS] end)
  else if decide (c = 0 ∨ (INPUT_BUF ≤ length (l_ready l ++ l_edit l))%nat) then (l, [])
  else
    let c := if decide (c = 13) then 10 else c in
    let l' := mk_line (l_ready l) (l_edit l ++ [chr c]) in
    (if ends_line c l' then mk_line (l_ready l ++ l_edit l') [] else l', [chr c]).

(** Taking at most [n] bytes: up to a newline; control-D ends the input, and
    is left for the next read when something was read before it. *)
Fixpoint take_line (first : bool) (n : nat) (l : list byte) : option (list byte * list byte) :=
  match n with
  | O => Some ([], l)
  | S n' =>
    match l with
    | [] => None
    | c :: l' =>
      if decide (c = x04) then Some ([], if first then l' else l)
      else if decide (c = LF) then Some ([c], l')
      else prod_map (c ::.) id <$> take_line false n' l'
    end
  end.

(** ** The ring *)

Record holds_line (n : input) (l : line) : Prop := {
  hl_length : length (in_buf n) = INPUT_BUF;
  hl_r : 0 ≤ in_r n < 2 ^ 32;
  hl_w : in_w n = u32 (in_r n + Z.of_nat (length (l_ready l)));
  hl_e : in_e n = u32 (in_r n + Z.of_nat (length (l_ready l ++ l_edit l)));
  hl_room : (length (l_ready l ++ l_edit l) ≤ INPUT_BUF)%nat;
  hl_data : ∀ k c, (l_ready l ++ l_edit l) !! k = Some c → in_get (in_r n + Z.of_nat k) n = c;
  hl_edit : LF ∉ l_edit l
}.

Lemma in_idx_u32 i : in_idx (u32 i) = in_idx i.
Proof.
  unfold in_idx, u32. f_equal. change (Z.of_nat INPUT_BUF) with (2 ^ 7).
  change (2 ^ 32) with (2 ^ 7 * 2 ^ 25). rewrite Z.rem_mul_r by lia.
  rewrite Z.mul_comm, Z.mod_add, Z.mod_mod by lia. done.
Qed.
Lemma in_idx_bound i : (in_idx i < INPUT_BUF)%nat.
Proof. unfold in_idx. change (Z.of_nat INPUT_BUF) with 128. pose proof (Z.mod_pos_bound i 128 ltac:(lia)). unfold INPUT_BUF. lia. Qed.
Lemma in_idx_ne i j : 0 < i - j < 128 → in_idx i ≠ in_idx j.
Proof.
  unfold in_idx. change (Z.of_nat INPUT_BUF) with 128. intros H E. apply Z2Nat.inj in E; [|apply Z.mod_pos_bound; lia..].
  pose proof (Z.div_mod i 128 ltac:(lia)). pose proof (Z.div_mod j 128 ltac:(lia)). rewrite E in *. lia.
Qed.

(** Distances of indices. *)
Lemma u32_shift a b : u32 (u32 a + b) = u32 (a + b).
Proof. unfold u32. by rewrite Z.add_mod_idemp_l. Qed.
Lemma u32_dist r k : 0 ≤ r < 2 ^ 32 → 0 ≤ k < 2 ^ 32 → u32 (u32 (r + k) - r) = k.
Proof. intros Hr Hk. unfold Z.sub. rewrite u32_shift. replace (r + k + - r) with k by lia. by apply u32_small. Qed.
Lemma u32_inj r a b : 0 ≤ r < 2 ^ 32 → 0 ≤ a < 2 ^ 32 → 0 ≤ b < 2 ^ 32 → u32 (r + a) = u32 (r + b) → a = b.
Proof. intros Hr Ha Hb E. rewrite <- (u32_dist r a), <- (u32_dist r b) by done. by rewrite E. Qed.

Section Holds.
Context (n : input) (l : line).
Hypothesis H : holds_line n l.
Notation rd := (l_ready l).
Notation ed := (l_edit l).

Lemma room_Z : 0 ≤ Z.of_nat (length (rd ++ ed)) ≤ 128.
Proof. pose proof (hl_room _ _ H). unfold INPUT_BUF in *. lia. Qed.
Lemma edit_empty : in_e n = in_w n ↔ ed = [].
Proof.
  pose proof room_Z as Hr. rewrite length_app in Hr. rewrite (hl_w _ _ H), (hl_e _ _ H). split.
  - intros E%u32_inj; [|apply (hl_r _ _ H)|rewrite ?length_app; lia..]. rewrite length_app in E. destruct ed; [done|simpl in E; lia].
  - intros ->. by rewrite app_nil_r.
Qed.
Lemma edit_dist : u32 (in_e n - in_w n) = Z.of_nat (length ed).
Proof.
  pose proof room_Z as Hr. rewrite (hl_w _ _ H), (hl_e _ _ H). rewrite length_app in *.
  replace (in_r n + Z.of_nat (length rd + length ed)) with (in_r n + Z.of_nat (length rd) + Z.of_nat (length ed)) by lia.
  rewrite <- u32_shift. apply u32_dist; [apply u32_range|lia].
Qed.
Lemma used_dist : u32 (in_e n - in_r n) = Z.of_nat (length (rd ++ ed)).
Proof. pose proof room_Z. rewrite (hl_e _ _ H). apply u32_dist; [apply (hl_r _ _ H)|lia]. Qed.
Lemma ready_empty : in_r n = in_w n ↔ rd = [].
Proof.
  pose proof room_Z as Hr. rewrite length_app in Hr. rewrite (hl_w _ _ H). split.
  - intros E. replace (in_r n) with (u32 (in_r n + 0)) in E at 1 by (rewrite Z.add_0_r; apply u32_small, (hl_r _ _ H)).
    apply u32_inj in E; [|apply (hl_r _ _ H)|lia..]. destruct rd; [done|simpl in E; lia].
  - intros ->. simpl. rewrite Z.add_0_r. symmetry. apply u32_small, (hl_r _ _ H).
Qed.

(** Its last character is in front of the edit index. *)
Lemma edit_last c ed' : ed = ed' ++ [c] → in_get (u32 (in_e n - 1)) n = c.
Proof.
  intros E. unfold in_get. rewrite in_idx_u32. rewrite <- in_idx_u32. unfold Z.sub. rewrite (hl_e _ _ H), u32_shift, in_idx_u32.
  change (in_get (in_r n + Z.of_nat (length (rd ++ ed)) + -1) n = c).
  rewrite E, app_assoc, length_app. simpl.
  replace (in_r n + Z.of_nat (length (rd ++ ed') + 1) + -1) with (in_r n + Z.of_nat (length (rd ++ ed'))) by lia.
  apply (hl_data _ _ H). rewrite E, app_assoc. by rewrite lookup_app_r, Nat.sub_diag by lia.
Qed.

(** Backspace. *)
Lemma drop_last ed' c : ed = ed' ++ [c] → holds_line (set_in_e (u32 (in_e n - 1)) n) (mk_line rd ed').
Proof.
  intros E. destruct H as [H1 H2 H3 H4 H5 H6 H7]. rewrite E in *. rewrite app_assoc, length_app in H4, H5. simpl in H4, H5. split; simpl; try done.
  - rewrite H4. unfold Z.sub. rewrite u32_shift. f_equal. lia.
  - lia.
  - intros k d Hk. apply H6. rewrite app_assoc. by apply lookup_app_l_Some.
  - set_solver.
Qed.

(** A character at the edit index. *)
Lemma push_edit c : (length (rd ++ ed) < INPUT_BUF)%nat →
  let n' := set_in_e (u32 (in_e n + 1)) (set_in_buf (<[in_idx (in_e n) := c]> (in_buf n)) n) in
  (c ≠ LF → holds_line n' (mk_line rd (ed ++ [c]))) ∧
  holds_line (set_in_w (in_e n') n') (mk_line (rd ++ ed ++ [c]) []).
Proof.
  intros Hroom n'. destruct H as [H1 H2 H3 H4 H5 H6 H7].
  assert (length (in_buf n') = INPUT_BUF) as Hl by (simpl; by rewrite length_insert).
  assert (in_e n' = u32 (in_r n + Z.of_nat (length (rd ++ ed ++ [c])))) as He.
  { simpl. rewrite H4, u32_shift. f_equal. rewrite !length_app. simpl. lia. }
  assert (length (rd ++ ed ++ [c]) ≤ INPUT_BUF)%nat as Hr by (rewrite !length_app in *; simpl; lia).
  assert (∀ k d, (rd ++ ed ++ [c]) !! k = Some d → in_get (in_r n + Z.of_nat k) n' = d) as Hd.
  { intros k d Hk. rewrite app_assoc in Hk. unfold in_get, n'. simpl. rewrite H4, in_idx_u32. apply lookup_app_Some in Hk as [Hk|[Hge Hk]].
    - rewrite list_lookup_insert_ne; [by apply H6|]. apply lookup_lt_Some in Hk. unfold INPUT_BUF in *. apply in_idx_ne. lia.
    - apply list_lookup_singleton_Some in Hk as [Hk <-]. replace k with (length (rd ++ ed)) by lia.
      by rewrite list_lookup_insert_eq by (rewrite H1; apply in_idx_bound). }
  split.
  - intros Hc. split; simpl; try done. set_solver.
  - split; simpl; rewrite ?app_nil_r; try done. by apply not_elem_of_nil.
Qed.
End Holds.

(** ** One character *)

Lemma upd_input_cons f s : the_cons (upd_input f s) = the_cons s ∧ the_input (upd_input f s) = f (the_input s).
Proof. done. Qed.
Lemma drawn_input s s' : drawn s s' → the_input s' = the_input s ∧ d_kbd (k_dev s') = d_kbd (k_dev s) ∧ d_ps2 (k_dev s') = d_ps2 (k_dev s).
Proof. intros [(f & k & ->) _]. done. Qed.

(** What a keystroke may change: the devices, and which processes are runnable. *)
Record typed (woken : bool) (text : list byte) (s s' : kstate) : Prop := {
  ty_frame : s' = set_k_procs (if woken then fmap (wake_proc ChInput) else id) (set_k_dev (λ _, k_dev s') s);
  ty_ok : cons_ok (the_cons s');
  ty_shape : same_shape (the_cons s) (the_cons s');
  ty_term : term_of (the_cons s') = term_puts (cols_of (the_cons s)) text (term_of (the_cons s))
}.
Definition keys_kept (s s' : kstate) : Prop := d_kbd (k_dev s') = d_kbd (k_dev s) ∧ d_ps2 (k_dev s') = d_ps2 (k_dev s).

Lemma wake_idem (ps : list proc) : wake_proc ChInput <$> (wake_proc ChInput <$> ps) = wake_proc ChInput <$> ps.
Proof.
  rewrite <- list_fmap_compose. apply list_fmap_ext. intros i p _. unfold wake_proc, wake_on. simpl.
  destruct (bool_decide (p_state p = SLEEPING) && bool_decide (p_chan p = Some ChInput)) eqn:E; [done|by rewrite E].
Qed.

Lemma typed_trans w1 w2 t1 t2 a b c : typed w1 t1 a b → typed w2 t2 b c → typed (w1 || w2) (t1 ++ t2) a c.
Proof.
  intros [F1 O1 S1 T1] [F2 O2 S2 T2]. split; [|done|by eapply same_shape_trans|].
  - rewrite F2. rewrite F1 at 1. apply kstate_ext; try done. ksimpl. destruct w1, w2; simpl; try done. by rewrite wake_idem.
  - unfold term_puts in *. rewrite foldl_app, T2, T1.
    assert (cols_of (the_cons b) = cols_of (the_cons a)) as -> by (unfold cols_of; f_equal; apply (same_shape_dims _ _ S1)). done.
Qed.
Lemma typed_refl s : cons_ok (the_cons s) → typed false [] s s.
Proof. intros Hok. split; [by destruct s|done|apply (dr_shape _ _ (drawn_refl s))|done]. Qed.
Lemma typed_input f s : cons_ok (the_cons s) → typed false [] s (upd_input f s).
Proof. intros Hok. split; [by destruct s|done|apply (dr_shape _ _ (drawn_refl s))|done]. Qed.
Lemma typed_shows s s' text : shows (term_puts (cols_of (the_cons s)) text (term_of (the_cons s))) s s' → typed false text s s'.
Proof.
  intros ([(f & k & E) Hs] & Hok & Ht). split; [|done..]. rewrite E. by destruct s.
Qed.
Lemma typed_wake s : cons_ok (the_cons s) → typed true [] s (set_k_procs (fmap (wake_proc ChInput)) s).
Proof. intros Hok. split; [by destruct s|done|apply (dr_shape _ _ (drawn_refl s))|done]. Qed.

(** The console between two characters. *)
Record kb_ok (l : line) (s : kstate) : Prop := {
  kb_line : holds_line (the_input s) l;
  kb_cons : cons_ok (the_cons s);
  kb_cpu : settled (k_cpu s);
  kb_ptable : k_locks s !! LkPtable = None;
  kb_procs : length (k_procs s) = NPROC
}.
Lemma typed_kb w t s s' l l' : kb_ok l s → typed w t s s' → holds_line (the_input s') l' → kb_ok l' s'.
Proof.
  intros [_ _ Hc Hl Hn] [F O _ _] Hin. split; [done|done|..]; rewrite F; try done.
  ksimpl. destruct w; [by rewrite length_fmap|done].
Qed.

Lemma echo_run l c f s : kb_ok l s → 
  wp ((modify (upd_input f) ;;; console_putc c) s) (λ _ s', typed false [c] s s' ∧ keys_kept s s' ∧ the_input s' = f (the_input s)).
Proof.
  intros Hok. rewrite bind_modify. kuse console_putc_run; [apply Hok|]. intros _ s1 H1. destruct (drawn_input _ _ (proj1 H1)) as (E & K1 & K2).
  split; [|split; [by split|done]]. change [c] with ([] ++ [c]). change false with (false || false).
  eapply typed_trans; [apply (typed_input f), Hok|]. by apply typed_shows.
Qed.

Lemma kill_line_run rd : ∀ ed fuel s, kb_ok (mk_line rd ed) s → (length ed < fuel)%nat →
  wp (kill_line fuel s) (λ _ s', typed false (replicate (length ed) BS) s s' ∧ keys_kept s s' ∧ kb_ok (mk_line rd []) s').
Proof.
  intros ed. induction ed as [|c ed IH] using rev_ind; intros [|fuel] s Hok Hf; try (simpl in Hf; lia).
  - cbn [kill_line]. rewrite bind_gets, bool_decide_true by by apply (edit_empty _ _ (kb_line _ _ Hok)). simpl.
    split; [apply typed_refl, Hok|]. split; [by split|done].
  - cbn [kill_line]. rewrite bind_gets. pose proof (kb_line _ _ Hok) as Hl.
    rewrite bool_decide_false by (rewrite (edit_empty _ _ Hl); simpl; by destruct ed).
    rewrite (edit_last _ _ Hl c ed eq_refl). rewrite bool_decide_false by (intros ->; apply (hl_edit _ _ Hl); simpl; set_solver). simpl andb. cbv iota.
    rewrite length_app in *. simpl in Hf.
    pose proof (echo_run _ BS (λ n, set_in_e (u32 (in_e n - 1)) n) s Hok) as He. apply wp_bind_inv in He. apply wp_bind.
    kuse He. intros _ s1 He1. apply wp_bind. kuse He1. intros _ s2 (T2 & [K1 K2] & E2).
    assert (kb_ok (mk_line rd ed) s2) as Hok2 by (eapply typed_kb; [exact Hok|exact T2|]; rewrite E2; apply (drop_last _ _ Hl ed c eq_refl)).
    kuse (IH fuel s2 Hok2); [lia|]. intros _ s3 (T3 & [K3 K4] & Hok3).
    split; [|split; [split; congruence|done]]. simpl. rewrite Nat.add_1_r. by eapply (typed_trans false false [BS]).
Qed.

Definition longer (l l' : line) : bool := negb (bool_decide (l_ready l' = l_ready l)).

Lemma longer_same rd a b : longer (mk_line rd a) (mk_line rd b) = false.
Proof. unfold longer. by rewrite bool_decide_true. Qed.

Lemma chr_LF c : 0 ≤ c < 256 → chr c = LF → c = 10.
Proof. intros Hc E. apply (f_equal b2z) in E. unfold chr in E. rewrite b2z_z2b, Z.mod_small in E by done. done. Qed.

(** The stored character is released to the readers, or not. *)
Lemma ends_line_run c l n : holds_line n l → (0 < length (l_ready l ++ l_edit l))%nat →
  (bool_decide (c = 10) || bool_decide (c = C 68) || bool_decide (in_e n = u32 (in_r n + Z.of_nat INPUT_BUF))) = ends_line c l.
Proof.
  intros H Hpos. unfold ends_line. change (C 68) with 4. f_equal. apply bool_decide_ext. rewrite (hl_e _ _ H). split.
  - intros E. pose proof (room_Z _ _ H). apply u32_inj in E; [unfold INPUT_BUF in *; lia|apply (hl_r _ _ H)|lia|unfold INPUT_BUF; lia].
  - intros ->. done.
Qed.

Section Char.
Context {wf : WakeFuel}.

Lemma store_char_run c l s : 0 ≤ c < 256 → c ≠ 13 → kb_ok l s → (length (l_ready l ++ l_edit l) < INPUT_BUF)%nat →
  wp ((modify (upd_input (λ n, set_in_e (u32 (in_e n + 1)) (set_in_buf (<[in_idx (in_e n) := chr c]> (in_buf n)) n))) ;;;
    console_putc (chr c) ;;;
    let! n := gets the_input in
    when (bool_decide (c = 10) || bool_decide (c = C 68) || bool_decide (in_e n = u32 (in_r n + Z.of_nat INPUT_BUF)))
      (modify (upd_input (λ n, set_in_w (in_e n) n)) ;;; wakeup ChInput)) s)
    (λ _ s', let l1 := mk_line (l_ready l) (l_edit l ++ [chr c]) in
      let l' := if ends_line c l1 then mk_line (l_ready l ++ l_edit l1) [] else l1 in
      typed (longer l l') [chr c] s s' ∧ keys_kept s s' ∧ kb_ok l' s').
Proof.
  intros Hc H13 Hok Hroom. pose proof (kb_line _ _ Hok) as Hl. destruct (push_edit _ _ Hl (chr c) Hroom) as [Hpush Hend].
  pose proof (echo_run _ (chr c) (λ n, set_in_e (u32 (in_e n + 1)) (set_in_buf (<[in_idx (in_e n) := chr c]> (in_buf n)) n)) s Hok) as He.
  apply wp_bind_inv in He. apply wp_bind. kuse He. intros _ s1 He1. apply wp_bind. kuse He1. clear s1 He1. intros _ s1 (T1 & [K1 K2] & E1).
  rewrite bind_gets. cbv zeta. set (l1 := mk_line (l_ready l) (l_edit l ++ [chr c])) in *.
  assert (bool_decide (c = 10) || bool_decide (c = C 68) || bool_decide (in_e (the_input s1) = u32 (in_r (the_input s1) + Z.of_nat INPUT_BUF)) = ends_line c l1) as ->.
  { rewrite E1. destruct (decide (c = 10)) as [->|Hne]; [done|]. apply ends_line_run; [apply Hpush; intros E; apply Hne; by apply chr_LF|].
    unfold l1. simpl. rewrite !length_app. simpl. lia. }
  destruct (ends_line c l1) eqn:Ee; cbn [when].
  - rewrite bind_modify. set (s2 := upd_input (λ n, set_in_w (in_e n) n) s1).
    assert (holds_line (the_input s2) (mk_line (l_ready l ++ l_edit l1) [])) as Hin by (change (the_input s2) with (set_in_w (in_e (the_input s1)) (the_input s1)); by rewrite E1).
    assert (kb_ok (mk_line (l_ready l ++ l_edit l1) []) s2) as Hok2.
    { eapply typed_kb; [exact Hok| |exact Hin]. eapply (typed_trans false false); [exact T1|]. apply typed_input, T1. }
    rewrite wakeup_run by apply Hok2. cbn [wp].
    assert (longer l (mk_line (l_ready l ++ l_edit l1) []) = true) as ->.
    { unfold longer. simpl. rewrite bool_decide_false; [done|]. intros E. apply (f_equal length) in E. rewrite !length_app in E. simpl in E. lia. }
    split; [|split; [by split|]].
    + change [chr c] with ([chr c] ++ [] ++ []). change true with (false || (false || true)). eapply typed_trans; [exact T1|].
      eapply typed_trans; [apply (typed_input (λ n, set_in_w (in_e n) n)), T1|]. apply typed_wake, Hok2.
    + destruct Hok2. split; try done. ksimpl. by rewrite length_fmap.
  - cbn [wp ret]. assert (longer l l1 = false) as -> by (destruct l; apply longer_same).
    split; [done|]. split; [by split|]. eapply typed_kb; [exact Hok|exact T1|]. rewrite E1. apply Hpush. intros E.
    apply chr_LF in E; [|done]. subst c. by unfold ends_line in Ee.
Qed.

Lemma console_char_run c l s : 0 ≤ c < 256 → kb_ok l s →
  wp (console_char c s) (λ _ s', let '(l', text) := type_char c l in
    typed (longer l l') text s s' ∧ keys_kept s s' ∧ kb_ok l' s').
Proof.
  intros Hc Hok. pose proof (kb_line _ _ Hok) as Hl. unfold console_char, type_char. change (C 85) with 21. change (C 72) with 8.
  destruct l as [rd ed]. cbn [l_ready l_edit] in *.
  destruct (decide (c = 21)) as [->|H21]; [rewrite bool_decide_true by done|rewrite bool_decide_false by done].
  { rewrite bind_gets, (edit_dist _ _ Hl). cbn [l_edit]. rewrite Nat2Z.id. kuse kill_line_run; [done|lia|].
    intros _ s1 (T & K & Hok1). rewrite longer_same. done. }
  assert (∀ text, text = [] → wp (ret tt s) (λ _ s', typed (longer (mk_line rd ed) (mk_line rd ed)) text s s' ∧ keys_kept s s' ∧ kb_ok (mk_line rd ed) s')) as Hnop.
  { intros text ->. rewrite longer_same. split; [apply typed_refl, Hok|]. by split. }
  destruct (decide (c = 8)) as [->|H8]; [rewrite bool_decide_true by done|rewrite bool_decide_false by done].
  { rewrite bind_gets. destruct ed as [|x ed _] using rev_ind.
    - rewrite bool_decide_true by by apply (edit_empty _ _ Hl). by apply Hnop.
    - rewrite bool_decide_false by (rewrite (edit_empty _ _ Hl); simpl; by destruct ed).
      kuse (echo_run _ BS (λ n, set_in_e (u32 (in_e n - 1)) n) s Hok). intros _ s1 (T & K & E1).
      rewrite removelast_last, longer_same. assert ((match ed ++ [x] with [] => [] | _ => [BS] end) = [BS]) as -> by by destruct ed.
      split; [done|]. split; [done|]. eapply typed_kb; [exact Hok|exact T|]. rewrite E1. apply (drop_last _ _ Hl ed x eq_refl). }
  rewrite bind_gets, (used_dist _ _ Hl). cbn [l_ready l_edit].
  destruct (decide (c = 0 ∨ (INPUT_BUF ≤ length (rd ++ ed))%nat)) as [Hstop|Hgo].
  { assert (bool_decide (c = 0) || negb (bool_decide (Z.of_nat (length (rd ++ ed)) < Z.of_nat INPUT_BUF)) = true) as ->; [|by apply Hnop].
    destruct Hstop as [->|Hf]; [done|]. rewrite (bool_decide_false (Z.of_nat _ < _)) by lia. by destruct (bool_decide (c = 0)). }
  assert (bool_decide (c = 0) || negb (bool_decide (Z.of_nat (length (rd ++ ed)) < Z.of_nat INPUT_BUF)) = false) as ->.
  { rewrite (bool_decide_false (c = 0)), (bool_decide_true (Z.of_nat _ < _)); [done|lia|tauto]. }
  assert (∀ P : Z, (if bool_decide (c = 13) then 10 else c) = (if decide (c = 13) then 10 else c)) as Hif by (intros _; by case_bool_decide; case_decide).
  rewrite (Hif 0). set (c' := if decide (c = 13) then 10 else c). cbv zeta.
  kuse (store_char_run c' (mk_line rd ed) s); [unfold c'; case_decide; lia|unfold c'; by case_decide|done|simpl; lia|].
  intros _ s1 H1. cbv zeta in H1. cbn [l_ready l_edit] in *. destruct (ends_line _ _); done.
Qed.

(** ** The keyboard interrupt *)

Fixpoint decode (st : Z) (scs : list Z) : list Z * Z :=
  match scs with
  | [] => ([], st)
  | sc :: scs' => let '(st1, c) := kbd_step st sc in let '(cs, st2) := decode st1 scs' in (c :: cs, st2)
  end.
Fixpoint type_chars (cs : list Z) (l : line) : line * list byte :=
  match cs with
  | [] => (l, [])
  | c :: cs' => let '(l1, t1) := type_char c l in let '(l2, t2) := type_chars cs' l1 in (l2, t1 ++ t2)
  end.

Lemma table_range (m : list Z) i : Forall (λ c, 0 ≤ c < 256) m → 0 ≤ m !!! i < 256.
Proof.
  intros Hm. rewrite list_lookup_total_alt. destruct (m !! i) as [c|] eqn:E; simpl; [|unfold inhabitant; simpl; lia].
  exact (Forall_lookup_1 _ _ _ _ Hm E).
Qed.
Lemma char_code_range i : Forall (λ c, 0 ≤ c < 256) (char_code i).
Proof.
  unfold char_code. repeat case_bool_decide; apply (bool_decide_unpack _); vm_compute; exact I.
Qed.
(** [kbd_getc] returns a byte for every scan code. *)
Lemma kbd_step_range st sc : 0 ≤ (kbd_step st sc).2 < 256.
Proof.
  assert (∀ m i, Forall (λ c, 0 ≤ c < 256) m → 0 ≤ (let c := m !!! i in
    if bool_decide (97 ≤ c ≤ 122) then c - 97 + 65 else if bool_decide (65 ≤ c ≤ 90) then c - 65 + 97 else c) < 256) as Hcaps.
  { intros m i Hm. pose proof (table_range m i Hm). cbv zeta. repeat case_bool_decide; lia. }
  unfold kbd_step. case_bool_decide; [simpl; lia|]. case_bool_decide; [simpl; lia|].
  destruct (bool_decide (Z.land st E0ESC ≠ 0)); cbv zeta; cbn [snd];
    (case_bool_decide; [apply Hcaps, char_code_range|apply table_range, char_code_range]).
Qed.

Lemma longer_prefix cs : ∀ l l' t, type_chars cs l = (l', t) → ∃ r, l_ready l' = l_ready l ++ r.
Proof.
  induction cs as [|c cs IH]; intros l l' t; simpl; [intros [= <- <-]; exists []; by rewrite app_nil_r|].
  destruct (type_char c l) as [l1 t1] eqn:E1. destruct (type_chars cs l1) as [l2 t2] eqn:E2. intros [= <- <-].
  destruct (IH _ _ _ E2) as [r ->]. revert E1. unfold type_char. repeat case_decide; intros [= <- <-]; eauto.
  all: cbn [l_ready]; repeat case_match; cbn [l_ready]; rewrite <- ?app_assoc; eauto.
Qed.
Lemma longer_spec l l' r : l_ready l' = l_ready l ++ r → longer l l' = negb (bool_decide (r = [])).
Proof.
  intros E. unfold longer. f_equal. apply bool_decide_ext. rewrite E. split; [|intros ->; apply app_nil_r].
  intros E'. apply (app_inv_head (l_ready l)). by rewrite app_nil_r.
Qed.
Lemma type_char_ready c l : ∃ r, l_ready (type_char c l).1 = l_ready l ++ r.
Proof.
  destruct (longer_prefix [c] l (type_char c l).1 (type_char c l).2 ltac:(simpl; destruct (type_char c l); by rewrite app_nil_r)) as [r E].
  by exists r.
Qed.

Lemma type_chars_run ps2 : ∀ fuel l s, (length ps2 ≤ fuel)%nat → d_ps2 (k_dev s) = ps2 → kb_ok l s →
  let '(l', text) := type_chars (decode (d_kbd (k_dev s)) ps2).1 l in
  wp (console_intr_loop fuel s) (λ _ s', typed (longer l l') text s s' ∧ kb_ok l' s' ∧
    d_ps2 (k_dev s') = [] ∧ d_kbd (k_dev s') = (decode (d_kbd (k_dev s)) ps2).2).
Proof.
  induction ps2 as [|sc ps2 IH]; intros fuel l s Hf Hps Hok.
  - simpl. assert (console_intr_loop fuel s = Done tt s) as ->.
    { destruct fuel; cbn [console_intr_loop]; unfold kbd_getc; (erewrite bind_done by (rewrite bind_gets, Hps; reflexivity)); done. }
    cbn [wp]. destruct l. rewrite longer_same. split; [apply typed_refl, Hok|done].
  - destruct fuel as [|fuel]; [simpl in Hf; lia|]. cbn [decode]. destruct (kbd_step (d_kbd (k_dev s)) sc) as [st c] eqn:Ek.
    destruct (decode st ps2) as [cs st2] eqn:Ed. cbn [fst snd type_chars].
    destruct (type_char c l) as [l1 t1] eqn:E1. destruct (type_chars cs l1) as [l2 t2] eqn:E2.
    cbn [console_intr_loop]. unfold kbd_getc at 1. pose proof (kbd_step_range (d_kbd (k_dev s)) sc) as Hc. rewrite Ek in Hc. simpl in Hc.
    set (s1 := set_k_dev (λ d, set_d_kbd st (set_d_ps2 ps2 d)) s).
    erewrite (bind_done _ _ _ c s1) by (rewrite bind_gets, Hps, Ek; reflexivity).
    rewrite bool_decide_true by lia.
    assert (typed false [] s s1) as T1 by (split; [by destruct s|apply Hok|apply (dr_shape _ _ (drawn_refl s))|done]).
    assert (kb_ok l s1) as Hok1 by (eapply typed_kb; [exact Hok|exact T1|apply Hok]).
    apply wp_bind. kuse (console_char_run c l s1 Hc Hok1). intros _ s2. rewrite E1. intros (T2 & [K1 K2] & Hok2).
    assert (d_kbd (k_dev s2) = st) as Hst by (by rewrite K1).
    specialize (IH fuel l1 s2 ltac:(simpl in Hf; lia) ltac:(by rewrite K2) Hok2). rewrite Hst, Ed in IH. cbn [fst snd] in IH. rewrite E2 in IH.
    kuse IH. intros _ s3 (T3 & Hok3 & Hp3 & Hs3). split; [|done].
    destruct (type_char_ready c l) as [r1 R1]. rewrite E1 in R1. simpl in R1. destruct (longer_prefix cs l1 l2 t2 E2) as [r2 R2].
    assert (longer l l1 || longer l1 l2 = longer l l2) as <-.
    { rewrite (longer_spec l l1 r1), (longer_spec l1 l2 r2), (longer_spec l l2 (r1 ++ r2)) by (done || (rewrite R2, R1; by rewrite app_assoc)).
      by destruct r1, r2. }
    change (t1 ++ t2) with ([] ++ t1 ++ t2). change (longer l l1 || longer l1 l2) with (false || (longer l l1 || longer l1 l2)).
    eapply typed_trans; [exact T1|]. by eapply typed_trans.
Qed.

Lemma console_intr_run l s :
  kb_ok l s → k_locks s !! LkCons = None →
  let '(l', text) := type_chars (decode (d_kbd (k_dev s)) (d_ps2 (k_dev s))).1 l in
  wp (console_intr s) (λ _ s', holds_line (the_input s') l' ∧ typed (longer l l') text s s' ∧ d_ps2 (k_dev s') = []).
Proof.
  intros Hok Hlk. pose proof (type_chars_run (d_ps2 (k_dev s)) (length (d_ps2 (k_dev s))) l
    (set_k_locks (insert LkCons spin_held) (set_k_cpu cpu_push s)) ltac:(done) eq_refl) as H.
  change (k_dev (set_k_locks (insert LkCons spin_held) (set_k_cpu cpu_push s))) with (k_dev s) in H.
  destruct (type_chars _ l) as [l' text]. unfold console_intr.
  erewrite bind_done by (apply acquire_run; [apply Hok|done]). rewrite bind_gets. set (s1 := set_k_locks _ _) in *.
  assert (kb_ok l s1) as Hok1.
  { split; try apply Hok; [apply cpu_push_settled, Hok|]. simpl. rewrite lookup_insert_ne by done. apply Hok. }
  apply wp_bind. kuse (H Hok1). intros _ s2 ([F O S T] & Hok2 & Hps & _).
  rewrite (release_after_acquire LkCons s) by (apply Hok || done || by rewrite F). cbn [wp].
  split; [apply Hok2|]. split; [|done]. split; [|done..]. rewrite F at 1. unfold s1. by kext.
Qed.

(** C34. The keyboard interrupt handler is the reference line editor: it decodes
    every waiting scan code, applies backspace, control-U and line ending to
    the line being typed exactly as [type_char] says (also when the 32-bit
    indices wrap around), echoes each keystroke on the terminal, never stores
    past a full buffer, wakes the readers exactly when input was released,
    empties the keyboard's queue, and leaves the console lock free. *)
Theorem console_intr_refines_editor l s :
  kb_ok l s → k_locks s !! LkCons = None →
  let '(l', text) := type_chars (decode (d_kbd (k_dev s)) (d_ps2 (k_dev s))).1 l in
  wp (console_intr s) (λ _ s', holds_line (the_input s') l' ∧ typed (longer l l') text s s' ∧ d_ps2 (k_dev s') = []).
Proof. apply console_intr_run. Qed.
End Char.

(** ** Reading *)

Section Read.
Context {wf : WakeFuel}.

Lemma take_ready n c rd ed : holds_line n (mk_line (c :: rd) ed) →
  in_r n ≠ in_w n ∧ in_get (in_r n) n = c ∧ holds_line (set_in_r (u32 (in_r n + 1)) n) (mk_line rd ed) ∧
  set_in_r (u32 (u32 (in_r n + 1) - 1)) n = n.
Proof.
  intros H. split; [rewrite (ready_empty _ _ H); done|]. split.
  { rewrite <- (Z.add_0_r (in_r n)). by apply (hl_data _ _ H 0%nat c). }
  split.
  - destruct H as [H1 H2 H3 H4 H5 H6 H7]. cbn [l_ready l_edit] in *. simpl length in *. split; cbn [set_in_r in_buf in_r in_w in_e l_ready l_edit]; try done.
    + apply u32_range.
    + rewrite u32_shift, H3. f_equal. lia.
    + rewrite u32_shift, H4. f_equal. lia.
    + lia.
    + intros k d Hk. unfold in_get. cbn [in_buf set_in_r]. rewrite <- in_idx_u32, u32_shift, in_idx_u32.
      replace (in_r n + 1 + Z.of_nat k) with (in_r n + Z.of_nat (S k)) by lia. by apply (H6 (S k) d).
  - unfold Z.sub. rewrite u32_shift. replace (in_r n + 1 + - (1)) with (in_r n) by lia.
    rewrite u32_small by apply (hl_r _ _ H). by destruct n.
Qed.

Lemma ctrl_d c : sgn 8 (b2z c) = C 68 ↔ c = x04.
Proof. split; [|by intros ->]. change (C 68) with 4. destruct c; vm_compute; done. Qed.

(** Only the input record changes. *)
Definition input_step (s s' : kstate) : Prop := s' = upd_input (λ _, the_input s') s.
Lemma input_step_trans a b c : input_step a b → input_step b c → input_step a c.
Proof. unfold input_step. intros E1 E2. rewrite E2, E1. done. Qed.

Lemma read_loop_run n0 ed fuel : 0 ≤ n0 < 2 ^ 31 → ∀ k rd out rd' dst s,
  holds_line (the_input s) (mk_line rd ed) → Z.of_nat k ≤ n0 → (k < fuel)%nat →
  take_line (bool_decide (Z.of_nat k = n0)) k rd = Some (out, rd') →
  wp (console_read_loop fuel (Z.of_nat k) n0 dst s) (λ r s', r = (Some (Z.of_nat k - Z.of_nat (length out)), dst ++ out) ∧
    input_step s s' ∧ holds_line (the_input s') (mk_line rd' ed)).
Proof.
  intros Hn0. induction fuel as [|fuel IH]; intros k rd out rd' dst s Hl Hk Hf Ht; [lia|]. cbn [console_read_loop].
  destruct k as [|k]; cbn [take_line] in Ht.
  { injection Ht as <- <-. simpl. rewrite app_nil_r. split; [done|]. split; [|done]. unfold input_step. by destruct s as [? ? ? ? ? ? ? ? ? ? ? ? ? []]. }
  rewrite bool_decide_true by lia. destruct rd as [|c rd]; [done|].
  destruct (take_ready _ _ _ _ Hl) as (Hne & Hget & Hl1 & Hback).
  erewrite (bind_done _ _ _ true s) by (destruct wake_fuel; cbn [wait_input]; rewrite bind_gets, bool_decide_false by done; done).
  cbn [negb]. rewrite bind_gets, Hget. cbv zeta. rewrite bind_modify. set (s1 := upd_input (λ i, set_in_r (u32 (in_r i + 1)) i) s).
  assert (input_step s s1) as D1 by done.
  destruct (decide (c = x04)) as [->|H4].
  - rewrite bool_decide_true by done. rewrite u64_small by lia. injection Ht as <- <-. rewrite app_nil_r. simpl length. rewrite Z.sub_0_r.
    destruct (decide (Z.of_nat (S k) = n0)) as [E|E].
    + rewrite (bool_decide_false (_ < _)), (bool_decide_true (_ = _)) by lia. cbn [when wp bind ret rbind]. done.
    + rewrite (bool_decide_true (_ < _)), (bool_decide_false (_ = _)) by lia. cbn [when]. rewrite bind_modify. cbn [wp ret].
      split; [done|]. assert (upd_input (λ i, set_in_r (u32 (in_r i - 1)) i) s1 = s) as ->.
      { unfold s1, upd_input, set_k_dev. cbn. fold (the_input s).
        transitivity (set_k_dev (λ d, set_d_input (set_in_r (u32 (u32 (in_r (the_input s) + 1) - 1)) (the_input s)) d) s); [done|].
        rewrite Hback. unfold the_input. by destruct s as [? ? ? ? ? ? ? ? ? ? ? ? ? []]. }
      split; [|done]. unfold input_step. by destruct s as [? ? ? ? ? ? ? ? ? ? ? ? ? []].
  - rewrite (bool_decide_false (_ = C 68)) by by rewrite ctrl_d. destruct (decide (c = LF)) as [->|Hlf].
    + rewrite bool_decide_true by done. injection Ht as <- <-. done.
    + rewrite (bool_decide_false (c = LF)) by done. apply fmap_Some in Ht as ([out1 rd1] & Ht & [= -> ->]).
      replace (Z.of_nat (S k) - 1) with (Z.of_nat k) by lia.
      kuse (IH k rd out1 rd1 (dst ++ [c]) s1); [exact Hl1|lia|lia|rewrite bool_decide_false by lia; exact Ht|].
      intros r s2 (-> & D2 & Hl2). split; [|split; [by eapply input_step_trans|done]]. rewrite <- app_assoc. f_equal. f_equal.
      simpl length. lia.
Qed.

Lemma take_line_length n : ∀ first l out rest, take_line first n l = Some (out, rest) → (length out ≤ n)%nat.
Proof.
  induction n as [|n IH]; intros first l out rest; cbn [take_line]; [by intros [= <- <-]|].
  destruct l as [|c l]; [done|]. repeat case_decide; try (intros [= <- <-]; simpl; lia).
  intros ([out1 rest1] & E & [= -> ->])%fmap_Some. apply IH in E. simpl. lia.
Qed.

(** [console_read] when a line (or [n] bytes) is there: it does not sleep. *)
Lemma console_read_run ip n l out rd' s :
  holds_line (the_input s) l → 0 ≤ n < 2 ^ 31 → take_line true (Z.to_nat n) (l_ready l) = Some (out, rd') →
  calm s → length (k_procs s) = NPROC → (ip < length (k_inodes s))%nat →
  sl_locked (i_lock (the_inode ip s)) ≠ 0 → 1 ≤ i_ref (the_inode ip s) → i_valid (the_inode ip s) ≠ 0 →
  wp (console_read ip n s) (λ r s', r = (Z.of_nat (length out), out) ∧ holds_line (the_input s') (mk_line rd' (l_edit l)) ∧
    k_locks s' = k_locks s).
Proof.
  intros Hl Hn Ht Hc Hp Hi Hk Hr Hv. unfold console_read. erewrite bind_done by by apply iunlock_run. cbv zeta.
  set (s1 := set_k_procs _ _). assert (calm s1) as Hc1 by done.
  erewrite bind_done by (apply acquire_run; [apply Hc1|by rewrite (proj1 Hc1)]). set (s2 := set_k_locks _ _).
  assert (s32 n = n) as -> by (apply sgn_small; [lia|change (2 ^ (32 - 1)) with (2 ^ 31); lia]).
  apply wp_bind. replace (console_read_loop (S (Z.to_nat n)) n n []) with (console_read_loop (S (Z.to_nat n)) (Z.of_nat (Z.to_nat n)) n []) by (f_equal; lia).
  kuse (read_loop_run n (l_edit l) (S (Z.to_nat n)) Hn (Z.to_nat n) (l_ready l) out rd' [] s2).
  { by destruct l. }
  { lia. }
  { lia. }
  { by rewrite bool_decide_true by lia. }
  intros r s3 (-> & D3 & Hl3). rewrite Z2Nat.id by lia. unfold input_step in D3.
  erewrite (bind_done _ _ _ tt (upd_input (λ _, the_input s3) s1)).
  2:{ rewrite (release_after_acquire LkCons s1) by (apply Hc1 || (by rewrite (proj1 Hc1)) || by rewrite D3). f_equal. rewrite D3. unfold s2. by kext. }
  set (s4 := upd_input (λ _, the_input s3) s1).
  assert (the_inode ip s4 = set_i_lock (mk_sleep 0 0) (the_inode ip s)) as Ei by by apply (the_inode_upd_slk ip (λ _, mk_sleep 0 0)).
  assert (length (k_inodes s4) = length (k_inodes s)) as El by (unfold s4, s1, upd_slk, upd_inode; ksimpl; apply length_alter).
  erewrite bind_done by (apply ilock_valid_run; [exact Hc1|by rewrite El|by rewrite Ei|by rewrite Ei|by rewrite Ei]).
  cbn [wp ret]. split; [|by split]. f_equal. apply take_line_length in Ht.
  replace (n - (n - Z.of_nat (length out))) with (Z.of_nat (length out)) by lia.
  rewrite u64_small by lia. apply sgn_small; [lia|]. change (2 ^ (64 - 1)) with (2 ^ 63). lia.
Qed.

(** ** From the keys to the reader *)

(** A key that is neither an editing key nor a line ending. *)
Definition plain (c : Z) : Prop := 0 < c < 256 ∧ c ∉ [4; 8; 10; 13; 21].

Lemma type_chars_zeros cs : ∀ l, type_chars cs l = type_chars (filter (λ c, c ≠ 0) cs) l.
Proof.
  induction cs as [|c cs IH]; intros l; [done|]. rewrite filter_cons. cbn [type_chars]. case_decide as E.
  - cbn [type_chars]. destruct (type_char c l) as [l1 t1]. by rewrite IH.
  - subst c. assert (type_char 0 l = (l, [])) as -> by (unfold type_char; by rewrite (decide_True (P := 0 = 0 ∨ _)) by (by left)).
    rewrite <- IH. by destruct (type_chars cs l).
Qed.

Lemma type_plain cs : Forall plain cs → ∀ ed, (length ed + length cs < INPUT_BUF)%nat →
  type_chars (cs ++ [10]) (mk_line [] ed) = (mk_line (ed ++ (chr <$> cs) ++ [LF]) [], (chr <$> cs) ++ [LF]).
Proof.
  induction 1 as [|c cs [Hc Hn] _ IH]; intros ed Hl.
  - simpl app. cbn [type_chars]. unfold type_char. cbn [l_ready l_edit app length] in *. rewrite !decide_False by (done || lia).
    done.
  - cbn [app type_chars length] in *. rewrite !not_elem_of_cons in Hn. destruct Hn as (H4 & H8 & H10 & H13 & H21 & _).
    assert (type_char c (mk_line [] ed) = (mk_line [] (ed ++ [chr c]), [chr c])) as ->.
    { unfold type_char. cbn [l_ready l_edit app]. rewrite !decide_False by (done || lia). cbv zeta.
      unfold ends_line. cbn [l_ready l_edit app]. rewrite !bool_decide_false; [done| |done|done]. rewrite length_app. simpl. lia. }
    rewrite IH by (rewrite length_app; simpl; lia). simpl. by rewrite <- app_assoc.
Qed.

Lemma take_plain cs : Forall plain cs → ∀ n first, (length cs < n)%nat →
  take_line first n ((chr <$> cs) ++ [LF]) = Some ((chr <$> cs) ++ [LF], []).
Proof.
  induction 1 as [|c cs [Hc Hn] _ IH]; intros [|n] first Hl; try lia; [done|]. simpl in Hl. cbn [fmap list_fmap app take_line].
  rewrite !not_elem_of_cons in Hn. destruct Hn as (H4 & H8 & H10 & H13 & H21 & _).
  assert (∀ d, chr c = d → c = b2z d) as Hb by (intros d <-; unfold chr; rewrite b2z_z2b; symmetry; apply Z.mod_small; lia).
  rewrite decide_False by (intros E; by apply Hb in E). rewrite decide_False by (intros E; by apply Hb in E).
  by rewrite (IH n false) by lia.
Qed.

(** C35. What is typed is what is read: when the keys waiting at the keyboard
    spell at most 127 ordinary characters and then Enter (with any key
    releases in between), the interrupt handler followed by a read of the
    console with enough room returns exactly the characters and a newline. *)
Theorem typed_line_is_read cs ip n s :
  filter (λ c, c ≠ 0) (decode (d_kbd (k_dev s)) (d_ps2 (k_dev s))).1 = cs ++ [10] →
  Forall plain cs → (length cs < INPUT_BUF)%nat → Z.of_nat (length cs) < n < 2 ^ 31 →
  kb_ok (mk_line [] []) s → calm s → (ip < length (k_inodes s))%nat →
  sl_locked (i_lock (the_inode ip s)) ≠ 0 → 1 ≤ i_ref (the_inode ip s) → i_valid (the_inode ip s) ≠ 0 →
  wp (console_intr s) (λ _ s1, wp (console_read ip n s1) (λ r s2,
    r = (Z.of_nat (length cs) + 1, (chr <$> cs) ++ [LF]) ∧ holds_line (the_input s2) (mk_line [] []))).
Proof.
  intros Hd Hp Hl Hn Hok Hc Hi Hk Hr Hv.
  pose proof (console_intr_run (mk_line [] []) s Hok ltac:(by rewrite (proj1 Hc))) as H.
  rewrite type_chars_zeros, Hd, (type_plain cs Hp []) in H by (simpl; lia). simpl app in H.
  kuse H. intros _ s1 (Hin & [F _ _ _] & _).
  assert (∀ i, the_inode i s1 = the_inode i s) as Ei by (intros i; by rewrite F).
  kuse (console_read_run ip n _ ((chr <$> cs) ++ [LF]) [] s1 Hin); rewrite ?Ei; try done.
  - lia.
  - cbn [l_ready]. apply take_plain; [done|lia].
  - rewrite F. exact Hc.
  - rewrite F. ksimpl. destruct (longer _ _); [rewrite length_fmap|]; apply Hok.
  - by rewrite F.
  - intros r s2 (-> & H2 & _). split; [|done]. f_equal. rewrite length_app, length_fmap. simpl. lia.
Qed.
End Read.

(** ** Witnesses: the keys l, s, Enter, pressed and released *)

#[local] Instance wf3 : WakeFuel := 3%nat.
Definition kstate_keys : kstate :=
  set_k_inodes (alter (λ ip, set_i_ref 1 (set_i_valid 1 (set_i_lock (mk_sleep 1 1) ip))) 0%nat)
    (set_k_dev (λ d, set_d_ps2 [0x26; 0xA6; 0x1F; 0x9F; 0x1C; 0x9C] (set_d_input (mk_input (replicate INPUT_BUF x00) 0xFFFFFFFF 0xFFFFFFFF 0xFFFFFFFF) d))
      kstate_screen).
Lemma kstate_keys_ok : kb_ok (mk_line [] []) kstate_keys.
Proof.
  split; [|split; [split; vm_compute; done|vm_compute; done..]|split; [by split|done]|reflexivity|reflexivity].
  split; [reflexivity|vm_compute; done|reflexivity|reflexivity|simpl; lia|by intros k c|by apply not_elem_of_nil].
Qed.

Lemma typed_line_is_read_witness :
  wp (console_intr kstate_keys) (λ _ s1, wp (console_read 0 16 s1) (λ r s2, r = (3, [x6c; x73; LF]))).
Proof.
  eapply wp_mono; [apply (typed_line_is_read [108; 115] 0 16)|].
  - vm_compute. reflexivity.
  - repeat constructor; apply (bool_decide_unpack _); vm_compute; exact I.
  - apply Nat.ltb_lt. reflexivity.
  - simpl. lia.
  - exact kstate_keys_ok.
  - split; [reflexivity|split; [by split|done]].
  - apply Nat.ltb_lt. reflexivity.
  - vm_compute. done.
  - vm_compute. done.
  - vm_compute. done.
  - intros a s1 H. eapply wp_mono; [exact H|]. intros r s2 (E & _). rewrite E. reflexivity.
Defined.

Lemma console_intr_refines_editor_witness :
  wp (console_intr kstate_keys) (λ _ s', holds_line (the_input s') (mk_line [x6c; x73; LF] [])).
Proof.
  pose proof (console_intr_refines_editor (mk_line [] []) kstate_keys kstate_keys_ok eq_refl) as H.
  destruct (type_chars _ _) as [l' text] eqn:E. vm_compute in E. injection E as <- <-.
  eapply wp_mono; [exact H|]. intros _ s' (Hin & _). exact Hin.
Defined.
