(* ===== verification/Usys.v ===== *)
(** * User programs and their system calls (user/user.h)

    A user program is an interaction tree whose events are its system calls,
    at the level of the values passed: a buffer argument is the bytes written,
    or the bytes read into it.  [fork] answers twice, 0 in the child and the
    child's id in the parent; the tree under a [SFork] holds both programs. *)
From ITree Require Export ITree ITreeFacts Events.State Events.StateFacts.
From S2P Require Import Prelude CString.

Declare Scope prog_scope.
Delimit Scope prog_scope with prog.
Notation "'do' x <- t ; k" := (ITree.bind t (λ x, k))
  (at level 200, x pattern, t at level 100, k at level 200, right associativity) : prog_scope.
Notation "'do!' t ; k" := (ITree.bind t (λ _, k))
  (at level 200, t at level 100, k at level 200, right associativity) : prog_scope.
#[global] Open Scope prog_scope.

(** [struct stat] (kernel/stat.h), as [fstat] fills it in. *)
Record ustat := mk_ustat { us_type : Z; us_ino : Z; us_size : Z }.

Inductive sysE : Type → Type :=
| SFork : sysE Z
| SExit : sysE void
| SWait : sysE Z
| SPipe : sysE (Z * (Z * Z))
| SWrite (fd : Z) (src : list byte) : sysE Z
| SRead (fd n : Z) : sysE (Z * list byte)
| SClose (fd : Z) : sysE Z
| SKill (pid : Z) : sysE Z
| SExec (path : list byte) (argv : list (list byte)) : sysE Z
| SOpen (path : list byte) (mode : Z) : sysE Z
| SMknod (path : list byte) (major minor : Z) : sysE Z
| SUnlink (path : list byte) : sysE Z
| SFstat (fd : Z) : sysE (Z * ustat)
| SLink (old new : list byte) : sysE Z
| SMkdir (path : list byte) : sysE Z
| SChdir (path : list byte) : sysE Z
| SDup (fd : Z) : sysE Z
| SFault : sysE void.  (** not a call: the program touches memory it does not have, and the kernel kills it *)

Definition prog := itree sysE.
Definition call {R} (e : sysE R) : prog R := ITree.trigger e.

(** Calls that do not come back. *)
Definition exit_ {R} : prog R := do v <- call SExit; match (v : void) with end.
Definition fault {R} : prog R := do v <- call SFault; match (v : void) with end.

(** ** Descriptor tables

    The contract between the kernel and its users: a new descriptor is the
    lowest one that is free. *)
Section Table.
Context {A : Type}.
Implicit Types t : list (option A).

Fixpoint fd_lowest t : option nat :=
  match t with [] => None | None :: _ => Some 0%nat | Some _ :: t => S <$> fd_lowest t end.
Definition fd_get (fd : Z) t : option A := if decide (0 ≤ fd) then mjoin (t !! Z.to_nat fd) else None.
Definition fd_open (x : A) t : option (nat * list (option A)) := n ← fd_lowest t; Some (n, <[n := Some x]> t).
Definition fd_drop (fd : Z) t : list (option A) := <[Z.to_nat fd := None]> t.

Lemma fd_lowest_spec t n : fd_lowest t = Some n → t !! n = Some None ∧ ∀ m, (m < n)%nat → is_Some (mjoin (t !! m)).
Proof.
  revert n; induction t as [|[x|] t IH]; intros n; simpl; [done| |].
  - destruct (fd_lowest t) as [k|]; [|done]. intros [= <-]. destruct (IH k) as [? Hm]; [done|]. split; [done|].
    intros [|m] Hlt; [by eexists|]. apply Hm. lia.
  - intros [= <-]. split; [done|]. intros m. lia.
Qed.

Lemma fd_lowest_here (l1 l2 : list (option A)) : Forall is_Some l1 → fd_lowest (l1 ++ None :: l2) = Some (length l1).
Proof. induction 1 as [|x l1 [y ->] _ IH]; [done|]. simpl. by rewrite IH. Qed.

Lemma fd_lowest_full t : Forall is_Some t → fd_lowest t = None.
Proof. induction 1 as [|x l1 [y ->] _ IH]; [done|]. simpl. by rewrite IH. Qed.
End Table.
