(* ===== verification/FdSpec.v ===== *)
(** * Descriptors: the kernel keeps its contract with user programs

    The table of a process's descriptors is the one the user programs are
    verified against (Usys): a new descriptor is the lowest free one. *)
From S2P Require Import Usys Prelude State Spinlock Sched Sleeplock Ring Bio Balloc CString Inode Dir Kalloc Pipe File Vm Proc Umem Exec Sysfile FileSpec.

(** The running process and its table. *)
Record in_proc (c : nat) (s : kstate) : Prop := {
  ip_cpu : settled (k_cpu s);
  ip_proc : c_proc (k_cpu s) = Some c;
  ip_lt : (c < length (k_procs s))%nat;
  ip_ofile : length (p_ofile (the_proc c s)) = NOFILE
}.
Definition table (c : nat) (s : kstate) : list (option nat) := p_ofile (the_proc c s).
Definition with_table (c : nat) (t : list (option nat)) : kstate → kstate := upd_proc c (set_p_ofile t).

Lemma myproc_deref {A} c s (k : nat → M kstate A) : in_proc c s →
  (let! p := myproc in let! i := deref p in k i) s = k c s.
Proof.
  intros [Hc Hp _ _]. erewrite bind_done by by apply myproc_run. rewrite Hp. cbn [deref]. by rewrite bind_ret_l.
Qed.

Lemma table_total c s n : in_proc c s → (n < NOFILE)%nat → table c s !!! n = mjoin (table c s !! n).
Proof.
  intros [_ _ _ Hl] Hn. destruct (lookup_lt_is_Some_2 (table c s) n) as [o E]; [unfold table; lia|].
  rewrite E. by apply list_lookup_total_correct.
Qed.

Lemma fd_lowest_None {A} (t : list (option A)) : fd_lowest t = None → ∀ n x, t !! n = Some x → is_Some x.
Proof.
  induction t as [|[x|] t IH]; simpl; [done| |done]. intros E [|n] y; simpl; [intros [= <-]; by eexists|].
  apply IH. by destruct (fd_lowest t).
Qed.

Section Fd.
Context {wf : WakeFuel} {dsw : DevSw}.

Lemma fd_alloc_run f c s : in_proc c s →
  fd_alloc f s = match fd_open f (table c s) with
                 | Some (n, t) => Done (Z.of_nat n) (with_table c t s)
                 | None => Done (-1) s
                 end.
Proof.
  intros H. unfold fd_alloc. rewrite (myproc_deref c s) by done. unfold fd_open.
  set (body := λ fd : nat, _).
  assert (∀ n, (n < NOFILE)%nat → is_Some (mjoin (table c s !! n)) → body n s = Done None s) as Hskip.
  { intros n Hn [g Hg]. unfold body. rewrite bind_gets. fold (table c s). by rewrite table_total, Hg. }
  destruct (fd_lowest (table c s)) as [n|] eqn:E.
  - apply fd_lowest_spec in E as [Hn Hlt]. cbn [mbind option_bind].
    assert (n < NOFILE)%nat as Hlen by (rewrite <- (ip_ofile c s H); by eapply lookup_lt_Some).
    erewrite bind_done.
    2:{ apply (for_return_first 0 NOFILE n); [lia|intros i Hi; apply Hskip; [lia|apply Hlt; lia]|].
        unfold body. rewrite bind_gets. fold (table c s). rewrite table_total, Hn by done. cbn [mjoin option_join].
        rewrite bind_modify. done. }
    unfold ret. f_equal. unfold with_table, upd_proc. kext. apply list_alter_ext; [|done].
    intros p Hp. apply the_proc_lookup in Hp. unfold table. by rewrite Hp.
  - cbn [mbind option_bind]. erewrite bind_done.
    2:{ apply for_return_none. intros n Hn%elem_of_seq. apply Hskip; [lia|].
        destruct (lookup_lt_is_Some_2 (table c s) n) as [o Eo]; [unfold table; rewrite (ip_ofile c s H); lia|].
        rewrite Eo. by eapply fd_lowest_None. }
    done.
Qed.

Lemma CHECKFD_run fd c s : in_proc c s → CHECKFD fd s = Done (fd_get fd (table c s)) s.
Proof.
  intros H. unfold CHECKFD, fd_get. destruct (decide (0 ≤ fd)) as [H0|H0].
  - rewrite (bool_decide_false (fd < 0)) by lia. cbn [orb]. destruct (decide (Z.of_nat NOFILE ≤ fd)).
    + rewrite bool_decide_true by done. rewrite lookup_ge_None_2; [done|]. unfold table. rewrite (ip_ofile c s H). lia.
    + rewrite bool_decide_false by done. rewrite (myproc_deref c s) by done.
      unfold gets. f_equal. fold (table c s). apply table_total; [done|lia].
  - rewrite (bool_decide_true (fd < 0)) by lia. done.
Qed.

Lemma arg_run r c s : in_proc c s → arg r s = Done (load64 (p_rp (the_proc c s) + r) s) s.
Proof. intros H. unfold arg. by rewrite (myproc_deref c s). Qed.

Lemma fd_clear_run fd c s : in_proc c s → fd_clear fd s = Done tt (with_table c (fd_drop fd (table c s)) s).
Proof.
  intros H. unfold fd_clear. rewrite (myproc_deref c s) by done. unfold modify, with_table, upd_proc. f_equal. kext.
  apply list_alter_ext; [|done]. intros p Hp. apply the_proc_lookup in Hp. unfold table. by rewrite Hp.
Qed.

(** The descriptor a system call was given. *)
Definition fd_arg (c : nat) (s : kstate) : Z := s32 (load64 (p_rp (the_proc c s) + RP_rdi) s).

(** C26. The kernel keeps the contract the user programs rely on: [dup] gives
    the lowest free descriptor to the open file, which gains a reference, and
    fails without effect when the descriptor is not open or the table is
    full; [close] frees exactly the descriptor it was given, and then closes
    the file. *)
Theorem descriptors_lowest c s : in_proc c s → calm s →
  (∀ f, fd_get (fd_arg c s) (table c s) = Some f → (f < length (k_files s))%nat ∧ 1 ≤ f_ref (the_file f s)) →
  sys_dup s =
    match f ← fd_get (fd_arg c s) (table c s); r ← fd_open f (table c s); Some (f, r) with
    | Some (f, (n, t)) => Done (Z.of_nat n) (upd_file f (λ x, set_f_ref (f_ref x + 1) x) (with_table c t s))
    | None => Done (-1) s
    end ∧
  sys_close s =
    match fd_get (fd_arg c s) (table c s) with
    | Some f => (file_close f ;;; ret 0) (with_table c (fd_drop (fd_arg c s) (table c s)) s)
    | None => Done (-1) s
    end.
Proof.
  intros H Hc Hf. split.
  - unfold sys_dup. erewrite bind_done by by apply arg_run. erewrite bind_done by by apply CHECKFD_run.
    fold (fd_arg c s). destruct (fd_get _ _) as [f|] eqn:Eg; [|done]. destruct (Hf f eq_refl) as [Hl Hr].
    pose proof (fd_alloc_run f c s H) as E. cbn [mbind option_bind]. destruct (fd_open f (table c s)) as [[n t]|].
    + erewrite bind_done by exact E. rewrite bool_decide_false by lia. by erewrite bind_done by by apply file_dup_run.
    + erewrite bind_done by exact E. done.
  - unfold sys_close. erewrite bind_done by by apply arg_run. erewrite bind_done by by apply CHECKFD_run.
    fold (fd_arg c s). destruct (fd_get _ _) as [f|] eqn:Eg; [|done]. by erewrite bind_done by by apply fd_clear_run.
Qed.
End Fd.

(** ** Witness: a process with descriptors 0 and 2 open *)
Definition kstate_fds : kstate :=
  upd_file 3 (λ f, set_f_ref 2 f) (upd_proc 1 (set_p_ofile ([Some 3%nat; None; Some 3%nat] ++ replicate 13 None)) kstate_run).

Lemma descriptors_lowest_witness :
  @sys_dup kstate_fds = Done 1 (upd_file 3 (λ x, set_f_ref (f_ref x + 1) x)
    (with_table 1 ([Some 3%nat; Some 3%nat; Some 3%nat] ++ replicate 13 None) kstate_fds)).
Proof.
  destruct (@descriptors_lowest 1%nat 1 kstate_fds) as [E _].
  - split; [apply kstate0_calm|done|apply Nat.ltb_lt; reflexivity|reflexivity].
  - apply kstate0_calm.
  - intros f. change (fd_get (fd_arg 1 kstate_fds) (table 1 kstate_fds)) with (Some 3%nat). intros [= <-].
    split; [apply Nat.ltb_lt; reflexivity|vm_compute; discriminate].
  - rewrite E. change (fd_get (fd_arg 1 kstate_fds) (table 1 kstate_fds)) with (Some 3%nat). reflexivity.
Defined.
