(* ===== verification/Ulib.v ===== *)
(** * The user library (user/ulib.c)

    Strings and memory are the lists of bytes from the pointer on; an access
    past the end is outside the process's memory.  Output goes to the kernel
    one byte at a time. *)
From S2P Require Import Prelude CString Usys Console ConsoleSpec.

(** [int n; for(n = 0; s[n]; n++); return n;] *)
Fixpoint strlen (s : list byte) : option Z :=
  match s with
  | [] => None
  | c :: s => if bool_decide (c = x00) then Some 0 else Z.succ <$> strlen s
  end.

(** The bytes of the array from [dst] on, after the call. *)
Fixpoint memset (dst : list byte) (c : Z) (n : nat) : option (list byte) :=
  match n, dst with
  | O, _ => Some dst
  | S n, _ :: p => cons (z2b c) <$> memset p c n
  | S _, [] => None
  end.
Fixpoint memcpy (dst src : list byte) (n : nat) : option (list byte) :=
  match n, dst, src with
  | O, _, _ => Some dst
  | S n, _ :: d, c :: s => cons c <$> memcpy d s n
  | _, _, _ => None
  end.
Fixpoint strcpy (s t : list byte) : option (list byte) :=
  match s, t with
  | _ :: s, c :: t => if bool_decide (c = x00) then Some (c :: s) else cons c <$> strcpy s t
  | _, _ => None
  end.

Definition putc (fd : Z) (c : byte) : prog unit := do _ <- call (SWrite fd [c]); Ret tt.
Fixpoint put_chars (fd : Z) (l : list byte) : prog unit :=
  match l with [] => Ret tt | c :: l => do! putc fd c; put_chars fd l end.

(** The digits stored in [buf] from index [16 - room] on; [None] when the
    array of 16 overflows. *)
Fixpoint digit_loop (room : nat) (x base : Z) : option (list byte) :=
  match room with
  | O => None
  | S room =>
    let d := default x00 (digits !! Z.to_nat (x mod base)) in
    if bool_decide (x / base ≠ 0) then cons d <$> digit_loop room (x / base) base else Some [d]
  end.

Definition print_int (fd xx base : Z) (sign : bool) : prog unit :=
  let sign := sign && bool_decide (xx < 0) in
  let x := if sign then u32 (- xx) else u32 xx in
  match digit_loop 16 x base with
  | None => fault
  | Some buf =>
    let buf := if sign then buf ++ [x2d] else buf in
    if bool_decide (16 < length buf)%nat then fault else
    put_chars fd (rev buf)
  end.

(** The loop of [printf] over a format with its terminator. *)
Fixpoint printf_loop (fd : Z) (fmt : list byte) (args : list carg) : prog unit :=
  match fmt with
  | [] => fault
  | c :: fmt =>
    if bool_decide (c = x00) then Ret tt else
    if bool_decide (c ≠ x25) then do! putc fd c; printf_loop fd fmt args else
    match fmt with
    | [] => fault
    | c :: fmt =>
      if bool_decide (c = x00) then Ret tt else
      if bool_decide (c = x64) then
        match args with
        | AInt n :: args => do! print_int fd n 10 true; printf_loop fd fmt args
        | _ => fault
        end
      else if bool_decide (c = x78) then
        match args with
        | AInt n :: args => do! print_int fd n 16 false; printf_loop fd fmt args
        | _ => fault
        end
      else if bool_decide (c = x25) then do! putc fd c; printf_loop fd fmt args
      else if bool_decide (c = x73) then
        match args with
        | AStr s :: args => do! put_chars fd (default null_str s); printf_loop fd fmt args
        | _ => fault
        end
      else do! putc fd x25; do! putc fd c; printf_loop fd fmt args
    end
  end.
Definition printf (fd : Z) (fmt : option (list byte)) (args : list carg) : prog unit :=
  match fmt with None => Ret tt | Some fmt => printf_loop fd fmt args end.

(** A literal of the source: its characters and the terminator. *)
Definition lit (s : string) : list byte := String.list_byte_of_string s ++ [x00].
Definition lf : string := String (Ascii.ascii_of_nat 10) EmptyString.

Definition O_RDONLY : Z := 0.
Definition stat (n : list byte) : prog (Z * option ustat) :=
  do fd <- call (SOpen n O_RDONLY);
  if bool_decide (fd < 0) then Ret (-1, None) else
  do r <- call (SFstat fd);
  do _ <- call (SClose fd);
  Ret (s32 (fst r), Some (snd r)).

(** [for(i=0; i+1 < max; )]: the bytes stored. *)
Fixpoint gets_loop (room : nat) : prog (list byte) :=
  match room with
  | O => Ret []
  | S room =>
    do r <- call (SRead 0 1);
    let '(cc, bs) := r in
    if bool_decide (s32 cc < 1) then Ret [] else
    match bs with
    | [] => fault
    | c :: _ =>
      if bool_decide (c = LF) || bool_decide (c = x0d) then Ret [c] else
      do l <- gets_loop room; Ret (c :: l)
    end
  end.
(** [gets(buf, max)]: the array afterwards. *)
Definition gets (buf : list byte) (max : Z) : prog (list byte) :=
  do l <- gets_loop (Z.to_nat (max - 1));
  if bool_decide (length l < length buf)%nat then Ret (splice 0 (l ++ [x00]) buf) else fault.
