(* ===== verification/UlibSpec.v ===== *)
(** * What the user library does

    [printf] writes the text that the kernel's own formatter shows, and
    [gets] reads a line. *)
From S2P Require Import Prelude CString Usys Console ConsoleSpec Ulib.

(** ** Output *)
Lemma put_chars_app fd l1 l2 : put_chars fd (l1 ++ l2) ≅ (do! put_chars fd l1; put_chars fd l2).
Proof.
  induction l1 as [|c l1 IH]; simpl.
  - rewrite bind_ret_l. reflexivity.
  - rewrite bind_bind. setoid_rewrite IH. reflexivity.
Qed.

Lemma putc_put_chars fd c : put_chars fd [c] ≅ putc fd c.
Proof. simpl. setoid_rewrite <- (bind_ret_r (putc fd c)) at 2. apply eqit_bind; [reflexivity|]. intros []. reflexivity. Qed.

(** The array of 16 is large enough. *)
Lemma digit_loop_ok base room : 1 < base ≤ 16 → ∀ x fuel, 0 ≤ x < base ^ Z.of_nat room → (room ≤ fuel)%nat → (0 < room)%nat →
  digit_loop room x base = Some (print_digits fuel x base).
Proof.
  intros Hb. induction room as [|room IH]; intros x fuel Hx Hf Hr; [lia|]. destruct fuel as [|fuel]; [lia|].
  cbn [digit_loop print_digits]. case_bool_decide as E; [|done].
  destruct (decide (room = 0%nat)) as [->|].
  { change (base ^ Z.of_nat 1) with (base ^ 1) in Hx. rewrite Z.pow_1_r in Hx. destruct E. apply Z.div_small. lia. }
  rewrite (IH (x / base) fuel); [done| |lia|lia]. split; [apply Z.div_pos; lia|]. apply Z.div_lt_upper_bound; [lia|].
  rewrite Nat2Z.inj_succ, Z.pow_succ_r in Hx by lia. lia.
Qed.

Lemma print_int_text fd xx base sign : base = 10 ∨ base = 16 → print_int fd xx base sign = put_chars fd (int_text xx base sign).
Proof.
  intros Hb. unfold print_int, int_text. set (neg := sign && bool_decide (xx < 0)).
  set (x := if neg then u32 (- xx) else u32 xx).
  assert (0 ≤ x < 2 ^ 32) as Hx by (subst x; destruct neg; apply u32_range).
  assert (x < base ^ Z.of_nat 10) as Hx10.
  { destruct Hb as [-> | ->]; [change (10 ^ Z.of_nat 10) with 10000000000|change (16 ^ Z.of_nat 10) with 1099511627776]; lia. }
  assert (base ^ Z.of_nat 10 ≤ base ^ Z.of_nat 16) as Hpow by (apply Z.pow_le_mono_r; lia).
  rewrite (digit_loop_ok base 16 ltac:(lia) x 32) by lia.
  destruct (print_digits_spec base 32 ltac:(lia) x 10) as [_ Hl]; [lia|lia|].
  rewrite bool_decide_false by (destruct neg; rewrite ?length_app; cbn [length]; lia).
  f_equal. destruct neg; [|done]. by rewrite rev_app_distr.
Qed.

Definition writes (fd : Z) (t : prog unit) (text : list byte) : Prop := t ≅ put_chars fd text.
Lemma writes_seq fd t k l1 l2 : writes fd t l1 → writes fd k l2 → writes fd (do! t; k) (l1 ++ l2).
Proof.
  unfold writes. intros H1 H2. rewrite put_chars_app. apply eqit_bind; [exact H1|]. intros []. exact H2.
Qed.
Lemma writes_char fd c : writes fd (putc fd c) [c].
Proof. unfold writes. by rewrite putc_put_chars. Qed.
Lemma writes_nil fd : writes fd (Ret tt) [].
Proof. unfold writes. reflexivity. Qed.
Lemma writes_int fd n base sign : base = 10 ∨ base = 16 → writes fd (print_int fd n base sign) (int_text n base sign).
Proof. intros Hb. unfold writes. rewrite print_int_text by done. reflexivity. Qed.
Lemma writes_str fd l : writes fd (put_chars fd l) l.
Proof. unfold writes. reflexivity. Qed.

Lemma printf_loop_text fd fmt : ∀ args text, Forall (λ c, c ≠ x00) fmt → format fmt args = Some text →
  writes fd (printf_loop fd (fmt ++ [x00]) args) text.
Proof.
  induction fmt as [|c fmt IH1 IH2] using list_ind2; intros args text Hz; [intros [= <-]; apply writes_nil|].
  inversion Hz as [|?? Hc Hz']; subst. cbn [format app printf_loop]. rewrite bool_decide_false by done.
  case_decide as E; [rewrite bool_decide_false by (by intros [])|rewrite bool_decide_true by done].
  2:{ intros (text' & Ht & ->)%fmap_Some. apply (writes_seq _ _ _ [c] text'); [apply writes_char|by apply IH1]. }
  destruct fmt as [|d fmt]; [intros [= <-]; apply writes_nil|]. inversion Hz' as [|?? Hd Hz'']; subst.
  specialize (IH2 d fmt eq_refl). cbn [app]. rewrite bool_decide_false by done.
  repeat (case_decide; [rewrite bool_decide_true by done|rewrite bool_decide_false by done]).
  - destruct args as [|[n|] args]; try done. intros (text' & Ht & ->)%fmap_Some.
    apply writes_seq; [apply writes_int; by left|by apply IH2].
  - destruct args as [|[n|] args]; try done. intros (text' & Ht & ->)%fmap_Some.
    apply writes_seq; [apply writes_int; by right|by apply IH2].
  - subst d. intros (text' & Ht & ->)%fmap_Some. apply (writes_seq _ _ _ [x25] text'); [apply writes_char|by apply IH2].
  - destruct args as [|[|t] args]; try done. intros (text' & Ht & ->)%fmap_Some.
    apply writes_seq; [apply writes_str|by apply IH2].
  - intros (text' & Ht & ->)%fmap_Some.
    apply (writes_seq _ _ _ [x25] ([d] ++ text')); [apply writes_char|]. apply (writes_seq _ _ _ [d] text'); [apply writes_char|by apply IH2].
Qed.

(** C27. [printf] writes, byte by byte, exactly the text of the format and its
    arguments - the text the kernel's [cprintf] shows for them - and nothing
    else; in particular the digits of a number always fit its buffer. *)
Theorem printf_prints_format fd fmt : ∀ args text,
  Forall (λ c, c ≠ x00) fmt → format fmt args = Some text →
  printf fd (Some (fmt ++ [x00])) args ≅ put_chars fd text.
Proof.
  intros args text. apply printf_loop_text.
Qed.

Lemma printf_prints_format_witness :
  printf 1 (Some ([x25; x64; x25; x78] ++ [x00])) [AInt (-7); AInt 255] ≅ put_chars 1 [x2d; x37; x66; x66].
Proof.
  apply printf_prints_format; [repeat constructor; done|]. vm_compute. reflexivity.
Defined.

(** ** Input

    [reader] serves [read(0, ...)] from a stream of bytes, at most [n] at a
    time and 0 at the end, and lets every other call through. *)
Definition reader : sysE ~> Monads.stateT (list byte) (itree sysE) := λ _ e s,
  match e in sysE R return itree sysE (list byte * R) with
  | SRead fd n =>
    if decide (fd = 0) then Ret (drop (Z.to_nat n) s, (Z.of_nat (length (take (Z.to_nat n) s)), take (Z.to_nat n) s))
    else do r <- call (SRead fd n); Ret (s, r)
  | e => do r <- call e; Ret (s, r)
  end.

(** The first line of a stream, with its end, cut off at [n] bytes. *)
Fixpoint line_of (n : nat) (s : list byte) : list byte * list byte :=
  match n, s with
  | S n, c :: s => if decide (c = LF ∨ c = x0d) then ([c], s) else let '(l, r) := line_of n s in (c :: l, r)
  | _, _ => ([], s)
  end.

Lemma gets_loop_run room : ∀ s,
  interp_state reader (gets_loop room) s ≈ Ret ((line_of room s).2, (line_of room s).1).
Proof.
  induction room as [|room IH]; intros s; cbn [gets_loop line_of].
  - rewrite interp_state_ret. reflexivity.
  - unfold call. rewrite interp_state_bind, interp_state_trigger. unfold reader at 1. rewrite decide_True by done. rewrite bind_ret_l.
    change (Z.to_nat 1) with 1%nat. destruct s as [|c s]; cbn [fst snd take drop length firstn skipn].
    + rewrite bool_decide_true by done. rewrite interp_state_ret. reflexivity.
    + rewrite bool_decide_false by done. destruct (decide (c = LF ∨ c = x0d)) as [E|E].
      * assert (bool_decide (c = LF) || bool_decide (c = x0d) = true) as -> by (apply orb_true_iff; rewrite !bool_decide_eq_true; exact E).
        rewrite interp_state_ret. reflexivity.
      * assert (bool_decide (c = LF) || bool_decide (c = x0d) = false) as -> by (apply orb_false_iff; rewrite !bool_decide_eq_false; tauto).
        rewrite interp_state_bind, IH, drop_0. rewrite bind_ret_l. cbn [fst snd]. rewrite interp_state_ret.
        destruct (line_of room s) as [l r]. reflexivity.
Qed.

(** C29. [gets] always ends, and it reads a line: with [max] at least 1 and an
    array of [max] bytes it takes the input up to and including the first line
    end, but no more than [max - 1] bytes, and leaves the rest; the array
    holds what was taken and a terminating zero. *)
Theorem gets_reads_line buf max s : 1 ≤ max → length buf = Z.to_nat max →
  interp_state reader (gets buf max) s ≈
  Ret ((line_of (Z.to_nat (max - 1)) s).2, splice 0 ((line_of (Z.to_nat (max - 1)) s).1 ++ [x00]) buf).
Proof.
  intros Hm Hl. unfold gets. rewrite interp_state_bind, gets_loop_run, bind_ret_l. cbn [fst snd].
  assert (∀ n s, (length (line_of n s).1 ≤ n)%nat) as Hlen.
  { clear. induction n as [|n IH]; intros [|c s]; simpl; try lia. case_decide; simpl; [lia|].
    specialize (IH s). destruct (line_of n s). simpl in *. lia. }
  rewrite bool_decide_true by (specialize (Hlen (Z.to_nat (max - 1)) s); lia).
  rewrite interp_state_ret. reflexivity.
Qed.

Lemma gets_reads_line_witness :
  interp_state reader (gets (replicate 8 x00) 8) [x6c; x73; LF; x78] ≈ Ret ([x78], [x6c; x73; LF; x00; x00; x00; x00; x00]).
Proof. apply (gets_reads_line (replicate 8 x00) 8 [x6c; x73; LF; x78]); [lia|reflexivity]. Defined.
