(* ===== verification/Nsh.v ===== *)
(** * The command parser of the shell (user/nsh.c)

    The parser works on the line in place: a pointer [char *] into the line is
    its index, a command node is allocated with [malloc] and named by its
    index in the list of nodes, and [null_terminate] cuts the words out of the
    line by writing zeros behind them.  A pointer argument [char **str_p] is
    passed in and returned.  Memory for the nodes is taken to be there. *)
From S2P Require Import Prelude CString.

Inductive node :=
| EXEC (argv eargv : list (option nat))
| REDIR (cmd : nat) (fname fname_end : nat) (mode fd : Z)
| PIPE (lcmd rcmd : nat)
| LIST (lcmd rcmd : nat)
| BACK (cmd : nat).

Record nstate := mk_nstate { n_buf : list byte; n_heap : list node }.
Definition set_n_buf (f : list byte → list byte) (s : nstate) : nstate := mk_nstate (f (n_buf s)) (n_heap s).
Definition set_n_heap (f : list node → list node) (s : nstate) : nstate := mk_nstate (n_buf s) (f (n_heap s)).

Definition MAXARGS : nat := 10.
Definition O_RDONLY : Z := 0.
Definition O_WRONLY : Z := 1.
Definition O_CREATE : Z := 0x200.

(** ** Constructors *)

Definition new_node (x : node) : M nstate nat :=
  let! a := gets (λ s, length (n_heap s)) in
  modify (set_n_heap (λ h, h ++ [x])) ;;;
  ret a.
Definition exec_cmd : M nstate nat := new_node (EXEC (replicate MAXARGS None) (replicate MAXARGS None)).
Definition redir_cmd (sub_cmd fname fname_end : nat) (mode fd : Z) : M nstate nat :=
  new_node (REDIR sub_cmd fname fname_end mode fd).
Definition pipe_cmd (lcmd rcmd : nat) : M nstate nat := new_node (PIPE lcmd rcmd).
Definition list_cmd (lcmd rcmd : nat) : M nstate nat := new_node (LIST lcmd rcmd).
Definition back_cmd (sub_cmd : nat) : M nstate nat := new_node (BACK sub_cmd).

(** ** Tokens *)

Definition white_space : list byte := [x20; x09; x0d; x0a; x0b].
Definition symbols : list byte := [x3c; x7c; x3e; x26; x3b; x28; x29].

(** [strchr] of user/ulib.c, as a test; the string is given without its zero. *)
Fixpoint strchr (s : list byte) (c : byte) : bool :=
  match s with
  | [] => false
  | x :: s' => if bool_decide (x = c) then true else strchr s' c
  end.

Definition char_at (p : nat) : M nstate byte :=
  λ s, match n_buf s !! p with Some c => Done c s | None => Panic "page fault" end.
Definition put_char (p : nat) (c : byte) : M nstate unit :=
  λ s, if decide (p < length (n_buf s))%nat then Done tt (set_n_buf <[p := c]> s) else Panic "page fault".

(** [while(str < str_end && ...) str++], with [n = str_end - str]. *)
Fixpoint skip_while (test : byte → bool) (n str : nat) : M nstate nat :=
  match n with
  | O => ret str
  | S n' => let! c := char_at str in if test c then skip_while test n' (S str) else ret str
  end.
Definition skip_space (str str_end : nat) : M nstate nat := skip_while (strchr white_space) (str_end - str) str.
Definition skip_word (str str_end : nat) : M nstate nat :=
  skip_while (λ c, negb (strchr white_space c) && negb (strchr symbols c)) (str_end - str) str.

(** The kind of the token, its two ends, and where the next one starts. *)
Definition get_token (str str_end : nat) : M nstate (byte * nat * nat * nat) :=
  let! token := skip_space str str_end in
  let! c := char_at token in
  let! r :=
    (if bool_decide (c = x00) then ret (c, token) else
     if strchr [x7c; x28; x29; x3b; x26; x3c] c then ret (c, S token) else
     if bool_decide (c = x3e) then
       let! d := char_at (S token) in
       if bool_decide (d = x3e) then ret (x2b, S (S token)) else ret (c, S token)
     else let! e := skip_word token str_end in ret (x61, e)) in
  let '(tok, token_end) := r in
  let! str := skip_space token_end str_end in
  ret (tok, token, token_end, str).

Definition peek (str str_end : nat) (toks : list byte) : M nstate (nat * bool) :=
  let! str := skip_space str str_end in
  let! c := char_at str in
  ret (str, bool_decide (c ≠ x00) && strchr toks c).

(** ** The recursive descent *)

(** [cmd->argv[argc] = q; cmd->eargv[argc] = eq] *)
Definition set_arg (a argc : nat) (q eq : option nat) : M nstate unit :=
  modify (set_n_heap (alter (λ x, match x with
    | EXEC argv eargv => EXEC (<[argc := q]> argv) (<[argc := eq]> eargv)
    | _ => x
    end) a)).

Fixpoint parse_redirs (fuel : nat) (cmd str str_end : nat) : M nstate (nat * nat) :=
  let! r := peek str str_end [x3c; x3e] in
  let '(str, more) := r in
  if more then
    match fuel with
    | O => no_fuel
    | S fuel' =>
      let! r := get_token str str_end in
      let '(tok, _, _, str) := r in
      let! r := get_token str str_end in
      let '(word, q, eq, str) := r in
      if bool_decide (word ≠ x61) then panic "missing file for redir" else
      let! cmd :=
        (if bool_decide (tok = x3c) then redir_cmd cmd q eq O_RDONLY 0
         else if bool_decide (tok = x3e) then redir_cmd cmd q eq (Z.lor O_WRONLY O_CREATE) 1
         else if bool_decide (tok = x2b) then redir_cmd cmd q eq (Z.lor O_WRONLY O_CREATE) 1
         else ret cmd) in
      parse_redirs fuel' cmd str str_end
    end
  else ret (cmd, str).

(** The loop of [parse_exec]: [cmd] is the node of the arguments, [r] the command so far. *)
Fixpoint exec_loop (fuel : nat) (cmd r argc str str_end : nat) : M nstate (nat * nat * nat) :=
  let! p := peek str str_end [x7c; x29; x26; x3b] in
  let '(str, stop) := p in
  if stop then ret (r, argc, str) else
  match fuel with
  | O => no_fuel
  | S fuel' =>
    let! t := get_token str str_end in
    let '(tok, q, eq, str) := t in
    if bool_decide (tok = x00) then ret (r, argc, str) else
    if bool_decide (tok ≠ x61) then panic "syntax" else
    set_arg cmd argc (Some q) (Some eq) ;;;
    let argc := S argc in
    if (MAXARGS <=? argc)%nat then panic "too many args" else
    let! x := parse_redirs fuel' r str str_end in
    let '(r, str) := x in
    exec_loop fuel' cmd r argc str str_end
  end.

(** [while(peek(str_p, str_end, "&"))] of [parse_line]. *)
Fixpoint back_loop (fuel : nat) (cmd str str_end : nat) : M nstate (nat * nat) :=
  let! r := peek str str_end [x26] in
  let '(str, more) := r in
  if more then
    match fuel with
    | O => no_fuel
    | S fuel' =>
      let! r := get_token str str_end in
      let '(_, _, _, str) := r in
      let! cmd := back_cmd cmd in
      back_loop fuel' cmd str str_end
    end
  else ret (cmd, str).

Fixpoint parse_line (fuel : nat) (str str_end : nat) : M nstate (nat * nat) :=
  match fuel with
  | O => no_fuel
  | S fuel' =>
    let! r := parse_pipe fuel' str str_end in
    let '(cmd, str) := r in
    let! r := back_loop fuel' cmd str str_end in
    let '(cmd, str) := r in
    let! r := peek str str_end [x3b] in
    let '(str, more) := r in
    if more then
      let! r := get_token str str_end in
      let '(_, _, _, str) := r in
      let! r := parse_line fuel' str str_end in
      let '(rcmd, str) := r in
      let! cmd := list_cmd cmd rcmd in
      ret (cmd, str)
    else ret (cmd, str)
  end
with parse_pipe (fuel : nat) (str str_end : nat) : M nstate (nat * nat) :=
  match fuel with
  | O => no_fuel
  | S fuel' =>
    let! r := parse_exec fuel' str str_end in
    let '(cmd, str) := r in
    let! r := peek str str_end [x7c] in
    let '(str, more) := r in
    if more then
      let! r := get_token str str_end in
      let '(_, _, _, str) := r in
      let! r := parse_pipe fuel' str str_end in
      let '(rcmd, str) := r in
      let! cmd := pipe_cmd cmd rcmd in
      ret (cmd, str)
    else ret (cmd, str)
  end
with parse_exec (fuel : nat) (str str_end : nat) : M nstate (nat * nat) :=
  match fuel with
  | O => no_fuel
  | S fuel' =>
    let! r := peek str str_end [x28] in
    let '(str, block) := r in
    if block then parse_block fuel' str str_end else
    let! cmd := exec_cmd in
    let! r := parse_redirs fuel' cmd str str_end in
    let '(r, str) := r in
    let! x := exec_loop fuel' cmd r 0 str str_end in
    let '(r, argc, str) := x in
    set_arg cmd argc None None ;;;
    ret (r, str)
  end
with parse_block (fuel : nat) (str str_end : nat) : M nstate (nat * nat) :=
  match fuel with
  | O => no_fuel
  | S fuel' =>
    let! r := peek str str_end [x28] in
    let '(str, here) := r in
    if negb here then panic "parse_block" else
    let! r := get_token str str_end in
    let '(_, _, _, str) := r in
    let! r := parse_line fuel' str str_end in
    let '(cmd, str) := r in
    let! r := peek str str_end [x29] in
    let '(str, here) := r in
    if negb here then panic "syntax ) missing" else
    let! r := get_token str str_end in
    let '(_, _, _, str) := r in
    parse_redirs fuel' cmd str str_end
  end.

(** [for(int i=0; argv[i]; i++) *eargv[i] = 0] *)
Fixpoint cut_args (argv eargv : list (option nat)) : M nstate unit :=
  match argv, eargv with
  | None :: _, _ => ret tt
  | Some _ :: argv', Some e :: eargv' => put_char e x00 ;;; cut_args argv' eargv'
  | _, _ => panic "page fault"
  end.

Fixpoint null_terminate (fuel : nat) (cmd : nat) : M nstate unit :=
  match fuel with
  | O => no_fuel
  | S fuel' =>
    let! h := gets n_heap in
    match h !! cmd with
    | None => panic "page fault"
    | Some (EXEC argv eargv) => cut_args argv eargv
    | Some (REDIR c _ fname_end _ _) => null_terminate fuel' c ;;; put_char fname_end x00
    | Some (PIPE lcmd rcmd) | Some (LIST lcmd rcmd) => null_terminate fuel' lcmd ;;; null_terminate fuel' rcmd
    | Some (BACK c) => null_terminate fuel' c
    end
  end.

(** Each character costs the descent at most four calls. *)
Definition parse_fuel (str_end : nat) : nat := (4 * str_end + 8)%nat.

(** What the user sees when something is left of the line: [panic] prints its
    message and a line feed, here after a line of its own. *)
Definition leftover (rest : list byte) : string :=
  String.append "leftover : " (String.append (String.string_of_list_byte rest) (String (Ascii.ascii_of_nat 10) "syntax")).

(** [parse_cmd] on the line in the buffer, from its first character. *)
Definition parse_cmd : M nstate nat :=
  let! buf := gets n_buf in
  match strlen buf with
  | None => panic "page fault"
  | Some n =>
    let str_end := Z.to_nat n in
    let! r := parse_line (parse_fuel str_end) 0 str_end in
    let '(cmd, str) := r in
    let! r := peek str str_end [] in
    let '(str, _) := r in
    if bool_decide (str ≠ str_end) then
      let! buf := gets n_buf in panic (leftover (cstr (drop str buf)))
    else
    let! h := gets n_heap in
    null_terminate (length h) cmd ;;;
    ret cmd
  end.

Definition parse_string (l : string) : res nstate nat :=
  parse_cmd (mk_nstate (String.list_byte_of_string l ++ [x00]) []).
