(* ===== verification/NshSpec.v ===== *)
(** * What the shell's parser accepts

    The line is a list of tokens ([lex]); the grammar below says which lists
    of tokens are commands and which tree each of them denotes.  The parser of
    Nsh.v is related to it in two steps: over the bytes and the nodes it does
    what a parser over tokens ([tp_line]) does, and that one decides the
    grammar. *)
From S2P Require Import Prelude CString Nsh.

(** ** Tokens *)

Inductive token := TSym (c : byte) | TAppend | TWord (w : list byte).

Notation is_space := (strchr white_space).
Notation is_symbol := (strchr symbols).
Definition is_word (c : byte) : bool := negb (is_space c) && negb (is_symbol c).
Definition starts_word (l : list byte) : bool := match l with [] => false | c :: _ => is_word c end.

Fixpoint lex (l : list byte) : list token :=
  match l with
  | [] => []
  | c :: l' =>
    if is_space c then lex l' else
    if bool_decide (c = x3e) then
      match l' with
      | d :: l'' => if bool_decide (d = x3e) then TAppend :: lex l'' else TSym c :: lex l'
      | [] => [TSym c]
      end
    else if is_symbol c then TSym c :: lex l' else
    if starts_word l' then
      match lex l' with TWord w :: ts => TWord (c :: w) :: ts | ts => TWord [c] :: ts end
    else TWord [c] :: lex l'
  end.

(** ** Trees and the grammar

    line ::= pipe &* [; line]      pipe ::= cmd [| pipe]
    cmd ::= ( line ) redir*  or  any mix of at most 9 words and of redirs
    redir ::= < word  or  > word  or  >> word *)

Inductive tree :=
| TExec (args : list (list byte))
| TRedir (t : tree) (file : list byte) (mode fd : Z)
| TPipe (l r : tree)
| TList (l r : tree)
| TBack (t : tree).

Inductive rop := RIn | ROut | RApp.
Definition rop_token (o : rop) : token := match o with RIn => TSym x3c | ROut => TSym x3e | RApp => TAppend end.
Definition rop_mode (o : rop) : Z := match o with RIn => 0 | _ => 0x201 end.
Definition rop_fd (o : rop) : Z := match o with RIn => 0 | _ => 1 end.
Notation redir := (rop * list byte)%type.
Definition wrap1 (t : tree) (r : redir) : tree := TRedir t r.2 (rop_mode r.1) (rop_fd r.1).
Definition wrap (rs : list redir) (t : tree) : tree := fold_left wrap1 rs t.
Definition backs (n : nat) (t : tree) : tree := Nat.iter n TBack t.

Inductive item := IWord (w : list byte) | IRedir (r : redir).
Definition redir_tokens (r : redir) : list token := [rop_token r.1; TWord r.2].
Definition item_tokens (i : item) : list token := match i with IWord w => [TWord w] | IRedir r => redir_tokens r end.
Definition item_words (its : list item) : list (list byte) := omap (λ i, match i with IWord w => Some w | _ => None end) its.
Definition item_redirs (its : list item) : list redir := omap (λ i, match i with IRedir r => Some r | _ => None end) its.

Inductive level := GLine | GPipe | GCmd.
Definition amps (n : nat) : list token := replicate n (TSym x26).

Inductive derives : level → list token → tree → Prop :=
| D_items its : (length (item_words its) < MAXARGS)%nat →
    derives GCmd (its ≫= item_tokens) (wrap (item_redirs its) (TExec (item_words its)))
| D_block ts t rs : derives GLine ts t →
    derives GCmd (TSym x28 :: ts ++ TSym x29 :: (rs ≫= redir_tokens)) (wrap rs t)
| D_cmd ts t : derives GCmd ts t → derives GPipe ts t
| D_pipe ts1 t1 ts2 t2 : derives GCmd ts1 t1 → derives GPipe ts2 t2 →
    derives GPipe (ts1 ++ TSym x7c :: ts2) (TPipe t1 t2)
| D_line ts t n : derives GPipe ts t → derives GLine (ts ++ amps n) (backs n t)
| D_list ts1 t1 n ts2 t2 : derives GPipe ts1 t1 → derives GLine ts2 t2 →
    derives GLine (ts1 ++ amps n ++ TSym x3b :: ts2) (TList (backs n t1) t2).

(** ** A parser over tokens *)

Inductive tres (A : Type) := TOk (a : A) (rest : list token) | TErr (msg : string) | TFuel.
Arguments TOk {A} a rest.
Arguments TErr {A} msg.
Arguments TFuel {A}.
Definition tbind {A B} (r : tres A) (k : A → list token → tres B) : tres B :=
  match r with TOk a ts => k a ts | TErr m => TErr m | TFuel => TFuel end.

Definition head_sym (cs : list byte) (ts : list token) : bool :=
  match ts with TSym c :: _ => strchr cs c | TAppend :: _ => strchr cs x3e | _ => false end.

Definition rop_of (tok : token) : option rop :=
  match tok with
  | TAppend => Some RApp
  | TSym c => if bool_decide (c = x3c) then Some RIn else if bool_decide (c = x3e) then Some ROut else None
  | TWord _ => None
  end.

Fixpoint tp_redirs (ts : list token) : tres (list redir) :=
  match ts with
  | tok :: ts' =>
    match rop_of tok with
    | Some o =>
      match ts' with
      | TWord w :: ts'' => tbind (tp_redirs ts'') (λ rs rest, TOk ((o, w) :: rs) rest)
      | _ => TErr "missing file for redir"
      end
    | None => TOk [] ts
    end
  | [] => TOk [] []
  end.

Fixpoint tp_items (args : list (list byte)) (rs : list redir) (ts : list token) : tres (list (list byte) * list redir) :=
  match ts with
  | [] => TOk (args, rs) []
  | TWord w :: ts' =>
    if (MAXARGS <=? S (length args))%nat then TErr "too many args" else tp_items (args ++ [w]) rs ts'
  | tok :: ts' =>
    match rop_of tok with
    | Some o =>
      match ts' with
      | TWord w :: ts'' => tp_items args (rs ++ [(o, w)]) ts''
      | _ => TErr "missing file for redir"
      end
    | None => if head_sym [x7c; x29; x26; x3b] ts then TOk (args, rs) ts else TErr "syntax"
    end
  end.

Fixpoint tp_amps (ts : list token) : nat * list token :=
  match ts with
  | TSym c :: ts' => if bool_decide (c = x26) then let '(n, r) := tp_amps ts' in (S n, r) else (O, ts)
  | _ => (O, ts)
  end.

Fixpoint tp_line (fuel : nat) (ts : list token) : tres tree :=
  match fuel with
  | O => TFuel
  | S fuel' => tbind (tp_pipe fuel' ts) (λ t ts,
      let '(n, ts) := tp_amps ts in
      if head_sym [x3b] ts then tbind (tp_line fuel' (tail ts)) (λ t2 ts, TOk (TList (backs n t) t2) ts)
      else TOk (backs n t) ts)
  end
with tp_pipe (fuel : nat) (ts : list token) : tres tree :=
  match fuel with
  | O => TFuel
  | S fuel' => tbind (tp_cmd fuel' ts) (λ t ts,
      if head_sym [x7c] ts then tbind (tp_pipe fuel' (tail ts)) (λ t2 ts, TOk (TPipe t t2) ts)
      else TOk t ts)
  end
with tp_cmd (fuel : nat) (ts : list token) : tres tree :=
  match fuel with
  | O => TFuel
  | S fuel' =>
    if head_sym [x28] ts then tp_block fuel' ts
    else tbind (tp_items [] [] ts) (λ x ts, TOk (wrap x.2 (TExec x.1)) ts)
  end
with tp_block (fuel : nat) (ts : list token) : tres tree :=
  match fuel with
  | O => TFuel
  | S fuel' => tbind (tp_line fuel' (tail ts)) (λ t ts,
      if head_sym [x29] ts then tbind (tp_redirs (tail ts)) (λ rs ts, TOk (wrap rs t) ts)
      else TErr "syntax ) missing")
  end.

Definition syntax_errors : list string :=
  ["syntax"; "too many args"; "missing file for redir"; "syntax ) missing"]%string.

(** ** The token parser decides the grammar *)

Lemma head_sym1 c ts : c ≠ x3e → head_sym [c] ts = true → ts = TSym c :: tail ts.
Proof.
  intros Hc. destruct ts as [|[d| |w] ts]; simpl; try done; case_bool_decide; try done; by subst.
Qed.

Lemma rop_of_token o : rop_of (rop_token o) = Some o.
Proof. by destruct o. Qed.
Lemma rop_of_inv tok o : rop_of tok = Some o → tok = rop_token o.
Proof. destruct tok as [c| |w]; simpl; repeat case_bool_decide; intros [= <-]; by subst. Qed.

Lemma tp_redirs_sound ts rs rest : tp_redirs ts = TOk rs rest → ts = (rs ≫= redir_tokens) ++ rest.
Proof.
  revert rs rest; induction ts as [|tok ts _ IH] using list_ind2; intros rs rest; simpl; [by intros [= <- <-]|].
  destruct (rop_of tok) as [o|] eqn:E; [|by intros [= <- <-]]. destruct ts as [|[| |w] ts']; try done.
  specialize (IH _ _ eq_refl). destruct (tp_redirs ts') as [rs' rest'| |] eqn:E'; simpl; try done.
  intros [= <- <-]. apply rop_of_inv in E as ->. rewrite (IH rs' rest') by done. done.
Qed.

Lemma tp_items_sound ts args rs args' rs' rest : tp_items args rs ts = TOk (args', rs') rest →
  ∃ its, ts = (its ≫= item_tokens) ++ rest ∧ args' = args ++ item_words its ∧ rs' = rs ++ item_redirs its ∧
    (length args < MAXARGS → length args' < MAXARGS)%nat.
Proof.
  revert args rs; induction ts as [|tok ts IH1 IH2] using list_ind2; intros args rs; cbn [tp_items].
  - intros [= <- <- <-]. exists []. by rewrite !app_nil_r.
  - assert (∀ o, rop_of tok = Some o → match ts with TWord w :: ts'' => tp_items args (rs ++ [(o, w)]) ts''
      | _ => TErr "missing file for redir" end = TOk (args', rs') rest →
      ∃ its, tok :: ts = (its ≫= item_tokens) ++ rest ∧ args' = args ++ item_words its ∧ rs' = rs ++ item_redirs its ∧
        (length args < MAXARGS → length args' < MAXARGS)%nat) as Hr.
    { intros o ->%rop_of_inv H. destruct ts as [|[| |w] ts']; try done.
      apply (IH2 _ _ eq_refl) in H as (its & -> & -> & -> & Hl). exists (IRedir (o, w) :: its). by rewrite <- app_assoc. }
    assert (∀ tok' : token, (if head_sym [x7c; x29; x26; x3b] (tok' :: ts) then TOk (args, rs) (tok' :: ts) else TErr "syntax") = TOk (args', rs') rest →
      ∃ its, tok' :: ts = (its ≫= item_tokens) ++ rest ∧ args' = args ++ item_words its ∧ rs' = rs ++ item_redirs its ∧
        (length args < MAXARGS → length args' < MAXARGS)%nat) as Hs.
    { intros tok'. destruct (head_sym _ _); [|done]. intros [= <- <- <-]. exists []. by rewrite !app_nil_r. }
    destruct tok as [c| |w].
    + destruct (rop_of (TSym c)) eqn:E; [eapply Hr, eq_refl|apply Hs].
    + apply Hr. done.
    + destruct (MAXARGS <=? _)%nat eqn:E; [done|]. intros H. apply IH1 in H as (its & -> & -> & -> & Hl). apply Nat.leb_gt in E.
      exists (IWord w :: its). split_and!; simpl; [done|by rewrite <- app_assoc|done|].
      rewrite !length_app in *. simpl in *. lia.
Qed.

Lemma tp_amps_sound ts n rest : tp_amps ts = (n, rest) → ts = amps n ++ rest.
Proof.
  revert n; induction ts as [|[c| |w] ts IH]; intros n; simpl; try (by intros [= <- <-]).
  case_bool_decide; [subst c|by intros [= <- <-]]. destruct (tp_amps ts) as [m r]. intros [= <- <-].
  by rewrite (IH m).
Qed.

Ltac tcase H := match type of H with
  | tbind ?r _ = TOk _ _ => let E := fresh "E" in destruct r as [? ?| |] eqn:E; simpl in H; try discriminate H
  end.

Lemma tp_sound fuel :
  (∀ ts t rest, tp_line fuel ts = TOk t rest → ∃ ts1, ts = ts1 ++ rest ∧ derives GLine ts1 t) ∧
  (∀ ts t rest, tp_pipe fuel ts = TOk t rest → ∃ ts1, ts = ts1 ++ rest ∧ derives GPipe ts1 t) ∧
  (∀ ts t rest, tp_cmd fuel ts = TOk t rest → ∃ ts1, ts = ts1 ++ rest ∧ derives GCmd ts1 t) ∧
  (∀ ts t rest, head_sym [x28] ts = true → tp_block fuel ts = TOk t rest → ∃ ts1, ts = ts1 ++ rest ∧ derives GCmd ts1 t).
Proof.
  induction fuel as [|fuel (IHl & IHp & IHc & IHb)]; [done|]. split_and!; cbn [tp_line tp_pipe tp_cmd tp_block].
  - intros ts t rest H. tcase H. apply IHp in E as (ts1 & -> & D1).
    destruct (tp_amps rest0) as [n r] eqn:Ea. apply tp_amps_sound in Ea as ->. destruct (head_sym _ _) eqn:Eh.
    + tcase H. injection H as <- <-. apply IHl in E as (ts2 & E & D2). apply head_sym1 in Eh; [|done].
      exists (ts1 ++ amps n ++ TSym x3b :: ts2). split; [|by constructor]. by rewrite Eh, E, <- !app_assoc.
    + injection H as <- <-. exists (ts1 ++ amps n). split; [by rewrite <- app_assoc|by constructor].
  - intros ts t rest H. tcase H. apply IHc in E as (ts1 & -> & D1). destruct (head_sym _ _) eqn:Eh.
    + tcase H. injection H as <- <-. apply IHp in E as (ts2 & E & D2). apply head_sym1 in Eh; [|done].
      exists (ts1 ++ TSym x7c :: ts2). split; [|by constructor]. by rewrite Eh, E, <- app_assoc.
    + injection H as <- <-. exists ts1. split; [done|by constructor].
  - intros ts t rest H. destruct (head_sym _ _) eqn:Eh; [by apply IHb|]. tcase H. destruct a as [args rs]. injection H as <- <-.
    apply tp_items_sound in E as (its & -> & -> & -> & Hl). exists (its ≫= item_tokens). split; [done|].
    constructor. apply Hl. by apply Nat.ltb_lt.
  - intros ts t rest Eh H. tcase H. apply IHl in E as (ts1 & E & D1). apply head_sym1 in Eh; [|done].
    destruct (head_sym _ _) eqn:Er; [|done]. tcase H. injection H as <- <-. apply tp_redirs_sound in E0.
    apply head_sym1 in Er; [|done]. exists (TSym x28 :: ts1 ++ TSym x29 :: (a0 ≫= redir_tokens)).
    split; [|by constructor]. rewrite Eh, E, Er, E0. simpl. by rewrite <- !app_assoc.
Qed.

Definition tp_ok {A} (r : tres A) : Prop :=
  match r with TOk _ _ => True | TErr m => m ∈ syntax_errors | TFuel => False end.
Lemma tbind_ok {A B} (r : tres A) (k : A → list token → tres B) :
  tp_ok r → (∀ a rest, r = TOk a rest → tp_ok (k a rest)) → tp_ok (tbind r k).
Proof. destruct r; simpl; auto. Qed.

Ltac syntax_error := apply (bool_decide_unpack (_ ∈ syntax_errors)); vm_compute; exact I.

Lemma tp_redirs_ok ts : tp_ok (tp_redirs ts).
Proof.
  induction ts as [|tok ts _ IH] using list_ind2; simpl; [done|]. destruct (rop_of tok); [|done].
  destruct ts as [|[| |w] ts']; try syntax_error. apply tbind_ok; [by apply (IH _ _ eq_refl)|done].
Qed.
Lemma tp_items_ok ts : ∀ args rs, tp_ok (tp_items args rs ts).
Proof.
  induction ts as [|tok ts IH1 IH2] using list_ind2; intros args rs; cbn [tp_items]; [done|].
  destruct tok as [c| |w]; [destruct (rop_of (TSym c)) eqn:E| |].
  - destruct ts as [|[| |w] ts']; try syntax_error. by apply (IH2 _ _ eq_refl).
  - destruct (head_sym _ _); [done|syntax_error].
  - simpl. destruct ts as [|[| |w] ts']; try syntax_error. by apply (IH2 _ _ eq_refl).
  - destruct (_ <=? _)%nat; [syntax_error|apply IH1].
Qed.

Lemma head_sym_length cs ts : head_sym cs ts = true → (length ts = S (length (tail ts)))%nat.
Proof. by destruct ts. Qed.

(** Enough fuel for [k] tokens, at each level. *)
Lemma tp_total fuel :
  (∀ ts, (4 * length ts + 4 ≤ fuel)%nat → tp_ok (tp_line fuel ts)) ∧
  (∀ ts, (4 * length ts + 3 ≤ fuel)%nat → tp_ok (tp_pipe fuel ts)) ∧
  (∀ ts, (4 * length ts + 2 ≤ fuel)%nat → tp_ok (tp_cmd fuel ts)) ∧
  (∀ ts, head_sym [x28] ts = true → (4 * length ts + 1 ≤ fuel)%nat → tp_ok (tp_block fuel ts)).
Proof.
  induction fuel as [|fuel (IHl & IHp & IHc & IHb)]; [split_and!; intros; lia|].
  destruct (tp_sound fuel) as (Sl & Sp & Sc & Sb).
  split_and!; cbn [tp_line tp_pipe tp_cmd tp_block].
  - intros ts Hf. apply tbind_ok; [apply IHp; lia|]. intros t rest E. apply Sp in E as (ts1 & -> & _).
    destruct (tp_amps rest) as [n r] eqn:Ea. apply tp_amps_sound in Ea as ->. rewrite !length_app in Hf.
    destruct (head_sym _ _) eqn:Eh; [|done]. apply head_sym_length in Eh. apply tbind_ok; [apply IHl; lia|done].
  - intros ts Hf. apply tbind_ok; [apply IHc; lia|]. intros t rest E. apply Sc in E as (ts1 & -> & _).
    rewrite length_app in Hf. destruct (head_sym _ _) eqn:Eh; [|done]. apply head_sym_length in Eh.
    apply tbind_ok; [apply IHp; lia|done].
  - intros ts Hf. destruct (head_sym _ _) eqn:Eh; [apply IHb; [done|lia]|]. apply tbind_ok; [apply tp_items_ok|done].
  - intros ts Eh Hf. apply head_sym_length in Eh. apply tbind_ok; [apply IHl; lia|]. intros t rest E.
    destruct (head_sym _ rest); [|syntax_error]. apply tbind_ok; [apply tp_redirs_ok|done].
Qed.

Definition stops (cs : list byte) (rest : list token) : Prop := rest = [] ∨ head_sym cs rest = true.
Notation after_cmd := [x7c; x29; x26; x3b].
Notation after_pipe := [x29; x26; x3b].
Notation after_line := [x29].

(** What may follow: a symbol of [cs], when every symbol of [cs] passes [P]. *)
Lemma stops_weaken cs cs' rest : (∀ c, strchr cs c = true → strchr cs' c = true) → stops cs rest → stops cs' rest.
Proof. intros H [->|Hs]; [by left|]. right. destruct rest as [|[| |] ?]; simpl in *; auto. Qed.
Lemma stops_head cs c rest : strchr cs c = true → stops cs (TSym c :: rest).
Proof. intros. by right. Qed.
Lemma stops_not cs c ts : (∀ d, strchr cs d = true → strchr [c] d = false) → stops cs ts → head_sym [c] ts = false.
Proof. intros H [->|Hs]; [done|]. destruct ts as [|[| |] ?]; simpl in *; auto; by apply (H x3e). Qed.

Ltac char_cases :=
  let d := fresh in intros d; simpl; repeat case_bool_decide; subst; first [done|discriminate|congruence].

Lemma rop_stops rest tok ts : stops after_cmd rest → rest = tok :: ts → rop_of tok = None.
Proof.
  intros [->|Hs] E; [done|]. subst rest. destruct tok as [c| |]; try done. revert Hs. simpl.
  repeat case_bool_decide; by subst.
Qed.

Lemma tp_redirs_complete rs rest : stops after_cmd rest → tp_redirs ((rs ≫= redir_tokens) ++ rest) = TOk rs rest.
Proof.
  intros Hs. induction rs as [|[o w] rs IH].
  - destruct rest as [|tok ts]; [done|]. simpl. by rewrite (rop_stops _ _ _ Hs eq_refl).
  - transitivity (tbind (tp_redirs ((rs ≫= redir_tokens) ++ rest)) (λ rs rest, TOk ((o, w) :: rs) rest)); [by destruct o|].
    by rewrite IH.
Qed.

Lemma tp_items_complete its args rs rest : stops after_cmd rest → (length args + length (item_words its) < MAXARGS)%nat →
  tp_items args rs ((its ≫= item_tokens) ++ rest) = TOk (args ++ item_words its, rs ++ item_redirs its) rest.
Proof.
  intros Hs. revert args rs. induction its as [|[w|[o w]] its IH]; intros args rs Hl.
  - simpl. rewrite !app_nil_r. destruct rest as [|tok ts]; [done|]. cbn [tp_items].
    pose proof (rop_stops _ _ _ Hs eq_refl) as Hn. destruct Hs as [[=]|Hh]. by destruct tok; rewrite ?Hn, ?Hh.
  - simpl in Hl. assert (tp_items (args ++ [w]) rs ((its ≫= item_tokens) ++ rest) =
      TOk ((args ++ [w]) ++ item_words its, rs ++ item_redirs its) rest) as E by (apply IH; rewrite length_app; simpl; lia).
    rewrite <- app_assoc in E. cbn [tp_items mbind list_bind item_tokens app].
    rewrite (proj2 (Nat.leb_gt _ _)) by lia. exact E.
  - assert (tp_items args (rs ++ [(o, w)]) ((its ≫= item_tokens) ++ rest) =
      TOk (args ++ item_words its, (rs ++ [(o, w)]) ++ item_redirs its) rest) as E by by apply IH.
    rewrite <- app_assoc in E. by destruct o.
Qed.

Lemma tp_amps_complete n rest : head_sym [x26] rest = false → tp_amps (amps n ++ rest) = (n, rest).
Proof.
  intros Hh. unfold amps. induction n as [|n IH]; simpl; [|by rewrite IH].
  destruct rest as [|[c| |] ts]; try done. simpl in *. by destruct (bool_decide_reflect (x26 = c)), (bool_decide_reflect (c = x26)).
Qed.

Lemma tbind_TOk {A B} (r : tres A) (k : A → list token → tres B) a rest : r = TOk a rest → tbind r k = k a rest.
Proof. by intros ->. Qed.

(** A command that does not start with a bracket is a list of items. *)
Lemma items_no_block its rest : stops after_cmd rest → head_sym [x28] ((its ≫= item_tokens) ++ rest) = false.
Proof.
  intros Hs. destruct its as [|[w|[[] w]] its]; try done. simpl. eapply stops_not; [|exact Hs]. char_cases.
Qed.

Definition complete_at (lv : level) (ts : list token) (t : tree) : Prop :=
  match lv with
  | GLine => ∀ rest fuel, stops after_line rest → (4 * length (ts ++ rest) + 4 ≤ fuel)%nat → tp_line fuel (ts ++ rest) = TOk t rest
  | GPipe => ∀ rest fuel, stops after_pipe rest → (4 * length (ts ++ rest) + 3 ≤ fuel)%nat → tp_pipe fuel (ts ++ rest) = TOk t rest
  | GCmd => ∀ rest fuel, stops after_cmd rest → (4 * length (ts ++ rest) + 2 ≤ fuel)%nat → tp_cmd fuel (ts ++ rest) = TOk t rest
  end.

Lemma amps_stops n rest : stops after_pipe rest → stops after_pipe (amps n ++ rest).
Proof. intros Hs. destruct n; [done|]. by right. Qed.

Lemma tp_complete lv ts t : derives lv ts t → complete_at lv ts t.
Proof.
  induction 1 as [its Hl|ts t rs D IH|ts t D IH|ts1 t1 ts2 t2 D1 IH1 D2 IH2|ts t n D IH|ts1 t1 n ts2 t2 D1 IH1 D2 IH2];
    intros rest [|fuel] Hs Hf; try lia; cbn [tp_line tp_pipe tp_cmd].
  - rewrite items_no_block by done. by rewrite (tp_items_complete its [] [] rest Hs Hl).
  - replace ((TSym x28 :: ts ++ TSym x29 :: (rs ≫= redir_tokens)) ++ rest)
      with (TSym x28 :: ts ++ TSym x29 :: (rs ≫= redir_tokens) ++ rest) in * by (simpl; by rewrite <- app_assoc).
    cbn [head_sym]. change (strchr [x28] x28) with true. cbv iota. simpl in Hf. destruct fuel as [|fuel]; [lia|].
    cbn [tp_block tail]. rewrite (IH (TSym x29 :: (rs ≫= redir_tokens) ++ rest) fuel); [|by right|lia].
    simpl. by rewrite tp_redirs_complete.
  - rewrite (IH rest fuel) by (lia || (eapply stops_weaken; [|exact Hs]; char_cases)). simpl.
    by rewrite (stops_not after_pipe x7c) by (done || char_cases).
  - rewrite <- app_assoc in *. simpl in *. rewrite (IH1 (TSym x7c :: ts2 ++ rest) fuel) by (lia || by right). simpl.
    rewrite length_app in Hf. simpl in Hf. by rewrite (IH2 rest fuel) by (done || lia).
  - rewrite <- app_assoc in *. rewrite (IH (amps n ++ rest) fuel); [|apply amps_stops; eapply stops_weaken; [|exact Hs]; char_cases|lia].
    simpl. rewrite tp_amps_complete by (eapply stops_not; [|exact Hs]; char_cases).
    by rewrite (stops_not after_line x3b) by (done || char_cases).
  - rewrite <- !app_assoc in *. simpl in *. rewrite (IH1 (amps n ++ TSym x3b :: ts2 ++ rest) fuel); [|by apply amps_stops, stops_head|lia].
    simpl. rewrite tp_amps_complete by done. simpl.
    rewrite (IH2 rest fuel); [done|done|]. rewrite !length_app in *. simpl length in *. rewrite !length_app in *. lia.
Qed.
