(* ===== verification/NshParse.v ===== *)
(** * The shell's parser over bytes does what the parser over tokens does *)
From S2P Require Import Prelude CString Nsh NshSpec.

Fixpoint run_len (test : byte → bool) (l : list byte) : nat :=
  match l with [] => O | c :: l' => if test c then S (run_len test l') else O end.

Lemma run_len_le test l : (run_len test l ≤ length l)%nat.
Proof. induction l as [|c l IH]; simpl; [lia|]. destruct (test c); lia. Qed.
Lemma run_len_stop test l : match drop (run_len test l) l with [] => True | c :: _ => test c = false end.
Proof. induction l as [|c l IH]; simpl; [done|]. by destruct (test c) eqn:E. Qed.

Lemma lex_spaces l : lex (drop (run_len is_space l) l) = lex l.
Proof.
  induction l as [|c l IH]; [done|]. cbn [run_len]. destruct (is_space c) eqn:E; [|done].
  cbn [drop lex]. by rewrite E.
Qed.

Lemma word_not_space c : is_word c = true → is_space c = false ∧ is_symbol c = false.
Proof. unfold is_word. by destruct (is_space c), (is_symbol c). Qed.

Lemma lex_word_char c l : is_word c = true → starts_word l = false → lex (c :: l) = TWord [c] :: lex l.
Proof.
  intros Hw Hl. destruct (word_not_space _ Hw) as [H1 H2]. cbn [lex]. rewrite H1, H2, Hl.
  rewrite bool_decide_false; [done|]. by intros ->.
Qed.
Lemma lex_word_cons c l w ts : is_word c = true → starts_word l = true → lex l = TWord w :: ts → lex (c :: l) = TWord (c :: w) :: ts.
Proof.
  intros Hw Hl E. destruct (word_not_space _ Hw) as [H1 H2]. cbn [lex]. rewrite H1, H2, Hl, E.
  rewrite bool_decide_false; [done|]. by intros ->.
Qed.

(** The word at the front of [l]. *)
Lemma lex_word l : starts_word l = true →
  lex l = TWord (take (run_len is_word l) l) :: lex (drop (run_len is_word l) l).
Proof.
  induction l as [|c l IH]; [done|]. intros Hw. cbn [starts_word] in Hw. cbn [run_len]. rewrite Hw. cbn [take drop].
  destruct (starts_word l) eqn:El.
  - by apply lex_word_cons, IH.
  - rewrite lex_word_char by done. destruct l as [|d l]; [done|]. cbn [starts_word run_len] in *. by rewrite El.
Qed.

Lemma strlen_line L junk : Forall (λ c, c ≠ x00) L → strlen (L ++ x00 :: junk) = Some (Z.of_nat (length L)).
Proof.
  induction 1 as [|c l Hc _ IH]; [done|]. simpl. rewrite bool_decide_false by done. rewrite IH. simpl. f_equal. lia.
Qed.

(** A line without zeros and the buffer that holds it. *)
Section Line.
Context (L : list byte).
Hypothesis HL : Forall (λ c, c ≠ x00) L.
Notation len := (length L).

Definition line_in (s : nstate) : Prop := ∃ junk, n_buf s = L ++ x00 :: junk.
Notation at_pos p := (lex (drop p L)).

Lemma char_at_in p c r s : line_in s → drop p L = c :: r → char_at p s = Done c s.
Proof.
  intros [j Hj] Hd. unfold char_at. rewrite Hj. rewrite lookup_app_l.
  - rewrite <- (Nat.add_0_r p), <- lookup_drop, Hd. done.
  - apply (f_equal length) in Hd. rewrite length_drop in Hd. simpl in Hd. lia.
Qed.
Lemma char_at_end p s : line_in s → p = len → char_at p s = Done x00 s.
Proof. intros [j Hj] ->. unfold char_at. rewrite Hj, lookup_app_r, Nat.sub_diag by done. done. Qed.

Lemma drop_cons p c r : drop p L = c :: r → (p < len)%nat ∧ drop (S p) L = r ∧ c ≠ x00.
Proof.
  intros Hd. assert (p < len)%nat as Hp.
  { apply (f_equal length) in Hd. rewrite length_drop in Hd. simpl in Hd. lia. }
  split; [done|]. split.
  - replace (S p) with (p + 1)%nat by lia. by rewrite <- drop_drop, Hd.
  - rewrite Forall_forall in HL. apply HL. apply list_elem_of_lookup. exists p.
    rewrite <- (Nat.add_0_r p), <- lookup_drop, Hd. done.
Qed.
Lemma drop_end p : (p ≤ len)%nat → drop p L = [] → p = len.
Proof. intros Hp Hd. apply (f_equal length) in Hd. rewrite length_drop in Hd. simpl in Hd. lia. Qed.

Lemma skip_while_run test p s : line_in s → (p ≤ len)%nat →
  skip_while test (len - p) p s = Done (p + run_len test (drop p L))%nat s.
Proof.
  intros Hs. remember (len - p)%nat as n eqn:En. revert p En; induction n as [|n IH]; intros p En Hp.
  - assert (p = len) as -> by lia. rewrite drop_all. simpl. by rewrite Nat.add_0_r.
  - cbn [skip_while]. destruct (drop p L) as [|c r] eqn:Hd; [apply drop_end in Hd; lia|].
    erewrite bind_done by by eapply char_at_in. simpl. destruct (drop_cons _ _ _ Hd) as (Hlt & Hd' & _).
    destruct (test c); [|by rewrite Nat.add_0_r]. rewrite IH by lia. rewrite Hd'. f_equal. lia.
Qed.

Lemma run_bound test p : (p ≤ len)%nat → (p + run_len test (drop p L) ≤ len)%nat.
Proof. intros Hp. pose proof (run_len_le test (drop p L)) as H. rewrite length_drop in H. lia. Qed.

(** Where the next token starts. *)
Definition skipped (p : nat) : nat := (p + run_len is_space (drop p L))%nat.
Lemma skip_space_run p s : line_in s → (p ≤ len)%nat → skip_space p len s = Done (skipped p) s.
Proof. apply skip_while_run. Qed.
Lemma skipped_le p : (p ≤ len)%nat → (p ≤ skipped p ≤ len)%nat.
Proof. intros Hp. pose proof (run_bound is_space p Hp). unfold skipped. lia. Qed.
Lemma skipped_lex p : at_pos (skipped p) = at_pos p.
Proof. unfold skipped. rewrite <- drop_drop. apply lex_spaces. Qed.
Lemma skipped_stop p : match drop (skipped p) L with [] => True | c :: _ => is_space c = false end.
Proof. unfold skipped. rewrite <- drop_drop. apply run_len_stop. Qed.

(** The word [w] lies between [q] and [e]. *)
Definition span (q e : nat) (w : list byte) : Prop :=
  e = (q + length w)%nat ∧ (e ≤ len)%nat ∧ Forall (λ c, is_word c = true) w ∧
  ∃ r, drop q L = w ++ r ∧ starts_word r = false.

Lemma run_word l : Forall (λ c, is_word c = true) (take (run_len is_word l) l) ∧ starts_word (drop (run_len is_word l) l) = false.
Proof.
  induction l as [|c l [IH1 IH2]]; simpl; [done|]. destruct (is_word c) eqn:E; simpl; [|by rewrite E]. by split; [constructor|].
Qed.

Lemma span_run q : (q ≤ len)%nat → span q (q + run_len is_word (drop q L)) (take (run_len is_word (drop q L)) (drop q L)).
Proof.
  intros Hq. pose proof (run_len_le is_word (drop q L)) as Hl. destruct (run_word (drop q L)) as [H1 H2].
  split; [by rewrite length_take_le|]. split; [by apply run_bound|]. split; [done|].
  exists (drop (run_len is_word (drop q L)) (drop q L)). by rewrite take_drop.
Qed.

(** What [get_token] answers for the first token at [p]. *)
Definition token_read (ts : list token) (c : byte) (q e : nat) (ts' : list token) : Prop :=
  match ts with
  | [] => c = x00 ∧ ts' = []
  | TSym d :: r => c = d ∧ is_symbol d = true ∧ ts' = r
  | TAppend :: r => c = x2b ∧ ts' = r
  | TWord w :: r => c = x61 ∧ span q e w ∧ ts' = r
  end.

Lemma lex_stop c r : is_space c = false → lex (c :: r) =
  if bool_decide (c = x3e) then
    match r with d :: r' => if bool_decide (d = x3e) then TAppend :: lex r' else TSym c :: lex r | [] => [TSym c] end
  else if is_symbol c then TSym c :: lex r
  else TWord (take (run_len is_word (c :: r)) (c :: r)) :: lex (drop (run_len is_word (c :: r)) (c :: r)).
Proof.
  intros Hc. case_bool_decide as E; [subst; by cbn [lex]; rewrite Hc|].
  destruct (is_symbol c) eqn:Es.
  - cbn [lex]. by rewrite Hc, Es, (bool_decide_false (c = x3e)).
  - apply lex_word. cbn [starts_word]. unfold is_word. by rewrite Hc, Es.
Qed.

Lemma get_token_run p s : line_in s → (p ≤ len)%nat →
  ∃ c q e p', get_token p len s = Done (c, q, e, p') s ∧ (p' ≤ len)%nat ∧ token_read (at_pos p) c q e (at_pos p').
Proof.
  intros Hs Hp. pose proof (skipped_le p Hp) as Hq. pose proof (skipped_stop p) as Hstop.
  rewrite <- (skipped_lex p). set (q := skipped p) in *. unfold get_token.
  erewrite bind_done by by apply skip_space_run. fold q.
  assert (∀ (k : byte) (e : nat) ts', (e ≤ len)%nat → ts' = at_pos e → token_read (at_pos q) k q e ts' →
    ∃ c q' e' p', bind (skip_space e len) (λ str, ret (k, q, e, str)) s = Done (c, q', e', p') s ∧ (p' ≤ len)%nat ∧
      token_read (at_pos q) c q' e' (at_pos p')) as Hend.
  { intros k e ts' He -> Ht. exists k, q, e, (skipped e). erewrite bind_done by by apply skip_space_run.
    split; [done|]. split; [by apply skipped_le|]. by rewrite skipped_lex. }
  destruct (drop q L) as [|c r] eqn:Hd.
  { erewrite bind_done by (apply char_at_end; [done|]; apply drop_end; [lia|done]).
    rewrite bool_decide_true, bind_ret_l by done. eapply Hend; [lia|done|]. by rewrite Hd. }
  destruct (drop_cons _ _ _ Hd) as (Hlt & Hd' & Hc0).
  erewrite bind_done by by eapply char_at_in. rewrite bool_decide_false by done.
  rewrite (lex_stop c r Hstop) in *.
  assert (strchr [x7c; x28; x29; x3b; x26; x3c] c = is_symbol c && negb (bool_decide (c = x3e))) as ->.
  { cbn [strchr symbols]. repeat case_bool_decide; by subst. }
  destruct (is_symbol c) eqn:Es; simpl andb.
  - case_bool_decide as E; simpl negb; cbv iota.
    + subst c. destruct r as [|d r].
      * erewrite bind_done; [|erewrite bind_done by (apply char_at_end; [done|]; apply drop_end; [lia|done]); rewrite bool_decide_false by done; reflexivity].
        eapply Hend; [lia|by rewrite Hd'|done].
      * destruct (drop_cons _ _ _ Hd') as (Hlt' & Hd'' & _).
        destruct (decide (d = x3e)) as [->|E].
        -- erewrite bind_done; [|erewrite bind_done by (by eapply char_at_in); reflexivity].
           eapply Hend; [lia|by rewrite Hd''|done].
        -- erewrite bind_done; [|erewrite bind_done by (by eapply char_at_in); rewrite bool_decide_false by done; reflexivity].
           rewrite bool_decide_false in * by done. eapply Hend; [lia|by rewrite Hd'|done].
    + rewrite bind_ret_l. eapply Hend; [lia|by rewrite Hd'|by split_and!].
  - rewrite (bool_decide_false (c = x3e)) in * by (by intros ->).
    unfold skip_word. erewrite bind_done; [|erewrite bind_done by (apply skip_while_run; [done|lia]); reflexivity]. cbv zeta.
    pose proof (span_run q ltac:(lia)) as Hsp. rewrite Hd in Hsp. rewrite Hd.
    change (λ c, negb (is_space c) && negb (is_symbol c)) with is_word.
    eapply Hend; [apply Hsp| |].
    + by rewrite <- drop_drop, Hd.
    + by split_and!.
Qed.

(** [peek] for symbols. *)
Lemma peek_run cs p s : line_in s → (p ≤ len)%nat → (∀ c, strchr cs c = true → is_symbol c = true) →
  ∃ p', peek p len cs s = Done (p', head_sym cs (at_pos p)) s ∧ (p ≤ p' ≤ len)%nat ∧ at_pos p' = at_pos p ∧
    (p' = len ↔ at_pos p = []).
Proof.
  intros Hs Hp Hcs. exists (skipped p). pose proof (skipped_le p Hp) as Hq. pose proof (skipped_stop p) as Hstop.
  rewrite <- (skipped_lex p). set (q := skipped p) in *. unfold peek. erewrite bind_done by by apply skip_space_run. fold q.
  destruct (drop q L) as [|c r] eqn:Hd.
  - assert (q = len) as -> by (apply drop_end; [lia|done]). erewrite bind_done by by apply char_at_end.
    split; [done|]. split; [lia|]. split; [done|]. by split.
  - destruct (drop_cons _ _ _ Hd) as (Hlt & Hd' & Hc0). erewrite bind_done by by eapply char_at_in.
    rewrite bool_decide_true by done. rewrite (lex_stop c r Hstop). split_and!; try lia; try done.
    + simpl andb. unfold ret. do 2 f_equal. destruct (decide (c = x3e)) as [->|E].
      * rewrite bool_decide_true by done. destruct r as [|d r]; [done|]. by destruct (bool_decide (d = x3e)).
      * rewrite (bool_decide_false (c = x3e)) by done. destruct (is_symbol c) eqn:Es; [done|]. cbn [head_sym].
        apply not_true_is_false. intros Ht. apply Hcs in Ht. congruence.
    + split; [lia|]. case_bool_decide; [destruct r as [|d r]; [done|]; by case_bool_decide|]. by destruct (is_symbol c).
Qed.

(** ** Nodes *)

Definition with_heap (s : nstate) (h : list node) : nstate := mk_nstate (n_buf s) h.
Definition arg_ptrs (ps : list nat) : list (option nat) := (Some <$> ps) ++ replicate (MAXARGS - length ps) None.
Definition exec_node (sp : list (nat * nat)) : node := EXEC (arg_ptrs sp.*1) (arg_ptrs sp.*2).

(** The redirections [rs], first one innermost, lead from node [c'] down to [c]. *)
Fixpoint chain (h : list node) (c c' : nat) (rs : list redir) : Prop :=
  match rs with
  | [] => c' = c
  | (o, w) :: rs => ∃ c1 q e, h !! c1 = Some (REDIR c q e (rop_mode o) (rop_fd o)) ∧ (c < c1)%nat ∧ span q e w ∧ chain h c1 c' rs
  end.

Lemma chain_app h c c1 c2 rs1 rs2 : chain h c c1 rs1 → chain h c1 c2 rs2 → chain h c c2 (rs1 ++ rs2).
Proof.
  revert c; induction rs1 as [|[o w] rs1 IH]; simpl; intros c; [by intros ->|].
  intros (b & q & e & Hb & Hc & Hs & H) H2. exists b, q, e. eauto.
Qed.
Lemma chain_ext h h' c c' rs : (∀ i x, (c < i)%nat → h !! i = Some x → h' !! i = Some x) → chain h c c' rs → chain h' c c' rs.
Proof.
  revert c; induction rs as [|[o w] rs IH]; simpl; intros c Hext; [done|].
  intros (b & q & e & Hb & Hc & Hs & H). exists b, q, e. split_and!; auto. apply IH; [|done]. intros i x Hi. apply Hext. lia.
Qed.
Lemma lookup_more {A} (h h' : list A) i x : h !! i = Some x → (h ++ h') !! i = Some x.
Proof. apply lookup_app_l_Some. Qed.
Lemma lookup_new {A} (h : list A) x : (h ++ [x]) !! length h = Some x.
Proof. by rewrite lookup_app_r, Nat.sub_diag by lia. Qed.

Lemma new_node_run x s : new_node x s = Done (length (n_heap s)) (with_heap s (n_heap s ++ [x])).
Proof. done. Qed.

Lemma token_read_word ts q e r : token_read ts x61 q e r → ∃ w, ts = TWord w :: r ∧ span q e w.
Proof.
  destruct ts as [|[d| |w] ts]; simpl; try (intros [? ?]; done).
  - intros (<- & ? & ?). done.
  - intros (_ & ? & ->). eauto.
Qed.
(** The operator token in front of a redirection. *)
Lemma redir_head ts : head_sym [x3c; x3e] ts = bool_decide (is_Some (head ts ≫= rop_of)).
Proof.
  destruct ts as [|[c| |w] ts]; try done. simpl. repeat case_bool_decide; subst; try done;
  match goal with H : ¬ is_Some _ |- _ => destruct H; eauto | H : is_Some _ |- _ => destruct H; done end.
Qed.

Lemma redir_node ts tok q e r o c s : token_read ts tok q e r → head ts ≫= rop_of = Some o → ∀ fname fname_end,
  (if bool_decide (tok = x3c) then redir_cmd c fname fname_end O_RDONLY 0
   else if bool_decide (tok = x3e) then redir_cmd c fname fname_end (Z.lor O_WRONLY O_CREATE) 1
   else if bool_decide (tok = x2b) then redir_cmd c fname fname_end (Z.lor O_WRONLY O_CREATE) 1
   else ret c) s = new_node (REDIR c fname fname_end (rop_mode o) (rop_fd o)) s.
Proof.
  destruct ts as [|[d| |w] ts]; try done.
  - intros (-> & _ & _). simpl. repeat case_bool_decide; intros [= <-]; done.
  - intros [-> _] [= <-]. done.
Qed.

Lemma peek_redir p s : line_in s → (p ≤ len)%nat →
  ∃ p', peek p len [x3c; x3e] s = Done (p', head_sym [x3c; x3e] (at_pos p)) s ∧ (p ≤ p' ≤ len)%nat ∧ at_pos p' = at_pos p ∧
    (p' = len ↔ at_pos p = []).
Proof. intros. apply peek_run; [done..|]. char_cases. Qed.

Lemma token_read_tail tok ts c q e r : token_read (tok :: ts) c q e r → r = ts.
Proof. destruct tok; simpl; naive_solver. Qed.

Lemma parse_redirs_run fuel : ∀ c p s, line_in s → (p ≤ len)%nat → (length (at_pos p) ≤ fuel)%nat → (c < length (n_heap s))%nat →
  match tp_redirs (at_pos p) with
  | TOk rs rest => ∃ c' p' h', parse_redirs fuel c p len s = Done (c', p') (with_heap s (n_heap s ++ h')) ∧
      (p' ≤ len)%nat ∧ at_pos p' = rest ∧ chain (n_heap s ++ h') c c' rs ∧ (c' < length (n_heap s ++ h'))%nat
  | TErr m => parse_redirs fuel c p len s = Panic m
  | TFuel => False
  end.
Proof.
  induction fuel as [|fuel IH]; intros c p s Hs Hp Hf Hc; cbn [parse_redirs].
  all: destruct (peek_redir p s Hs Hp) as (p1 & E1 & Hp1 & Ht1 & _); erewrite bind_done by exact E1; clear E1.
  all: rewrite redir_head; destruct (at_pos p) as [|tok ts] eqn:Et.
  all: try (exists c, p1, []; rewrite app_nil_r; split_and!; [by destruct s|lia|done..]).
  1: simpl in Hf; lia.
  cbn [head mbind option_bind tp_redirs]. destruct (rop_of tok) as [o|] eqn:Eo; [rewrite bool_decide_true by eauto|];
    [|rewrite bool_decide_false by (intros [? ?]; done); exists c, p1, []; rewrite app_nil_r; split_and!; [by destruct s|lia|done..]].
  destruct (get_token_run p1 s Hs ltac:(lia)) as (t1 & q1 & e1 & p2 & E1 & Hp2 & R1).
  erewrite bind_done by exact E1. cbv iota beta. rewrite Ht1 in R1. pose proof (token_read_tail _ _ _ _ _ _ R1) as Ht2.
  destruct (get_token_run p2 s Hs Hp2) as (t2 & q & e & p3 & E2 & Hp3 & R2). erewrite bind_done by exact E2. cbv iota beta.
  rewrite Ht2 in R2. destruct (decide (t2 = x61)) as [->|Hne].
  - destruct (token_read_word _ _ _ _ R2) as (w & -> & Hsp). rewrite bool_decide_false by (by intros []).
    erewrite bind_done by (rewrite (redir_node _ _ _ _ _ _ _ _ R1 Eo); apply new_node_run).
    simpl in Hf. set (s1 := with_heap s (n_heap s ++ [REDIR c q e (rop_mode o) (rop_fd o)])).
    specialize (IH (length (n_heap s)) p3 s1 Hs Hp3 ltac:(lia)).
    assert (length (n_heap s) < length (n_heap s1))%nat as Hl by (simpl; rewrite length_app; simpl; lia).
    specialize (IH Hl). destruct (tp_redirs (at_pos p3)) as [rs rest|m|]; simpl; [|done..].
    destruct IH as (c' & p' & h' & -> & Hp' & Hr & Hch & Hl'). exists c', p', (REDIR c q e (rop_mode o) (rop_fd o) :: h').
    simpl in Hch, Hl'. rewrite <- app_assoc in Hch, Hl'. unfold with_heap, s1. simpl. rewrite <- app_assoc. split_and!; try done.
    exists (length (n_heap s)), q, e. split_and!; try done. rewrite lookup_app_r, Nat.sub_diag by lia. done.
  - rewrite bool_decide_true by done. destruct ts as [|[| |w] ts']; try done. by destruct R2.
Qed.

(** ** Arguments *)

Lemma tp_items_redirs ts : ∀ args rs, tp_items args rs ts = tbind (tp_redirs ts) (λ rs' rest, tp_items args (rs ++ rs') rest).
Proof.
  induction ts as [|tok ts _ IH] using list_ind2; intros args rs; [simpl; by rewrite app_nil_r|].
  cbn [tp_redirs]. destruct (rop_of tok) as [o|] eqn:Eo; [|simpl tbind; by rewrite app_nil_r].
  destruct ts as [|[| |w] ts']; try (by destruct tok; cbn [tp_items]; rewrite ?Eo).
  transitivity (tp_items args (rs ++ [(o, w)]) ts'); [destruct tok; cbn [tp_items]; rewrite ?Eo; done|].
  rewrite (IH _ _ eq_refl). destruct (tp_redirs ts'); simpl; [|done..]. by rewrite <- app_assoc.
Qed.
Lemma tp_redirs_stop ts rs rest : tp_redirs ts = TOk rs rest → head rest ≫= rop_of = None.
Proof.
  revert rs; induction ts as [|tok ts _ IH] using list_ind2; intros rs; simpl; [by intros [= <- <-]|].
  destruct (rop_of tok) as [o|] eqn:E; [|by intros [= <- <-]]. destruct ts as [|[| |w] ts']; try done.
  intros H. tcase H. injection H as <- <-. by eapply IH.
Qed.

Lemma insert_arg (l : list nat) x : (length l < MAXARGS)%nat → <[length l := Some x]> (arg_ptrs l) = arg_ptrs (l ++ [x]).
Proof.
  intros Hl. unfold arg_ptrs. rewrite fmap_app, length_app. replace (MAXARGS - length l)%nat with (S (MAXARGS - (length l + 1))) by lia.
  rewrite insert_app_r_alt by (by rewrite length_fmap). rewrite length_fmap, Nat.sub_diag. simpl. by rewrite <- app_assoc.
Qed.
Lemma insert_stop (l : list nat) : (length l < MAXARGS)%nat → <[length l := None]> (arg_ptrs l) = arg_ptrs l.
Proof.
  intros Hl. unfold arg_ptrs. destruct (MAXARGS - length l)%nat as [|k] eqn:E; [lia|].
  rewrite insert_app_r_alt by (by rewrite length_fmap). rewrite length_fmap, Nat.sub_diag. done.
Qed.

(** The heap while the arguments [sp] are collected in the node behind [h]. *)
Notation heap_with h sp h1 := (h ++ exec_node sp :: h1).
Lemma heap_with_ext h sp sp' h1 h2 i x : (length h < i)%nat → heap_with h sp h1 !! i = Some x → heap_with h sp' (h1 ++ h2) !! i = Some x.
Proof.
  intros Hi. rewrite !lookup_app_r by lia. destruct (i - length h)%nat as [|k] eqn:E; [lia|]. simpl. apply lookup_more.
Qed.

Lemma set_arg_run s h sp h1 q e : n_heap s = heap_with h sp h1 → (length sp < MAXARGS)%nat →
  set_arg (length h) (length sp) (Some q) (Some e) s = Done tt (with_heap s (heap_with h (sp ++ [(q, e)]) h1)).
Proof.
  intros E Hl. unfold set_arg, modify, set_n_heap, with_heap. rewrite E. do 2 f_equal.
  rewrite <- (Nat.add_0_r (length h)), alter_app_r. simpl. do 2 f_equal. unfold exec_node. rewrite !fmap_app. simpl.
  f_equal; rewrite <- insert_arg; rewrite ?length_fmap; done.
Qed.
Lemma set_arg_stop s h sp h1 : n_heap s = heap_with h sp h1 → (length sp < MAXARGS)%nat →
  set_arg (length h) (length sp) None None s = Done tt s.
Proof.
  intros E Hl. destruct s as [b hp]. simpl in E. subst hp. unfold set_arg, modify, set_n_heap. simpl. do 2 f_equal.
  rewrite <- (Nat.add_0_r (length h)), alter_app_r. simpl. do 2 f_equal. unfold exec_node.
  f_equal; [rewrite <- (length_fmap fst sp)|rewrite <- (length_fmap snd sp)]; apply insert_stop; by rewrite length_fmap.
Qed.

Notation spans sp args := (Forall2 (λ x w, span x.1 x.2 w) sp args).

Definition items_run (run : res nstate (nat * nat * nat)) (s : nstate) (h : list node) (h1 : list node)
    (r : tres (list (list byte) * list redir)) : Prop :=
  match r with
  | TOk (args, rs) rest => ∃ r' p' sp h2, run = Done (r', length sp, p') (with_heap s (heap_with h sp (h1 ++ h2))) ∧
      (p' ≤ len)%nat ∧ at_pos p' = rest ∧ chain (heap_with h sp (h1 ++ h2)) (length h) r' rs ∧
      (r' < length (heap_with h sp (h1 ++ h2)))%nat ∧ spans sp args ∧ (length sp < MAXARGS)%nat
  | TErr m => run = Panic m
  | TFuel => False
  end.

Lemma items_run_app run s s' h h1 h2 r : with_heap s' = with_heap s → items_run run s' h (h1 ++ h2) r → items_run run s h h1 r.
Proof.
  intros E. destruct r as [[args rs] rest|m|]; simpl; try done. rewrite E.
  intros (r' & p' & sp & h3 & H). exists r', p', sp, (h2 ++ h3). by rewrite <- app_assoc in H.
Qed.

Lemma peek_after p s : line_in s → (p ≤ len)%nat →
  ∃ p', peek p len after_cmd s = Done (p', head_sym after_cmd (at_pos p)) s ∧ (p ≤ p' ≤ len)%nat ∧ at_pos p' = at_pos p ∧
    (p' = len ↔ at_pos p = []).
Proof. intros. apply peek_run; [done..|]. char_cases. Qed.

Lemma exec_loop_run fuel : ∀ h sp h1 r args rs p s, line_in s → (p ≤ len)%nat → (length (at_pos p) < fuel)%nat →
  n_heap s = heap_with h sp h1 → chain (n_heap s) (length h) r rs → (r < length (n_heap s))%nat →
  spans sp args → (length sp < MAXARGS)%nat → head (at_pos p) ≫= rop_of = None →
  items_run (exec_loop fuel (length h) r (length sp) p len s) s h h1 (tp_items args rs (at_pos p)).
Proof.
  induction fuel as [|fuel IH]; intros h sp h1 r args rs p s Hs Hp Hf Hh Hch Hr Hsp Hl Hno; [lia|]. cbn [exec_loop].
  destruct (peek_after p s Hs Hp) as (p1 & E1 & Hp1 & Ht1 & _). erewrite bind_done by exact E1. cbv iota beta. clear E1.
  assert (∀ p', (p' ≤ len)%nat → at_pos p' = at_pos p →
    items_run (ret (r, length sp, p') s) s h h1 (TOk (args, rs) (at_pos p))) as Hstop.
  { intros p' Hp' Ht. exists r, p', sp, []. rewrite app_nil_r, <- Hh. split_and!; try done. by destruct s. }
  destruct (head_sym after_cmd (at_pos p)) eqn:Eh.
  { assert (tp_items args rs (at_pos p) = TOk (args, rs) (at_pos p)) as ->; [|by apply Hstop; [lia|]].
    destruct (at_pos p) as [|[c| |w] ts]; try done.
    change (rop_of (TSym c) = None) in Hno. cbn [tp_items]. by rewrite Hno, Eh. }
  destruct (get_token_run p1 s Hs ltac:(lia)) as (t1 & q & e & p2 & E1 & Hp2 & R1).
  erewrite bind_done by exact E1. cbv iota beta. rewrite Ht1 in R1.
  destruct (at_pos p) as [|[c| |w] ts] eqn:Et; try done.
  - destruct R1 as [-> R1]. rewrite bool_decide_true by done. apply Hstop; [done|]. by rewrite R1.
  - destruct R1 as (-> & Hc & _). cbn [tp_items]. change (rop_of (TSym c) = None) in Hno. rewrite Hno, Eh.
    rewrite bool_decide_false by (by intros ->). rewrite bool_decide_true; [done|]. by intros ->.
  - destruct R1 as (-> & Hq & Hts). rewrite (bool_decide_false (x61 = x00)), (bool_decide_false (x61 ≠ x61)) by (done || by intros []).
    erewrite bind_done by by apply set_arg_run. cbn [tp_items]. rewrite <- (Forall2_length _ _ _ Hsp).
    destruct (MAXARGS <=? S (length sp))%nat eqn:Em; [done|]. apply Nat.leb_gt in Em.
    set (s1 := with_heap s (heap_with h (sp ++ [(q, e)]) h1)).
    assert (r < length (n_heap s1))%nat as Hr1 by (revert Hr; rewrite Hh; simpl; rewrite !length_app; simpl; lia).
    assert (length (at_pos p2) ≤ fuel)%nat as Hf2 by (rewrite Hts; simpl in Hf; lia).
    pose proof (parse_redirs_run fuel r p2 s1 Hs Hp2 Hf2 Hr1) as H. rewrite Hts in H. rewrite tp_items_redirs.
    destruct (tp_redirs ts) as [rs2 rest|m|] eqn:Er; [|by erewrite bind_panic|done].
    destruct H as (r' & p' & h2 & E2 & Hp' & Hrest & Hch2 & Hr'). erewrite bind_done by exact E2. cbv iota beta.
    assert (n_heap s1 ++ h2 = heap_with h (sp ++ [(q, e)]) (h1 ++ h2)) as Eh2 by (simpl; by rewrite <- app_assoc).
    rewrite Eh2 in *. pose proof (tp_redirs_sound _ _ _ Er) as Elen.
    replace (S (length sp)) with (length (sp ++ [(q, e)])) by (rewrite length_app; simpl; lia).
    simpl tbind. rewrite <- Hrest. apply (items_run_app _ _ (with_heap s1 (heap_with h (sp ++ [(q, e)]) (h1 ++ h2))) _ _ h2); [done|].
    apply IH; try done.
    + rewrite Hrest. apply (f_equal length) in Elen. rewrite length_app in Elen. simpl in Hf. lia.
    + simpl n_heap. eapply chain_app; [|exact Hch2]. eapply chain_ext; [|exact Hch]. rewrite Hh. intros i x Hi. by apply heap_with_ext.
    + by apply Forall2_app; [|constructor].
    + rewrite length_app. simpl. lia.
    + rewrite Hrest. by eapply tp_redirs_stop.
Qed.

(** ** Trees in the heap *)

(** Node [a] of [h] is the root of [t]; [str q e w] says that the string
    recorded with the two ends [q] and [e] is [w].  Children lie below. *)
Fixpoint rep (str : nat → nat → list byte → Prop) (h : list node) (a : nat) (t : tree) : Prop :=
  match t with
  | TExec args => ∃ sp, h !! a = Some (exec_node sp) ∧ (length sp < MAXARGS)%nat ∧ Forall2 (λ x w, str x.1 x.2 w) sp args
  | TRedir t w m d => ∃ c q e, h !! a = Some (REDIR c q e m d) ∧ (c < a)%nat ∧ str q e w ∧ rep str h c t
  | TPipe l r => ∃ b c, h !! a = Some (PIPE b c) ∧ (b < a)%nat ∧ (c < a)%nat ∧ rep str h b l ∧ rep str h c r
  | TList l r => ∃ b c, h !! a = Some (LIST b c) ∧ (b < a)%nat ∧ (c < a)%nat ∧ rep str h b l ∧ rep str h c r
  | TBack t => ∃ c, h !! a = Some (BACK c) ∧ (c < a)%nat ∧ rep str h c t
  end.

Lemma rep_app str h h' a t : rep str h a t → rep str (h ++ h') a t.
Proof.
  assert (∀ i x, h !! i = Some x → (h ++ h') !! i = Some x) as Hm by (intros; by apply lookup_more).
  revert a; induction t as [args|t IH w m d|l IHl r IHr|l IHl r IHr|t IH]; simpl; intros a Ha.
  - destruct Ha as (sp & Ha & ? & ?). exists sp. split_and!; auto.
  - destruct Ha as (c & q & e & Ha & ? & ? & ?). exists c, q, e. split_and!; auto.
  - destruct Ha as (b & c & Ha & ? & ? & ? & ?). exists b, c. split_and!; auto.
  - destruct Ha as (b & c & Ha & ? & ? & ? & ?). exists b, c. split_and!; auto.
  - destruct Ha as (c & Ha & ? & ?). exists c. split_and!; auto.
Qed.

Lemma rep_chain h c c' rs t : rep span h c t → chain h c c' rs → rep span h c' (wrap rs t).
Proof.
  revert c t; induction rs as [|[o w] rs IH]; intros c t Ht; simpl; [by intros ->|].
  intros (c1 & q & e & Hc1 & Hlt & Hsp & Hch). eapply IH; [|exact Hch]. exists c, q, e. done.
Qed.

(** The run [run] from [s] finds the tree that [r] has. *)
Definition sim (r : tres tree) (run : res nstate (nat * nat)) (s : nstate) : Prop :=
  match r with
  | TOk t rest => ∃ c p' h', run = Done (c, p') (with_heap s (n_heap s ++ h')) ∧ (p' ≤ len)%nat ∧ at_pos p' = rest ∧
      rep span (n_heap s ++ h') c t ∧ (c < length (n_heap s ++ h'))%nat
  | TErr m => run = Panic m
  | TFuel => False
  end.

Lemma sim_bind r k run (f : nat * nat → M nstate (nat * nat)) s : sim r run s →
  (∀ t rest c p' h', r = TOk t rest → run = Done (c, p') (with_heap s (n_heap s ++ h')) → (p' ≤ len)%nat → at_pos p' = rest →
     rep span (n_heap s ++ h') c t → (c < length (n_heap s ++ h'))%nat →
     sim (k t rest) (f (c, p') (with_heap s (n_heap s ++ h'))) s) →
  sim (tbind r k) (rbind run f) s.
Proof.
  destruct r as [t rest|m|]; simpl; [|by intros ->|done].
  intros (c & p' & h' & E & H1 & H2 & H3 & H4) H. rewrite E. apply H; done.
Qed.

(** From a larger heap. *)
Lemma sim_more r run s h' : sim r run (with_heap s (n_heap s ++ h')) → sim r run s.
Proof.
  destruct r as [t rest|m|]; simpl; try done. intros (c & p' & h2 & H). exists c, p', (h' ++ h2).
  rewrite <- app_assoc in H. done.
Qed.
Lemma sim_done t rest c p s : (p ≤ len)%nat → at_pos p = rest → rep span (n_heap s) c t → (c < length (n_heap s))%nat →
  sim (TOk t rest) (ret (c, p) s) s.
Proof. intros. exists c, p, []. rewrite app_nil_r. split_and!; try done. by destruct s. Qed.
Lemma sim_node t rest p x s : (p ≤ len)%nat → at_pos p = rest → rep span (n_heap s ++ [x]) (length (n_heap s)) t →
  sim (TOk t rest) (bind (new_node x) (λ c, ret (c, p)) s) s.
Proof.
  intros Hp Hr Ht. unfold bind. rewrite new_node_run. simpl. exists (length (n_heap s)), p, [x]. split_and!; try done.
  rewrite length_app. simpl. lia.
Qed.

Lemma peek_sym c p s : is_symbol c = true → line_in s → (p ≤ len)%nat →
  ∃ p', peek p len [c] s = Done (p', head_sym [c] (at_pos p)) s ∧ (p ≤ p' ≤ len)%nat ∧ at_pos p' = at_pos p ∧
    (p' = len ↔ at_pos p = []).
Proof. intros Hc Hs Hp. apply peek_run; [done..|]. intros d. cbn [strchr]. case_bool_decide; by subst. Qed.

(** Reading the symbol that [peek] has seen. *)
Lemma next_token p tok ts s : line_in s → (p ≤ len)%nat → at_pos p = tok :: ts →
  ∃ c q e p', get_token p len s = Done (c, q, e, p') s ∧ (p' ≤ len)%nat ∧ at_pos p' = ts.
Proof.
  intros Hs Hp Ht. destruct (get_token_run p s Hs Hp) as (c & q & e & p' & E & Hp' & R). rewrite Ht in R.
  apply token_read_tail in R. eauto 8.
Qed.

Lemma back_loop_run n : ∀ fuel c p t s rest, line_in s → (p ≤ len)%nat → at_pos p = amps n ++ rest → head_sym [x26] rest = false →
  (n ≤ fuel)%nat → rep span (n_heap s) c t → (c < length (n_heap s))%nat →
  sim (TOk (backs n t) rest) (back_loop fuel c p len s) s.
Proof.
  induction n as [|n IH]; intros fuel c p t s rest Hs Hp Ht Hno Hf Hrep Hc.
  all: destruct (peek_sym x26 p s eq_refl Hs Hp) as (p1 & E1 & Hp1 & Ht1 & _).
  - assert (back_loop fuel c p len s = ret (c, p1) s) as ->.
    { destruct fuel; cbn [back_loop]; erewrite bind_done by exact E1; rewrite Ht; change (amps 0 ++ rest) with rest; by rewrite Hno. }
    apply sim_done; [lia|by rewrite Ht1|done..].
  - destruct fuel as [|fuel]; [lia|]. cbn [back_loop]. erewrite bind_done by exact E1. rewrite Ht. change (head_sym [x26] (amps (S n) ++ rest)) with true. cbv iota beta.
    destruct (next_token p1 (TSym x26) (amps n ++ rest) s) as (t1 & q & e & p2 & E2 & Hp2 & Ht2); [done|lia|by rewrite Ht1, Ht|].
    erewrite bind_done by exact E2. cbv iota beta. erewrite bind_done by apply new_node_run.
    replace (backs (S n) t) with (backs n (TBack t)) by (unfold backs; by rewrite Nat.iter_succ_r).
    apply (sim_more _ _ _ [BACK c]), IH; try done; [lia| |simpl; rewrite length_app; simpl; lia].
    exists c. split; [apply lookup_new|]. split; [done|]. by apply rep_app.
Qed.

Lemma line_in_heap s h : line_in s → line_in (with_heap s h).
Proof. done. Qed.

(** A separator and what follows it, for [parse_line] and [parse_pipe]. *)
Lemma separator_run (c : byte) (mk : nat → nat → node) (mkt : tree → tree → tree)
    (f : nat → nat → M nstate (nat * nat)) (tp : list token → tres tree) t rest a p s :
  (∀ h i b d l r, h !! i = Some (mk b d) → (b < i)%nat → (d < i)%nat → rep span h b l → rep span h d r → rep span h i (mkt l r)) →
  is_symbol c = true → c ≠ x3e → line_in s → (p ≤ len)%nat → at_pos p = rest → rep span (n_heap s) a t → (a < length (n_heap s))%nat →
  (∀ p', (p' ≤ len)%nat → (length (at_pos p') < length rest)%nat → sim (tp (at_pos p')) (f p' len s) s) →
  sim (if head_sym [c] rest then tbind (tp (tail rest)) (λ t2 ts, TOk (mkt t t2) ts) else TOk t rest)
    (bind (peek p len [c]) (λ r, let '(str, more) := r in
       if more then
         let! r := get_token str len in
         let '(_, _, _, str) := r in
         let! r := f str len in
         let '(rcmd, str) := r in
         let! cmd := new_node (mk a rcmd) in
         ret (cmd, str)
       else ret (a, str)) s) s.
Proof.
  intros Hmk Hc Hgt Hs Hp Ht Hrep Ha Hf.
  destruct (peek_sym c p s Hc Hs Hp) as (p1 & E1 & Hp1 & Ht1 & _). erewrite bind_done by exact E1. rewrite Ht.
  destruct (head_sym [c] rest) eqn:Eh; cbv iota beta; [|apply sim_done; [lia|by rewrite Ht1|done..]].
  apply head_sym1 in Eh; [|done].
  destruct (next_token p1 (TSym c) (tail rest) s) as (t1 & q & e & p2 & E2 & Hp2 & Ht2); [done|lia|by rewrite Ht1, Ht|].
  erewrite bind_done by exact E2. cbv iota beta. rewrite <- Ht2. unfold bind at 1. apply sim_bind.
  - apply Hf; [done|]. rewrite Ht2, Eh. simpl. lia.
  - intros t2 r2 b p3 h' _ _ Hp3 Ht3 Hrep2 Hb. apply sim_more with (h' := h'). cbv iota beta.
    apply sim_node; [done|done|]. eapply Hmk; [apply lookup_new|..]; simpl.
    + rewrite length_app. lia.
    + done.
    + by apply rep_app, rep_app.
    + by apply rep_app.
Qed.

Lemma amps_next ts n rest : tp_amps ts = (n, rest) → head_sym [x26] rest = false.
Proof.
  revert n; induction ts as [|[c| |w] ts IH]; intros n; cbn [tp_amps]; try (by intros [= <- <-]).
  case_bool_decide as E.
  - destruct (tp_amps ts) as [m r]. intros [= <- <-]. by eapply IH.
  - intros [= <- <-]. simpl. by rewrite bool_decide_false by congruence.
Qed.

Lemma pos_length p ts1 rest : at_pos p = ts1 ++ rest → (length rest ≤ length (at_pos p))%nat.
Proof. intros ->. rewrite length_app. lia. Qed.

Lemma items_run_sim run s h h1 r (k : nat * nat * nat → M nstate (nat * nat)) :
  items_run run s h h1 r → n_heap s = heap_with h [] h1 →
  (∀ r' sp p' s', n_heap s' = heap_with h sp (drop (S (length h)) (n_heap s')) → (length sp < MAXARGS)%nat →
     k (r', length sp, p') s' = Done (r', p') s') →
  sim (tbind r (λ x ts, TOk (wrap x.2 (TExec x.1)) ts)) (rbind run k) (with_heap s h).
Proof.
  intros Hr Eh Hk. destruct r as [[args rs] rest|m|]; simpl in *; [|by rewrite Hr|done].
  destruct Hr as (r' & p' & sp & h2 & -> & Hp' & Ht & Hch & Hl & Hsp & Hn). simpl. rewrite Hk; [|simpl; f_equal; f_equal|done].
  - exists r', p', (exec_node sp :: h1 ++ h2). split_and!; try done. eapply rep_chain; [|exact Hch].
    exists sp. split_and!; [|done..]. by rewrite lookup_app_r, Nat.sub_diag by lia.
  - rewrite drop_app_ge by lia. by replace (S (length h) - length h)%nat with 1%nat by lia.
Qed.

Lemma parse_sim fuel :
  (∀ p s, line_in s → (p ≤ len)%nat → (4 * length (at_pos p) + 4 ≤ fuel)%nat → sim (tp_line fuel (at_pos p)) (parse_line fuel p len s) s) ∧
  (∀ p s, line_in s → (p ≤ len)%nat → (4 * length (at_pos p) + 3 ≤ fuel)%nat → sim (tp_pipe fuel (at_pos p)) (parse_pipe fuel p len s) s) ∧
  (∀ p s, line_in s → (p ≤ len)%nat → (4 * length (at_pos p) + 2 ≤ fuel)%nat → sim (tp_cmd fuel (at_pos p)) (parse_exec fuel p len s) s) ∧
  (∀ p s, line_in s → (p ≤ len)%nat → (4 * length (at_pos p) + 1 ≤ fuel)%nat → head_sym [x28] (at_pos p) = true →
     sim (tp_block fuel (at_pos p)) (parse_block fuel p len s) s).
Proof.
  induction fuel as [|fuel (IHl & IHp & IHc & IHb)]; [split_and!; intros; lia|].
  destruct (tp_sound fuel) as (Sl & Sp & Sc & Sb).
  split_and!; intros p s Hs Hp Hf; cbn [tp_line tp_pipe tp_cmd tp_block parse_line parse_pipe parse_exec parse_block].
  - unfold bind at 1. apply sim_bind; [by apply IHp; [done..|lia]|].
    intros t rest c p1 h1 Et _ Hp1 Ht1 Hrep Hc. apply sim_more with (h' := h1). cbv iota beta.
    apply Sp in Et as (ts1 & Et & _). apply pos_length in Et. destruct (tp_amps rest) as [n r] eqn:Ea.
    pose proof (amps_next _ _ _ Ea) as Hno. apply tp_amps_sound in Ea.
    assert (length rest = n + length r)%nat as El by (by rewrite Ea, length_app; unfold amps; rewrite length_replicate).
    change (sim (tbind (TOk (backs n t) r) (λ t ts, if head_sym [x3b] ts then tbind (tp_line fuel (tail ts)) (λ t2 ts, TOk (TList t t2) ts) else TOk t ts))
      (bind (back_loop fuel c p1 len) (λ '(cmd, str), bind (peek str len [x3b]) (λ '(str, more),
        if more then
          let! (_, _, _, str) := get_token str len in
          let! (rcmd, str) := parse_line fuel str len in
          let! cmd := list_cmd cmd rcmd in ret (cmd, str)
        else ret (cmd, str))) (with_heap s (n_heap s ++ h1))) (with_heap s (n_heap s ++ h1))).
    unfold bind at 1. apply sim_bind; [apply back_loop_run; try done; [by rewrite Ht1|lia]|].
    intros t2 r2 c2 p2 h2 [= <- <-] _ Hp2 Ht2 Hrep2 Hc2. apply (sim_more _ _ _ h2). cbv iota beta.
    apply (separator_run x3b LIST TList (parse_line fuel) (tp_line fuel)); try done.
    { simpl. naive_solver. }
    intros p' Hp' Hlt. apply IHl; [done..|lia].
  - unfold bind at 1. apply sim_bind; [by apply IHc; [done..|lia]|].
    intros t rest c p1 h1 Et _ Hp1 Ht1 Hrep Hc. apply sim_more with (h' := h1). cbv iota beta.
    apply Sc in Et as (ts1 & Et & _). apply pos_length in Et.
    apply (separator_run x7c PIPE TPipe (parse_pipe fuel) (tp_pipe fuel)); try done.
    { simpl. naive_solver. }
    intros p' Hp' Hlt. apply IHp; [done..|lia].
  - destruct (peek_sym x28 p s eq_refl Hs Hp) as (p1 & E1 & Hp1 & Ht1 & _). erewrite bind_done by exact E1. cbv iota beta.
    destruct (head_sym [x28] (at_pos p)) eqn:Eh; cbv iota.
    { rewrite <- Ht1. apply IHb; rewrite ?Ht1; try done; lia. }
    erewrite bind_done by apply new_node_run.
    change (EXEC (replicate MAXARGS None) (replicate MAXARGS None)) with (exec_node []).
    set (s1 := with_heap s (n_heap s ++ [exec_node []])).
    assert (length (n_heap s) < length (n_heap s1))%nat as Hl by (simpl; rewrite length_app; simpl; lia).
    pose proof (parse_redirs_run fuel (length (n_heap s)) p1 s1 Hs ltac:(lia) ltac:(rewrite Ht1; lia) Hl) as H. rewrite Ht1 in H.
    rewrite tp_items_redirs. destruct (tp_redirs (at_pos p)) as [rs rest|m|] eqn:Er; [|by erewrite bind_panic|done].
    destruct H as (r & p2 & h2 & E2 & Hp2 & Ht2 & Hch & Hr). erewrite bind_done by exact E2. cbv iota beta. simpl tbind.
    assert (n_heap s1 ++ h2 = heap_with (n_heap s) [] h2) as Eh2 by (simpl; by rewrite <- app_assoc).
    rewrite Eh2 in *. pose proof (tp_redirs_sound _ _ _ Er) as El. apply pos_length in El.
    set (s2 := with_heap s1 (heap_with (n_heap s) [] h2)). unfold bind at 1. rewrite <- Ht2.
    assert (sim (tbind (tp_items [] rs (at_pos p2)) (λ x ts, TOk (wrap x.2 (TExec x.1)) ts))
      (rbind (exec_loop fuel (length (n_heap s)) r 0 p2 len s2) (λ x, let '(r, argc, str) := x in
         set_arg (length (n_heap s)) argc None None ;;; ret (r, str))) (with_heap s2 (n_heap s))) as Hsim; [|by destruct s].
    eapply items_run_sim with (h1 := h2); [|done|].
    + apply (exec_loop_run fuel (n_heap s) [] h2 r [] rs p2 s2); try done; [rewrite Ht2; lia|by apply Nat.ltb_lt|].
      rewrite Ht2. by eapply tp_redirs_stop.
    + intros r' sp p' s' Eh' Hn. by erewrite bind_done by by eapply set_arg_stop.
  - intros Eh. pose proof (head_sym_length _ _ Eh) as El.
    destruct (peek_sym x28 p s eq_refl Hs Hp) as (p1 & E1 & Hp1 & Ht1 & _). erewrite bind_done by exact E1. rewrite Eh. cbv iota beta.
    change (negb true) with false. cbv iota. apply head_sym1 in Eh; [|done].
    destruct (next_token p1 (TSym x28) (tail (at_pos p)) s) as (t1 & q & e & p2 & E2 & Hp2 & Ht2); [done|lia|by rewrite Ht1|].
    erewrite bind_done by exact E2. cbv iota beta. rewrite <- Ht2. unfold bind at 1. apply sim_bind; [apply IHl; [done..|rewrite Ht2; lia]|].
    intros t rest c p3 h3 Et _ Hp3 Ht3 Hrep Hc. apply (sim_more _ _ _ h3). cbv iota beta.
    apply Sl in Et as (ts1 & Et & _). apply pos_length in Et. rewrite Ht2 in Et.
    set (s3 := with_heap s (n_heap s ++ h3)).
    destruct (peek_sym x29 p3 s3 eq_refl Hs Hp3) as (p4 & E4 & Hp4 & Ht4 & _). erewrite bind_done by exact E4. rewrite Ht3. cbv iota beta.
    destruct (head_sym [x29] rest) eqn:Er; [|done]. change (negb true) with false. cbv iota.
    pose proof (head_sym_length _ _ Er) as El2. apply head_sym1 in Er; [|done].
    destruct (next_token p4 (TSym x29) (tail rest) s3) as (t5 & q5 & e5 & p5 & E5 & Hp5 & Ht5); [done|lia|by rewrite Ht4, Ht3|].
    erewrite bind_done by exact E5. cbv iota beta. rewrite <- Ht5.
    pose proof (parse_redirs_run fuel c p5 s3 Hs Hp5 ltac:(rewrite Ht5; lia) Hc) as H.
    destruct (tp_redirs (at_pos p5)) as [rs rest'|m|]; [|done..].
    destruct H as (c' & p' & h' & -> & Hp' & Ht' & Hch & Hc'). exists c', p', h'. split_and!; try done.
    eapply rep_chain; [|exact Hch]. by apply rep_app.
Qed.

(** ** Cutting the words out of the line *)

(** The buffer still holds every character of a word. *)
Definition words_in (b : list byte) : Prop :=
  (len < length b)%nat ∧ ∀ i d, L !! i = Some d → is_word d = true → b !! i = Some d.
Definition zeros_kept (b b' : list byte) : Prop := ∀ i, b !! i = Some x00 → b' !! i = Some x00.
Definition ended (b : list byte) (q e : nat) (w : list byte) : Prop := span q e w ∧ b !! e = Some x00.

Lemma rep_mono (str str' : nat → nat → list byte → Prop) h a t :
  (∀ q e w, str q e w → str' q e w) → rep str h a t → rep str' h a t.
Proof.
  intros Hm. revert a; induction t as [args|t IH w m d|l IHl r IHr|l IHl r IHr|t IH]; simpl; intros a.
  - intros (sp & ? & ? & Hsp). exists sp. split_and!; [done..|]. eapply Forall2_impl; [exact Hsp|intros; auto].
  - intros (c & q & e & ? & ? & ? & ?). exists c, q, e. split_and!; auto.
  - intros (b & c & ? & ? & ? & ? & ?). exists b, c. split_and!; auto.
  - intros (b & c & ? & ? & ? & ? & ?). exists b, c. split_and!; auto.
  - intros (c & ? & ? & ?). exists c. split_and!; auto.
Qed.

Lemma span_end q e w d : span q e w → L !! e = Some d → is_word d = false.
Proof.
  intros (-> & _ & _ & r & Hd & Hr) Hl.
  assert (drop q L !! length w = Some d) as Hx by (by rewrite lookup_drop).
  rewrite Hd, lookup_app_r, Nat.sub_diag in Hx by lia. destruct r as [|c r]; [done|]. by injection Hx as ->.
Qed.

Lemma put_end_run q e w s : words_in (n_buf s) → span q e w →
  put_char e x00 s = Done tt (mk_nstate (<[e := x00]> (n_buf s)) (n_heap s)) ∧
  words_in (<[e := x00]> (n_buf s)) ∧ zeros_kept (n_buf s) (<[e := x00]> (n_buf s)) ∧ ended (<[e := x00]> (n_buf s)) q e w.
Proof.
  intros [Hl Hw] Hsp. pose proof (proj1 (proj2 Hsp)) as He. split; [|split; [split|split; [|split]]].
  - unfold put_char. by rewrite decide_True by lia.
  - by rewrite length_insert.
  - intros i d Hi Hd. destruct (decide (i = e)) as [->|Hne]; [pose proof (span_end _ _ _ _ Hsp Hi); congruence|].
    rewrite list_lookup_insert_ne by done. auto.
  - intros i Hi. destruct (decide (i = e)) as [->|Hne]; [by rewrite list_lookup_insert_eq by lia|by rewrite list_lookup_insert_ne].
  - done.
  - by rewrite list_lookup_insert_eq by lia.
Qed.

Lemma zeros_trans a b c : zeros_kept a b → zeros_kept b c → zeros_kept a c.
Proof. unfold zeros_kept. auto. Qed.
Lemma ended_mono b b' q e w : zeros_kept b b' → ended b q e w → ended b' q e w.
Proof. intros Hz [? ?]. split; auto. Qed.

Lemma cut_args_run sp args h : spans sp args → ∀ k b, words_in b →
  ∃ b', cut_args ((Some <$> sp.*1) ++ None :: replicate k None) ((Some <$> sp.*2) ++ None :: replicate k None) (mk_nstate b h) = Done tt (mk_nstate b' h) ∧
    words_in b' ∧ zeros_kept b b' ∧ Forall2 (λ x w, ended b' x.1 x.2 w) sp args.
Proof.
  induction 1 as [|[q e] w sp args Hsp _ IH]; intros k b Hb; simpl.
  - exists b. split_and!; [done|exact Hb|by intros ?|constructor].
  - destruct (put_end_run q e w (mk_nstate b h) Hb Hsp) as (E & Hb1 & Hz1 & He1). simpl in *.
    destruct (IH k _ Hb1) as (b' & E' & Hb' & Hz' & Hr'). exists b'. erewrite bind_done by exact E.
    split_and!; [done|exact Hb'|by eapply zeros_trans|constructor; [by eapply ended_mono|done]].
Qed.

Lemma arg_ptrs_stop (l : list nat) : (length l < MAXARGS)%nat → ∃ k, k = (MAXARGS - S (length l))%nat ∧ arg_ptrs l = (Some <$> l) ++ None :: replicate k None.
Proof. intros Hl. unfold arg_ptrs. eexists. split; [done|]. by replace (MAXARGS - length l)%nat with (S (MAXARGS - S (length l))) by lia. Qed.

Lemma null_terminate_run t : ∀ a fuel b h, rep span h a t → (a < fuel)%nat → words_in b →
  ∃ b', null_terminate fuel a (mk_nstate b h) = Done tt (mk_nstate b' h) ∧ words_in b' ∧ zeros_kept b b' ∧ rep (ended b') h a t.
Proof.
  assert (∀ a1 a2 t1 t2 fuel b h,
    (∀ b, words_in b → ∃ b', null_terminate fuel a1 (mk_nstate b h) = Done tt (mk_nstate b' h) ∧ words_in b' ∧ zeros_kept b b' ∧ rep (ended b') h a1 t1) →
    (∀ b, words_in b → ∃ b', null_terminate fuel a2 (mk_nstate b h) = Done tt (mk_nstate b' h) ∧ words_in b' ∧ zeros_kept b b' ∧ rep (ended b') h a2 t2) →
    words_in b → ∃ b', bind (null_terminate fuel a1) (λ _, null_terminate fuel a2) (mk_nstate b h) = Done tt (mk_nstate b' h) ∧
      words_in b' ∧ zeros_kept b b' ∧ rep (ended b') h a1 t1 ∧ rep (ended b') h a2 t2) as Htwo.
  { intros a1 a2 t1 t2 fuel b h H1 H2 Hb. destruct (H1 b Hb) as (b1 & E1 & Hb1 & Hz1 & R1). erewrite bind_done by exact E1.
    destruct (H2 b1 Hb1) as (b2 & E2 & Hb2 & Hz2 & R2). exists b2. split_and!; [done|exact Hb2|by eapply zeros_trans| |done].
    eapply rep_mono; [|exact R1]. intros *. by apply ended_mono. }
  induction t as [args|t IH w m d|l IHl r IHr|l IHl r IHr|t IH]; intros a [|fuel] b h; simpl; intros Hrep Hf Hb; try lia; rewrite bind_gets; change (n_heap (mk_nstate b h)) with h.
  - destruct Hrep as (sp & -> & Hn & Hsp). unfold exec_node.
    destruct (arg_ptrs_stop sp.*1) as (k & -> & ->); [by rewrite length_fmap|]. destruct (arg_ptrs_stop sp.*2) as (k & -> & ->); [by rewrite length_fmap|].
    rewrite !length_fmap. destruct (cut_args_run sp args h Hsp (MAXARGS - S (length sp)) b Hb) as (b' & E & Hb' & Hz & Hr).
    exists b'. split_and!; [done|exact Hb'|done|]. exists sp. split_and!; [|done..].
    destruct (arg_ptrs_stop sp.*1) as (k & -> & ->); [by rewrite length_fmap|]. destruct (arg_ptrs_stop sp.*2) as (k & -> & ->); [by rewrite length_fmap|].
    by rewrite !length_fmap.
  - destruct Hrep as (c & q & e & -> & Hc & Hsp & Hrep). destruct (IH c fuel b h Hrep ltac:(lia) Hb) as (b1 & E1 & Hb1 & Hz1 & R1).
    erewrite bind_done by exact E1. destruct (put_end_run q e w (mk_nstate b1 h) Hb1 Hsp) as (E & Hb2 & Hz2 & He). simpl in *.
    exists (<[e := x00]> b1). split_and!; [done|exact Hb2|by eapply zeros_trans|]. exists c, q, e. split_and!; try done; [apply He..|].
    eapply rep_mono; [|exact R1]. intros *. by apply ended_mono.
  - destruct Hrep as (c & d & -> & Hc & Hd & Rl & Rr). destruct (Htwo c d l r fuel b h) as (b' & E & Hb' & Hz & R1 & R2); [intros; apply IHl; [done|lia|done]|intros; apply IHr; [done|lia|done]|done|].
    exists b'. split_and!; [done|exact Hb'|done|]. exists c, d. done.
  - destruct Hrep as (c & d & -> & Hc & Hd & Rl & Rr). destruct (Htwo c d l r fuel b h) as (b' & E & Hb' & Hz & R1 & R2); [intros; apply IHl; [done|lia|done]|intros; apply IHr; [done|lia|done]|done|].
    exists b'. split_and!; [done|exact Hb'|done|]. exists c, d. done.
  - destruct Hrep as (c & -> & Hc & Hrep). destruct (IH c fuel b h Hrep ltac:(lia) Hb) as (b' & E & Hb' & Hz & R).
    exists b'. split_and!; [done|exact Hb'|done|]. exists c. done.
Qed.

Lemma ended_cstr b q e w : words_in b → ended b q e w → cstr (drop q b) = w.
Proof.
  intros [_ Hw] [(-> & _ & Hword & r & Hd & _) He].
  assert (∀ i d, w !! i = Some d → b !! (q + i)%nat = Some d ∧ d ≠ x00) as Hi.
  { intros i d Hi. assert (L !! (q + i)%nat = Some d) as HLi by (rewrite <- lookup_drop, Hd; by apply lookup_more).
    split; [|by rewrite Forall_forall in HL; eapply HL, list_elem_of_lookup_2].
    apply Hw; [done|]. rewrite Forall_forall in Hword. by eapply Hword, list_elem_of_lookup_2. }
  rewrite <- lookup_drop in He. setoid_rewrite <- lookup_drop in Hi. clear -He Hi. revert He Hi. generalize (drop q b). induction w as [|c w IH]; intros [|d l]; simpl; try done.
  - by intros [= ->].
  - intros He Hi. destruct (Hi 0%nat c eq_refl) as [[= <-] Hc]. rewrite decide_False by done. f_equal.
    apply IH; [done|]. intros i. apply (Hi (S i)).
Qed.

Lemma lex_length l : (length (lex l) ≤ length l)%nat.
Proof.
  induction l as [|c l IH1 IH2] using list_ind2; cbn [lex length]; [done|].
  destruct (is_space c); [lia|]. case_bool_decide.
  - destruct l as [|d l']; [done|]. specialize (IH2 _ _ eq_refl). case_bool_decide; simpl length in *; lia.
  - destruct (is_symbol c); [cbn [length]; lia|]. destruct (starts_word l); [|cbn [length]; lia]. destruct (lex l) as [|[] ?]; cbn [length] in *; lia.
Qed.

(** The tree as the program sees it: every string is read up to its zero. *)
Definition command (b : list byte) (h : list node) (a : nat) (t : tree) : Prop :=
  rep (λ q _ w, cstr (drop q b) = w) h a t.

Lemma parse_cmd_run s junk : n_buf s = L ++ x00 :: junk →
  match tp_line (parse_fuel len) (lex L) with
  | TOk t [] => ∃ root s', parse_cmd s = Done root s' ∧ command (n_buf s') (n_heap s') root t
  | TOk t _ => ∃ rest, parse_cmd s = Panic (leftover rest)
  | TErr m => parse_cmd s = Panic m
  | TFuel => False
  end.
Proof.
  intros Hb. assert (line_in s) as Hs by by eexists. pose proof (lex_length L) as Hlex.
  destruct (parse_sim (parse_fuel len)) as (Hline & _).
  specialize (Hline 0%nat s Hs ltac:(lia)). rewrite drop_0 in Hline. specialize (Hline ltac:(unfold parse_fuel; lia)).
  unfold parse_cmd. rewrite bind_gets. rewrite Hb, strlen_line, Nat2Z.id by done. cbv zeta.
  destruct (tp_line (parse_fuel len) (lex L)) as [t rest|m|]; [|by erewrite bind_panic|done].
  destruct Hline as (c & p & h' & E & Hp & Ht & Hrep & Hc). erewrite bind_done by exact E. cbv iota beta.
  set (s1 := with_heap s (n_heap s ++ h')).
  destruct (peek_run [] p s1 Hs Hp) as (p1 & E1 & Hp1 & Ht1 & Hend); [done|]. erewrite bind_done by exact E1. cbv iota beta.
  destruct rest as [|tok rest].
  - rewrite bool_decide_false by (intros Hne; by apply Hne, Hend). rewrite bind_gets. change (n_heap s1) with (n_heap s ++ h').
    assert (words_in (n_buf s)) as Hw.
    { split; [rewrite Hb, length_app; simpl; lia|]. intros i d Hi _. rewrite Hb. by apply lookup_more. }
    destruct (null_terminate_run t c (length (n_heap s ++ h')) (n_buf s) (n_heap s ++ h') Hrep Hc Hw) as (b' & E2 & Hw' & Hz & R).
    erewrite bind_done by exact E2. eexists _, _. split; [done|]. eapply rep_mono; [|exact R]. intros q e w. by apply ended_cstr.
  - rewrite bool_decide_true; [by eexists|]. intros ->. rewrite Ht in Hend. discriminate (proj1 Hend eq_refl).
Qed.
End Line.

(** ** The theorems *)

Lemma derives_run L t fuel : derives GLine (lex L) t → (4 * length (lex L) + 4 ≤ fuel)%nat → tp_line fuel (lex L) = TOk t [].
Proof.
  intros D Hf. apply tp_complete in D. specialize (D [] fuel ltac:(by left)). rewrite app_nil_r in D. auto.
Qed.

(** The line is in the grammar and denotes [t] exactly when the parser builds [t]. *)
Lemma parse_cmd_decides L junk s t : Forall (λ c, c ≠ x00) L → n_buf s = L ++ x00 :: junk → derives GLine (lex L) t →
  wp (parse_cmd s) (λ root s', command (n_buf s') (n_heap s') root t).
Proof.
  intros HL Hb D. pose proof (lex_length L). pose proof (parse_cmd_run L HL s junk Hb) as H0.
  rewrite (derives_run L t) in H0 by (done || unfold parse_fuel; lia). destruct H0 as (root & s' & -> & Hc). done.
Qed.

Lemma parse_cmd_outcome L junk s : Forall (λ c, c ≠ x00) L → n_buf s = L ++ x00 :: junk →
  match parse_cmd s with
  | Done root s' => ∃ t, derives GLine (lex L) t ∧ (∀ t', derives GLine (lex L) t' → t' = t) ∧
      command (n_buf s') (n_heap s') root t
  | Panic m => (m ∈ syntax_errors ∨ ∃ rest, m = leftover rest) ∧ ∀ t, ¬ derives GLine (lex L) t
  | _ => False
  end.
Proof.
  intros HL Hb. pose proof (lex_length L) as Hlex. pose proof (parse_cmd_run L HL s junk Hb) as H.
  assert (4 * length (lex L) + 4 ≤ parse_fuel (length L))%nat as Hf by (unfold parse_fuel; lia).
  assert (∀ t', derives GLine (lex L) t' → tp_line (parse_fuel (length L)) (lex L) = TOk t' []) as Hall by (intros; by apply derives_run).
  pose proof (proj1 (tp_total _) _ Hf) as Hok. destruct (tp_line _ (lex L)) as [t [|tok rest]|m|] eqn:E.
  - destruct H as (root & s' & -> & Hc). exists t. apply tp_sound in E as (ts & E & D). rewrite app_nil_r in E. subst ts.
    split_and!; [done| |done]. intros t' D'. apply Hall in D'. congruence.
  - destruct H as (w & ->). split; [right; by eexists|]. intros t' D'. by apply Hall in D'.
  - rewrite H. split; [by left|]. intros t' D'. by apply Hall in D'.
  - done.
Qed.

(** C30. The parser of the shell decides its grammar.  On every line (of any
    length, ended by a zero) it terminates without touching memory outside the
    line; it answers a command exactly for the lines whose tokens the grammar
    derives, and then the nodes it has built are the derived tree with every
    word and file name readable as a C string in the cut-up line; on any other
    line it reports one of the four syntax errors, or the rest of the line that
    does not belong to the command. *)
Theorem parse_cmd_decides_grammar L junk s : Forall (λ c, c ≠ x00) L → n_buf s = L ++ x00 :: junk →
  match parse_cmd s with
  | Done root s' => ∃ t, derives GLine (lex L) t ∧ (∀ t', derives GLine (lex L) t' → t' = t) ∧
      command (n_buf s') (n_heap s') root t
  | Panic m => (m ∈ syntax_errors ∨ ∃ rest, m = leftover rest) ∧ ∀ t, ¬ derives GLine (lex L) t
  | _ => False
  end.
Proof. apply parse_cmd_outcome. Qed.

Definition line_state (l : string) : nstate := mk_nstate (String.list_byte_of_string l ++ [x00]) [].

Lemma parse_cmd_decides_grammar_witness :
  match parse_cmd (line_state "ls -l | (cat < f; echo a)>>out &") with Done _ _ => True | _ => False end ∧
  match parse_cmd (line_state "a < | b") with Panic m => ∀ t, ¬ derives GLine (lex (String.list_byte_of_string "a < | b")) t | _ => False end.
Proof.
  split; [vm_compute; exact I|].
  pose proof (parse_cmd_decides_grammar (String.list_byte_of_string "a < | b") [] (line_state "a < | b")) as H.
  destruct (parse_cmd (line_state "a < | b")) as [root s'|m| | |] eqn:E;
    try (exfalso; revert E; vm_compute; discriminate).
  apply H; [apply (bool_decide_unpack _); vm_compute; exact I|done].
Defined.

(** ** Printing *)

Fixpoint print_tree (t : tree) : list token :=
  let paren t := TSym x28 :: print_tree t ++ [TSym x29] in
  match t with
  | TExec args => TWord <$> args
  | TRedir t f m _ => paren t ++ [TSym (if bool_decide (m = 0) then x3c else x3e); TWord f]
  | TPipe l r => paren l ++ TSym x7c :: paren r
  | TList l r => paren l ++ TSym x3b :: paren r
  | TBack t => paren t ++ [TSym x26]
  end.
Definition token_bytes (tok : token) : list byte :=
  match tok with TSym c => [c; x20] | TAppend => [x3e; x3e; x20] | TWord w => w ++ [x20] end.
Definition print_line (t : tree) : list byte := print_tree t ≫= token_bytes.

Definition good_word (w : list byte) : Prop := w ≠ [] ∧ Forall (λ c, is_word c = true ∧ c ≠ x00) w.
Fixpoint good_tree (t : tree) : Prop :=
  match t with
  | TExec args => (length args < MAXARGS)%nat ∧ Forall good_word args
  | TRedir t f m d => good_tree t ∧ good_word f ∧ (m = 0 ∧ d = 0 ∨ m = 0x201 ∧ d = 1)
  | TPipe l r | TList l r => good_tree l ∧ good_tree r
  | TBack t => good_tree t
  end.


Definition good_token (tok : token) : Prop :=
  match tok with TSym c => is_symbol c = true | TAppend => True | TWord w => good_word w end.
Lemma lex_token tok rest : good_token tok → lex (token_bytes tok ++ rest) = tok :: lex rest.
Proof.
  assert (lex (x20 :: rest) = lex rest) as Hsp by done.
  destruct tok as [c| |w]; intros H.
  - change (lex (c :: x20 :: rest) = TSym c :: lex rest). rewrite lex_stop.
    + rewrite H, Hsp. by destruct (bool_decide (c = x3e)).
    + by destruct c.
  - done.
  - destruct H as [Hne Hw]. unfold token_bytes. rewrite <- app_assoc. change ([x20] ++ rest) with (x20 :: rest).
    assert (run_len is_word (w ++ x20 :: rest) = length w) as Hr.
    { clear Hne. induction Hw as [|c w [Hc _] _ IH]; [done|]. cbn [app run_len]. by rewrite Hc, IH. }
    rewrite lex_word, Hr.
    + by rewrite take_app_length, drop_app_length, Hsp.
    + destruct w as [|c w]; [done|]. by inversion Hw as [|?? [Hc _] _].
Qed.

Lemma lex_tokens ts : Forall good_token ts → lex (ts ≫= token_bytes) = ts.
Proof. induction 1 as [|tok ts H _ IH]; [done|]. cbn [mbind list_bind]. rewrite lex_token by done. f_equal. exact IH. Qed.

Lemma good_paren ts : Forall good_token ts → Forall good_token (TSym x28 :: ts ++ [TSym x29]).
Proof. intros H. constructor; [done|]. apply Forall_app_2; [done|]. by constructor. Qed.
Lemma print_tree_tokens t : good_tree t → Forall good_token (print_tree t).
Proof.
  induction t as [args|t IH w m d|l IHl r IHr|l IHl r IHr|t IH]; cbn [good_tree print_tree].
  - intros [_ H]. by apply Forall_fmap.
  - intros (Ht & Hw & _). apply Forall_app_2; [by apply good_paren, IH|]. constructor; [by case_bool_decide|by constructor].
  - intros [Hl Hr]. apply Forall_app_2; [by apply good_paren, IHl|]. constructor; [done|]. by apply good_paren, IHr.
  - intros [Hl Hr]. apply Forall_app_2; [by apply good_paren, IHl|]. constructor; [done|]. by apply good_paren, IHr.
  - intros Ht. apply Forall_app_2; [by apply good_paren, IH|]. by constructor.
Qed.

Lemma derives_paren t : derives GLine (print_tree t) t → derives GCmd (TSym x28 :: print_tree t ++ [TSym x29]) t.
Proof. intros D. exact (D_block _ _ [] D). Qed.
Lemma derives_line ts t : derives GPipe ts t → derives GLine ts t.
Proof. intros D. rewrite <- (app_nil_r ts). exact (D_line _ _ 0 D). Qed.

Lemma print_tree_derives t : good_tree t → derives GLine (print_tree t) t.
Proof.
  induction t as [args|t IH w m d|l IHl r IHr|l IHl r IHr|t IH]; cbn [good_tree print_tree].
  - intros [Hn _]. apply derives_line. constructor.
    assert (∀ args : list (list byte), item_words (IWord <$> args) = args ∧ item_redirs (IWord <$> args) = [] ∧
      (IWord <$> args) ≫= item_tokens = TWord <$> args) as Hits.
    { clear. induction args as [|w args (E1 & E2 & E3)]; [done|]. cbn. by rewrite <- E1 at 2; rewrite <- E3. }
    destruct (Hits args) as (E1 & E2 & E3). rewrite <- E3. rewrite <- E1 at 2.
    change (TExec (item_words (IWord <$> args))) with (wrap [] (TExec (item_words (IWord <$> args)))).
    rewrite <- E2. constructor. by rewrite E1.
  - intros (Ht & _ & Hm). apply derives_line, D_cmd.
    assert (∃ o, rop_mode o = m ∧ rop_fd o = d ∧ rop_token o = TSym (if bool_decide (m = 0) then x3c else x3e)) as (o & <- & <- & Eo).
    { destruct Hm as [[-> ->]|[-> ->]]; [by exists RIn|by exists ROut]. }
    rewrite <- Eo. rewrite <- app_comm_cons, <- app_assoc. exact (D_block _ _ [(o, w)] (IH Ht)).
  - intros [Hl Hr]. apply derives_line, D_pipe; [|constructor]; apply derives_paren; auto.
  - intros [Hl Hr]. apply (D_list _ _ 0); [constructor; apply derives_paren; auto|]. apply derives_line. constructor. apply derives_paren; auto.
  - intros Ht. apply (D_line _ t 1). constructor. apply derives_paren; auto.
Qed.

Lemma print_line_no_zero t : good_tree t → Forall (λ c, c ≠ x00) (print_line t).
Proof.
  intros Ht. apply Forall_bind. eapply Forall_impl; [by apply print_tree_tokens|]. intros [c| |w]; simpl.
  - intros Hc. repeat constructor; [by intros ->|done].
  - intros _. repeat constructor; done.
  - intros [_ Hw]. apply Forall_app_2; [|repeat constructor; done]. eapply Forall_impl; [exact Hw|]. by intros ? [? ?].
Qed.

(** C31. Parsing is the inverse of printing: for every command tree that can be
    typed (at most nine arguments, words without special characters), the
    parser run on its fully bracketed text rebuilds the tree, whatever
    follows the line in the buffer and whatever nodes were there before. *)
Theorem parse_print_roundtrip t junk s : good_tree t → n_buf s = print_line t ++ x00 :: junk →
  wp (parse_cmd s) (λ root s', command (n_buf s') (n_heap s') root t).
Proof.
  intros Ht Hb. eapply parse_cmd_decides; [by apply print_line_no_zero|done|].
  unfold print_line. rewrite lex_tokens by by apply print_tree_tokens. by apply print_tree_derives.
Qed.

Lemma parse_print_roundtrip_witness :
  let t := TBack (TPipe (TExec [[x6c; x73]; [x2d; x6c]]) (TRedir (TExec [[x77; x63]]) [x66] 0x201 1)) in
  wp (parse_cmd (mk_nstate (print_line t ++ [x00]) [])) (λ root s', command (n_buf s') (n_heap s') root t).
Proof.
  intros t. apply (parse_print_roundtrip t []); [|done]. simpl.
  assert (∀ w, w ≠ [] → forallb (λ c, is_word c && negb (bool_decide (c = x00))) w = true → good_word w) as Hw.
  { intros w Hne H. split; [done|]. apply Forall_forall. intros c Hc. rewrite forallb_forall in H.
    apply list_elem_of_In, H, andb_true_iff in Hc as [H1 H2]. split; [done|]. by apply negb_true_iff, bool_decide_eq_false in H2. }
  split.
  - split; [apply Nat.ltb_lt; reflexivity|]. constructor; [by apply Hw|]. constructor; [by apply Hw|constructor].
  - split; [split; [apply Nat.ltb_lt; reflexivity|constructor; [by apply Hw|constructor]]|]. split; [by apply Hw|by right].
Defined.
