(* ===== verification/NshRun.v ===== *)
(** * Running commands (user/nsh.c: run_cmd, get_cmd, main)

    A command is run by a process of its own, over the nodes and the line the
    parser left: [run_cmd] does not return.  A string is read from the line up
    to its zero. *)
From S2P Require Import Prelude CString Usys Console Ulib Nsh.

Definition chars (s : string) : list byte := String.list_byte_of_string s.

Definition panic_ (s : list byte) : prog void := do! printf 2 (Some (lit ("%s" ++ lf))) [AStr (Some s)]; exit_.

(** A routine that does not return, where its caller would go on with a value. *)
Definition never {R} (t : prog void) : prog R := do v <- t; match (v : void) with end.

Definition fork1 : prog Z :=
  do pid <- call SFork;
  if bool_decide (pid = -1) then never (panic_ (chars "fork")) else Ret pid.

Section Run.
Context (s : nstate).

(** The characters at a pointer into the line. *)
Definition str_at (p : nat) : list byte := cstr (drop p (n_buf s)).

(** [exec]'s view of [argv]: the strings up to the null pointer. *)
Fixpoint args_at (argv : list (option nat)) : list (list byte) :=
  match argv with Some p :: argv => str_at p :: args_at argv | _ => [] end.

Fixpoint run_cmd (fuel : nat) (cmd : nat) : prog void :=
  match fuel with
  | O => ITree.spin
  | S fuel' =>
    match n_heap s !! cmd with
    | None => fault
    | Some (EXEC argv _) =>
      match argv with
      | Some path :: _ =>
        do _ <- call (SExec (str_at path) (args_at argv));
        do! printf 2 (Some (lit ("exec %s failed" ++ lf))) [AStr (Some (str_at path))];
        exit_
      | _ => exit_
      end
    | Some (REDIR c fname _ mode fd) =>
      do _ <- call (SClose fd);
      do r <- call (SOpen (str_at fname) mode);
      if bool_decide (r < 0) then
        do! printf 2 (Some (lit ("open %s failed" ++ lf))) [AStr (Some (str_at fname))];
        exit_
      else run_cmd fuel' c
    | Some (LIST lcmd rcmd) =>
      do pid <- fork1;
      if bool_decide (pid = 0) then run_cmd fuel' lcmd else
      do _ <- call SWait;
      run_cmd fuel' rcmd
    | Some (PIPE lcmd rcmd) =>
      do p <- call SPipe;
      let '(r, (p0, p1)) := p in
      if bool_decide (r < 0) then panic_ (chars "pipe failed") else
      do pid <- fork1;
      if bool_decide (pid = 0) then
        do _ <- call (SClose 1);
        do _ <- call (SDup p1);
        do _ <- call (SClose p0);
        do _ <- call (SClose p1);
        run_cmd fuel' lcmd
      else
      do pid <- fork1;
      if bool_decide (pid = 0) then
        do _ <- call (SClose 0);
        do _ <- call (SDup p0);
        do _ <- call (SClose p0);
        do _ <- call (SClose p1);
        run_cmd fuel' rcmd
      else
      do _ <- call (SClose p0);
      do _ <- call (SClose p1);
      do _ <- call SWait;
      do _ <- call SWait;
      exit_
    | Some (BACK c) =>
      do pid <- fork1;
      if bool_decide (pid = 0) then run_cmd fuel' c else exit_
    end
  end.
End Run.

(** [get_cmd(buf, nbuf)]: the answer and the line buffer. *)
Definition get_cmd (buf : list byte) : prog (Z * list byte) :=
  do! printf 2 (Some (lit "$ ")) [];
  match memset buf 0 (length buf) with
  | None => fault
  | Some buf =>
    do buf <- gets buf (Z.of_nat (length buf));
    match head buf with
    | None => fault
    | Some c => Ret (if bool_decide (c = x00) then -1 else 0, buf)
    end
  end.

(** The child's [run_cmd(parse_cmd(buf))]. *)
Definition run_line (buf : list byte) : prog void :=
  match parse_cmd (mk_nstate buf []) with
  | Done cmd s => run_cmd s (length (n_heap s)) cmd
  | Panic msg => if bool_decide (msg = "page fault"%string) then fault else panic_ (chars msg)
  | _ => ITree.spin
  end.

(** [while((fd = open("/console", O_RDWR)) >= 0)]: three descriptors are open. *)
Definition O_RDWR : Z := 2.
Definition ensure_fds : prog unit :=
  ITree.iter (λ _ : unit,
    do fd <- call (SOpen (chars "/console") O_RDWR);
    if bool_decide (fd < 0) then Ret (inr tt) else
    if bool_decide (3 ≤ fd) then do _ <- call (SClose fd); Ret (inr tt) else Ret (inl tt)) tt.

(** One turn of the command loop: the buffer for the next, or the end. *)
Definition command_turn (buf : list byte) : prog (list byte + unit) :=
  do r <- get_cmd buf;
  let '(k, buf) := r in
  if bool_decide (k < 0) then Ret (inr tt) else
  if bool_decide (take 3 buf = chars "cd ") then
    match Ulib.strlen buf with
    | None => fault
    | Some n =>
      let buf := <[Z.to_nat (n - 1) := x00]> buf in
      do k <- call (SChdir (cstr (drop 3 buf)));
      do! (if bool_decide (k < 0) then printf 2 (Some (lit "cannot cd %s")) [AStr (Some (cstr (drop 3 buf)))] else Ret tt);
      Ret (inl buf)
    end
  else
  do pid <- fork1;
  if bool_decide (pid = 0) then never (run_line buf) else
  do _ <- call SWait;
  Ret (inl buf).

Definition main : prog void :=
  do! ensure_fds;
  do! ITree.iter command_turn (replicate 128 x00);
  exit_.
