(* ===== verification/NshWire.v ===== *)
(** * What a command line sets up

    [run_cmd] shuffles descriptors with [close], [dup] and [open], relying on
    the kernel to hand out the lowest free one.  Here the calls on descriptors
    are carried out on a table, every other call is kept together with the
    table it is made with, and the result is compared with a description of
    the wiring that names no descriptor but 0, 1 and the redirected ones. *)
From S2P Require Import Prelude CString Usys Console ConsoleSpec Ulib UlibSpec Nsh NshSpec NshParse NshRun.

(** What a descriptor stands for: an end of a pipe, or a file that was opened. *)
Inductive ofile := PipeOut (pipe : nat) | PipeIn (pipe : nat) | Opened (file : nat).
Notation fds := (list (option ofile)).

(** What is left after the descriptors are resolved: the creation of a pipe, the
    opening of a file, and a call made with a table. *)
Inductive obsE : Type → Type :=
| NewPipe (t : fds) : obsE (option nat)
| NewFile (t : fds) (path : list byte) (mode : Z) : obsE (option nat)
| At (t : fds) {R} (e : sysE R) : obsE R.

(** [fd_open] for a pipe's two ends, as [sys_pipe] does it. *)
Definition fd_pipe (id : nat) (t : fds) : option (nat * nat * fds) :=
  '(r, t) ← fd_open (PipeOut id) t; '(w, t) ← fd_open (PipeIn id) t; Some (r, w, t).

(** The kernel's side of a descriptor table. *)
Definition kernel_fds : sysE ~> Monads.stateT fds (itree obsE) := λ _ e t,
  match e in sysE R return itree obsE (fds * R) with
  | SClose fd => match fd_get fd t with Some _ => Ret (fd_drop fd t, 0) | None => Ret (t, -1) end
  | SDup fd =>
    match fd_get fd t with
    | Some f => match fd_open f t with Some (n, t) => Ret (t, Z.of_nat n) | None => Ret (t, -1) end
    | None => Ret (t, -1)
    end
  | SPipe =>
    ITree.bind (ITree.trigger (NewPipe t)) (λ o,
      match o with
      | Some id => match fd_pipe id t with
          | Some (r, w, t) => Ret (t, (0, (Z.of_nat r, Z.of_nat w)))
          | None => Ret (t, (-1, (0, 0)))
          end
      | None => Ret (t, (-1, (0, 0)))
      end)
  | SOpen path mode =>
    ITree.bind (ITree.trigger (NewFile t path mode)) (λ o,
      match o with
      | Some id => match fd_open (Opened id) t with Some (n, t) => Ret (t, Z.of_nat n) | None => Ret (t, -1) end
      | None => Ret (t, -1)
      end)
  | e => ITree.bind (ITree.trigger (At t e)) (λ r, Ret (t, r))
  end.
Definition with_fds {R} (p : prog R) (t : fds) : itree obsE (fds * R) := interp_state kernel_fds p t.

(** ** The wiring *)
Definition at_ {R} (t : fds) (e : sysE R) : itree obsE R := ITree.trigger (At t e).
Definition leave {R} (t : fds) : itree obsE R := do v <- at_ t SExit; match (v : void) with end.
Fixpoint say (t : fds) (text : list byte) : itree obsE unit :=
  match text with [] => Ret tt | c :: text => do _ <- at_ t (SWrite 2 [c]); say t text end.
Definition complain {R} (t : fds) (text : list byte) : itree obsE R := do! say t text; leave t.
Definition forked {R} (t : fds) (child parent : itree obsE R) : itree obsE R :=
  do pid <- at_ t SFork;
  if bool_decide (pid = 0) then child else
  if bool_decide (pid = -1) then complain t (chars ("fork" ++ lf)) else parent.

Fixpoint wire {R} (c : tree) (t : fds) : itree obsE R :=
  match c with
  | TExec [] => leave t
  | TExec (path :: args) =>
    do _ <- at_ t (SExec path (path :: args));
    complain t (chars "exec " ++ path ++ chars (" failed" ++ lf))
  | TRedir c file mode fd =>
    let t0 := fd_drop fd t in
    do o <- ITree.trigger (NewFile t0 file mode);
    match o with
    | Some id => wire c (<[Z.to_nat fd := Some (Opened id)]> t)
    | None => complain t0 (chars "open " ++ file ++ chars (" failed" ++ lf))
    end
  | TPipe l r =>
    do o <- ITree.trigger (NewPipe t);
    match o with
    | Some id =>
      match fd_pipe id t with
      | Some (_, _, tp) =>
        forked tp (wire l (<[1%nat := Some (PipeIn id)]> t))
          (forked tp (wire r (<[0%nat := Some (PipeOut id)]> t))
            (do _ <- at_ t SWait; do _ <- at_ t SWait; leave t))
      | None => complain t (chars ("pipe failed" ++ lf))
      end
    | None => complain t (chars ("pipe failed" ++ lf))
    end
  | TList l r => forked t (wire l t) (do _ <- at_ t SWait; wire r t)
  | TBack c => forked t (wire c t) (leave t)
  end.

(** ** Carrying out one call *)
Lemma with_call {R R'} (e : sysE R) (k : R → prog R') t :
  with_fds (ITree.bind (call e) k) t ≈ ITree.bind (kernel_fds _ e t) (λ p, with_fds (k p.2) p.1).
Proof. unfold with_fds, call. rewrite interp_state_bind, interp_state_trigger. reflexivity. Qed.

Lemma with_bind {R R'} (p : prog R) (k : R → prog R') t :
  with_fds (ITree.bind p k) t ≈ ITree.bind (with_fds p t) (λ q, with_fds (k q.2) q.1).
Proof. unfold with_fds. rewrite interp_state_bind. reflexivity. Qed.

Lemma with_ret {R} (r : R) t : with_fds (Ret r) t ≈ Ret (t, r).
Proof. unfold with_fds. rewrite interp_state_ret. reflexivity. Qed.

(** A call that is kept with its table. *)
Lemma with_kept {R R'} (e : sysE R) (k : R → prog R') t :
  kernel_fds _ e t = ITree.bind (ITree.trigger (At t e)) (λ r, Ret (t, r)) →
  with_fds (ITree.bind (call e) k) t ≈ ITree.bind (at_ t e) (λ r, with_fds (k r) t).
Proof.
  intros E. rewrite with_call, E, bind_bind. apply eutt_eq_bind. intros r. rewrite bind_ret_l. reflexivity.
Qed.

Lemma with_exit {R} t : with_fds (@exit_ R) t ≈ leave t.
Proof. unfold exit_, leave. rewrite with_kept by done. apply eutt_eq_bind. intros []. Qed.

Lemma with_put_chars l : ∀ t, with_fds (put_chars 2 l) t ≈ ITree.bind (say t l) (λ _, Ret (t, tt)).
Proof.
  induction l as [|c l IH]; intros t; cbn [put_chars say].
  - rewrite with_ret, bind_ret_l. reflexivity.
  - unfold putc. rewrite bind_bind, with_kept by done. rewrite bind_bind. apply eutt_eq_bind. intros r.
    rewrite bind_ret_l, IH. reflexivity.
Qed.

(** Printing a message, and leaving after it. *)
Lemma with_message {R} (m : string) args text (p : prog R) t : Forall (λ c, c ≠ x00) (chars m) → format (chars m) args = Some text →
  with_fds (do! printf 2 (Some (lit m)) args; p) t ≈ ITree.bind (say t text) (λ _, with_fds p t).
Proof.
  intros Hz Hf. rewrite with_bind. unfold printf, lit. fold (chars m).
  pose proof (printf_loop_text 2 (chars m) args text Hz Hf) as E. unfold writes in E.
  unfold with_fds at 1. rewrite E. fold (with_fds (put_chars 2 text) t). rewrite with_put_chars, bind_bind.
  apply eutt_eq_bind. intros []. rewrite bind_ret_l. reflexivity.
Qed.

Lemma with_complain {R} (m : string) args text t : Forall (λ c, c ≠ x00) (chars m) → format (chars m) args = Some text →
  with_fds (do! printf 2 (Some (lit m)) args; @exit_ R) t ≈ complain t text.
Proof.
  intros Hz Hf. rewrite with_message by done. unfold complain. apply eutt_eq_bind. intros []. apply with_exit.
Qed.

Lemma message_text (m1 m2 : list byte) w : Forall (λ c, c ≠ x25) m1 → Forall (λ c, c ≠ x25) m2 →
  format (m1 ++ x25 :: x73 :: m2) [AStr (Some w)] = Some (m1 ++ w ++ m2).
Proof.
  intros H1 H2. assert (format m2 [] = Some m2) as E2.
  { induction H2 as [|c m2 Hc _ IH]; [done|]. cbn [format]. rewrite decide_False by done. by rewrite IH. }
  induction H1 as [|c m1 Hc _ IH]; cbn [app format]; [|rewrite decide_False by done; by rewrite IH].
  rewrite decide_True by done. do 3 (rewrite decide_False by done). rewrite decide_True by done. by rewrite E2.
Qed.

Lemma with_panic {R} (m : list byte) t : with_fds (@never R (panic_ m)) t ≈ complain t (m ++ chars lf).
Proof.
  unfold never, panic_. rewrite bind_bind. rewrite (with_message _ _ (m ++ chars lf)).
  - unfold complain. apply eutt_eq_bind. intros []. unfold exit_. rewrite bind_bind, with_kept by done.
    unfold leave. apply eutt_eq_bind. intros [].
  - repeat constructor; done.
  - by apply (message_text [] (chars lf)); repeat constructor.
Qed.

(** ** Tables with standard input and output *)
Lemma insert_2 i x a b (u : fds) : <[S (S i) := x]> (a :: b :: u) = a :: b :: <[i := x]> u.
Proof. done. Qed.
Lemma lookup_2 i a b (u : fds) : (a :: b :: u) !! S (S i) = u !! i.
Proof. done. Qed.
Lemma fd_lowest_2 a b (u : fds) : fd_lowest (Some a :: Some b :: u) = (λ i, S (S i)) <$> fd_lowest u.
Proof. simpl. by destruct (fd_lowest u). Qed.

Lemma fd_pipe_spec id a b u r w tp : fd_pipe id (Some a :: Some b :: u) = Some (r, w, tp) →
  ∃ i j, r = S (S i) ∧ w = S (S j) ∧ i ≠ j ∧ u !! i = Some None ∧ u !! j = Some None ∧
    tp = Some a :: Some b :: <[j := Some (PipeIn id)]> (<[i := Some (PipeOut id)]> u).
Proof.
  unfold fd_pipe, fd_open. rewrite fd_lowest_2. destruct (fd_lowest u) as [i|] eqn:Ei; [|done].
  apply fd_lowest_spec in Ei as [Hi _]. cbn [fmap option_fmap option_map mbind option_bind].
  rewrite insert_2, fd_lowest_2. destruct (fd_lowest (<[i := Some (PipeOut id)]> u)) as [j|] eqn:Ej; [|done].
  apply fd_lowest_spec in Ej as [Hj _]. cbn [fmap option_fmap option_map mbind option_bind]. rewrite insert_2.
  intros [= <- <- <-]. exists i, j.
  assert (i ≠ j) as Hne.
  { intros <-. rewrite list_lookup_insert_eq in Hj by (by eapply lookup_lt_Some). done. }
  rewrite list_lookup_insert_ne in Hj by done. by split_and!.
Qed.

Lemma drop_both (u : fds) i j x y : i ≠ j → u !! i = Some None → u !! j = Some None →
  <[j := None]> (<[i := None]> (<[j := x]> (<[i := y]> u))) = u.
Proof.
  intros Hne Hi Hj. pose proof (lookup_lt_Some _ _ _ Hi). pose proof (lookup_lt_Some _ _ _ Hj).
  apply list_eq. intros k. destruct (decide (k = j)) as [->|].
  - by rewrite list_lookup_insert_eq by (rewrite !length_insert; done).
  - rewrite list_lookup_insert_ne by done. destruct (decide (k = i)) as [->|].
    + by rewrite list_lookup_insert_eq by (rewrite !length_insert; done).
    + by rewrite !list_lookup_insert_ne by done.
Qed.

Lemma fd_get_nat {A} n (t : list (option A)) : fd_get (Z.of_nat n) t = mjoin (t !! n).
Proof. unfold fd_get. rewrite decide_True, Nat2Z.id by lia. done. Qed.
Lemma fd_drop_nat {A} n (t : list (option A)) : fd_drop (Z.of_nat n) t = <[n := None]> t.
Proof. unfold fd_drop. by rewrite Nat2Z.id. Qed.

Lemma with_close {R} fd f (k : Z → prog R) t : fd_get fd t = Some f →
  with_fds (ITree.bind (call (SClose fd)) k) t ≈ with_fds (k 0) (fd_drop fd t).
Proof. intros E. rewrite with_call. unfold kernel_fds. rewrite E, bind_ret_l. reflexivity. Qed.

Lemma with_dup {R} fd f n t' (k : Z → prog R) t : fd_get fd t = Some f → fd_open f t = Some (n, t') →
  with_fds (ITree.bind (call (SDup fd)) k) t ≈ with_fds (k (Z.of_nat n)) t'.
Proof. intros E E'. rewrite with_call. unfold kernel_fds. rewrite E, E', bind_ret_l. reflexivity. Qed.

(** Closing the two ends of the pipe gives the rest of the table back. *)
Lemma with_close_pipe {R} (k : Z → prog R) a b u i j x y : i ≠ j → u !! i = Some None → u !! j = Some None →
  with_fds (do _ <- call (SClose (Z.of_nat (S (S i)))); do r <- call (SClose (Z.of_nat (S (S j)))); k r)
    (a :: b :: <[j := Some y]> (<[i := Some x]> u)) ≈ with_fds (k 0) (a :: b :: u).
Proof.
  intros Hne Hi Hj. pose proof (lookup_lt_Some _ _ _ Hi) as Li. pose proof (lookup_lt_Some _ _ _ Hj) as Lj.
  rewrite (with_close _ x).
  2:{ rewrite fd_get_nat, lookup_2.
      rewrite list_lookup_insert_ne, list_lookup_insert_eq by done. done. }
  rewrite fd_drop_nat, insert_2.
  rewrite (with_close _ y).
  2:{ rewrite fd_get_nat, lookup_2.
      rewrite list_lookup_insert_ne, list_lookup_insert_eq by (rewrite ?length_insert; done). done. }
  rewrite fd_drop_nat, insert_2.
  rewrite drop_both by done. reflexivity.
Qed.

Lemma with_fork1 {R} (k : Z → prog R) t c p :
  with_fds (k 0) t ≈ c → (∀ pid, pid ≠ 0 → with_fds (k pid) t ≈ p) →
  with_fds (ITree.bind fork1 k) t ≈ forked t c p.
Proof.
  intros H0 Hp. unfold fork1, forked. rewrite bind_bind, with_kept by done. apply eutt_eq_bind. intros pid.
  destruct (decide (pid = 0)) as [->|Hne].
  - rewrite (bool_decide_true (0 = 0)), bool_decide_false by done. rewrite bind_ret_l. exact H0.
  - rewrite (bool_decide_false (pid = 0)) by done. case_bool_decide.
    + rewrite with_bind, with_panic. unfold complain, leave. rewrite !bind_bind. apply eutt_eq_bind. intros [].
      rewrite bind_bind. apply eutt_eq_bind. intros [].
    + rewrite bind_ret_l. by apply Hp.
Qed.

(** ** The simulation *)

(** Only standard input and output are redirected. *)
Fixpoint std_tree (c : tree) : Prop :=
  match c with
  | TExec _ => True
  | TRedir c _ _ fd => (fd = 0 ∨ fd = 1) ∧ std_tree c
  | TPipe l r | TList l r => std_tree l ∧ std_tree r
  | TBack c => std_tree c
  end.

Lemma derives_std lv ts c : derives lv ts c → std_tree c.
Proof.
  assert (∀ rs c, std_tree c → std_tree (wrap rs c)) as Hwrap.
  { induction rs as [|[o w] rs IH]; intros c0 Hc; [done|]. apply IH. split; [|done]. destruct o; [left|right|right]; done. }
  assert (∀ n c, std_tree c → std_tree (backs n c)) as Hback by (induction n; auto).
  induction 1; [by apply Hwrap|by apply Hwrap|done|by split|by apply Hback|split; [by apply Hback|done]].
Qed.

Section Sim.
Context (s : nstate).
Notation node_at a c := (rep (λ q _ w, cstr (drop q (n_buf s)) = w) (n_heap s) a c).

Lemma args_at_words (sp : list (nat * nat)) args tl : Forall2 (λ x w, cstr (drop x.1 (n_buf s)) = w) sp args →
  args_at s ((Some <$> sp.*1) ++ None :: tl) = args.
Proof. induction 1 as [|x w sp args Hw _ IH]; [done|]. cbn. by unfold str_at; rewrite IH, Hw. Qed.

(** One end of a pipeline: the wanted end of the pipe takes the place of
    descriptor [n], and both descriptors of the pipe go away. *)
Lemma with_end (n : nat) {R} (k : prog R) a b u i j e1 e2 (src : nat) f :
  (n < 2)%nat → i ≠ j → u !! i = Some None → u !! j = Some None →
  (src = S (S i) ∧ f = e1 ∨ src = S (S j) ∧ f = e2) →
  with_fds (do _ <- call (SClose (Z.of_nat n)); do _ <- call (SDup (Z.of_nat src));
            do _ <- call (SClose (Z.of_nat (S (S i)))); do _ <- call (SClose (Z.of_nat (S (S j)))); k)
    (Some a :: Some b :: <[j := Some e2]> (<[i := Some e1]> u)) ≈
  with_fds k (<[n := Some f]> (Some a :: Some b :: u)).
Proof.
  intros Hn Hne Hi Hj Hsrc. pose proof (lookup_lt_Some _ _ _ Hi) as Li. pose proof (lookup_lt_Some _ _ _ Hj) as Lj.
  set (v := <[j := Some e2]> (<[i := Some e1]> u)).
  assert (∀ p q : option ofile, fd_get (Z.of_nat src) (p :: q :: v) = Some f) as Hget.
  { intros p q. rewrite fd_get_nat. destruct Hsrc as [[-> ->]|[-> ->]]; rewrite lookup_2; unfold v.
    - rewrite list_lookup_insert_ne, list_lookup_insert_eq by done. done.
    - rewrite list_lookup_insert_eq by (rewrite length_insert; done). done. }
  destruct n as [|[|n]]; [| |lia].
  - rewrite (with_close _ a) by done. change (fd_drop (Z.of_nat 0) (Some a :: Some b :: v)) with (None :: Some b :: v).
    rewrite (with_dup _ f 0 (Some f :: Some b :: v)) by done. unfold v. by rewrite with_close_pipe.
  - rewrite (with_close _ b) by done. change (fd_drop (Z.of_nat 1) (Some a :: Some b :: v)) with (Some a :: None :: v).
    rewrite (with_dup _ f 1 (Some a :: Some f :: v)) by done. unfold v. by rewrite with_close_pipe.
Qed.

Lemma run_cmd_wire c : ∀ a fuel x y u, node_at a c → std_tree c → (a < fuel)%nat →
  with_fds (run_cmd s fuel a) (Some x :: Some y :: u) ≈ wire c (Some x :: Some y :: u).
Proof.
  induction c as [args|c IH w m d|l IHl r IHr|l IHl r IHr|c IH]; intros a [|fuel] x y u; try lia; cbn [rep std_tree run_cmd wire].
  - intros (sp & -> & Hlen & Hsp) _ _. unfold exec_node.
    destruct (arg_ptrs_stop sp.*1) as (k & _ & ->); [by rewrite length_fmap|].
    inversion Hsp as [|[q e] w sp' args' Hw Hsp']; subst.
    + cbn. apply with_exit.
    + change ((Some <$> (((q, e) :: sp').*1)) ++ None :: replicate k None) with (Some q :: (Some <$> sp'.*1) ++ None :: replicate k None).
      rewrite with_kept by done. cbn [args_at]. rewrite (args_at_words sp' args') by done. unfold str_at. cbn [fst].
      apply eutt_eq_bind. intros _. rewrite with_complain; [reflexivity|repeat constructor; done|].
      apply (message_text (chars "exec ") (chars (" failed" ++ lf))); repeat constructor; done.
  - intros (c' & q & e & -> & Hc & Hw & Hrep) [Hd Hstd] Hf. unfold str_at. rewrite Hw.
    assert (∃ n : nat, d = Z.of_nat n ∧ (n < 2)%nat) as (n & -> & Hn) by (destruct Hd as [-> | ->]; [exists 0%nat|exists 1%nat]; lia).
    destruct (fd_get (Z.of_nat n) (Some x :: Some y :: u)) as [f|] eqn:Ef; [|by destruct n as [|[|n]]; [done|done|lia]].
    rewrite (with_close _ f) by done. rewrite with_call. unfold kernel_fds at 1. rewrite bind_bind. apply eutt_eq_bind. intros [id|].
    + assert (fd_open (Opened id) (fd_drop (Z.of_nat n) (Some x :: Some y :: u)) = Some (n, <[n := Some (Opened id)]> (Some x :: Some y :: u))) as ->.
      { destruct n as [|[|n]]; [done|done|lia]. }
      rewrite bind_ret_l. cbn [fst snd]. rewrite bool_decide_false by lia. rewrite Nat2Z.id.
      destruct n as [|[|n]]; [| |lia]; apply IH; (done || lia).
    + rewrite bind_ret_l. cbn [fst snd]. rewrite bool_decide_true by lia.
      rewrite with_complain; [reflexivity|repeat constructor; done|].
      apply (message_text (chars "open ") (chars (" failed" ++ lf))); repeat constructor; done.
  - intros (bl & br & -> & Hbl & Hbr & Hl & Hr) [Sl Sr] Hf. rewrite with_call. unfold kernel_fds at 1. rewrite bind_bind. apply eutt_eq_bind.
    assert (∀ t, with_fds (panic_ (chars "pipe failed")) t ≈ complain t (chars ("pipe failed" ++ lf))) as Hfail.
    { intros t. unfold panic_. apply with_complain; [repeat constructor; done|].
      apply (message_text [] (chars lf) (chars "pipe failed")); repeat constructor; done. }
    intros [id|]; [|rewrite bind_ret_l; cbn [fst snd]; rewrite bool_decide_true by lia; apply Hfail].
    destruct (fd_pipe id _) as [[[r0 w0] tp]|] eqn:Ep; rewrite bind_ret_l; cbn [fst snd];
      [|rewrite bool_decide_true by lia; apply Hfail].
    rewrite bool_decide_false by lia. apply fd_pipe_spec in Ep as (i & j & -> & -> & Hne & Hi & Hj & ->).
    apply with_fork1.
    + rewrite bool_decide_true by done.
      change (SClose 1) with (SClose (Z.of_nat 1)). rewrite (with_end 1 _ x y u i j _ _ _ (PipeIn id)) by (lia || done || (by right)).
      cbn [insert list_insert]. apply IHl; [done|done|lia].
    + intros pid Hpid. rewrite bool_decide_false by done. apply with_fork1.
      * rewrite bool_decide_true by done.
        change (SClose 0) with (SClose (Z.of_nat 0)). rewrite (with_end 0 _ x y u i j _ _ _ (PipeOut id)) by (lia || done || (by left)).
        cbn [insert list_insert]. apply IHr; [done|done|lia].
      * intros pid' Hpid'. rewrite bool_decide_false by done. rewrite with_close_pipe by done.
        do 2 (rewrite with_kept by done; apply eutt_eq_bind; intros _). apply with_exit.
  - intros (bl & br & -> & Hbl & Hbr & Hl & Hr) [Sl Sr] Hf. apply with_fork1.
    + rewrite bool_decide_true by done. apply IHl; [done|done|lia].
    + intros pid Hpid. rewrite bool_decide_false by done. rewrite with_kept by done. apply eutt_eq_bind. intros _. apply IHr; [done|done|lia].
  - intros (b & -> & Hb & Hrep) Hstd Hf. apply with_fork1.
    + rewrite bool_decide_true by done. apply IH; [done|done|lia].
    + intros pid Hpid. rewrite bool_decide_false by done. apply with_exit.
Qed.
End Sim.

Lemma rep_root str h a c : rep str h a c → is_Some (h !! a).
Proof. destruct c; simpl; naive_solver. Qed.

Lemma chars_app s1 s2 : chars (s1 ++ s2) = chars s1 ++ chars s2.
Proof. unfold chars, String.list_byte_of_string. rewrite <- map_app. f_equal. induction s1 as [|c s1 IH]; simpl; [done|by rewrite IH]. Qed.

(** C25. A command line runs with exactly the wiring it describes.  For a line
    of the grammar, in a process that has standard input and output, the
    child's [run_cmd(parse_cmd(buf))] makes - with every call it makes and the
    descriptors it makes it with - the processes, pipes, redirections and
    waits of the command tree: a command's own program runs with the table of
    the shell in which only descriptors 0 and 1 were replaced, by the ends of
    its pipes and the files of its redirections, and no descriptor of a pipe
    is left open anywhere.  A line outside the grammar only gets an error
    message. *)
Theorem command_line_wiring L junk x y u : Forall (λ c, c ≠ x00) L →
  let t := Some x :: Some y :: u in
  (∃ c, derives GLine (lex L) c ∧ with_fds (run_line (L ++ x00 :: junk)) t ≈ wire c t) ∨
  ((∀ c, ¬ derives GLine (lex L) c) ∧ ∃ msg, with_fds (run_line (L ++ x00 :: junk)) t ≈ complain t (chars (msg ++ lf))).
Proof.
  intros HL t. pose proof (parse_cmd_outcome L junk (mk_nstate (L ++ x00 :: junk) []) HL eq_refl) as H. unfold run_line.
  destruct (parse_cmd _) as [root s'|m| | |]; try done.
  - destruct H as (c & D & _ & Hc). left. exists c. split; [done|]. apply run_cmd_wire; [exact Hc|by eapply derives_std|].
    apply lookup_lt_is_Some_1. by eapply rep_root.
  - destruct H as [Hm Hno]. right. split; [done|]. exists m. rewrite bool_decide_false.
    + unfold panic_. apply with_complain; [repeat constructor; done|].
      rewrite (chars_app m lf). by apply (message_text [] (chars lf) (chars m)); repeat constructor.
    + destruct Hm as [Hm|(w & ->)]; [|done]. unfold syntax_errors in Hm. set_solver.
Qed.

Definition three_files : fds := Some (Opened 0) :: Some (Opened 0) :: Some (Opened 0) :: replicate 13 None.
Lemma command_line_wiring_witness :
  with_fds (run_line (lit "ls | wc > f")) three_files ≈
  wire (TPipe (TExec [chars "ls"]) (TRedir (TExec [chars "wc"]) (chars "f") 0x201 1)) three_files.
Proof.
  assert (Forall (λ c, c ≠ x00) (chars "ls | wc > f")) as HL by (apply (bool_decide_unpack _); exact I).
  assert (derives GLine (lex (chars "ls | wc > f")) (TPipe (TExec [chars "ls"]) (TRedir (TExec [chars "wc"]) (chars "f") 0x201 1))) as D.
  { apply (D_line [TWord (chars "ls"); TSym x7c; TWord (chars "wc"); TSym x3e; TWord (chars "f")] _ 0).
    apply (D_pipe [TWord (chars "ls")] _ [TWord (chars "wc"); TSym x3e; TWord (chars "f")]).
    - apply (D_items [IWord (chars "ls")]). vm_compute. lia.
    - constructor. apply (D_items [IWord (chars "wc"); IRedir (ROut, chars "f")]). vm_compute. lia. }
  destruct (command_line_wiring (chars "ls | wc > f") [] (Opened 0) (Opened 0) (Some (Opened 0) :: replicate 13 None) HL)
    as [(c & D' & E)|[Hno _]]; [|exfalso; exact (Hno _ D)].
  pose proof (parse_cmd_outcome (chars "ls | wc > f") [] (mk_nstate (chars "ls | wc > f" ++ [x00]) []) HL eq_refl) as H.
  destruct (parse_cmd _) as [root s'|m| | |]; [|exfalso; by destruct H as [_ H]; apply (H _ D)|done..].
  destruct H as (c0 & _ & U & _). rewrite (U _ D), <- (U _ D'). exact E.
Defined.
