(* ===== verification/Malloc.v ===== *)
(** * The user-level allocator (user/malloc.c)

    Memory is taken in words, at the addresses of the fields of the block
    headers ([ptr] at 0, [unit_size] at 8); an access outside the process's
    memory, which ends at the break, is a page fault.  Whether the kernel finds
    the memory that [sbrk] asks for is outside the program. *)
From S2P Require Import Prelude.

Record mstate := mk_mstate {
  m_mem : gmap Z Z;
  m_free_p : Z;        (** [free_p]; 0 is the null pointer *)
  m_brk : Z            (** the end of the process's memory *)
}.
Definition set_m_mem (f : gmap Z Z → gmap Z Z) (s : mstate) : mstate := mk_mstate (f (m_mem s)) (m_free_p s) (m_brk s).
Definition set_m_free_p (v : Z) (s : mstate) : mstate := mk_mstate (m_mem s) v (m_brk s).
Definition set_m_brk (v : Z) (s : mstate) : mstate := mk_mstate (m_mem s) (m_free_p s) v.

Definition USER_BASE : Z := 0x1000.
Definition USER_TOP : Z := 2 ^ 47.
Definition HEADER : Z := 16.
Definition word (a : Z) (s : mstate) : Z := default 0 (m_mem s !! a).
Definition accessible (a : Z) (s : mstate) : bool := bool_decide (USER_BASE ≤ a) && bool_decide (a + 8 ≤ m_brk s).

Definition load (a : Z) : M mstate Z :=
  λ s, if accessible a s then Done (word a s) s else Panic "page fault".
Definition store (a v : Z) : M mstate unit :=
  λ s, if accessible a s then Done tt (set_m_mem <[a := v]> s) else Panic "page fault".

Definition ptr (p : Z) : M mstate Z := load p.
Definition unit_size (p : Z) : M mstate Z := load (p + 8).
Definition set_ptr (p v : Z) : M mstate unit := store p v.
Definition set_unit_size (p v : Z) : M mstate unit := store (p + 8) v.
(** Pointer arithmetic on [struct header *]. *)
Definition after (p n : Z) : Z := u64 (p + HEADER * n).

Section Malloc.
(** The static [base], and whether the kernel has the memory for a new break. *)
Context (base : Z) (grows : Z → Z → bool).

Definition sbrk (n : Z) : M mstate Z :=
  let! brk := gets m_brk in
  if bool_decide (n = 0) then ret brk else
  if grows brk n && bool_decide (brk + n < USER_TOP) then modify (set_m_brk (brk + n)) ;;; ret brk else ret (-1).

(** The search of [free] for the block that [bp] goes behind. *)
Fixpoint free_loop (fuel : nat) (bp p : Z) : M mstate Z :=
  let! next := ptr p in
  if bool_decide (p < bp) && bool_decide (bp < next) then ret p else
  if bool_decide (next ≤ p) && (bool_decide (p < bp) || bool_decide (bp < next)) then ret p else
  match fuel with
  | O => no_fuel
  | S fuel' => free_loop fuel' bp next
  end.

(** A ring has at most one header per 16 bytes of memory, and the static one. *)
Definition ring_fuel (s : mstate) : nat := S (Z.to_nat (m_brk s / HEADER)).

Definition free (ap : Z) : M mstate unit :=
  let bp := ap - HEADER in
  let! fuel := gets ring_fuel in
  let! p := gets m_free_p in
  let! p := free_loop fuel bp p in
  let! p_next := ptr p in
  let! n := unit_size bp in
  (if bool_decide (after bp n = p_next) then
     let! m := unit_size p_next in
     set_unit_size bp (u64 (n + m)) ;;;
     let! q := ptr p_next in
     set_ptr bp q
   else set_ptr bp p_next) ;;;
  let! k := unit_size p in
  (if bool_decide (after p k = bp) then
     let! n := unit_size bp in
     set_unit_size p (u64 (k + n)) ;;;
     let! q := ptr bp in
     set_ptr p q
   else set_ptr p bp) ;;;
  modify (set_m_free_p p).

Definition more_core (nu : Z) : M mstate Z :=
  let nu := if bool_decide (nu < 4096) then 4096 else nu in
  let! p := sbrk (s32 (u64 (nu * HEADER))) in
  if bool_decide (p = -1) then ret 0 else
  set_unit_size p nu ;;;
  free (p + HEADER) ;;;
  gets m_free_p.

(** [p] has the room: all of it, or its tail. *)
Definition take_block (nunits prev_p p : Z) : M mstate Z :=
  let! size := unit_size p in
  let! p :=
    (if bool_decide (size = nunits) then
       let! q := ptr p in
       set_ptr prev_p q ;;; ret p
     else
       set_unit_size p (u64 (size - nunits)) ;;;
       let! size := unit_size p in
       let p := after p size in
       set_unit_size p nunits ;;; ret p) in
  modify (set_m_free_p prev_p) ;;;
  ret (p + HEADER).

Fixpoint malloc_loop (fuel : nat) (nunits prev_p p : Z) : M mstate Z :=
  let! size := unit_size p in
  if bool_decide (nunits ≤ size) then take_block nunits prev_p p else
  match fuel with
  | O => no_fuel
  | S fuel' =>
    let! f := gets m_free_p in
    if bool_decide (p = f) then
      let! p := more_core nunits in
      if bool_decide (p = 0) then ret 0 else
      let! q := ptr p in malloc_loop fuel' nunits p q
    else
      let! q := ptr p in malloc_loop fuel' nunits p q
  end.

Definition malloc (nbytes : Z) : M mstate Z :=
  let nunits := u64 (u64 (nbytes + HEADER - 1) / HEADER + 1) in
  let! f := gets m_free_p in
  (if bool_decide (f = 0) then
     modify (set_m_free_p base) ;;;
     set_ptr base base ;;;
     set_unit_size base 0
   else ret tt) ;;;
  let! f := gets m_free_p in
  let! p := ptr f in
  let! fuel := gets ring_fuel in
  malloc_loop (fuel + S (S fuel)) nunits f p.
End Malloc.
