(* ===== verification/MallocSpec.v ===== *)
(** * The allocator keeps its blocks apart

    The free blocks form a ring in address order behind the static [base];
    they and the blocks handed out are disjoint, no two free blocks touch, and
    together they make up all the memory got from the kernel. *)
From S2P Require Import Prelude Malloc.

(** A block: the address of its header, and its size in units of 16 bytes,
    the header included. *)
Notation blocks := (list (Z * Z)).
Definition block_end (x : Z * Z) : Z := x.1 + HEADER * x.2.
Definition apart (x y : Z * Z) : Prop := block_end x ≤ y.1 ∨ block_end y ≤ x.1.
Fixpoint total (l : blocks) : Z := match l with [] => 0 | x :: l => x.2 + total l end.

(** A segment of the ring: the headers of the blocks, linked up to [e]. *)
Definition head_addr (l : blocks) (e : Z) : Z := match l with [] => e | x :: _ => x.1 end.
Fixpoint links (s : mstate) (l : blocks) (e : Z) : Prop :=
  match l with
  | [] => True
  | x :: l => word x.1 s = head_addr l e ∧ word (x.1 + 8) s = x.2 ∧ links s l e
  end.

(** Free blocks in address order between [lo] and [hi], none touching the next. *)
Fixpoint free_in (lo : Z) (l : blocks) (hi : Z) : Prop :=
  match l with
  | [] => True
  | x :: l => lo ≤ x.1 ∧ 1 ≤ x.2 ∧ block_end x ≤ hi ∧ free_in (block_end x + 1) l hi
  end.

Lemma head_addr_app l1 l2 e : head_addr (l1 ++ l2) e = head_addr l1 (head_addr l2 e).
Proof. by destruct l1. Qed.
Lemma links_app s l1 l2 e : links s (l1 ++ l2) e ↔ links s l1 (head_addr l2 e) ∧ links s l2 e.
Proof. induction l1 as [|x l1 IH]; simpl; [tauto|]. rewrite head_addr_app, IH. tauto. Qed.

Lemma links_cons s x l e : word x.1 s = head_addr l e → word (x.1 + 8) s = x.2 → links s l e → links s (x :: l) e.
Proof. by simpl. Qed.

Lemma links_ext s s' l e :
  (∀ x, x ∈ l → word x.1 s' = word x.1 s ∧ word (x.1 + 8) s' = word (x.1 + 8) s) → links s l e → links s' l e.
Proof.
  induction l as [|x l IH]; simpl; [done|]. intros H (H1 & H2 & H3). destruct (H x) as [-> ->]; [by left|].
  split_and!; [done..|]. apply IH; [|done]. intros y Hy. apply H. by right.
Qed.

Lemma free_in_le lo lo' l hi hi' : free_in lo l hi → lo' ≤ lo → hi ≤ hi' → free_in lo' l hi'.
Proof.
  revert lo lo'. induction l as [|x l IH]; simpl; [done|]. intros lo lo' (? & ? & ? & Hl) Hlo Hhi.
  split_and!; try lia. by eapply IH.
Qed.

Lemma free_in_app lo l1 l2 hi : free_in lo (l1 ++ l2) hi ↔
  free_in lo l1 hi ∧ free_in (foldl (λ _ x, block_end x + 1) lo l1) l2 hi.
Proof. revert lo. induction l1 as [|x l1 IH]; intros lo; simpl; [tauto|]. rewrite IH. tauto. Qed.

(** Where the free blocks of a list end, plus one. *)
Definition after_all (lo : Z) (l : blocks) : Z := foldl (λ _ x, block_end x + 1) lo l.

Lemma free_in_bounds lo l hi x : free_in lo l hi → x ∈ l → lo ≤ x.1 ∧ 1 ≤ x.2 ∧ block_end x ≤ hi.
Proof.
  revert lo. induction l as [|y l IH]; intros lo; simpl; [by intros _ ?%elem_of_nil|].
  intros (? & ? & ? & Hl) [->|Hx]%elem_of_cons; [done|]. specialize (IH _ Hl Hx). unfold block_end, HEADER in *. lia.
Qed.

Lemma free_in_sorted lo l hi j k x y : free_in lo l hi → l !! j = Some x → l !! k = Some y → (j < k)%nat → block_end x < y.1.
Proof.
  revert lo j k. induction l as [|z l IH]; intros lo j k; simpl; [done|].
  intros (? & ? & ? & Hl) Hx Hy Hjk. destruct k as [|k]; [lia|]. simpl in Hy. destruct j as [|j].
  - injection Hx as ->. apply list_elem_of_lookup_2 in Hy. apply (free_in_bounds _ _ _ _ Hl) in Hy. lia.
  - apply (IH _ j k Hl Hx Hy). lia.
Qed.

Lemma total_app l1 l2 : total (l1 ++ l2) = total l1 + total l2.
Proof. induction l1; simpl; lia. Qed.
Lemma free_in_total lo l hi : free_in lo l hi → Z.of_nat (length l) ≤ total l.
Proof. revert lo. induction l as [|x l IH]; intros lo; simpl; [lia|]. intros (? & ? & ? & Hl%IH). lia. Qed.

Lemma links_lookup s l e k x : links s l e → l !! k = Some x →
  word x.1 s = match l !! S k with Some y => y.1 | None => e end ∧ word (x.1 + 8) s = x.2.
Proof.
  revert k. induction l as [|y l IH]; intros k; [done|]. intros (H1 & H2 & Hl). destruct k as [|k]; [|by apply IH].
  intros [= <-]. split; [|done]. rewrite H1. by destruct l.
Qed.

(** The ring read from any of its blocks. *)
Lemma links_rotate s l1 f l2 : links s (l1 ++ f :: l2) (head_addr l1 f.1) ↔ links s (f :: l2 ++ l1) f.1.
Proof.
  change (f :: l2 ++ l1) with ((f :: l2) ++ l1). rewrite !links_app. simpl head_addr at 1. tauto.
Qed.

(** ** Words *)
Lemma word_set a b v s : word a (set_m_mem <[b := v]> s) = if decide (a = b) then v else word a s.
Proof. unfold word. simpl. case_decide; subst; [by rewrite lookup_insert_eq|by rewrite lookup_insert_ne]. Qed.
Lemma bind_load {A} a (k : Z → M mstate A) s : accessible a s = true → bind (load a) k s = k (word a s) s.
Proof. intros H. unfold bind, load. by rewrite H. Qed.
Lemma bind_store {A} a v (k : unit → M mstate A) s : accessible a s = true → bind (store a v) k s = k tt (set_m_mem <[a := v]> s).
Proof. intros H. unfold bind, store. by rewrite H. Qed.

Lemma accessible_set a f s : accessible a (set_m_mem f s) = accessible a s.
Proof. done. Qed.

(** [s'] differs from [s] only in the words of the header at [p] and in [free_p]. *)
Definition only (p : Z) (s s' : mstate) : Prop :=
  m_brk s' = m_brk s ∧ ∀ a, a ≠ p → a ≠ p + 8 → word a s' = word a s.
(** The blocks of [l] are as they were, headers included. *)
Definition kept (l : blocks) (s s' : mstate) : Prop :=
  ∀ x a, x ∈ l → x.1 ≤ a < block_end x → word a s' = word a s.

Lemma kept_refl l s : kept l s s.
Proof. done. Qed.
Lemma kept_trans l s1 s2 s3 : kept l s1 s2 → kept l s2 s3 → kept l s1 s3.
Proof. intros H1 H2 x a Hx Ha. by rewrite (H2 x a), (H1 x a). Qed.

(** A header at [p] is outside the blocks of [l]. *)
Definition outside (p : Z) (l : blocks) : Prop := ∀ x, x ∈ l → p + HEADER ≤ x.1 ∨ block_end x ≤ p.
Lemma only_kept p l s s' : only p s s' → outside p l → kept l s s'.
Proof. intros [_ H] Ho x a Hx Ha. specialize (Ho x Hx). unfold HEADER in *. apply H; lia. Qed.
Lemma only_links p l e s s' : only p s s' → (∀ x, x ∈ l → p + HEADER ≤ x.1 ∨ x.1 + HEADER ≤ p) → links s l e → links s' l e.
Proof.
  intros [_ H] Ho. apply links_ext. intros x Hx. specialize (Ho x Hx). unfold HEADER in *. split; apply H; lia.
Qed.

Lemma apart_sym x y : apart x y → apart y x.
Proof. unfold apart. tauto. Qed.
(** A block apart from two that touch is apart from the two as one. *)
Lemma apart_join y p n m : 1 ≤ y.2 → 0 ≤ m → apart (p, n) y → apart (p + HEADER * n, m) y → apart (p, n + m) y.
Proof. unfold apart, block_end, HEADER. simpl. lia. Qed.

(** ** The search for a block's place *)
Definition stops (s : mstate) (bp p : Z) : bool :=
  (bool_decide (p < bp) && bool_decide (bp < word p s)) ||
  (bool_decide (word p s ≤ p) && (bool_decide (p < bp) || bool_decide (bp < word p s))).

Lemma free_loop_path s bp l x e fuel :
  links s (x :: l) e → (∀ z, z ∈ x :: l → accessible z.1 s = true) → (∃ y, y ∈ x :: l ∧ stops s bp y.1 = true) →
  (length l ≤ fuel)%nat → ∃ z, z ∈ x :: l ∧ stops s bp z.1 = true ∧ free_loop fuel bp x.1 s = Done z.1 s.
Proof.
  revert x fuel. induction l as [|x' l IH]; intros x fuel Hc Ha (y & Hy & Hsy) Hf.
  - apply list_elem_of_singleton in Hy as ->. exists x. split_and!; [by left|done|].
    destruct fuel; cbn [free_loop]; unfold ptr; rewrite bind_load by (by apply Ha; left); unfold stops in Hsy;
      destruct (_ && bool_decide (bp < _)); [done| |done|]; simpl in Hsy; by rewrite Hsy.
  - destruct (stops s bp x.1) eqn:Hsx.
    + exists x. split_and!; [by left|done|].
      destruct fuel; cbn [free_loop]; unfold ptr; rewrite bind_load by (by apply Ha; left); unfold stops in Hsx;
        destruct (_ && bool_decide (bp < _)); [done| |done|]; simpl in Hsx; by rewrite Hsx.
    + destruct fuel as [|fuel]; simpl in Hf; [lia|]. destruct Hc as (Hn & _ & Hc).
      destruct (IH x' fuel Hc) as (z & Hz & Hsz & E); [intros z Hz; apply Ha; by right| |lia|].
      { exists y. split; [|done]. apply elem_of_cons in Hy as [->|Hy]; [by rewrite Hsx in Hsy|done]. }
      exists z. split_and!; [by right|done|]. cbn [free_loop]. unfold ptr. rewrite bind_load by (by apply Ha; left).
      unfold stops in Hsx. apply orb_false_iff in Hsx as [-> ->]. rewrite Hn. exact E.
Qed.

Lemma after_small p n : 0 ≤ p → 0 ≤ n → p + HEADER * n < USER_TOP → after p n = p + HEADER * n.
Proof. intros. unfold after, HEADER, USER_TOP in *. apply u64_small. lia. Qed.

Lemma only_trans p s1 s2 s3 : only p s1 s2 → only p s2 s3 → only p s1 s3.
Proof. intros [E1 H1] [E2 H2]. split; [congruence|]. intros a ? ?. by rewrite H2, H1. Qed.
Lemma only_set p v s : only p s (set_m_mem <[p := v]> s).
Proof. split; [done|]. intros a ? ?. rewrite word_set. by case_decide. Qed.
Lemma only_set8 p v s : only p s (set_m_mem <[p + 8 := v]> s).
Proof. split; [done|]. intros a ? ?. rewrite word_set. by case_decide. Qed.
#[local] Hint Resolve only_set only_set8 : core.

(** The free blocks below and above an address. *)
Lemma free_in_split lo l hi bp : free_in lo l hi → (∀ x, x ∈ l → x.1 ≠ bp) →
  ∃ l1 l2, l = l1 ++ l2 ∧ (∀ x, x ∈ l1 → x.1 < bp) ∧ (∀ x, x ∈ l2 → bp < x.1).
Proof.
  revert lo. induction l as [|y l IH]; intros lo Hl Hne; [exists [], []; by repeat split; intros ? ?%elem_of_nil|].
  destruct (decide (y.1 < bp)) as [Hlt|Hge].
  - destruct Hl as (_ & _ & _ & Hl). destruct (IH _ Hl) as (l1 & l2 & -> & H1 & H2); [intros x Hx; apply Hne; by right|].
    exists (y :: l1), l2. split_and!; [done| |done]. intros x [->|Hx]%elem_of_cons; [done|by apply H1].
  - exists [], (y :: l). split_and!; [done|by intros ? ?%elem_of_nil|]. assert (y.1 ≠ bp) by (apply Hne; by left).
    intros x [->|Hx]%elem_of_cons; [lia|]. destruct Hl as (_ & ? & _ & Hl). apply (free_in_bounds _ _ _ _ Hl) in Hx. unfold block_end, HEADER in *. lia.
Qed.

(** ** The two merges of [free] *)
Section Merge.
Context (base : Z) (s : mstate) (Hb : 0 ≤ base).

Lemma join_next bp n l2 :
  links s l2 base → (∀ x, x ∈ l2 → accessible x.1 s = true ∧ accessible (x.1 + 8) s = true) →
  accessible bp s = true → accessible (bp + 8) s = true → word (bp + 8) s = n → 1 ≤ n → base < bp →
  m_brk s < USER_TOP → block_end (bp, n) ≤ m_brk s → free_in (block_end (bp, n)) l2 (m_brk s) →
  wp ((if bool_decide (after bp n = head_addr l2 base) then
         let! m := unit_size (head_addr l2 base) in
         set_unit_size bp (u64 (n + m)) ;;;
         let! q := ptr (head_addr l2 base) in
         set_ptr bp q
       else set_ptr bp (head_addr l2 base)) s)
     (λ _ s', only bp s s' ∧ m_free_p s' = m_free_p s ∧ ∃ n' l2',
       links s' ((bp, n') :: l2') base ∧ free_in bp ((bp, n') :: l2') (m_brk s) ∧ n ≤ n' ∧
       total ((bp, n') :: l2') = n + total l2 ∧ (length l2' ≤ length l2)%nat ∧
       ∀ y, 1 ≤ y.2 → apart (bp, n) y → (∀ x, x ∈ l2 → apart x y) → ∀ x, x ∈ (bp, n') :: l2' → apart x y).
Proof.
  intros Hc Ha Ha1 Ha2 Hn Hn1 Hlt Hk He Hs. rewrite after_small by (unfold block_end in He; simpl in He; lia).
  destruct l2 as [|[q m] l2]; simpl head_addr.
  - rewrite bool_decide_false by (unfold block_end, HEADER in *; simpl in *; lia).
    unfold set_ptr, store. rewrite Ha1. hnf; split_and?; [apply only_set|done|]. exists n, []. split_and?; try done.
    + apply links_cons; [..|done]; simpl; rewrite !word_set; repeat case_decide; lia || done.
    + intros y _ Hy _ x ->%list_elem_of_singleton. done.
  - change (head_addr ((q, m) :: l2) base) with q. destruct Hc as (Hq & Hm & Hc), Hs as (Hs1 & Hs2 & Hs3 & Hs4). simpl in Hq, Hm, Hs1, Hs2.
    destruct (Ha (q, m)) as [Aq Aq8]; [by left|]. simpl in Aq, Aq8. unfold block_end in *. simpl in He, Hs1, Hs3, Hs4.
    assert (Hfar : ∀ x, x ∈ l2 → bp + HEADER ≤ x.1 ∨ x.1 + HEADER ≤ bp).
    { intros x Hx. apply (free_in_bounds _ _ _ _ Hs4) in Hx as (? & ? & ?). unfold HEADER in *. lia. }
    case_bool_decide as E.
    + unfold unit_size, ptr, set_unit_size, set_ptr. rewrite bind_load by done. rewrite bind_store by done. rewrite bind_load by done. unfold store.
      rewrite !accessible_set, Ha1, !word_set, Hq, Hm. rewrite decide_False by (unfold HEADER in *; lia).
      rewrite u64_small by (unfold HEADER, USER_TOP in *; lia).
      assert (O : only bp s (set_m_mem <[bp:=head_addr l2 base]> (set_m_mem <[bp + 8:=n + m]> s))) by (eapply only_trans; eauto).
      hnf; split_and?; [done|done|]. exists (n + m), l2. split_and?.
      * apply links_cons; [..|by eapply only_links]; simpl; rewrite !word_set; repeat case_decide; lia || done.
      * simpl. unfold block_end. simpl. unfold HEADER in *. split_and!; try lia. eapply free_in_le; [exact Hs4|lia..].
      * lia.
      * simpl. lia.
      * simpl. lia.
      * intros y Hy1 Hy Hall x [->|Hx]%elem_of_cons; [|apply Hall; by right]. apply apart_join; [done|lia|done|].
        rewrite E. apply Hall. by left.
    + unfold set_ptr, store. rewrite Ha1. hnf; split_and?; [apply only_set|done|]. exists n, ((q, m) :: l2). split_and?; try done.
      * assert (O : only bp s (set_m_mem <[bp:=q]> s)) by eauto. unfold HEADER in *.
        apply links_cons; [simpl; rewrite word_set; case_decide; lia || done..|].
        eapply only_links; [exact O| |by apply links_cons]. intros x [->|Hx]%elem_of_cons; [simpl; unfold HEADER in *; lia|by apply Hfar].
      * simpl. unfold block_end. simpl. split_and!; try done; lia.
      * intros y _ Hy Hall x [->|Hx]%elem_of_cons; [done|by apply Hall].
Qed.

Lemma join_prev p k bp n l2 :
  links s ((bp, n) :: l2) base → (∀ x, x ∈ l2 → p + HEADER ≤ x.1) → accessible p s = true → accessible (p + 8) s = true →
  accessible bp s = true → accessible (bp + 8) s = true → word (p + 8) s = k → 0 ≤ p → 0 ≤ k → 0 ≤ n → p + HEADER ≤ bp →
  m_brk s < USER_TOP → block_end (p, k) ≤ bp → block_end (bp, n) ≤ m_brk s →
  wp ((if bool_decide (after p k = bp) then
         let! n := unit_size bp in
         set_unit_size p (u64 (k + n)) ;;;
         let! q := ptr bp in
         set_ptr p q
       else set_ptr p bp) s)
     (λ _ s', only p s s' ∧ m_free_p s' = m_free_p s ∧ ∃ k' l2', links s' ((p, k') :: l2') base ∧
       (k' = k ∧ l2' = (bp, n) :: l2 ∧ block_end (p, k) ≠ bp ∨ block_end (p, k) = bp ∧ k' = k + n ∧ l2' = l2)).
Proof.
  intros Hc Hfar Ap Ap8 Ab Ab8 Hk Hp0 Hk0 Hn0 Hpb Hbrk Hpk He. unfold block_end in *. simpl in Hpk, He. unfold HEADER in *.
  rewrite after_small by (unfold HEADER, USER_TOP in *; lia). destruct Hc as (Hq & Hn & Hc). simpl in Hq, Hn. unfold HEADER.
  case_bool_decide as E.
  - unfold unit_size, ptr, set_unit_size, set_ptr. rewrite bind_load by done. rewrite bind_store by done. rewrite bind_load by done. unfold store.
    rewrite !accessible_set, Ap, !word_set, Hq, Hn. rewrite decide_False by lia.
    rewrite u64_small by (unfold USER_TOP in *; lia).
    assert (O : only p s (set_m_mem <[p:=head_addr l2 base]> (set_m_mem <[p + 8:=k + n]> s))) by (eapply only_trans; eauto).
    hnf; split_and?; [done|done|]. exists (k + n), l2. split; [|right; by simpl].
    apply links_cons; [..|eapply only_links; [done| |done]; intros x Hx; left; by apply Hfar]; simpl; rewrite !word_set; repeat case_decide; lia || done.
  - unfold set_ptr, store. rewrite Ap. assert (O : only p s (set_m_mem <[p:=bp]> s)) by eauto. hnf; split_and?; [done|done|].
    exists k, ((bp, n) :: l2). split; [|left; by simpl].
    apply links_cons; [..|eapply only_links; [done| |by split_and!]; intros x Hx; left; apply elem_of_cons in Hx as [->|Hx]; [done|by apply Hfar]];
      simpl; rewrite !word_set; repeat case_decide; lia || done.
Qed.
End Merge.

Lemma free_in_around lo l1 x l2 hi : free_in lo (l1 ++ x :: l2) hi →
  (∀ z, z ∈ l1 → block_end z < x.1) ∧ (∀ z, z ∈ l2 → block_end x < z.1).
Proof.
  intros Hs. split; intros z [j Hj]%list_elem_of_lookup; pose proof (lookup_lt_Some _ _ _ Hj).
  - eapply (free_in_sorted _ _ _ j (length l1) z x Hs); [by rewrite lookup_app_l|by rewrite list_lookup_middle|done].
  - eapply (free_in_sorted _ _ _ (length l1) (S (length l1) + j) x z Hs); [by rewrite list_lookup_middle| |lia].
    rewrite lookup_app_r by lia. by replace (S (length l1) + j - length l1)%nat with (S j) by lia.
Qed.
Lemma free_in_from lo lo' l hi : free_in lo l hi → (∀ x, x ∈ l → lo' ≤ x.1) → free_in lo' l hi.
Proof. destruct l as [|x l]; [done|]. intros (_ & ? & ? & ?) Hx. split_and!; try done. apply Hx. by left. Qed.
Lemma free_in_replace lo l1 x l2 l hi : free_in lo (l1 ++ x :: l2) hi → free_in x.1 l hi → free_in lo (l1 ++ l) hi.
Proof.
  revert lo. induction l1 as [|y l1 IH]; intros lo; simpl; [intros (? & _) Hl; by eapply free_in_le|].
  intros (? & ? & ? & Hl) Hx. split_and?; try done. by apply IH.
Qed.

Section Spec.
Context (base start : Z).

Definition al_ok (s : mstate) (x : Z * Z) : Prop := start ≤ x.1 ∧ 1 ≤ x.2 ∧ block_end x ≤ m_brk s ∧ word (x.1 + 8) s = x.2.

Record heap (s : mstate) (fl al : blocks) : Prop := {
  hp_base : USER_BASE ≤ base ∧ base + HEADER ≤ start;
  hp_brk : start ≤ m_brk s < USER_TOP;
  hp_ring : links s ((base, 0) :: fl) base;
  hp_sorted : free_in start fl (m_brk s);
  hp_ptr : m_free_p s ∈ ((base, 0) :: fl).*1;
  hp_al : Forall (al_ok s) al;
  hp_apart : ∀ x y, x ∈ fl → y ∈ al → apart x y;
  hp_al_apart : ForallOrdPairs apart al;
  hp_total : HEADER * (total fl + total al) = m_brk s - start
}.

Section Ring.
Context (s : mstate) (fl al : blocks) (H : heap s fl al).
Let ring := (base, 0) :: fl.

Lemma ring_bounds x : x ∈ ring → USER_BASE ≤ x.1 ∧ 0 ≤ x.2 ∧ x.1 + HEADER ≤ m_brk s ∧ block_end x ≤ m_brk s ∧ (x = (base, 0) ∨ start ≤ x.1 ∧ 1 ≤ x.2).
Proof.
  destruct H as [Hb Hk _ Hs _ _ _ _ _]. unfold ring. rewrite elem_of_cons. intros [->|Hx].
  - unfold block_end, HEADER in *. simpl. split_and!; try lia; by left.
  - apply (free_in_bounds _ _ _ _ Hs) in Hx as (? & ? & ?). unfold block_end, HEADER in *. split_and!; try lia.
Qed.

Lemma ring_sorted j k x y : ring !! j = Some x → ring !! k = Some y → (j < k)%nat → x.1 + HEADER ≤ y.1 ∧ block_end x < y.1.
Proof.
  destruct H as [Hb Hk _ Hs _ _ _ _ _]. unfold ring. destruct k as [|k]; [lia|]. intros Hx Hy Hjk. simpl in Hy.
  assert (y ∈ fl) as Hyl by by eapply list_elem_of_lookup_2. apply (free_in_bounds _ _ _ _ Hs) in Hyl as (Hy1 & Hy2 & Hy3).
  destruct j as [|j].
  - injection Hx as <-. unfold block_end, HEADER in *. simpl. lia.
  - simpl in Hx. assert (x ∈ fl) as Hxl by by eapply list_elem_of_lookup_2. apply (free_in_bounds _ _ _ _ Hs) in Hxl as (Hx1 & Hx2 & Hx3).
    pose proof (free_in_sorted _ _ _ j k x y Hs Hx Hy ltac:(lia)). unfold block_end, HEADER in *. lia.
Qed.

Lemma ring_access x : x ∈ ring → accessible x.1 s = true ∧ accessible (x.1 + 8) s = true.
Proof.
  intros Hx%ring_bounds. unfold accessible, HEADER in *. rewrite !bool_decide_true by lia. done.
Qed.

Lemma ring_next k x : ring !! k = Some x →
  word x.1 s = match ring !! S k with Some y => y.1 | None => base end ∧ word (x.1 + 8) s = x.2.
Proof. apply links_lookup, (hp_ring _ _ _ H). Qed.

Lemma ring_at l1 x l2 : ring = l1 ++ x :: l2 → word x.1 s = head_addr l2 base ∧ word (x.1 + 8) s = x.2.
Proof. intros E. pose proof (hp_ring _ _ _ H) as Hc. fold ring in Hc. rewrite E, links_app in Hc. simpl in Hc. tauto. Qed.

Lemma ring_nodup j k x y : ring !! j = Some x → ring !! k = Some y → x.1 = y.1 → j = k.
Proof.
  intros Hx Hy E. destruct (lt_eq_lt_dec j k) as [[Hl| ->]|Hl]; [|done|].
  - pose proof (ring_sorted _ _ _ _ Hx Hy Hl). unfold HEADER in *. lia.
  - pose proof (ring_sorted _ _ _ _ Hy Hx Hl). unfold HEADER in *. lia.
Qed.

(** The ring as it is walked from [free_p]. *)
Lemma ring_from : ∃ f l1 l2, ring = l1 ++ f :: l2 ∧ f.1 = m_free_p s ∧ links s (f :: l2 ++ l1) f.1.
Proof.
  pose proof (hp_ptr _ _ _ H) as Hp. apply list_elem_of_fmap in Hp as (f & Ef & Hf). apply list_elem_of_split in Hf as (l1 & l2 & E).
  exists f, l1, l2. split_and!; [done|done|]. apply links_rotate. rewrite <- E.
  replace (head_addr l1 f.1) with base; [exact (hp_ring _ _ _ H)|]. destruct l1; injection E as E1 _; by subst.
Qed.

Lemma ring_length : (length ring ≤ ring_fuel s)%nat.
Proof.
  destruct H as [Hb Hk _ Hs _ Hal _ _ Ht]. unfold ring, ring_fuel. cbn [length]. apply le_n_S.
  pose proof (free_in_total _ _ _ Hs). assert (0 ≤ total al).
  { clear -Hal. induction Hal as [|x al [? ?] _ IH]; simpl; lia. }
  unfold HEADER, USER_BASE in *. pose proof (Z.div_le_mono (16 * Z.of_nat (length fl)) (m_brk s) 16).
  rewrite Z.mul_comm, Z.div_mul in H2 by lia. lia.
Qed.

(** Where [bp] goes: behind the last block before it. *)
Definition place (bp : Z) (i : nat) (y : Z * Z) : Prop :=
  ring !! i = Some y ∧ y.1 < bp ∧ ∀ j z, ring !! j = Some z → (i < j)%nat → bp < z.1.

Lemma stops_place bp i y k z : place bp i y → (∀ x, x ∈ ring → x.1 ≠ bp) → ring !! k = Some z →
  stops s bp z.1 = bool_decide (k = i).
Proof.
  intros (Hy & Hlt & Hgt) Hne Hz. destruct (ring_next _ _ Hz) as [Hn _]. unfold stops. rewrite Hn. clear Hn.
  assert (Hb : base < bp).
  { destruct i as [|i]; [by injection Hy as <-|]. pose proof (ring_sorted 0 (S i) (base, 0) y eq_refl Hy ltac:(lia)). unfold HEADER in *. simpl in *. lia. }
  assert (Hz' : (k ≤ i)%nat ∧ z.1 < bp ∨ (i < k)%nat ∧ bp < z.1).
  { destruct (decide (i < k)%nat); [right; by eauto|left]. split; [lia|]. destruct (decide (k = i)) as [->|]; [congruence|].
    pose proof (ring_sorted k i z y Hz Hy ltac:(lia)). unfold HEADER in *. lia. }
  destruct (ring !! S k) as [z'|] eqn:Hz1.
  - pose proof (ring_sorted k (S k) z z' Hz Hz1 ltac:(lia)). unfold HEADER in *. rewrite (bool_decide_false (z'.1 ≤ z.1)) by lia.
    destruct (decide (k = i)) as [->|].
    + pose proof (Hgt (S i) z' Hz1 ltac:(lia)). rewrite !bool_decide_true by lia. done.
    + rewrite (bool_decide_false (k = i)) by done. destruct Hz' as [[? ?]|[? ?]].
      * assert (z'.1 < bp). { destruct (decide (S k = i)) as [<-|]; [congruence|]. pose proof (ring_sorted (S k) i z' y Hz1 Hy ltac:(lia)). unfold HEADER in *. lia. }
        rewrite (bool_decide_false (bp < z'.1)) by lia. by rewrite andb_false_r.
      * by rewrite (bool_decide_false (z.1 < bp)) by lia.
  - assert (base ≤ z.1) as Hbz.
    { destruct k as [|k]; [by injection Hz as <-|]. pose proof (ring_sorted 0 (S k) (base, 0) z eq_refl Hz ltac:(lia)). unfold HEADER in *. simpl in *. lia. }
    rewrite (bool_decide_false (bp < base)), (bool_decide_true (base ≤ z.1)) by lia. rewrite andb_false_r, orb_false_r. simpl.
    apply lookup_ge_None in Hz1. pose proof (lookup_lt_Some _ _ _ Hy). pose proof (lookup_lt_Some _ _ _ Hz).
    apply bool_decide_ext. split; [intros|intros ->]; lia.
Qed.
End Ring.

(** What a block handed out gives. *)
Lemma al_ok_bounds s x : al_ok s x → 1 ≤ x.2 ∧ start ≤ x.1 ∧ x.1 + HEADER ≤ block_end x ≤ m_brk s.
Proof. intros (? & ? & ? & _). unfold block_end, HEADER in *. lia. Qed.

Lemma al_ok_kept s s' l : kept l s s' → m_brk s ≤ m_brk s' → Forall (al_ok s) l → Forall (al_ok s') l.
Proof.
  intros Hk Hb Hl. apply Forall_forall. intros x Hx. rewrite Forall_forall in Hl. specialize (Hl x Hx) as Ho.
  pose proof (al_ok_bounds _ _ Ho). destruct Ho as (? & ? & ? & Hw). split_and!; [done|done|lia|].
  rewrite <- Hw. apply (Hk x); [done|]. unfold HEADER in *. lia.
Qed.

Lemma ring_outside s fl al x : heap s fl al → x ∈ (base, 0) :: fl → outside x.1 al.
Proof.
  intros H Hx y Hy. pose proof (hp_al _ _ _ H) as Hal. rewrite Forall_forall in Hal. pose proof (al_ok_bounds _ _ (Hal y Hy)).
  apply elem_of_cons in Hx as [->|Hx]; [simpl; destruct (hp_base _ _ _ H); lia|].
  destruct (hp_apart _ _ _ H x y Hx Hy); [left|by right].
  destruct (free_in_bounds _ _ _ _ (hp_sorted _ _ _ H) Hx). unfold block_end, HEADER in *. lia.
Qed.

(** The free blocks are on either side of a block that is handed out. *)
Lemma ring_sides s fl al bp n : heap s fl ((bp, n) :: al) → ∀ z, z ∈ (base, 0) :: fl →
  z.1 + HEADER ≤ bp ∧ block_end z ≤ bp ∨ block_end (bp, n) ≤ z.1 ∧ bp < z.1.
Proof.
  intros H z Hz. pose proof (Forall_inv (hp_al _ _ _ H)) as Ho. apply al_ok_bounds in Ho as (Hn & Hbs & Hbe). simpl in Hn, Hbs, Hbe.
  destruct (hp_base _ _ _ H) as [Hb1 Hb2]. pose proof (ring_outside _ _ _ z H Hz (bp, n) ltac:(by left)) as Hd. simpl in Hd.
  apply elem_of_cons in Hz as [->|Hz]; [left; unfold block_end, HEADER in *; simpl in *; lia|].
  pose proof (hp_apart _ _ _ H z (bp, n) Hz ltac:(by left)) as Hd'. unfold apart in Hd'. simpl in Hd'.
  pose proof (free_in_bounds _ _ _ _ (hp_sorted _ _ _ H) Hz). unfold block_end, HEADER in *; simpl in *; lia.
Qed.

Lemma free_place s fl al bp n : heap s fl ((bp, n) :: al) →
  ∃ l1 x l2, (base, 0) :: fl = l1 ++ x :: l2 ∧ x.1 + HEADER ≤ bp ∧ block_end x ≤ bp ∧ (∀ z, z ∈ l2 → block_end (bp, n) ≤ z.1) ∧
    place fl bp (length l1) x.
Proof.
  intros H. pose proof (ring_sides _ _ _ _ _ H) as Hap.
  destruct (free_in_split start fl (m_brk s) bp (hp_sorted _ _ _ H)) as (l1 & l2 & -> & H1 & H2).
  { intros x Hx. destruct (Hap x); [by right|unfold HEADER in *; lia..]. }
  assert (∃ l0 x, (base, 0) :: l1 = l0 ++ [x]) as (l0 & x & E).
  { destruct (exists_last (l := (base, 0) :: l1)) as (l0 & x & ->); [done|by eauto]. }
  assert (Hr : (base, 0) :: l1 ++ l2 = l0 ++ x :: l2) by (rewrite app_comm_cons, E, <- app_assoc; done).
  assert (Hx1 : x ∈ (base, 0) :: l1) by (rewrite E; apply elem_of_app; right; by left).
  assert (Hx : x ∈ (base, 0) :: l1 ++ l2) by (rewrite app_comm_cons; apply elem_of_app; by left).
  assert (Hxb : x.1 < bp).
  { apply elem_of_cons in Hx1 as [->|?]; [|by apply H1]. destruct (Hap (base, 0)) as [?|[_ ?]]; [by left|unfold HEADER in *; lia|].
    destruct (hp_base _ _ _ H). pose proof (Forall_inv (hp_al _ _ _ H)) as Ho%al_ok_bounds. unfold HEADER in *. simpl in *. lia. }
  exists l0, x, l2. split_and?; [done|destruct (Hap x Hx); lia..| |].
  - intros z Hz. specialize (H2 z Hz). destruct (Hap z); [right; apply elem_of_app; by right|unfold HEADER in *; lia|lia].
  - hnf; split_and?; [by rewrite Hr, list_lookup_middle|done|]. intros j z Hj Hlt. apply H2.
    rewrite Hr, lookup_app_r in Hj by lia. destruct (j - length l0)%nat as [|i] eqn:?; [lia|]. by eapply list_elem_of_lookup_2.
Qed.

(** The search of [free] finds it. *)
Lemma free_finds s fl al bp n i x : heap s fl ((bp, n) :: al) → place fl bp i x →
  free_loop (ring_fuel s) bp (m_free_p s) s = Done x.1 s.
Proof.
  intros H Hpl. destruct (ring_from _ _ _ H) as (f & m1 & m2 & Ef & Ep & Hc). rewrite <- Ep.
  assert (Hin : ∀ z, z ∈ f :: m2 ++ m1 ↔ z ∈ (base, 0) :: fl) by (intros z; rewrite Ef, !elem_of_cons, !elem_of_app, elem_of_cons; tauto).
  assert (Hst : ∀ k z, ((base, 0) :: fl) !! k = Some z → stops s bp z.1 = bool_decide (k = i)).
  { intros k z. apply (stops_place _ _ _ H bp _ x); [done|]. intros y Hy.
    destruct (ring_sides _ _ _ _ _ H y Hy); unfold HEADER in *; lia. }
  pose proof Hpl as (Hx & _ & _).
  destruct (free_loop_path s bp (m2 ++ m1) f f.1 (ring_fuel s) Hc) as (z & Hz & Hs & ->).
  - intros z Hz. by apply (ring_access _ _ _ H), Hin.
  - exists x. split; [by eapply Hin, list_elem_of_lookup_2|]. rewrite (Hst i); [by apply bool_decide_true|done].
  - pose proof (ring_length _ _ _ H) as Hl. rewrite Ef, length_app in Hl. rewrite length_app. simpl in Hl. lia.
  - apply Hin, list_elem_of_lookup in Hz as [k Hk]. rewrite (Hst k z Hk) in Hs. apply bool_decide_eq_true in Hs as ->. congruence.
Qed.

Lemma heap_give_back s s' fl al bp n fl' :
  heap s fl ((bp, n) :: al) → kept al s s' → m_brk s' = m_brk s → links s' ((base, 0) :: fl') base →
  free_in start fl' (m_brk s) → m_free_p s' ∈ ((base, 0) :: fl').*1 → (∀ x y, x ∈ fl' → y ∈ al → apart x y) →
  total fl' = total fl + n → heap s' fl' al.
Proof.
  intros [Hb Hk Hr Hs Hp Hal Hap Haa Ht] Hkept Ebrk Hr' Hs' Hp' Hap' Et. split; rewrite ?Ebrk; try done.
  - eapply al_ok_kept; [done|lia|]. by eapply Forall_inv_tail.
  - by inversion Haa.
  - simpl in Ht. lia.
Qed.

(** The free list after the merges. *)
Lemma merged_rest p k bp n n' l2 l2' k' rest hi (al : blocks) :
  1 ≤ k → block_end (p, k) ≤ bp → free_in bp ((bp, n') :: l2') hi → total ((bp, n') :: l2') = n + total l2 → n ≤ n' → 1 ≤ n →
  (∀ y, y ∈ al → 1 ≤ y.2 ∧ apart (p, k) y ∧ ∀ x, x ∈ (bp, n') :: l2' → apart x y) →
  k' = k ∧ rest = (bp, n') :: l2' ∧ block_end (p, k) ≠ bp ∨ block_end (p, k) = bp ∧ k' = k + n' ∧ rest = l2' →
  free_in p ((p, k') :: rest) hi ∧ total ((p, k') :: rest) = k + n + total l2 ∧
  (∀ x y, x ∈ (p, k') :: rest → y ∈ al → apart x y) ∧ ∃ x, x ∈ (p, k') :: rest ∧ n ≤ x.2.
Proof.
  intros Hk He Hs Et Hn Hn1 Hal. pose proof Hs as (_ & _ & Hs2 & Hs3). simpl in Et.
  intros [(-> & -> & Hne)|(E & -> & ->)]; unfold block_end in *; simpl in *.
  - assert (block_end (p, k) + 1 ≤ bp ∧ block_end (p, k) ≤ hi) as [? ?] by (unfold block_end, HEADER in *; simpl in *; lia).
    split_and?; try done; try lia.
    + intros x y Hx Hy. destruct (Hal y Hy) as (_ & ? & Hall). apply elem_of_cons in Hx as [->|Hx]; [done|by apply Hall].
    + exists (bp, n'). split; [right; by left|done].
  - replace (block_end (p, k + n')) with (bp + HEADER * n') by (unfold block_end; simpl; lia). split_and?; [lia..|done|lia| |].
    + intros x y [->|Hx]%elem_of_cons Hy; destruct (Hal y Hy) as (? & ? & Hall); [|apply Hall; by right].
      apply apart_join; [done|lia|done|]. rewrite E. apply Hall. by left.
    + exists (p, k + n'). split; [by left|simpl; lia].
Qed.

(** What the run of [free] does to the ring, from [bp]'s place on. *)
Lemma free_run s fl al bp n l1 p k l2 :
  heap s fl ((bp, n) :: al) → (base, 0) :: fl = l1 ++ (p, k) :: l2 → place fl bp (length l1) (p, k) →
  p + HEADER ≤ bp → block_end (p, k) ≤ bp → (∀ z, z ∈ l2 → block_end (bp, n) ≤ z.1) → free_in (block_end (bp, n)) l2 (m_brk s) →
  wp (free (bp + HEADER) s) (λ _ s', ∃ s1 n' l2' k' rest, only bp s s1 ∧ only p s1 s' ∧ m_free_p s' = p ∧
    free_in bp ((bp, n') :: l2') (m_brk s) ∧ n ≤ n' ∧ total ((bp, n') :: l2') = n + total l2 ∧ (length l2' ≤ length l2)%nat ∧
    (∀ y, 1 ≤ y.2 → apart (bp, n) y → (∀ x, x ∈ l2 → apart x y) → ∀ x, x ∈ (bp, n') :: l2' → apart x y) ∧
    links s' ((p, k') :: rest) base ∧
    (k' = k ∧ rest = (bp, n') :: l2' ∧ block_end (p, k) ≠ bp ∨ block_end (p, k) = bp ∧ k' = k + n' ∧ rest = l2')).
Proof.
  intros H E Hpl Hpb Hpe Hl2 Hs2. destruct (hp_base _ _ _ H) as [Hb1 Hb2], (hp_brk _ _ _ H) as [Hk1 Hk2].
  pose proof (Forall_inv (hp_al _ _ _ H)) as Ho. pose proof (al_ok_bounds _ _ Ho) as (Hn & Hbs & Hbe). destruct Ho as (_ & _ & _ & Hw). simpl in Hn, Hbs, Hw.
  assert (Hin : (p, k) ∈ (base, 0) :: fl) by (rewrite E; apply elem_of_app; right; by left).
  destruct (ring_bounds _ _ _ H _ Hin) as (Hp0 & Hk0 & _ & _ & _), (ring_access _ _ _ H _ Hin) as [Ap Ap8]. simpl in Hp0, Hk0, Ap, Ap8.
  destruct (ring_at _ _ _ H _ _ _ E) as [Hpn Hpk]. simpl in Hpn, Hpk.
  assert (Hc2 : links s l2 base) by (pose proof (hp_ring _ _ _ H) as Hc; rewrite E, links_app in Hc; by destruct Hc as (_ & _ & _ & ?)).
  assert (accessible bp s = true ∧ accessible (bp + 8) s = true) as [Ab Ab8].
  { unfold accessible, HEADER in *. simpl in Hbe. rewrite !bool_decide_true by lia. done. }
  unfold USER_BASE in *. unfold free. rewrite Z.add_simpl_r, !bind_gets, (bind_done _ _ _ _ _ (free_finds _ _ _ _ _ _ _ H Hpl)).
  unfold ptr at 1, unit_size at 1. simpl. rewrite bind_load by done. rewrite bind_load by done. rewrite Hpn, Hw.
  apply wp_bind. eapply wp_mono; [eapply (join_next base s ltac:(lia) bp n l2); try done; try lia|].
  { intros z Hz. eapply (ring_access _ _ _ H). rewrite E. apply elem_of_app. right. by right. }
  { unfold HEADER in *. lia. }
  intros _ s1 (O1 & Ep1 & n' & l2' & Hc1 & Hf1 & Hn1 & Ht1 & Hlen & Hap1). pose proof O1 as [Eb1 Ew1].
  assert (HA : ∀ a, accessible a s1 = accessible a s) by (intros a; unfold accessible; by rewrite Eb1).
  unfold unit_size at 1. rewrite bind_load by (by rewrite HA). rewrite Ew1, Hpk by (unfold HEADER in *; lia).
  apply wp_bind. eapply wp_mono; [eapply (join_prev base s1 p k bp n' l2'); rewrite ?HA, ?Eb1; try done; try lia|].
  { destruct Hf1 as (_ & _ & _ & Hf1). intros x Hx. apply (free_in_bounds _ _ _ _ Hf1) in Hx. unfold block_end, HEADER in *. simpl in *. lia. }
  { rewrite Ew1 by (unfold HEADER in *; lia). done. }
  { by destruct Hf1 as (_ & _ & ? & _). }
  intros _ s2 (O2 & Ep2 & k' & rest & Hc3 & Hcase). ksteps.
  exists s1, n', l2', k', rest.
  refine (conj O1 (conj O2 (conj eq_refl (conj Hf1 (conj Hn1 (conj Ht1 (conj Hlen (conj Hap1 (conj _ Hcase))))))))).
  exact (links_ext s2 (set_m_free_p p s2) ((p, k') :: rest) base (λ _ _, conj eq_refl eq_refl) Hc3).
Qed.

Lemma free_ok s fl al bp n : heap s fl ((bp, n) :: al) →
  wp (free (bp + HEADER) s) (λ _ s', ∃ fl', heap s' fl' al ∧ kept al s s' ∧ m_brk s' = m_brk s ∧ (length fl' ≤ S (length fl))%nat ∧ ∃ x, x ∈ fl' ∧ n ≤ x.2).
Proof.
  intros H. destruct (free_place _ _ _ _ _ H) as (l1 & [p k] & l2 & E & Hpb & Hpe & Hl2 & Hpl). simpl in Hpb.
  pose proof (Forall_inv (hp_al _ _ _ H)) as (Hbs & Hn & Hbe & _). simpl in Hbs, Hn.
  assert (Hin : (p, k) ∈ (base, 0) :: fl) by (rewrite E; apply elem_of_app; right; by left).
  assert (Hl1 : ∀ z, z ∈ l1 → z.1 + HEADER ≤ p).
  { intros z [j Hj]%list_elem_of_lookup. pose proof (lookup_lt_Some _ _ _ Hj).
    eapply (ring_sorted _ _ _ H j (length l1) z (p, k)); [by rewrite E, lookup_app_l|by rewrite E, list_lookup_middle|done]. }
  assert (Hs2 : free_in (block_end (bp, n)) l2 (m_brk s)).
  { pose proof (hp_sorted _ _ _ H) as Hs. destruct l1 as [|b l1]; simplify_eq/=; [by eapply free_in_from|].
    apply free_in_app in Hs as [_ (_ & _ & _ & Hs)]. by eapply free_in_from. }
  eapply wp_mono; [by eapply free_run|]. intros _ s' (s1 & n' & l2' & k' & rest & O1 & O2 & Ep & Hf1 & Hn1 & Ht1 & Hlen & Hap1 & Hc & Hcase).
  assert (Ebrk : m_brk s' = m_brk s) by (destruct O1, O2; congruence).
  assert (Hk : kept al s s').
  { eapply kept_trans; [eapply only_kept; [exact O1|]|eapply only_kept; [exact O2|]].
    - intros y Hy. pose proof (hp_al_apart _ _ _ H) as Ha. inversion Ha as [|? ? Hh _]. rewrite Forall_forall in Hh.
      specialize (Hh y Hy). unfold apart, block_end, HEADER in *. simpl in Hh. lia.
    - intros y Hy. apply (ring_outside _ _ _ (p, k) H Hin). by right. }
  assert (Hring : links s' (l1 ++ (p, k') :: rest) base).
  { apply links_app. split; [|done]. eapply only_links; [exact O2|intros z Hz; right; by apply Hl1|].
    eapply only_links; [exact O1|intros z Hz; right; specialize (Hl1 z Hz); unfold HEADER in *; lia|].
    pose proof (hp_ring _ _ _ H) as Hr. rewrite E in Hr. by apply links_app in Hr as [? _]. }
  assert (Hal : ∀ y, y ∈ al → 1 ≤ y.2 ∧ ∀ x, x ∈ (bp, n') :: l2' → apart x y).
  { intros y Hy. pose proof (hp_al _ _ _ H) as Hal. rewrite Forall_forall in Hal. destruct (Hal y) as (_ & Hy1 & _); [by right|].
    split; [done|]. apply Hap1; [done| |].
    - pose proof (hp_al_apart _ _ _ H) as Ha. inversion Ha as [|? ? Hh _]. rewrite Forall_forall in Hh. by apply Hh.
    - intros x Hx. apply (hp_apart _ _ _ H); [|by right]. destruct l1 as [|b l1]; simplify_eq/=; [done|].
      apply elem_of_app. right. by right. }
  destruct l1 as [|b l1]; [injection E as <- <- <-|injection E as <- ->]; cbn [app] in *.
  - destruct Hcase as [(-> & -> & _)|(E & _)]; [|unfold block_end, HEADER in *; simpl in *; lia].
    exists ((bp, n') :: l2'). split_and?; [|done|done|simpl; lia|exists (bp, n'); split; [by left|done]].
    apply (heap_give_back _ _ _ _ _ _ _ H); [done|done|done|eapply free_in_le; [exact Hf1|lia..]|rewrite Ep; by left| |simpl in *; lia].
    intros x y Hx Hy. by apply (Hal y Hy).
  - pose proof (hp_sorted _ _ _ H) as Hs. apply free_in_app in Hs as Hs'. destruct Hs' as [_ (_ & Hk1 & _)]. simpl in Hk1.
    destruct (merged_rest p k bp n n' l2 l2' k' rest (m_brk s) al) as (Hf & Ht & Ha & x & Hx & Hxn); try done.
    { intros y Hy. destruct (Hal y Hy). split_and?; [done| |done]. apply (hp_apart _ _ _ H); [apply elem_of_app; right; by left|by right]. }
    exists (l1 ++ (p, k') :: rest). split_and?; [|done|done|rewrite !length_app; destruct Hcase as [(_ & -> & _)|(_ & _ & ->)]; simpl; lia|exists x; split; [apply elem_of_app; by right|done]].
    apply (heap_give_back _ _ _ _ _ _ _ H); [done|done|done|by eapply free_in_replace| | |rewrite !total_app in *; simpl in *; lia].
    + rewrite Ep, fmap_cons, fmap_app, elem_of_cons, elem_of_app. right. right. by left.
    + intros z y Hz Hy. apply elem_of_app in Hz as [Hz|Hz]; [|by apply Ha].
      apply (hp_apart _ _ _ H); [apply elem_of_app; by left|by right].
Qed.

(** ** Taking a block off the ring *)

(** The part [mid] of a free block [x] that stays free, and the part at [q]
    that is handed out: the tail of [x], or all of it. *)
Definition cut (x : Z * Z) (n : Z) (mid : blocks) (q : Z) : Prop :=
  mid = [] ∧ q = x.1 ∧ n = x.2 ∨ mid = [(x.1, x.2 - n)] ∧ q = x.1 + HEADER * (x.2 - n) ∧ n < x.2.

Lemma cut_apart x n mid q z : cut x n mid q → 1 ≤ n → apart x z →
  apart (q, n) z ∧ ∀ m, m ∈ mid → apart m z.
Proof.
  unfold cut, apart, block_end, HEADER. intros [(-> & -> & ->)|(-> & -> & ?)] Hn Hz; cbn [fst snd].
  - split; [done|by intros ? ?%elem_of_nil].
  - split; [lia|]. intros m ->%list_elem_of_singleton. cbn [fst snd]. lia.
Qed.

Lemma heap_take s s' a x l2 al n mid q :
  heap s (a ++ x :: l2) al → 1 ≤ n → cut x n mid q → kept al s s' → m_brk s' = m_brk s →
  links s' ((base, 0) :: a ++ mid ++ l2) base → word (q + 8) s' = n →
  m_free_p s' ∈ ((base, 0) :: a ++ mid ++ l2).*1 → heap s' (a ++ mid ++ l2) ((q, n) :: al).
Proof.
  intros [Hb Hk Hr Hs Hp Hal Hap Haa Ht] Hn Hcut Hkept Ebrk Hr' Hw Hp'.
  pose proof (free_in_around _ _ _ _ _ Hs) as [Ha Hl2]. pose proof Hs as Hs0. apply free_in_app in Hs0 as (_ & Hx1 & Hx2 & Hx3 & Hs3).
  destruct (free_in_bounds _ _ _ x Hs) as (Hxs & _); [apply elem_of_app; right; by left|].
  assert (Hxz : ∀ z, z ∈ a ∨ z ∈ l2 → apart x z) by (intros z [Hz|Hz]; unfold apart; [specialize (Ha z Hz)|specialize (Hl2 z Hz)]; lia).
  assert (Hxy : ∀ y, y ∈ al → apart x y) by (intros y Hy; apply Hap; [apply elem_of_app; right; by left|done]).
  split; rewrite ?Ebrk; try done.
  - eapply free_in_replace; [exact Hs|]. unfold block_end, HEADER in *.
    destruct Hcut as [(-> & _)|(-> & _ & ?)]; cbn [app free_in fst snd]; [|split_and?; try (unfold block_end, HEADER; cbn [fst snd]; lia)]; (eapply free_in_le; [exact Hs3|unfold block_end, HEADER; cbn [fst snd]; lia..]).
  - constructor; [|eapply al_ok_kept; [done|lia|done]].
    unfold cut, al_ok, block_end, HEADER in *. rewrite Ebrk. destruct Hcut as [(-> & -> & ->)|(-> & -> & ?)]; cbn [fst snd]; split_and?; try lia; done.
  - intros z y Hz Hy. rewrite !elem_of_app in Hz. apply elem_of_cons in Hy as [->|Hy].
    + destruct Hz as [Hz|[Hz|Hz]]; [apply apart_sym, (cut_apart x _ mid); auto| |apply apart_sym, (cut_apart x _ mid); auto].
      destruct Hcut as [(-> & _)|(-> & -> & ?)]; [by apply elem_of_nil in Hz|]. apply list_elem_of_singleton in Hz as ->. left. done.
    + destruct Hz as [Hz|[Hz|Hz]]; [apply Hap; [apply elem_of_app; by left|done]|by eapply (cut_apart x n mid q); auto|].
      apply Hap; [apply elem_of_app; right; by right|done].
  - constructor; [|done]. apply Forall_forall. intros y Hy. eapply proj1, (cut_apart x n mid q); auto.
  - rewrite !total_app in *. simpl in *. destruct Hcut as [(-> & _ & ->)|(-> & _ & _)]; simpl; lia.
Qed.

(** The ring around [x], which [y] comes before. *)
Lemma ring_around s fl al l1 y x l2 : heap s fl al → (base, 0) :: fl = l1 ++ y :: x :: l2 →
  (∃ a, fl = a ++ x :: l2 ∧ (base, 0) :: a = l1 ++ [y]) ∧
  (∀ z, z ∈ l1 → z.1 + HEADER ≤ y.1) ∧ y.1 + HEADER ≤ x.1 ∧ (∀ z, z ∈ l2 → block_end x < z.1) ∧
  1 ≤ x.2 ∧ links s l1 y.1 ∧ word (y.1 + 8) s = y.2 ∧ word x.1 s = head_addr l2 base ∧ word (x.1 + 8) s = x.2 ∧ links s l2 base.
Proof.
  intros H E. assert (∃ a, fl = a ++ x :: l2 ∧ (base, 0) :: a = l1 ++ [y]) as (a & Ea & Ey).
  { destruct l1 as [|b l1]; injection E as <- ->; [by exists []|exists (l1 ++ [y])]. by rewrite <- app_assoc. }
  pose proof (hp_sorted _ _ _ H) as Hs. rewrite Ea in Hs. apply free_in_around in Hs as Har. apply free_in_app in Hs as (_ & _ & Hx2 & _).
  pose proof (hp_ring _ _ _ H) as Hc. rewrite E in Hc. apply links_app in Hc as (Hc1 & _ & Hy & Hx & Hx8 & Hc2).
  assert (Hi : ((base, 0) :: fl) !! length l1 = Some y) by (by rewrite E, list_lookup_middle).
  split_and?; [by exists a| | |by apply Har|done..].
  - intros z [j Hj]%list_elem_of_lookup. pose proof (lookup_lt_Some _ _ _ Hj).
    eapply (ring_sorted _ _ _ H j (length l1) z y); [by rewrite E, lookup_app_l|done|done].
  - eapply (ring_sorted _ _ _ H (length l1) (S (length l1)) y x Hi); [|lia].
    rewrite E, lookup_app_r by lia. by replace (S (length l1) - length l1)%nat with 1%nat by lia.
Qed.

Definition taken (s : mstate) (al : blocks) (n p : Z) (s' : mstate) : Prop :=
  ∃ q fl', p = q + HEADER ∧ heap s' fl' ((q, n) :: al) ∧ kept al s s'.

Lemma kept_free_p al s s' v : kept al s s' → kept al s (set_m_free_p v s').
Proof. done. Qed.

Lemma links_free_p s v l e : links s l e → links (set_m_free_p v s) l e.
Proof. exact (links_ext s (set_m_free_p v s) l e (λ _ _, conj eq_refl eq_refl)). Qed.

Section Take.
Context (s : mstate) (fl al l1 : blocks) (y x : Z * Z) (l2 : blocks) (n : Z).
Context (H : heap s fl al) (E : (base, 0) :: fl = l1 ++ y :: x :: l2) (Hn : 1 ≤ n ≤ x.2).

Lemma take_in : y ∈ (base, 0) :: fl ∧ x ∈ (base, 0) :: fl ∧ x ∈ fl.
Proof.
  destruct (ring_around _ _ _ _ _ _ _ H E) as ((a & -> & Ey) & _). rewrite E, !elem_of_app, !elem_of_cons. tauto.
Qed.

(** The new state is enough of a heap when the ring around [y] is linked. *)
Lemma take_heap s' mid q : cut x n mid q → kept al s s' → m_brk s' = m_brk s → word (q + 8) s' = n →
  links s' (l1 ++ y :: mid ++ l2) base → taken s al n (q + HEADER) (set_m_free_p y.1 s').
Proof.
  intros Hcut Hk Eb Hw Hc. destruct (ring_around _ _ _ _ _ _ _ H E) as ((a & Ea & Ey) & _).
  assert (Er : (base, 0) :: a ++ mid ++ l2 = l1 ++ y :: mid ++ l2) by (rewrite (app_comm_cons a), Ey, <- app_assoc; done).
  exists q, (a ++ mid ++ l2). split_and?; [done| |done].
  apply (heap_take s _ a x l2 al n mid q); [by subst fl|lia|done|done|done| |done|].
  - rewrite Er. by apply links_free_p.
  - rewrite Er, fmap_app. apply elem_of_app. right. by left.
Qed.

Lemma take_all : n = x.2 → taken s al n (x.1 + HEADER) (set_m_free_p y.1 (set_m_mem <[y.1 := head_addr l2 base]> s)).
Proof.
  intros En. destruct (ring_around _ _ _ _ _ _ _ H E) as (_ & Hl1 & Hyx & Hl2 & _ & Hc1 & Hy8 & _ & Hx8 & Hc2), take_in as (Hy & _).
  pose proof (only_set y.1 (head_addr l2 base) s) as O.
  apply (take_heap _ []); [by left|by apply (only_kept _ _ _ _ O), (ring_outside _ _ _ _ H Hy)|done| |].
  - rewrite word_set, decide_False by (unfold HEADER in *; lia). by rewrite Hx8.
  - apply links_app. split; [eapply only_links; [exact O|intros z Hz; right; by apply Hl1|done]|].
    apply links_cons; [by rewrite word_set, decide_True|rewrite word_set, decide_False by lia; done|].
    eapply only_links; [exact O| |done]. intros z Hz. specialize (Hl2 z Hz). unfold block_end, HEADER in *. lia.
Qed.

Lemma take_tail (q := x.1 + HEADER * (x.2 - n)) : n < x.2 →
  taken s al n (q + HEADER) (set_m_free_p y.1 (set_m_mem <[q + 8 := n]> (set_m_mem <[x.1 + 8 := x.2 - n]> s))).
Proof.
  intros En. destruct (ring_around _ _ _ _ _ _ _ H E) as (_ & Hl1 & Hyx & Hl2 & _ & Hc1 & Hy8 & Hx & Hx8 & Hc2), take_in as (_ & Hxr & Hxf).
  assert (Hq : x.1 + HEADER ≤ q ∧ q + HEADER ≤ block_end x) by (unfold q, block_end, HEADER; lia).
  set (s2 := set_m_mem <[q + 8 := n]> _).
  assert (Hw : ∀ b, b ≠ x.1 + 8 → b ≠ q + 8 → word b s2 = word b s) by (intros b ? ?; unfold s2; by rewrite !word_set, !decide_False).
  apply (take_heap _ [(x.1, x.2 - n)]); [right; by split_and?| |done|unfold s2; by rewrite word_set, decide_True|].
  - intros z b Hz Hb. pose proof (ring_outside _ _ _ _ H Hxr z Hz). pose proof (hp_apart _ _ _ H x z Hxf Hz) as Hxz.
    unfold apart, HEADER in *. apply Hw; lia.
  - unfold block_end, HEADER in *. apply links_app.
    split; [eapply links_ext; [|exact Hc1]; intros z Hz; specialize (Hl1 z Hz); split; apply Hw; lia|].
    apply links_cons; [|rewrite Hw by lia; done|].
    + rewrite Hw by lia. by destruct (ring_at _ _ _ H _ _ _ E) as [-> _].
    + apply links_cons; [simpl; rewrite Hw by lia; done| |].
      * simpl. unfold s2. rewrite !word_set, decide_False, decide_True by lia. done.
      * eapply links_ext; [|exact Hc2]. intros z Hz. specialize (Hl2 z Hz). split; apply Hw; lia.
Qed.

Lemma take_block_ok : wp (take_block n y.1 x.1 s) (λ p s', taken s al n p s' ∧ m_brk s' = m_brk s).
Proof.
  destruct (ring_around _ _ _ _ _ _ _ H E) as (_ & _ & _ & _ & _ & _ & _ & Hx & Hx8 & _), take_in as (Hyr & Hxr & _).
  destruct (ring_access _ _ _ H _ Hyr) as [Ay _], (ring_access _ _ _ H _ Hxr) as [Ax Ax8].
  destruct (ring_bounds _ _ _ H _ Hxr) as (Hx0 & _ & _ & Hxe & _). pose proof (hp_brk _ _ _ H) as [_ Hk].
  unfold take_block, unit_size. rewrite bind_load, Hx8 by done. case_bool_decide as En; apply wp_bind.
  - unfold ptr, set_ptr. rewrite bind_load, Hx by done. rewrite bind_store by done. ksteps. split; [by apply take_all|done].
  - rewrite u64_small by (unfold block_end, HEADER, USER_TOP, USER_BASE in *; lia).
    unfold set_unit_size. rewrite bind_store, bind_load by done. rewrite word_set, decide_True by done.
    rewrite after_small by (unfold block_end, HEADER, USER_TOP, USER_BASE in *; lia). rewrite bind_store.
    + ksteps. split; [apply take_tail; lia|done].
    + rewrite accessible_set. unfold accessible. rewrite !bool_decide_true by (unfold block_end, HEADER, USER_BASE in *; lia). done.
Qed.
End Take.

(** ** Everything freed *)
Lemma free_in_span lo x l hi : free_in lo (x :: l) hi → HEADER * total (x :: l) ≤ hi - lo - Z.of_nat (length l).
Proof.
  revert lo x. induction l as [|y l IH]; intros lo x (? & ? & ? & Hl).
  - unfold block_end, HEADER in *. cbn [total length]. lia.
  - apply IH in Hl. unfold block_end, HEADER in *. cbn [total length] in *. lia.
Qed.

Lemma free_all_one s fl : heap s fl [] → start < m_brk s → fl = [(start, (m_brk s - start) / HEADER)].
Proof.
  intros [Hb Hk Hr Hs Hp Hal Hap Haa Ht] Hlt. cbn [total] in Ht. destruct fl as [|[p n] [|y l]]; [unfold HEADER in *; simpl in *; lia| |].
  - destruct Hs as (? & ? & ? & _). unfold block_end, HEADER in *. cbn [fst snd total] in *.
    replace (m_brk s - start) with (n * 16) by lia. rewrite Z.div_mul by lia. repeat f_equal. lia.
  - apply free_in_span in Hs. cbn [length] in Hs. lia.
Qed.

Lemma apart_pairs_perm (l l' : blocks) : l ≡ₚ l' → ForallOrdPairs apart l → ForallOrdPairs apart l'.
Proof.
  induction 1 as [|x l l' Hp IH|x y l|l1 l2 l3 _ IH1 _ IH2]; intros Hl.
  - done.
  - inversion Hl; subst. constructor; [by rewrite <- Hp|auto].
  - inversion Hl as [|? ? Hx Hl']; subst. inversion Hl'; subst. inversion Hx; subst.
    constructor; [constructor; [by apply apart_sym|done]|by constructor].
  - auto.
Qed.
Lemma total_perm l l' : l ≡ₚ l' → total l = total l'.
Proof. induction 1; simpl; lia. Qed.
Lemma heap_perm s fl al al' : al ≡ₚ al' → heap s fl al → heap s fl al'.
Proof.
  intros Hp [Hb Hk Hr Hs Hfp Hal Hap Haa Ht]. split; try done.
  - by rewrite <- Hp.
  - intros x y Hx Hy. apply Hap; [done|by rewrite Hp].
  - by eapply apart_pairs_perm.
  - by rewrite <- (total_perm _ _ Hp).
Qed.

(** C20. [free] of a block handed out returns it to the free blocks, touching no
    other block handed out; free blocks that meet become one, so that with
    everything freed a single block spans the memory got from the kernel. *)
Theorem free_spec s fl al1 bp n al2 : heap s fl (al1 ++ (bp, n) :: al2) →
  wp (free (bp + HEADER) s) (λ _ s', ∃ fl', heap s' fl' (al1 ++ al2) ∧ kept (al1 ++ al2) s s' ∧ m_brk s' = m_brk s ∧
    (al1 ++ al2 = [] → fl' = [(start, (m_brk s - start) / HEADER)])).
Proof.
  intros H. eapply heap_perm in H; [|symmetry; apply Permutation_middle].
  pose proof (Forall_inv (hp_al _ _ _ H)) as Ho%al_ok_bounds. unfold HEADER in Ho. simpl in Ho.
  eapply wp_mono; [by apply (free_ok _ fl (al1 ++ al2) bp n)|]. intros _ s' (fl' & H' & Hk & Eb & _).
  exists fl'. split_and?; [done..|]. intros E. rewrite E in H'. rewrite <- Eb. apply free_all_one; [done|lia].
Qed.
Context (grows : Z → Z → bool).

(** ** The search of [malloc] *)
Lemma ring_link s fl al x y : heap s fl al → y ∈ (base, 0) :: fl → x ∈ (base, 0) :: fl → word y.1 s = x.1 → 1 ≤ x.2 →
  ∃ l1 l2, (base, 0) :: fl = l1 ++ y :: x :: l2.
Proof.
  intros H [k Hy]%list_elem_of_lookup [j Hx]%list_elem_of_lookup Hw Hx2.
  destruct (ring_next _ _ _ H _ _ Hy) as [Hn _]. destruct (((base, 0) :: fl) !! S k) as [x'|] eqn:E.
  - assert (j = S k) as -> by (eapply (ring_nodup _ _ _ H _ _ x x'); [done|done|congruence]).
    exists (take k ((base, 0) :: fl)), (drop (S (S k)) ((base, 0) :: fl)).
    rewrite <- (drop_S _ x), <- (drop_S _ y) by done. by rewrite take_drop.
  - assert (j = O) as -> by (eapply (ring_nodup _ _ _ H _ _ x (base, 0)); [done|done|simpl; congruence]).
    injection Hx as <-. simpl in Hx2. lia.
Qed.

(** From [prev] the search takes the first block with the room. *)
Lemma malloc_find s fl al f n l prev fuel :
  heap s fl al → 1 ≤ n → f.1 = m_free_p s → f.1 ∉ l.*1 → links s (prev :: l) f.1 →
  (∀ z, z = prev ∨ z ∈ l ∨ z = f → z ∈ (base, 0) :: fl) → (∃ x, (x ∈ l ∨ x = f) ∧ n ≤ x.2) → (length l ≤ fuel)%nat →
  wp (malloc_loop grows fuel n prev.1 (head_addr l f.1) s) (λ p s', taken s al n p s' ∧ m_brk s' = m_brk s).
Proof.
  intros H Hn Ef. revert prev fuel. induction l as [|z l IH]; intros prev fuel Hnf Hc Hin (x & Hx & Hxn) Hf; simpl head_addr;
    destruct Hc as (Hp & _ & Hc); simpl in Hp.
  - destruct Hx as [[]%elem_of_nil| ->]. assert (Hfr : f ∈ (base, 0) :: fl) by auto.
    destruct (ring_access _ _ _ H _ Hfr) as [_ Af], (proj1 (list_elem_of_lookup _ _) Hfr) as [k Hk].
    destruct (ring_link s fl al f prev H) as (l1 & l2 & E); auto; [lia|].
    destruct fuel; cbn [malloc_loop]; unfold unit_size; rewrite bind_load by done;
      (destruct (ring_next _ _ _ H _ _ Hk) as [_ ->]; rewrite bool_decide_true by done; by eapply take_block_ok).
  - assert (Hzr : z ∈ (base, 0) :: fl) by (apply Hin; right; left; by left).
    destruct (ring_access _ _ _ H _ Hzr) as [Az Az8]. pose proof Hc as (Hzn & Hz8 & _).
    destruct (decide (n ≤ z.2)) as [Hfit|Hno].
    + destruct (ring_link s fl al z prev H) as (l1 & l2 & E); auto; [lia|].
      destruct fuel; cbn [malloc_loop]; unfold unit_size; rewrite bind_load by done;
        (rewrite Hz8, bool_decide_true by done; by eapply take_block_ok).
    + rewrite fmap_cons, not_elem_of_cons in Hnf. destruct Hnf as [Hne Hnf]. destruct fuel as [|fuel]; simpl in Hf; [lia|].
      cbn [malloc_loop]. unfold unit_size. rewrite bind_load by done. rewrite Hz8, bool_decide_false by done.
      rewrite bind_gets, <- Ef, bool_decide_false by done. unfold ptr. rewrite bind_load, Hzn by done.
      apply IH; [done|done| | |lia].
      * intros w [->|[Hw|Hw]]; [done|apply Hin; right; left; by right|apply Hin; by do 2 right].
      * exists x. split; [|done]. destruct Hx as [[->|Hx]%elem_of_cons|Hx]; [lia|by left|by right].
Qed.

(** When no block has the room, it comes back to [free_p] and asks for more. *)
Lemma malloc_miss s fl al f n l prev fuel Q :
  heap s fl al → f.1 = m_free_p s → f.1 ∉ l.*1 → links s (prev :: l) f.1 →
  (∀ z, z ∈ l ∨ z = f → z ∈ (base, 0) :: fl ∧ z.2 < n) →
  wp ((let! p := more_core grows n in
       if bool_decide (p = 0) then ret 0 else
       let! q := ptr p in malloc_loop grows fuel n p q) s) Q →
  wp (malloc_loop grows (length l + S fuel) n prev.1 (head_addr l f.1) s) Q.
Proof.
  intros H Ef. revert prev. induction l as [|z l IH]; intros prev Hnf Hc Hin HQ; simpl head_addr; destruct Hc as (Hp & _ & Hc).
  - destruct (Hin f) as [Hfr Hfn]; [by right|].
    destruct (ring_access _ _ _ H _ Hfr) as [_ Af], (proj1 (list_elem_of_lookup _ _) Hfr) as [k Hk].
    cbn [malloc_loop length plus]. unfold unit_size. rewrite bind_load by done. destruct (ring_next _ _ _ H _ _ Hk) as [_ ->].
    rewrite bool_decide_false by lia. rewrite bind_gets, <- Ef, bool_decide_true by done. exact HQ.
  - destruct (Hin z) as [Hzr Hzn]; [left; by left|].
    destruct (ring_access _ _ _ H _ Hzr) as [Az Az8]. pose proof Hc as (Hzw & Hz8 & _).
    rewrite fmap_cons, not_elem_of_cons in Hnf. destruct Hnf as [Hne Hnf].
    cbn [malloc_loop length plus]. unfold unit_size. rewrite bind_load, Hz8, bool_decide_false by (done || lia).
    rewrite bind_gets, <- Ef, bool_decide_false by done. unfold ptr. rewrite bind_load, Hzw by done.
    apply IH; [done|done| |done]. intros w [Hw|Hw]; apply Hin; [left; by right|by right].
Qed.

Lemma ring_path s fl al : heap s fl al → ∃ f l, f.1 = m_free_p s ∧ f.1 ∉ l.*1 ∧ links s (f :: l) f.1 ∧
  (∀ z, z ∈ (base, 0) :: fl ↔ z = f ∨ z ∈ l) ∧ length l = length fl ∧ word f.1 s = head_addr l f.1 ∧ accessible f.1 s = true.
Proof.
  intros H. destruct (ring_from _ _ _ H) as (f & l1 & l2 & E & Ef & Hc). exists f, (l2 ++ l1).
  assert (Hf : ((base, 0) :: fl) !! length l1 = Some f) by (by rewrite E, list_lookup_middle).
  split_and?; [done| |done| | |by destruct Hc|].
  - intros (z & Ez & Hz)%list_elem_of_fmap. apply elem_of_app in Hz as [[j Hj]%list_elem_of_lookup|[j Hj]%list_elem_of_lookup].
    + assert (Hz : ((base, 0) :: fl) !! (length l1 + S j)%nat = Some z).
      { rewrite E, lookup_app_r by lia. by replace (length l1 + S j - length l1)%nat with (S j) by lia. }
      pose proof (ring_nodup _ _ _ H _ _ _ _ Hf Hz Ez). lia.
    + pose proof (lookup_lt_Some _ _ _ Hj). assert (Hz : ((base, 0) :: fl) !! j = Some z) by (by rewrite E, lookup_app_l).
      pose proof (ring_nodup _ _ _ H _ _ _ _ Hf Hz Ez). lia.
  - intros z. rewrite E, !elem_of_app, elem_of_cons. tauto.
  - apply (f_equal length) in E. rewrite length_app in *. simpl in E. lia.
  - apply (ring_access _ _ _ H). by eapply list_elem_of_lookup_2.
Qed.

Lemma malloc_find_from s fl al n fuel : heap s fl al → 1 ≤ n → (∃ x, x ∈ fl ∧ n ≤ x.2) → (length fl ≤ fuel)%nat →
  wp (malloc_loop grows fuel n (m_free_p s) (word (m_free_p s) s) s) (λ p s', taken s al n p s' ∧ m_brk s' = m_brk s).
Proof.
  intros H Hn (x & Hx & Hxn) Hf. destruct (ring_path _ _ _ H) as (f & l & Ef & Hnf & Hc & Hin & Hl & Hw & _).
  rewrite <- Ef, Hw. eapply malloc_find; try done; [|exists x; split; [|done]|lia].
  - intros z Hz. apply Hin. tauto.
  - assert (Hxr : x ∈ (base, 0) :: fl) by by right. apply Hin in Hxr. tauto.
Qed.

(** ** More memory from the kernel *)
Lemma heap_grow s fl al nu (s' := set_m_mem <[m_brk s + 8 := nu]> (set_m_brk (m_brk s + HEADER * nu) s)) :
  heap s fl al → 1 ≤ nu → m_brk s + HEADER * nu < USER_TOP → heap s' fl ((m_brk s, nu) :: al) ∧ kept al s s'.
Proof.
  intros H Hnu Htop. pose proof H as [Hb Hk Hr Hs Hp Hal Hap Haa Ht].
  assert (Hw : ∀ a, a ≠ m_brk s + 8 → word a s' = word a s).
  { intros a Ha. unfold s'. rewrite word_set, decide_False by done. done. }
  assert (Hkept : kept al s s').
  { intros y a Hy Ha. rewrite Forall_forall in Hal. pose proof (al_ok_bounds _ _ (Hal y Hy)). apply Hw. lia. }
  assert (Hrb : ∀ z, z ∈ (base, 0) :: fl → z.1 + HEADER ≤ m_brk s ∧ block_end z ≤ m_brk s) by (intros z Hz; destruct (ring_bounds _ _ _ H _ Hz); lia).
  assert (Ek : m_brk s' = m_brk s + HEADER * nu) by done.
  split; [|done]. unfold HEADER in *. split; rewrite ?Ek; try done.
  - lia.
  - eapply links_ext; [|exact Hr]. intros z Hz. destruct (Hrb z Hz). split; apply Hw; lia.
  - eapply free_in_le; [exact Hs|lia..].
  - constructor; [|eapply al_ok_kept; [done|lia|done]]. unfold al_ok, block_end, HEADER. simpl fst. simpl snd.
    unfold s'. rewrite word_set, decide_True by done. split_and?; simpl; lia.
  - intros z y Hz [->|Hy]%elem_of_cons; [|by apply Hap]. left. simpl. apply Hrb. by right.
  - constructor; [|done]. apply Forall_forall. intros y Hy. right. rewrite Forall_forall in Hal. by apply (al_ok_bounds _ _ (Hal y Hy)).
  - cbn [total snd]. unfold HEADER. lia.
Qed.

Definition refused (s : mstate) (n : Z) : Prop := grows (m_brk s) n = false ∨ USER_TOP ≤ m_brk s + n.

Lemma more_core_ok s fl al n : heap s fl al → 1 ≤ n → HEADER * n < 2 ^ 31 → let nu := Z.max n 4096 in
  wp (more_core grows n s) (λ p s', p = 0 ∧ s' = s ∧ refused s (HEADER * nu) ∨
    p = m_free_p s' ∧ m_brk s' = m_brk s + HEADER * nu ∧
    ∃ fl', heap s' fl' al ∧ kept al s s' ∧ (length fl' ≤ S (length fl))%nat ∧ ∃ x, x ∈ fl' ∧ n ≤ x.2).
Proof.
  intros H Hn Hsmall nu. destruct (hp_base _ _ _ H) as [Hb1 Hb2], (hp_brk _ _ _ H) as [Hk1 Hk2]. unfold more_core.
  replace (if bool_decide (n < 4096) then 4096 else n) with nu by (unfold nu; case_bool_decide; lia).
  assert (1 ≤ nu ∧ HEADER * nu < 2 ^ 31) as [Hnu1 Hnu2] by (unfold nu, HEADER in *; lia).
  assert (s32 (u64 (nu * HEADER)) = HEADER * nu) as ->.
  { rewrite u64_small by (unfold HEADER in *; lia). unfold s32. rewrite sgn_small by (unfold HEADER in *; lia). lia. }
  apply wp_bind. unfold sbrk. rewrite bind_gets, bool_decide_false by (unfold HEADER; lia).
  destruct (grows (m_brk s) (HEADER * nu)) eqn:Eg; [case_bool_decide as Et|]; cbn [andb];
    [|apply wp_ret; simpl; left; split_and?; [done..|right; lia]|apply wp_ret; simpl; left; split_and?; [done..|by left]].
  ksteps. rewrite bool_decide_false by (unfold USER_BASE, HEADER in *; lia).
  destruct (heap_grow s fl al nu H Hnu1 Et) as [Hg Hkg].
  unfold set_unit_size. rewrite bind_store by (unfold accessible; simpl; rewrite !bool_decide_true by (unfold USER_BASE, HEADER in *; lia); done).
  apply wp_bind. eapply wp_mono; [by apply (free_ok _ fl al (m_brk s) nu)|]. intros _ s' (fl' & Hh & Hk & Eb & Hlen & x & Hx & Hxn).
  ksteps. right. split_and?; [done|done|]. exists fl'. split_and?; [done|by eapply kept_trans|done|exists x; split; [done|lia]].
Qed.

(** ** [malloc] *)

(** Either no call of [malloc] was made yet, or the heap is as it says. *)
Definition ready (s : mstate) (fl al : blocks) : Prop :=
  heap s fl al ∨
  m_free_p s = 0 ∧ fl = [] ∧ al = [] ∧ m_brk s = start ∧ USER_BASE ≤ base ∧ base + HEADER ≤ start < USER_TOP.

Lemma heap_init s (s' := set_m_mem <[base + 8 := 0]> (set_m_mem <[base := base]> (set_m_free_p base s))) :
  m_brk s = start → USER_BASE ≤ base → base + HEADER ≤ start < USER_TOP → heap s' [] [].
Proof.
  intros Hk Hb Ht. unfold s'. split; try done; rewrite ?Forall_nil; simpl m_brk; try done; unfold HEADER in *.
  - lia.
  - lia.
  - apply links_cons; [..|done]; simpl; rewrite !word_set; [rewrite decide_False by lia; by rewrite decide_True|by rewrite decide_True].
  - by left.
  - by intros ? ? ?%elem_of_nil.
  - constructor.
  - unfold HEADER. simpl. lia.
Qed.

Definition units (nbytes : Z) : Z := (nbytes + 15) / HEADER + 1.

(** A block for [nbytes], apart from the others, or 0 when the kernel refuses
    the memory and no free block has the room; nothing handed out changes. *)
Definition malloc_post (s : mstate) (fl al : blocks) (nbytes p : Z) (s' : mstate) : Prop :=
  taken s al (units nbytes) p s' ∨
  p = 0 ∧ (∃ fl', heap s' fl' al) ∧ kept al s s' ∧ m_brk s' = m_brk s ∧
  (∀ x, x ∈ fl → x.2 < units nbytes) ∧ refused s (HEADER * Z.max (units nbytes) 4096).

Lemma malloc_heap s fl al n : heap s fl al → 1 ≤ n → HEADER * n < 2 ^ 31 →
  wp ((let! f := gets m_free_p in
       let! p := ptr f in
       let! fuel := gets ring_fuel in
       malloc_loop grows (fuel + S (S fuel)) n f p) s)
     (λ p s', taken s al n p s' ∨
        p = 0 ∧ (∃ fl', heap s' fl' al) ∧ kept al s s' ∧ m_brk s' = m_brk s ∧
        (∀ x, x ∈ fl → x.2 < n) ∧ refused s (HEADER * Z.max n 4096)).
Proof.
  intros H Hn Hs. destruct (ring_path _ _ _ H) as (f & l & Ef & Hnf & Hc & Hin & Hl & Hw & Ha).
  pose proof (ring_length _ _ _ H) as Hlen. simpl in Hlen.
  rewrite bind_gets, <- Ef. unfold ptr at 1. rewrite bind_load by done. rewrite bind_gets.
  destruct (decide (Exists (λ x, n ≤ x.2) fl)) as [Hex|Hno].
  - rewrite Ef. eapply wp_mono; [eapply malloc_find_from; [exact H|done| |lia]|intros p s' [? _]; by left].
    apply Exists_exists in Hex as (x & ? & ?). by exists x.
  - assert (Hall : ∀ x, x ∈ fl → x.2 < n).
    { intros x Hx. destruct (decide (x.2 < n)); [done|]. destruct Hno. apply Exists_exists. exists x. split; [done|lia]. }
    rewrite Hw. replace (ring_fuel s + S (S (ring_fuel s)))%nat with (length l + S (ring_fuel s + S (ring_fuel s) - length l))%nat by lia.
    apply (malloc_miss s fl al f n l f); [done|done|done|done| |].
    { intros z Hz. assert (Hzr : z ∈ (base, 0) :: fl) by (apply Hin; tauto). split; [done|].
      apply elem_of_cons in Hzr as [->|Hzf]; [simpl; lia|by apply Hall]. }
    apply wp_bind. eapply wp_mono; [by apply (more_core_ok s fl al n)|]. cbv beta.
    intros p s' [(-> & -> & Hr)|(-> & Eb & fl' & H' & Hk & Hlen' & Hx)].
    + rewrite bool_decide_true by done. right. split_and?; eauto using kept_refl.
    + destruct (ring_path _ _ _ H') as (f' & l' & Ef' & _ & _ & Hin' & _ & _ & Ha').
      assert (m_free_p s' ≠ 0).
      { destruct (ring_bounds _ _ _ H' f') as [? _]; [apply Hin'; by left|]. unfold USER_BASE in *. lia. }
      rewrite bool_decide_false by done. unfold ptr. rewrite Ef' in Ha'. rewrite bind_load by done.
      eapply wp_mono; [eapply malloc_find_from; [exact H'|done|done|lia]|].
      intros p s2 [(q & fl2 & -> & H2 & Hk2) _]. left. exists q, fl2. split_and?; [done|done|by eapply kept_trans].
Qed.

Lemma malloc_ok s fl al nbytes : ready s fl al → 0 ≤ nbytes < 2 ^ 31 - 32 →
  wp (malloc base grows nbytes s) (malloc_post s fl al nbytes).
Proof.
  intros Hr Hn. unfold malloc. rewrite (u64_small (nbytes + HEADER - 1)) by (unfold HEADER; lia).
  replace (nbytes + HEADER - 1) with (nbytes + 15) by (unfold HEADER; lia). fold (units nbytes).
  assert (1 ≤ units nbytes ∧ HEADER * units nbytes < 2 ^ 31) as [Hu1 Hu2].
  { unfold units, HEADER. pose proof (Z.div_mod (nbytes + 15) 16). pose proof (Z.mod_pos_bound (nbytes + 15) 16). lia. }
  rewrite u64_small by (unfold HEADER in *; lia). rewrite bind_gets.
  destruct Hr as [H|(Ef & -> & -> & Ek & Hb & Hs)].
  - destruct (ring_path _ _ _ H) as (f & l & Ef & _ & _ & Hin & _).
    destruct (ring_bounds _ _ _ H f) as [? _]; [apply Hin; by left|]. rewrite bool_decide_false by (unfold USER_BASE in *; lia).
    rewrite bind_ret_l. by apply malloc_heap.
  - rewrite Ef, bool_decide_true by done. apply wp_bind. rewrite bind_modify. unfold set_ptr, set_unit_size.
    assert (HA : ∀ s', m_brk s' = m_brk s → accessible base s' = true ∧ accessible (base + 8) s' = true).
    { intros s' E. unfold accessible. rewrite E, !bool_decide_true by (unfold HEADER in *; lia). done. }
    rewrite bind_store by (by apply HA). unfold store at 1. rewrite !accessible_set, (proj2 (HA (set_m_free_p base s) eq_refl)). apply (wp_ret tt).
    eapply wp_mono; [apply (malloc_heap _ [] [] (units nbytes)); [by apply heap_init|done|done]|].
    intros p s' [(q & fl' & -> & H' & _)|(-> & H' & _ & Eb & _ & Hr)]; [left|right].
    + exists q, fl'. split_and?; [done|done|]. intros ? ? ?%elem_of_nil. done.
    + split_and?; [done|done|intros ? ? ?%elem_of_nil; done|exact Eb|by intros ? ?%elem_of_nil|exact Hr].
Qed.

(** C19. For a request of at most 2 GB (less 32 bytes) [malloc] returns; the
    block it gives has room for the bytes, is apart from every block handed
    out and every free one, and nothing handed out changes.  It gives 0 only
    when no free block has the room and the kernel refuses more memory. *)
Theorem malloc_spec s fl al nbytes : ready s fl al → 0 ≤ nbytes < 2 ^ 31 - 32 →
  wp (malloc base grows nbytes s) (λ p s', malloc_post s fl al nbytes p s' ∧ nbytes ≤ HEADER * (units nbytes - 1)).
Proof.
  intros H Hn. eapply wp_mono; [by apply (malloc_ok _ fl al)|]. intros p s' Hp. split; [done|].
  unfold units, HEADER. pose proof (Z.div_mod (nbytes + 15) 16). pose proof (Z.mod_pos_bound (nbytes + 15) 16). lia.
Qed.

End Spec.

(** ** Instances *)

(** A program whose static [base] is at 0x2000 and whose memory ends at 0x3000. *)
Definition fresh_heap : mstate := mk_mstate ∅ 0 0x3000.
Lemma malloc_spec_witness :
  wp (malloc 0x2000 (λ _ _, true) 100 fresh_heap)
     (λ p s', malloc_post 0x2000 0x3000 (λ _ _, true) fresh_heap [] [] 100 p s' ∧ 100 ≤ HEADER * (units 100 - 1)).
Proof. apply malloc_spec; [right; repeat split; done|split; [done|reflexivity]]. Defined.

(** Two blocks of memory, the upper one handed out. *)
Definition half_heap : mstate :=
  mk_mstate {[ 0x2000 := 0x3000; 0x2008 := 0; 0x3000 := 0x2000; 0x3008 := 2; 0x3028 := 2 ]} 0x2000 0x3040.
Lemma half_heap_ok : heap 0x2000 0x3000 half_heap [(0x3000, 2)] ([] ++ (0x3020, 2) :: []).
Proof.
  split; try done.
  - by left.
  - by repeat constructor.
  - intros x y ->%list_elem_of_singleton ->%list_elem_of_singleton. by left.
  - repeat constructor.
Qed.
Lemma free_spec_witness :
  wp (free (0x3020 + HEADER) half_heap) (λ _ s', ∃ fl', heap 0x2000 0x3000 s' fl' (([] : blocks) ++ []) ∧ kept (([] : blocks) ++ []) half_heap s' ∧
    m_brk s' = m_brk half_heap ∧ (([] : blocks) ++ [] = [] → fl' = [(0x3000, (m_brk half_heap - 0x3000) / HEADER)])).
Proof. apply (free_spec 0x2000 0x3000 half_heap [(0x3000, 2)] [] 0x3020 2 []). apply half_heap_ok. Defined.

(** [sbrk] takes an [int]: past 2 GB the size asked of the kernel is not the one
    needed.  Of 4 GB, 16 bytes come, and [malloc] hands them out as the block. *)
Lemma malloc_past_int : ∃ s', malloc 0x2000 (λ _ _, true) (2 ^ 32) fresh_heap = Done 0x3010 s' ∧ m_brk s' = 0x3010.
Proof. eexists. split; vm_compute; reflexivity. Qed.
