(* ===== verification/Programs.v ===== *)
(** * The user programs (user/cat.c, echo.c, mkdir.c, rm.c, ls.c, init.c, sh.c)

    The arguments of [main] are the strings of [argv], without their
    terminators; [argc] is their number.  The self test of [malloc] at the start
    of sh's [main] is left out. *)
From S2P Require Import Prelude State CString Inode Dir Usys Console Ulib Nsh NshRun.

Notation str s := (AStr (Some s)) (only parsing).

(** ** cat *)
(** [while((n = read(fd, buf, sizeof(buf))) > 0) write(1, buf, n);] *)
Definition cat_turn (fd : Z) (buf : list byte) : prog (list byte + unit) :=
  do r <- call (SRead fd 512);
  let n := s32 (fst r) in
  if bool_decide (n ≤ 0) then Ret (inr tt) else
  let buf := splice 0 (snd r) buf in
  do _ <- call (SWrite 1 (take (Z.to_nat n) buf));
  Ret (inl buf).
Definition cat_copy (fd : Z) : prog unit := ITree.iter (cat_turn fd) (replicate 512 x00).

Definition cat_main (argv : list (list byte)) : prog void :=
  match argv with
  | _ :: path :: _ =>
    do fd <- call (SOpen path 0);
    if bool_decide (s32 fd < 0) then
      do! printf 1 (Some (lit ("cat: cannot open %s" ++ lf))) [str path]; exit_
    else
    do! cat_copy (s32 fd);
    do _ <- call (SClose (s32 fd));
    exit_
  | _ => do! cat_copy 0; exit_
  end.

(** ** echo *)
Fixpoint echo_loop (args : list (list byte)) : prog unit :=
  match args with
  | [] => Ret tt
  | a :: args =>
    do! printf 1 (Some (lit "%s%s")) [str a; str (chars (match args with [] => lf | _ => " " end))];
    echo_loop args
  end.
Definition echo_main (argv : list (list byte)) : prog void := do! echo_loop (drop 1 argv); exit_.

(** ** mkdir and rm *)
Fixpoint mkdir_loop (args : list (list byte)) : prog unit :=
  match args with
  | [] => Ret tt
  | a :: args =>
    do r <- call (SMkdir a);
    if bool_decide (r < 0) then printf 2 (Some (lit ("mkdir: %s failed to create" ++ lf))) [str a]
    else mkdir_loop args
  end.
Definition mkdir_main (argv : list (list byte)) : prog void :=
  if bool_decide (length argv < 2)%nat then do! printf 2 (Some (lit ("Usage: mkdir files..." ++ lf))) []; exit_ else
  do! mkdir_loop (drop 1 argv); exit_.

Fixpoint rm_loop (args : list (list byte)) : prog unit :=
  match args with
  | [] => Ret tt
  | a :: args =>
    do r <- call (SUnlink a);
    if bool_decide (r < 0) then printf 2 (Some (lit ("rm: %s failed to delete" ++ lf))) [str a]
    else rm_loop args
  end.
Definition rm_main (argv : list (list byte)) : prog void :=
  if bool_decide (length argv < 2)%nat then do! printf 2 (Some (lit ("usage: rm files..." ++ lf))) []; exit_ else
  do! rm_loop (drop 1 argv); exit_.

(** ** ls *)
(** The index behind the last slash at or before [p]. *)
Fixpoint after_slash (path : list byte) (p : nat) : nat :=
  if decide (path !! p = Some slash) then S p else
  match p with O => O | S p => after_slash path p end.

(** The last component, filled up with blanks in the array [buf] of 25 bytes,
    whose last byte stays 0. *)
Definition fmt_name (path : list byte) : option (list byte) :=
  let p := drop (after_slash path (length path)) path in
  if bool_decide (DIRSIZ ≤ length p)%nat then Some p else
  buf ← Ulib.memcpy (replicate (DIRSIZ + 1) x00) p (length p);
  rest ← Ulib.memset (drop (length p) buf) 32 (DIRSIZ - length p);
  Some (cstr (take (length p) buf ++ rest)).

Definition ls_line (path : list byte) (st : ustat) : prog unit :=
  match fmt_name path with
  | None => fault
  | Some name => printf 1 (Some (lit ("%s %d %d %d" ++ lf))) [str name; AInt (us_type st); AInt (s32 (us_ino st)); AInt (s32 (us_size st))]
  end.

(** One entry of the directory open at [fd]: go on, or the end. *)
Definition ls_entry (path : list byte) (fd : Z) : prog (unit + unit) :=
  do r <- call (SRead fd DIRENT_SIZE);
  if bool_decide (fst r ≠ DIRENT_SIZE) then Ret (inr tt) else
  let de := snd r in
  if bool_decide (de_inum de = 0) then Ret (inl tt) else
  let buf := cstr (path ++ [slash] ++ de_name de ++ [x00]) in
  do r <- Ulib.stat buf;
  match r with
  | (k, Some st) =>
    if bool_decide (k < 0) then do! printf 1 (Some (lit ("ls: cannot stat %s" ++ lf))) [str buf]; Ret (inl tt) else
    do! ls_line buf st; Ret (inl tt)
  | (_, None) => do! printf 1 (Some (lit ("ls: cannot stat %s" ++ lf))) [str buf]; Ret (inl tt)
  end.

Definition ls (path : list byte) : prog unit :=
  do fd <- call (SOpen path 0);
  let fd := s32 fd in
  do! (if bool_decide (fd < 0) then printf 2 (Some (lit ("ls: cannot open %s" ++ lf))) [str path] else Ret tt);
  do r <- call (SFstat fd);
  let '(k, st) := r in
  if bool_decide (k < 0) then
    do! printf 2 (Some (lit ("ls: cannot stat %s" ++ lf))) [str path];
    do _ <- call (SClose fd);
    Ret tt
  else
  do! (if bool_decide (us_type st = T_FILE) then ls_line path st else
       if bool_decide (us_type st = T_DIR) then
         if bool_decide (512 < length path + 1 + DIRSIZ + 1)%nat then printf 1 (Some (lit ("ls: path too long" ++ lf))) []
         else ITree.iter (λ _, ls_entry path fd) tt
       else Ret tt);
  do _ <- call (SClose fd);
  Ret tt.

Fixpoint ls_loop (args : list (list byte)) : prog unit :=
  match args with [] => Ret tt | a :: args => do! ls a; ls_loop args end.
Definition ls_main (argv : list (list byte)) : prog void :=
  if bool_decide (length argv < 2)%nat then do! ls (chars "."); exit_ else
  do! ls_loop (drop 1 argv); exit_.

(** ** init *)
Definition reap (pid : Z) : prog unit :=
  ITree.iter (λ _ : unit,
    do w <- call SWait;
    let wpid := s32 w in
    if bool_decide (0 ≤ wpid) && bool_decide (wpid ≠ pid) then
      do! printf 1 (Some (lit ("zombie!" ++ lf))) []; Ret (inl tt)
    else Ret (inr tt)) tt.

Definition init_turn : prog unit :=
  do! printf 1 (Some (lit ("init: starting sh" ++ lf))) [];
  do r <- call SFork;
  let pid := s32 r in
  if bool_decide (pid < 0) then do! printf 1 (Some (lit ("init: fork failed" ++ lf))) []; exit_ else
  if bool_decide (pid = 0) then
    do _ <- call (SExec (chars "/nsh") [chars "sh"]);
    do! printf 1 (Some (lit ("init: exec sh failed" ++ lf))) [];
    exit_
  else reap pid.

Definition init_main : prog void :=
  do fd <- call (SOpen (chars "/console") O_RDWR);
  do! (if bool_decide (fd < 0) then
         do _ <- call (SMknod (chars "/console") 1 1);
         do _ <- call (SOpen (chars "/console") O_RDWR);
         Ret tt
       else Ret tt);
  do _ <- call (SDup 0);
  do _ <- call (SDup 0);
  ITree.iter (λ _ : unit, do! init_turn; Ret (inl tt)) tt.

(** ** sh *)
Definition SH_MAXARGS : nat := 16.
Definition sh_blank (c : byte) : bool := bool_decide (c = SP) || bool_decide (c = x09) || bool_decide (c = LF).

(** The pointer [s] into the line is behind the bytes of [done]. *)
Fixpoint sh_skip (done rest : list byte) : list byte * list byte :=
  match rest with
  | c :: r => if sh_blank c then sh_skip (done ++ [x00]) r else (done, rest)
  | [] => (done, [])
  end.
Fixpoint sh_word (done rest : list byte) : list byte * list byte :=
  match rest with
  | c :: r => if bool_decide (c ≠ x00) && negb (sh_blank c) then sh_word (done ++ [c]) r else (done, rest)
  | [] => (done, [])
  end.
Fixpoint parsecmd_loop (fuel : nat) (done rest : list byte) (argv : list nat) : option (list byte * list nat) :=
  match rest with
  | [] => None
  | c :: _ =>
    if bool_decide (c = x00) then Some (done ++ rest, argv) else
    let '(done, rest) := sh_skip done rest in
    match rest, fuel with
    | [], _ | _, O => None
    | c :: _, S fuel' =>
      if bool_decide (c = x00) then Some (done ++ rest, argv) else
      if bool_decide (SH_MAXARGS - 1 ≤ length argv)%nat then Some (done ++ rest, argv) else
      let argv := argv ++ [length done] in
      let '(done, rest) := sh_word done rest in
      parsecmd_loop fuel' done rest argv
    end
  end.
(** The line with its words cut out, and where they start. *)
Definition parsecmd (s : list byte) : option (list byte * list nat) := parsecmd_loop (length s) [] s [].

(** One turn of the command loop. *)
Definition sh_turn (buf : list byte) : prog (list byte) :=
  do _ <- call (SWrite 1 (chars "$ "));
  do r <- call (SRead 0 (Z.of_nat (length buf) - 1));
  let n := s32 (fst r) in
  if bool_decide (n ≤ 0) then exit_ else
  let buf := <[Z.to_nat n := x00]> (splice 0 (snd r) buf) in
  match parsecmd buf with
  | None => fault
  | Some (buf, argv) =>
    if bool_decide (argv = []) then Ret buf else
    do r <- call SFork;
    let pid := s32 r in
    if bool_decide (pid < 0) then do! printf 1 (Some (lit ("fork failed" ++ lf))) []; Ret buf else
    if bool_decide (pid = 0) then
      let args := (λ p, cstr (drop p buf)) <$> argv in
      let path := default [] (head args) in
      do _ <- call (SExec path args);
      do! printf 1 (Some (lit ("exec failed: %s" ++ lf))) [str path];
      exit_
    else
    do _ <- call SWait;
    Ret buf
  end.
Definition sh_main : prog void := ITree.iter (λ buf, do buf <- sh_turn buf; Ret (inl buf)) (replicate 128 x00).
