(* ===== verification/ProgramsSpec.v ===== *)
(** * What the user programs do

    [cat] copies its input whatever the sizes of the pieces it is read in,
    [echo] writes its arguments, and sh cuts a line into its words. *)
From S2P Require Import Prelude State CString Inode Dir Usys Console ConsoleSpec Ulib UlibSpec Nsh NshRun Programs.

(** ** cat *)

(** What is left of a program whose reads, writes and opens are served: its end,
    with what it wrote, and the calls of other kinds. *)
Inductive endE : Type → Type :=
| Ended (out : list byte) : endE void
| Other {R} (e : sysE R) : endE R.

(** Input arrives in pieces at descriptor [src], which is also what [open]
    answers; output at descriptor 1 is collected. *)
Definition tape (src : Z) : sysE ~> Monads.stateT (list (list byte) * list byte) (itree endE) := λ _ e s,
  match e in sysE R return itree endE ((list (list byte) * list byte) * R) with
  | SRead fd n =>
    if decide (fd = src) then
      match fst s with
      | c :: cs => Ret ((cs, snd s), (Z.of_nat (length c), c))
      | [] => Ret (s, (0, []))
      end
    else ITree.bind (ITree.trigger (Other (SRead fd n))) (λ r, Ret (s, r))
  | SWrite fd bs =>
    if decide (fd = 1) then Ret ((fst s, snd s ++ bs), Z.of_nat (length bs))
    else ITree.bind (ITree.trigger (Other (SWrite fd bs))) (λ r, Ret (s, r))
  | SOpen _ _ => Ret (s, src)
  | SClose _ => Ret (s, 0)
  | SExit => ITree.bind (ITree.trigger (Ended (snd s))) (λ v, match (v : void) with end)
  | e => ITree.bind (ITree.trigger (Other e)) (λ r, Ret (s, r))
  end.

Lemma tape_call src {R R'} (e : sysE R) (k : R → prog R') s :
  interp_state (tape src) (ITree.bind (call e) k) s ≈ ITree.bind (tape src _ e s) (λ p, interp_state (tape src) (k p.2) p.1).
Proof. unfold call. rewrite interp_state_bind, interp_state_trigger. reflexivity. Qed.

Lemma splice_take {A} (l buf : list A) : (length l ≤ length buf)%nat →
  take (length l) (splice 0 l buf) = l ∧ length (splice 0 l buf) = length buf.
Proof.
  intros Hl. unfold splice. simpl. rewrite take_app_length, length_app, length_drop. split; [done|]. lia.
Qed.

Lemma cat_copy_run src cs : 0 ≤ src → Forall (λ c, (0 < length c ≤ 512)%nat) cs → ∀ buf out, length buf = 512%nat →
  interp_state (tape src) (ITree.iter (cat_turn src) buf) (cs, out) ≈ Ret (([], out ++ concat cs), tt).
Proof.
  intros Hsrc. induction 1 as [|c cs Hc _ IH]; intros buf out Hb.
  all: rewrite unfold_iter; unfold cat_turn at 1; rewrite bind_bind, tape_call; unfold tape at 1;
    rewrite decide_True by done; cbn [fst snd]; rewrite bind_ret_l; cbn [fst snd].
  - rewrite bool_decide_true by done. rewrite bind_ret_l, interp_state_ret, app_nil_r. reflexivity.
  - assert (s32 (Z.of_nat (length c)) = Z.of_nat (length c)) as -> by (apply sgn_small; lia).
    rewrite bool_decide_false by lia. rewrite Nat2Z.id. destruct (splice_take c buf) as [-> Hl]; [lia|].
    rewrite bind_bind, tape_call. unfold tape at 1. rewrite decide_True by done. cbn [fst snd]. rewrite !bind_ret_l. cbn [fst snd].
    rewrite tau_eutt. rewrite IH by lia. cbn [concat]. rewrite <- app_assoc. reflexivity.
Qed.

(** C28. [cat] writes exactly the bytes of its input, in order, whatever pieces of
    1 to 512 bytes they come in, and then ends: the input is descriptor 0
    without an argument, and the file opened with one. *)
Theorem cat_copies src argv cs : 0 ≤ src < 2 ^ 31 → ((length argv < 2)%nat → src = 0) →
  Forall (λ c, (0 < length c ≤ 512)%nat) cs →
  interp_state (tape src) (cat_main argv) (cs, []) ≈
  ITree.bind (ITree.trigger (Ended (concat cs))) (λ v, match (v : void) with end).
Proof.
  intros Hsrc Hstd Hcs.
  assert (Hend : ∀ s, interp_state (tape src) (@exit_ void) s ≈ ITree.bind (ITree.trigger (Ended (snd s))) (λ v, match (v : void) with end)).
  { intros s. unfold exit_. rewrite tape_call. unfold tape at 1. rewrite bind_bind. apply eutt_eq_bind. intros []. }
  unfold cat_main, cat_copy. destruct argv as [|p [|path rest]].
  1,2: rewrite interp_state_bind; rewrite <- (Hstd ltac:(simpl; lia)); rewrite cat_copy_run by (done || lia); rewrite bind_ret_l; apply Hend.
  rewrite tape_call. unfold tape at 1. rewrite bind_ret_l. cbn [fst snd].
  assert (s32 src = src) as -> by (apply sgn_small; lia). rewrite bool_decide_false by lia.
  rewrite interp_state_bind, cat_copy_run by (done || lia). rewrite bind_ret_l. cbn [fst snd].
  rewrite tape_call. unfold tape at 1. rewrite bind_ret_l. apply Hend.
Qed.

Lemma cat_copies_witness :
  interp_state (tape 3) (cat_main [chars "cat"; chars "notes"]) ([chars "one "; chars "line"], []) ≈
  ITree.bind (ITree.trigger (Ended (chars "one line"))) (λ v, match (v : void) with end).
Proof.
  apply (cat_copies 3 [chars "cat"; chars "notes"] [chars "one "; chars "line"]); [lia|intros H; simpl in H; lia|].
  repeat constructor; simpl; lia.
Defined.

(** ** echo *)
Fixpoint echo_text (args : list (list byte)) : list byte :=
  match args with [] => [] | a :: args => a ++ match args with [] => [LF] | _ => [SP] end ++ echo_text args end.

Lemma echo_loop_text args : echo_loop args ≅ put_chars 1 (echo_text args).
Proof.
  induction args as [|a args IH]; [reflexivity|]. cbn [echo_loop echo_text]. rewrite app_assoc.
  apply (writes_seq 1 _ _ (a ++ match args with [] => [LF] | _ => [SP] end)); [|exact IH].
  unfold printf, lit. apply printf_loop_text; [apply (bool_decide_unpack _); vm_compute; exact I|].
  destruct args; reflexivity.
Qed.

(** [echo] writes its arguments separated by blanks, and a line end behind
    the last. *)
Theorem echo_writes_arguments prog args :
  echo_main (prog :: args) ≅ (do! put_chars 1 (echo_text args); exit_).
Proof. unfold echo_main. cbn [drop]. apply eqit_bind; [apply echo_loop_text|]. intros []. reflexivity. Qed.

(** ** sh: the words of a line *)
Fixpoint take_word (l : list byte) : list byte * list byte :=
  match l with
  | c :: r => if sh_blank c then ([], l) else let '(w, r) := take_word r in (c :: w, r)
  | [] => ([], [])
  end.
Fixpoint drop_blanks (l : list byte) : list byte :=
  match l with c :: r => if sh_blank c then drop_blanks r else l | [] => [] end.

(** The words of [l]: the longest runs without blanks. *)
Inductive words_of : list byte → list (list byte) → Prop :=
| words_nil : words_of [] []
| words_blank c l ws : sh_blank c = true → words_of l ws → words_of (c :: l) ws
| words_cons w l ws : w ≠ [] → Forall (λ c, sh_blank c = false) w →
    match l with c :: _ => sh_blank c = true | [] => True end → words_of l ws → words_of (w ++ l) (w :: ws).

Lemma sh_blank_nul : sh_blank x00 = false.
Proof. reflexivity. Qed.

Lemma sh_skip_run done l pad : ∃ n, sh_skip done (l ++ x00 :: pad) = (done ++ replicate n x00, drop_blanks l ++ x00 :: pad) ∧
  (length l = n + length (drop_blanks l))%nat ∧ ((n = 0)%nat ↔ match l with c :: _ => sh_blank c = false | [] => True end).
Proof.
  revert done. induction l as [|c l IH]; intros done; cbn [sh_skip app drop_blanks].
  - rewrite sh_blank_nul. exists 0%nat. split_and!; [by rewrite app_nil_r|done|done].
  - destruct (sh_blank c) eqn:E.
    + destruct (IH (done ++ [x00])) as (n & -> & Hn & _). exists (S n). split_and!; [by rewrite <- app_assoc|simpl; lia|].
      split; [lia|done].
    + exists 0%nat. rewrite app_nil_r. split_and!; [done|simpl; lia|done].
Qed.

Lemma sh_word_run done l pad : Forall (λ c, c ≠ x00) l → ∃ w r, l = w ++ r ∧ Forall (λ c, sh_blank c = false) w ∧
  match r with c :: _ => sh_blank c = true | [] => True end ∧ sh_word done (l ++ x00 :: pad) = (done ++ w, r ++ x00 :: pad).
Proof.
  intros Hl. revert done. induction Hl as [|c l Hc _ IH]; intros done; cbn [sh_word app].
  - exists [], []. split_and!; [done|done|done|]. rewrite bool_decide_false by (intros H; by apply H). by rewrite app_nil_r.
  - rewrite bool_decide_true by done. destruct (sh_blank c) eqn:E; simpl.
    + exists [], (c :: l). by rewrite app_nil_r.
    + destruct (IH (done ++ [c])) as (w & r & -> & Hw & Hr & E'). exists (c :: w), r.
      split_and!; [done|by constructor|done|]. rewrite E', <- app_assoc. done.
Qed.

Lemma drop_blanks_words l ws : words_of (drop_blanks l) ws → words_of l ws.
Proof. induction l as [|c l IH]; simpl; [done|]. destruct (sh_blank c) eqn:E; [|done]. intros H. apply words_blank; auto. Qed.
Lemma drop_blanks_head l c r : drop_blanks l = c :: r → sh_blank c = false.
Proof. induction l as [|d l IH]; simpl; [done|]. destruct (sh_blank d) eqn:E; [done|]. by intros [= <- <-]. Qed.
Lemma drop_blanks_forall (P : byte → Prop) l : Forall P l → Forall P (drop_blanks l).
Proof. induction 1 as [|c l Hc Hl IH]; simpl; [done|]. destruct (sh_blank c); [done|by constructor]. Qed.

Lemma cstr_word w t : Forall (λ c, c ≠ x00) w → cstr (w ++ x00 :: t) = w.
Proof. induction 1 as [|c w Hc _ IH]; simpl; [done|]. rewrite decide_False by done. by rewrite IH. Qed.

Lemma words_exist l : ∃ ws, words_of l ws.
Proof.
  remember (length l) as n eqn:Hn. revert l Hn. induction (lt_wf n) as [n _ IH]. intros l ->.
  destruct l as [|c l]; [exists []; constructor|]. destruct (sh_blank c) eqn:E.
  - destruct (IH (length l) ltac:(simpl; lia) l eq_refl) as [ws Hws]. exists ws. by constructor.
  - assert (∃ w r, c :: l = w ++ r ∧ w ≠ [] ∧ Forall (λ c, sh_blank c = false) w ∧ match r with c :: _ => sh_blank c = true | [] => True end)
      as (w & r & El & Hw & Hb & Hr).
    { clear IH. revert c E. induction l as [|d l IH]; intros c E; [exists [c], []; repeat constructor; done|].
      destruct (sh_blank d) eqn:Ed; [exists [c], (d :: l); repeat constructor; done|].
      destruct (IH d Ed) as (w & r & -> & _ & Hb & Hr). exists (c :: w), r. split_and!; [done|done|by constructor|done]. }
    destruct (IH (length r)) with r as [ws Hws]; [rewrite El, length_app; destruct w; [done|simpl; lia]|done|].
    exists (w :: ws). rewrite El. by constructor.
Qed.

(** The loop leaves the line before it alone, starts what is behind it with a
    zero unless a word goes on there, and adds the words still to come. *)
Lemma parsecmd_loop_run fuel : ∀ l done pad argv, Forall (λ c, c ≠ x00) l → (length l < fuel)%nat → (length argv ≤ 15)%nat →
  ∃ tail new ws, parsecmd_loop fuel done (l ++ x00 :: pad) argv = Some (done ++ tail, argv ++ new) ∧ words_of l ws ∧
    (λ p, cstr (drop p (done ++ tail))) <$> new = take (15 - length argv) ws ∧
    length tail = length (l ++ x00 :: pad) ∧ (match l with c :: _ => sh_blank c = true | [] => True end → head tail = Some x00).
Proof.
  induction fuel as [|fuel IH]; intros l don pad argv Hl Hf Ha; [lia|].
  destruct l as [|c l']; [exists (x00 :: pad), [], []; cbn; rewrite app_nil_r; split_and!; try done; [constructor|by rewrite take_nil]|].
  inversion Hl as [|? ? Hc _]; subst. remember (c :: l') as l eqn:El.
  destruct (sh_skip_run don l pad) as (n & Es & Hn & Hn0). pose proof (drop_blanks_forall _ _ Hl) as Hr.
  assert (Hhead : ∀ t, match l with c :: _ => sh_blank c = true | [] => True end → head (replicate n x00 ++ t) = Some x00).
  { intros t Hb. destruct n; [|done]. subst l. destruct Hn0 as [Hn0 _]. rewrite Hb in Hn0. by discriminate Hn0. }
  assert (Eloop : parsecmd_loop (S fuel) don (l ++ x00 :: pad) argv =
    match drop_blanks l ++ x00 :: pad with
    | [] => None
    | c :: _ => if bool_decide (c = x00) then Some ((don ++ replicate n x00) ++ drop_blanks l ++ x00 :: pad, argv) else
      if bool_decide (15 ≤ length argv)%nat then Some ((don ++ replicate n x00) ++ drop_blanks l ++ x00 :: pad, argv) else
      let '(don', rest) := sh_word (don ++ replicate n x00) (drop_blanks l ++ x00 :: pad) in
      parsecmd_loop fuel don' rest (argv ++ [length (don ++ replicate n x00)])
    end).
  { subst l. cbn [parsecmd_loop app]. rewrite bool_decide_false by done. rewrite app_comm_cons, Es. done. }
  rewrite Eloop. clear Eloop. destruct (drop_blanks l) as [|d r] eqn:Ed; cbn [app].
  - rewrite bool_decide_true by done. exists (replicate n x00 ++ x00 :: pad), [], []. rewrite <- app_assoc, app_nil_r. split_and?; try done.
    + apply drop_blanks_words. rewrite Ed. constructor.
    + by rewrite take_nil.
    + rewrite !length_app, length_replicate. simpl in *. lia.
    + intros Hb. apply Hhead. by rewrite El.
  - inversion Hr as [|? ? Hd _]; subst. rewrite bool_decide_false by done. case_bool_decide as Hfull.
    + destruct (words_exist (drop_blanks (c :: l'))) as [ws Hws].
      exists (replicate n x00 ++ d :: r ++ x00 :: pad), [], ws. rewrite <- app_assoc, app_nil_r. split_and?; try done.
      * by apply drop_blanks_words.
      * by replace (15 - length argv)%nat with 0%nat by lia.
      * rewrite !length_app, length_replicate. simpl in *. rewrite !length_app. simpl. lia.
      * intros Hb. by apply Hhead.
    + destruct (sh_word_run (don ++ replicate n x00) (d :: r) pad Hr) as (w & r' & Ew & Hw & Hr' & Esw).
      rewrite app_comm_cons, Esw.
      assert (w ≠ []). { intros ->. simpl in Ew. subst r'. apply drop_blanks_head in Ed. congruence. }
      assert (Hwr : Forall (λ c, c ≠ x00) w ∧ Forall (λ c, c ≠ x00) r') by (rewrite Ew in Hr; by apply Forall_app in Hr).
      destruct (IH r' ((don ++ replicate n x00) ++ w) pad (argv ++ [length (don ++ replicate n x00)])) as (tail & new & ws & Et & Hws & Hst & Hlt & Hht);
        [tauto| |rewrite length_app; simpl; lia|].
      { rewrite Ew, length_app in Hn. destruct w; [done|]. simpl in *. lia. }
      exists (replicate n x00 ++ w ++ tail), (length (don ++ replicate n x00) :: new), (w :: ws).
      rewrite Et, <- !app_assoc. cbn [app]. split_and?; [done| | | |intros Hb; by apply Hhead].
      * apply drop_blanks_words. rewrite Ed, Ew. by constructor.
      * rewrite fmap_cons. replace (15 - length argv)%nat with (S (14 - length argv)) by lia. cbn [take]. f_equal.
        -- rewrite !app_assoc, <- (app_assoc _ w), drop_app_length. destruct tail as [|t0 tail]; [by specialize (Hht Hr')|].
           specialize (Hht Hr'). injection Hht as ->. apply cstr_word, Hwr.
        -- rewrite length_app in Hst. simpl in Hst. replace (14 - length argv)%nat with (15 - (length argv + 1))%nat by lia.
           rewrite <- Hst. by rewrite <- !app_assoc.
      * apply (f_equal length) in Ew. rewrite length_app in Ew. rewrite !length_app, length_replicate, Hlt. rewrite !length_app. simpl in *. rewrite length_app. simpl. lia.
Qed.

(** Over a line of text [parsecmd] cuts out its words: the pointers it
    stores lead to the first 15 words of the line, each ended by a zero, in a
    line of unchanged length. *)
Theorem parsecmd_words text pad : Forall (λ c, c ≠ x00) text →
  ∃ buf argv ws, parsecmd (text ++ x00 :: pad) = Some (buf, argv) ∧ words_of text ws ∧
    (λ p, cstr (drop p buf)) <$> argv = take 15 ws ∧ length buf = length (text ++ x00 :: pad).
Proof.
  intros Ht. destruct (parsecmd_loop_run (length (text ++ x00 :: pad)) text [] pad []) as (tail & new & ws & E & Hw & Hs & Hl & _);
    [done|rewrite length_app; simpl; lia|simpl; lia|].
  exists tail, new, ws. split_and!; done.
Qed.

Lemma parsecmd_words_witness : ∃ buf argv ws, parsecmd (chars " ls  -l" ++ x00 :: [x00]) = Some (buf, argv) ∧ words_of (chars " ls  -l") ws ∧
    (λ p, cstr (drop p buf)) <$> argv = take 15 ws ∧ length buf = length (chars " ls  -l" ++ x00 :: [x00]).
Proof. apply (parsecmd_words (chars " ls  -l") [x00]). apply (bool_decide_unpack _). vm_compute. exact I. Defined.

(** The words are determined by the line. *)
Lemma parsecmd_example : parsecmd (chars "ls  -l" ++ [x00; x07]) = Some (chars "ls" ++ [x00; x00] ++ chars "-l" ++ [x00; x07], [0; 4]%nat).
Proof. vm_compute. reflexivity. Qed.

(** ** ls: names in columns *)

(** The last component of a path, behind its last slash. *)
Lemma after_slash_spec path : ∀ p, (p ≤ length path)%nat → let k := after_slash path p in
  (k ≤ S p)%nat ∧ (k = 0%nat ∨ path !! (k - 1)%nat = Some slash) ∧ ∀ j, (k ≤ j ≤ p)%nat → path !! j ≠ Some slash.
Proof.
  induction p as [|p IH]; intros Hp k; subst k; cbn [after_slash]; case_decide as E.
  - split_and!; [lia|by right|lia].
  - split_and!; [lia|by left|]. intros j Hj. by replace j with 0%nat by lia.
  - split_and!; [lia|right; by rewrite Nat.sub_succ, Nat.sub_0_r|lia].
  - destruct IH as (H1 & H2 & H3); [lia|]. split_and!; [lia|done|]. intros j Hj. destruct (decide (j = S p)) as [->|]; [done|]. apply H3. lia.
Qed.

Lemma memset_run (dst : list byte) c n : (n ≤ length dst)%nat → Ulib.memset dst c n = Some (replicate n (z2b c) ++ drop n dst).
Proof.
  revert dst; induction n as [|n IH]; intros dst Hn; [by destruct dst|]. destruct dst as [|b dst]; simpl in *; [lia|].
  rewrite IH by lia. done.
Qed.
Lemma memcpy_run (dst src : list byte) n : (n ≤ length dst)%nat → (n ≤ length src)%nat → Ulib.memcpy dst src n = Some (take n src ++ drop n dst).
Proof.
  revert dst src; induction n as [|n IH]; intros dst src Hd Hs; [by destruct dst, src|]. destruct dst, src; simpl in *; try lia.
  rewrite IH by lia. done.
Qed.

Lemma fmt_name_column path : Forall (λ c, c ≠ x00) path →
  let name := drop (after_slash path (length path)) path in
  fmt_name path = Some (name ++ replicate (24 - length name) SP).
Proof.
  intros Hz name. unfold fmt_name. fold name. change DIRSIZ with 24%nat. case_bool_decide as Hl.
  - replace (24 - length name)%nat with 0%nat by lia. by rewrite app_nil_r.
  - rewrite memcpy_run by (rewrite ?length_replicate; simpl; lia). cbn [mbind option_bind].
    assert (Hd : length (drop (length name) (take (length name) name ++ drop (length name) (replicate (24 + 1) x00))) = (25 - length name)%nat).
    { rewrite firstn_all, drop_app_length, length_drop, length_replicate. done. }
    rewrite memset_run by lia. cbn [mbind option_bind]. f_equal. rewrite firstn_all, take_app_length, drop_app_length.
    rewrite drop_drop, drop_replicate. replace (24 + 1 - (length name + (24 - length name)))%nat with 1%nat by lia.
    cbn [replicate]. rewrite app_assoc. apply cstr_word. apply Forall_app. split; [by apply Forall_drop|]. by apply Forall_replicate.
Qed.
