(* ===== verification/Mkfs.v ===== *)
(** * The image builder (tools/mkfs.c)

    A program of the build host: it fills the array [disk] and writes it out as
    fs.img, the image the kernel's ram disk holds.  Pointers into the array are
    block numbers, pointers to inodes are inode numbers; blocks outside the
    array are not there.  [exit(1)] after a message is a [Panic]. *)
From S2P Require Import Prelude State CString Ring Bio Balloc Inode Dir.

Record mkfs := mk_mkfs {
  disk : store;
  balloc_bump : Z;     (** the static [bump] of [balloc] *)
  dialloc_bump : Z     (** and of [dialloc] *)
}.
Definition set_disk (f : store → store) (s : mkfs) : mkfs := mk_mkfs (f (disk s)) (balloc_bump s) (dialloc_bump s).
Definition set_balloc_bump (v : Z) (s : mkfs) : mkfs := mk_mkfs (disk s) v (dialloc_bump s).
Definition set_dialloc_bump (v : Z) (s : mkfs) : mkfs := mk_mkfs (disk s) (balloc_bump s) v.
Definition mkfs0 : mkfs := mk_mkfs (λ _, zero_block) 6 1.

Definition in_disk (b : Z) : bool := bool_decide (0 ≤ b) && bool_decide (b < NBLOCKS).
Definition get_blk (b : Z) : M mkfs (list byte) :=
  λ s, if in_disk b then Done (disk s b) s else Panic "segmentation fault".
Definition upd_blk (b : Z) (f : list byte → list byte) : M mkfs unit :=
  λ s, if in_disk b then Done tt (set_disk (λ V, <[b := f (V b)]> V) s) else Panic "segmentation fault".

(** [struct dinode *inodes = (void * ) &disk[3]], 32 in a block; a field is read
    and written at its offset. *)
Definition ino_blk (i : Z) : Z := 3 + i / IPB.
Definition ino_get (n fo : nat) (i : Z) : M mkfs Z :=
  let! d := get_blk (ino_blk i) in ret (get_le n (dinode_off i + fo) d).
Definition ino_set (n fo : nat) (i v : Z) : M mkfs unit := upd_blk (ino_blk i) (set_le n (dinode_off i + fo) v).
Definition F_type : nat := 0.
Definition F_major : nat := 2.
Definition F_minor : nat := 4.
Definition F_nlink : nat := 6.
Definition F_size : nat := 8.
Definition F_addr (k : Z) : nat := (16 + 8 * Z.to_nat k)%nat.

Definition balloc : M mkfs Z :=
  let! bump := gets balloc_bump in
  let! sb := get_blk 1 in
  upd_blk (bump / BPB + sb_bmap_start (sb_of_bytes sb)) (bit_set bump) ;;;
  modify (set_balloc_bump (bump + 1)) ;;;
  ret bump.

Definition dialloc (type : Z) : M mkfs Z :=
  let! bump := gets dialloc_bump in
  ino_set 2 F_type bump type ;;;
  modify (set_dialloc_bump (bump + 1)) ;;;
  ret bump.

Definition bmap (i bn : Z) : M mkfs Z :=
  if bool_decide (bn < NDIRECT) then
    let! addr := ino_get 8 (F_addr bn) i in
    if bool_decide (addr = 0) then
      let! addr := balloc in
      ino_set 8 (F_addr bn) i addr ;;;
      ret addr
    else ret addr
  else
    let bn := bn - NDIRECT in
    if bool_decide (bn < NINDIRECT) then
      let! addr := ino_get 8 (F_addr NDIRECT) i in
      let! addr :=
        (if bool_decide (addr = 0) then
           let! addr := balloc in
           ino_set 8 (F_addr NDIRECT) i addr ;;;
           ret addr
         else ret addr) in
      let! a := get_blk addr in
      let entry := get_le 8 (8 * Z.to_nat bn) a in
      if bool_decide (entry = 0) then
        let! entry := balloc in
        upd_blk addr (set_le 8 (8 * Z.to_nat bn) entry) ;;;
        ret entry
      else ret entry
    else panic "bmap oor".

Fixpoint readi_loop (fuel : nat) (i off n tot : Z) (dst : list byte) : M mkfs (Z * list byte) :=
  if bool_decide (tot < n) then
    match fuel with
    | O => no_fuel
    | S fuel' =>
      let! a := bmap i (off / BSIZE) in
      let! b := get_blk a in
      let m := Z.min (n - tot) (BSIZE - off `mod` BSIZE) in
      readi_loop fuel' i (off + m) n (tot + m) (dst ++ slice (Z.to_nat (off `mod` BSIZE)) (Z.to_nat m) b)
    end
  else ret (tot, dst).
Definition readi (i off n : Z) : M mkfs (Z * list byte) :=
  let! size := ino_get 8 F_size i in
  if bool_decide (size < off) || bool_decide (u64 (off + n) < off) then ret (-1, []) else
  let n := if bool_decide (size < u64 (off + n)) then size - off else n in
  readi_loop (rw_fuel n) i off n 0 [].

Fixpoint writei_loop (fuel : nat) (i : Z) (src : list byte) (off n tot : Z) : M mkfs (Z * Z) :=
  if bool_decide (tot < n) then
    match fuel with
    | O => no_fuel
    | S fuel' =>
      let! a := bmap i (off / BSIZE) in
      let m := Z.min (n - tot) (BSIZE - off `mod` BSIZE) in
      upd_blk a (splice (Z.to_nat (off `mod` BSIZE)) (slice (Z.to_nat tot) (Z.to_nat m) src)) ;;;
      writei_loop fuel' i src (off + m) n (tot + m)
    end
  else ret (tot, off).
Definition writei (i : Z) (src : list byte) (off n : Z) : M mkfs Z :=
  let! size := ino_get 8 F_size i in
  if bool_decide (size < off) || bool_decide (u64 (off + n) < off) then ret (-1) else
  if bool_decide ((NDIRECT + NINDIRECT) * BSIZE < u64 (off + n)) then ret (-1) else
  let! r := writei_loop (rw_fuel n) i src off n 0 in
  let '(tot, off) := r in
  (if bool_decide (0 < n) && bool_decide (size < off) then ino_set 8 F_size i off else ret tt) ;;;
  ret tot.

(** The offset of the first free entry, or of the end. *)
Fixpoint dir_slot (fuel : nat) (dp off : Z) : M mkfs Z :=
  let! size := ino_get 8 F_size dp in
  if bool_decide (off < size) then
    match fuel with
    | O => no_fuel
    | S fuel' =>
      let! r := readi dp off DIRENT_SIZE in
      if bool_decide (fst r ≠ DIRENT_SIZE) then panic "dir_link cant read" else
      if bool_decide (de_inum (snd r) = 0) then ret off else dir_slot fuel' dp (off + DIRENT_SIZE)
    end
  else ret off.
(** [name] with its terminator. *)
Definition dir_link (dp : Z) (name : list byte) (inum : Z) : M mkfs unit :=
  let! size := ino_get 8 F_size dp in
  let! off := dir_slot (S (Z.to_nat (size / DIRENT_SIZE))) dp 0 in
  match strncpy name DIRSIZ with
  | None => panic "segmentation fault"
  | Some nm =>
    let! r := writei dp (dirent_bytes inum nm) off DIRENT_SIZE in
    if bool_decide (r ≠ DIRENT_SIZE) then panic "dir_link cant write" else ret tt
  end.

(** The loop of [file2i] over a file of the host, [rest] being unread. *)
Fixpoint file2i_loop (fuel : nat) (i : Z) (rest : list byte) (off : Z) : M mkfs Z :=
  let buf := take BSIZE_nat rest in
  let n := Z.of_nat (length buf) in
  let! ok := (if bool_decide (0 < n) then let! r := writei i buf off n in ret (bool_decide (r = n)) else ret true) in
  if negb ok then ret (-1) else
  if bool_decide (n < BSIZE) then ret 0 else
  match fuel with
  | O => no_fuel
  | S fuel' => file2i_loop fuel' i (drop BSIZE_nat rest) (off + n)
  end.

Section Host.
(** The files of the host, by path; reading one does not fail half way. *)
Context (host : list byte → option (list byte)).

Definition file2i (i : Z) (path : list byte) : M mkfs Z :=
  let! type := ino_get 2 F_type i in
  if bool_decide (s16 type ≠ T_FILE) then ret (-1) else
  match host path with
  | None => ret (-1)
  | Some l => file2i_loop (S (length l / BSIZE_nat)) i l 0
  end.

(** [snprintf(path, sizeof(path), "user/%s", name)]. *)
Definition host_path (name : list byte) : list byte := take 127 (String.list_byte_of_string "user/" ++ cstr name).
Definition add_file (rooti : Z) (name : list byte) : M mkfs unit :=
  let! ino := dialloc T_FILE in
  ino_set 2 F_nlink ino 1 ;;;
  let! r := file2i ino (host_path name) in
  if bool_decide (r < 0) then panic "file2i failed" else
  dir_link rooti name ino.

Definition str0 (s : string) : list byte := String.list_byte_of_string s ++ [x00].
Definition image_files : list string := ["init"; "cat"; "mkdir"; "ls"; "rm"; "nsh"; "echo"]%string.

(** The superblock and the bitmap, at the start of [main]. *)
Definition mkfs_sb : super_block := mk_sb NBLOCKS (NBLOCKS - (1 + 1 + 1 + 3)) (3 * BSIZE / DINODE_SIZE) 3 2.
Definition format : M mkfs unit :=
  upd_blk 1 (splice 0 (sb_bytes mkfs_sb)) ;;;
  let! sb := get_blk 1 in
  upd_blk (sb_bmap_start (sb_of_bytes sb)) (splice 0 [z2b (Z.shiftl 1 6 - 1)]).

(** [main], up to [save_img]. *)
Definition main : M mkfs unit :=
  format ;;;
  let! rooti := dialloc T_DIR in
  ino_set 2 F_nlink rooti 1 ;;;
  dir_link rooti (str0 ".") ROOTINO ;;;
  dir_link rooti (str0 "..") ROOTINO ;;;
  let! console := dialloc T_DEV in
  ino_set 2 F_nlink console 1 ;;;
  ino_set 2 F_major console 1 ;;;
  ino_set 2 F_minor console 1 ;;;
  dir_link rooti (str0 "console") console ;;;
  for_each image_files (λ name, add_file rooti (str0 name)).
End Host.

(** The file fs.img, by blocks: [main] ends by writing the whole array. *)
Definition IMG_SIZE : Z := NBLOCKS * BSIZE.
Definition save_img (s : mkfs) : gmap Z (list byte) := list_to_map ((λ b, (b, disk s b)) <$> seqZ 0 NBLOCKS).
