(* ===== verification/MkfsFile.v ===== *)
(** * Files in the image under construction

    The invariant of the image that tools/mkfs.c fills ([image_ok]): the
    bitmap marks the blocks handed out, every inode's block map is well formed
    ([file_ok]) and no block belongs to two inodes.  Appending to a file keeps
    it, keeps the other files, and appends. *)
From Stdlib Require Import FunctionalExtensionality.
From S2P Require Import Prelude State CString Ring Bio Balloc Inode Dir FileMap InodeSpec FileSpec DirSpec Mkfs.

(** ** Inodes in the image *)
Definition ifield (n fo : nat) (V : store) (i : Z) : Z := get_le n (dinode_off i + fo) (V (ino_blk i)).
Definition iaddrs (V : store) (i : Z) : list Z := dip_addrs (dinode_off i) (V (ino_blk i)).
Definition isize (V : store) (i : Z) : Z := ifield 8 F_size V i.
Definition dnode (V : store) (i : Z) : list byte := slice (dinode_off i) 128 (V (ino_blk i)).
Definition content (V : store) (i : Z) : list byte := fbytes V (iaddrs V i) 0 (isize V i).

(** The image's inodes are in its first inode block. *)
Definition in_table (i : Z) : Prop := 0 ≤ i < 32.
Lemma ino_blk_3 i : in_table i → ino_blk i = 3.
Proof. intros H. unfold ino_blk. change IPB with 32. rewrite Z.div_small by exact H. done. Qed.
Lemma dinode_off_table i : in_table i → dinode_off i = (128 * Z.to_nat i)%nat.
Proof. unfold in_table, dinode_off. ksize. intros H. rewrite Z.mod_small by lia. lia. Qed.
Lemma dinode_off_inj i j : in_table i → in_table j → i ≠ j →
  (dinode_off i + 128 ≤ dinode_off j ∨ dinode_off j + 128 ≤ dinode_off i)%nat.
Proof. intros Hi Hj Hne. rewrite !dinode_off_table by done. unfold in_table in *. lia. Qed.

Lemma ifield_dnode n fo V i : (fo + n ≤ 128)%nat → ifield n fo V i = get_le n fo (dnode V i).
Proof.
  intros Hf. unfold ifield, dnode, get_le, slice. f_equal. rewrite skipn_firstn_comm, take_take, drop_drop.
  f_equal. lia.
Qed.
Lemma iaddrs_dnode V i : iaddrs V i = dip_addrs 0 (dnode V i).
Proof.
  unfold iaddrs, dip_addrs. apply list_fmap_ext. intros k j Hk. apply lookup_seq in Hk as [-> Hk].
  pose proof (ifield_dnode 8 (16 + 8 * k) V i ltac:(lia)) as E. unfold ifield in E.
  replace (dinode_off i + 16 + 8 * (0 + k))%nat with (dinode_off i + (16 + 8 * k))%nat by lia. exact E.
Qed.
Lemma iaddrs_length V i : length (iaddrs V i) = 14%nat.
Proof. done. Qed.
Lemma iaddrs_lookup V i k : 0 ≤ k < 14 → iaddrs V i !!! Z.to_nat k = ifield 8 (F_addr k) V i.
Proof.
  intros Hk. unfold iaddrs, dip_addrs. apply list_lookup_total_correct. rewrite list_lookup_fmap.
  rewrite lookup_seq_lt by lia. simpl. f_equal. unfold ifield, F_addr. f_equal. lia.
Qed.

(** ** Files under changes elsewhere *)
Lemma owned_data V A a : file_ok NBLOCKS 2 3 V A → owned V A a → data_ok NBLOCKS 2 3 V a.
Proof. intros F (Hne & [->|(bn & Hbn & <-)]); [by apply (fo_ind _ _ _ _ _ F)|by apply (fo_blk _ _ _ _ _ F)]. Qed.

Lemma blkno_ext V V' A bn : (A !!! 13%nat ≠ 0 → V' (A !!! 13%nat) = V (A !!! 13%nat)) → blkno V' A bn = blkno V A bn.
Proof. intros H. unfold blkno. case_decide; [done|]. case_decide as E; [done|]. by rewrite H. Qed.

Lemma file_ok_ext V V' A : file_ok NBLOCKS 2 3 V A → (A !!! 13%nat ≠ 0 → V' (A !!! 13%nat) = V (A !!! 13%nat)) →
  (∀ a, owned V A a → used 2 V' a = true ∧ length (V' a) = BSIZE_nat) → file_ok NBLOCKS 2 3 V' A.
Proof.
  intros F H13 Ho. assert (Hb : ∀ bn, blkno V' A bn = blkno V A bn) by (intros bn; by apply blkno_ext).
  assert (Hd : ∀ a, owned V A a → data_ok NBLOCKS 2 3 V' a).
  { intros a Ha. destruct (owned_data _ _ _ F Ha) as (? & ? & ? & _ & _). destruct (Ho a Ha). unfold data_ok. tauto. }
  destruct F as [F1 F2 F3 F4 F5]. split.
  - done.
  - intros bn Hbn. rewrite Hb. intros Hne. apply Hd. split; [done|]. right. by exists bn.
  - intros Hne. apply Hd. split; [done|by left].
  - intros Hne bn Hbn. rewrite Hb. by apply F4.
  - intros bn bn' Hbn Hbn'. rewrite !Hb. by apply F5.
Qed.

Lemma owned_ext' V V' A a : (∀ bn, blkno V' A bn = blkno V A bn) → owned V' A a ↔ owned V A a.
Proof. intros Hb. unfold owned. setoid_rewrite Hb. done. Qed.

(** ** The image under construction *)
Record image_ok (s : mkfs) : Prop := {
  ok_len : ∀ b, length (disk s b) = BSIZE_nat;
  ok_sb : sb_of_bytes (disk s 1) = mkfs_sb;
  ok_bump : 6 ≤ balloc_bump s ≤ NBLOCKS;
  ok_used : ∀ b, 0 ≤ b → used 2 (disk s) b = bool_decide (b < balloc_bump s);
  ok_zero : ∀ b, balloc_bump s ≤ b → disk s b = zero_block;
  ok_inos : 1 ≤ dialloc_bump s ≤ 32;
  ok_new : ∀ i, dialloc_bump s ≤ i < 32 → dnode (disk s) i = replicate 128 x00;
  ok_file : ∀ i, in_table i → file_ok NBLOCKS 2 3 (disk s) (iaddrs (disk s) i);
  ok_own : ∀ i a, in_table i → owned (disk s) (iaddrs (disk s) i) a → 6 ≤ a;
  ok_apart : ∀ i j a, in_table i → in_table j →
    owned (disk s) (iaddrs (disk s) i) a → owned (disk s) (iaddrs (disk s) j) a → i = j
}.

Lemma owned_bump s i a : image_ok s → in_table i → owned (disk s) (iaddrs (disk s) i) a → 6 ≤ a < balloc_bump s.
Proof.
  intros O Hi Ha. pose proof (ok_own _ O i a Hi Ha). destruct (owned_data _ _ _ (ok_file _ O i Hi) Ha) as (_ & _ & _ & Hu & _).
  rewrite (ok_used _ O) in Hu by lia. apply bool_decide_eq_true in Hu. lia.
Qed.

(** An operation on file [i]: the other inodes and the blocks that are not
    [i]'s stay as they are. *)
Record on_file (i : Z) (s s' : mkfs) : Prop := {
  of_ok : image_ok s';
  of_bump : balloc_bump s ≤ balloc_bump s';
  of_inos : dialloc_bump s' = dialloc_bump s;
  of_dnode : ∀ j, in_table j → j ≠ i → dnode (disk s') j = dnode (disk s) j;
  of_blk : ∀ b, 6 ≤ b < balloc_bump s → ¬ owned (disk s) (iaddrs (disk s) i) b → disk s' b = disk s b;
  of_own : ∀ a, owned (disk s') (iaddrs (disk s') i) a → owned (disk s) (iaddrs (disk s) i) a ∨ balloc_bump s ≤ a
}.

Lemma on_file_refl i s : image_ok s → on_file i s s.
Proof. intros O. split; try done. by left. Qed.
Lemma on_file_trans i s1 s2 s3 : on_file i s1 s2 → on_file i s2 s3 → on_file i s1 s3.
Proof.
  intros H1 H2. pose proof (of_bump _ _ _ H1). pose proof (of_bump _ _ _ H2). split.
  - apply H2.
  - lia.
  - rewrite (of_inos _ _ _ H2). apply H1.
  - intros j Hj Hne. by rewrite (of_dnode _ _ _ H2), (of_dnode _ _ _ H1).
  - intros b Hb Ho. rewrite (of_blk _ _ _ H2); [by apply (of_blk _ _ _ H1)|lia|]. intros Hc%(of_own _ _ _ H1). destruct Hc; [done|lia].
  - intros a [Ha|Ha]%(of_own _ _ _ H2); [|right; lia]. by apply (of_own _ _ _ H1).
Qed.

(** Another file keeps its inode and its bytes. *)
Lemma on_file_other i j s s' : image_ok s → on_file i s s' → in_table i → in_table j → j ≠ i →
  iaddrs (disk s') j = iaddrs (disk s) j ∧ (∀ bn, blkno (disk s') (iaddrs (disk s) j) bn = blkno (disk s) (iaddrs (disk s) j) bn) ∧
  ∀ a, owned (disk s) (iaddrs (disk s) j) a → disk s' a = disk s a.
Proof.
  intros O S Hi Hj Hne. assert (Hb : ∀ a, owned (disk s) (iaddrs (disk s) j) a → disk s' a = disk s a).
  { intros a Ha. apply (of_blk _ _ _ S); [by apply (owned_bump _ j)|]. intros Ha'. apply Hne. by eapply (ok_apart _ O). }
  split; [by rewrite !iaddrs_dnode, (of_dnode _ _ _ S)|split; [|done]].
  intros bn. apply blkno_ext. intros H13. apply Hb. split; [done|by left].
Qed.

Lemma content_other i j s s' : image_ok s → on_file i s s' → in_table i → in_table j → j ≠ i →
  mapped (disk s) (iaddrs (disk s) j) (isize (disk s) j) → isize (disk s) j ≤ MAXFILEBLK * BSIZE →
  isize (disk s') j = isize (disk s) j ∧ content (disk s') j = content (disk s) j ∧
  mapped (disk s') (iaddrs (disk s') j) (isize (disk s') j).
Proof.
  intros O S Hi Hj Hne Hm Hmax. destruct (on_file_other i j s s' O S Hi Hj Hne) as (EA & Eb & Ed).
  assert (Es : isize (disk s') j = isize (disk s) j).
  { unfold isize. rewrite !ifield_dnode by (unfold F_size; lia). by rewrite (of_dnode _ _ _ S). }
  split_and!; [done| |].
  - unfold content, fbytes. rewrite Es. apply list_fmap_ext. intros k x Hx. apply lookup_seqZ in Hx as [-> Hx].
    unfold fbyte. rewrite EA, Eb. rewrite Ed; [done|].
    destruct (blk_div_mod (0 + Z.of_nat k)) as (? & ? & ?); [lia|].
    split; [apply Hm; lia|]. right. eexists. split; [|done]. apply bn_ok_div; lia.
  - rewrite Es, EA. intros bn H0 Hlt. rewrite Eb. by apply Hm.
Qed.

(** ** A new block *)
Lemma grow_ok i s V' :
  image_ok s → in_table i → i < dialloc_bump s → balloc_bump s < NBLOCKS →
  (∀ b, length (V' b) = BSIZE_nat) → V' 1 = disk s 1 →
  (∀ b, 0 ≤ b → used 2 V' b = bool_decide (b = balloc_bump s) || used 2 (disk s) b) →
  (∀ b, balloc_bump s < b → V' b = zero_block) →
  (∀ j, in_table j → j ≠ i → dnode V' j = dnode (disk s) j) →
  file_ok NBLOCKS 2 3 V' (iaddrs V' i) →
  (∀ a, owned V' (iaddrs V' i) a → owned (disk s) (iaddrs (disk s) i) a ∨ a = balloc_bump s) →
  (∀ b, 6 ≤ b < balloc_bump s → ¬ owned (disk s) (iaddrs (disk s) i) b → V' b = disk s b) →
  on_file i s (mk_mkfs V' (balloc_bump s + 1) (dialloc_bump s)).
Proof.
  intros O Hi Hal Hb Hlen Hsb Hu Hz Hd Hf Ho Hk. pose proof (ok_bump _ O) as Hbump.
  assert (Hu' : ∀ b, 0 ≤ b → used 2 V' b = bool_decide (b < balloc_bump s + 1)).
  { intros b Hb0. rewrite Hu, (ok_used _ O) by done. repeat case_bool_decide; simpl; lia || done. }
  assert (Hj : ∀ j, in_table j → j ≠ i → iaddrs V' j = iaddrs (disk s) j ∧ (∀ a, owned V' (iaddrs V' j) a ↔ owned (disk s) (iaddrs (disk s) j) a) ∧
    file_ok NBLOCKS 2 3 V' (iaddrs V' j)).
  { intros j Hj Hne. assert (EA : iaddrs V' j = iaddrs (disk s) j) by (by rewrite !iaddrs_dnode, Hd).
    assert (Hblk : ∀ a, owned (disk s) (iaddrs (disk s) j) a → V' a = disk s a).
    { intros a Ha. apply Hk; [by apply (owned_bump _ j)|]. intros Ha'. apply Hne. by eapply (ok_apart _ O). }
    assert (H13 : iaddrs (disk s) j !!! 13%nat ≠ 0 → V' (iaddrs (disk s) j !!! 13%nat) = disk s (iaddrs (disk s) j !!! 13%nat)).
    { intros H13. apply Hblk. split; [done|by left]. }
    rewrite EA. split_and?; [done|intros a; apply owned_ext'; intros bn; by apply blkno_ext|].
    apply (file_ok_ext (disk s)); [by apply ok_file|done|]. intros a Ha. pose proof (owned_bump _ _ _ O Hj Ha).
    split; [|done]. rewrite Hu' by lia. apply bool_decide_eq_true. lia. }
  assert (Ho' : ∀ j a, in_table j → owned V' (iaddrs V' j) a → owned (disk s) (iaddrs (disk s) j) a ∨ j = i ∧ a = balloc_bump s).
  { intros j a Hj0 Ha. destruct (decide (j = i)) as [->|Hne]; [destruct (Ho a Ha); tauto|]. left. by apply (Hj j Hj0 Hne). }
  split; simpl; [|lia|done|done|done|].
  2:{ intros a Ha. destruct (Ho a Ha) as [?| ->]; [by left|right; lia]. }
  split; simpl; try done.
  - rewrite Hsb. apply O.
  - lia.
  - intros b Hb0. apply Hz. lia.
  - apply O.
  - intros j Hj0. pose proof (ok_inos _ O). rewrite Hd by (unfold in_table; lia). apply (ok_new _ O). lia.
  - intros j Hj0. destruct (decide (j = i)) as [->|Hne]; [done|by apply Hj].
  - intros j a Hj0 Ha. destruct (Ho' j a Hj0 Ha) as [?|[_ ->]]; [by apply (ok_own _ O j)|lia].
  - intros j1 j2 a Hj1 Hj2 Ha1 Ha2. destruct (Ho' j1 a Hj1 Ha1) as [H1|[E1 E]], (Ho' j2 a Hj2 Ha2) as [H2|[E2 E']];
      [by eapply (ok_apart _ O)| | |congruence].
    + apply (owned_bump _ _ _ O Hj1) in H1. lia.
    + apply (owned_bump _ _ _ O Hj2) in H2. lia.
Qed.

Lemma bump_fresh s : image_ok s → balloc_bump s < NBLOCKS → fresh NBLOCKS 2 3 (disk s) (balloc_bump s).
Proof.
  intros O Hb. pose proof (ok_bump _ O).
  assert (Hu : used 2 (disk s) (balloc_bump s) = false) by (rewrite (ok_used _ O) by lia; apply bool_decide_eq_false; lia).
  split; try lia; [done|done|apply (ok_len _ O)|]. intros b Hb0. unfold used, allocated.
  rewrite fn_lookup_insert_ne, fn_lookup_insert by lia. apply bit_get_set; [|done].
  rewrite (ok_len _ O). change NBLOCKS with 4096 in *. unfold BSIZE_nat. lia.
Qed.

Definition with_block (s : mkfs) : mkfs :=
  mk_mkfs (allocated (balloc_bump s) 2 (disk s)) (balloc_bump s + 1) (dialloc_bump s).

Lemma balloc_run s : image_ok s → balloc_bump s < NBLOCKS → balloc s = Done (balloc_bump s) (with_block s).
Proof.
  intros O Hb. pose proof (ok_bump _ O). unfold balloc. rewrite bind_gets.
  unfold bind at 1, get_blk. change (in_disk 1) with true. cbn [rbind].
  rewrite (ok_sb _ O). change (sb_bmap_start mkfs_sb) with 2. change NBLOCKS with 4096 in *.
  rewrite Z.div_small by (unfold BPB, BSIZE; lia). change (0 + 2) with 2.
  unfold bind at 1, upd_blk. change (in_disk 2) with true. cbn [rbind]. rewrite bind_modify. unfold ret, with_block, set_disk, set_balloc_bump. simpl.
  do 2 f_equal. apply functional_extensionality. intros b. unfold allocated.
  destruct (decide (b = balloc_bump s)) as [->|Hne].
  - rewrite fn_lookup_insert, fn_lookup_insert_ne by lia. apply (ok_zero _ O). lia.
  - by rewrite (fn_lookup_insert_ne _ (balloc_bump s)).
Qed.

(** Writing a field of an inode. *)
Lemma ino_get_run n fo i s : in_table i → ino_get n fo i s = Done (ifield n fo (disk s) i) s.
Proof. intros Hi. unfold ino_get, bind, get_blk, ifield. rewrite ino_blk_3 by done. done. Qed.
Definition poke (n fo : nat) (i v : Z) (V : store) : store := <[3 := set_le n (dinode_off i + fo) v (V 3)]> V.
Lemma ino_set_run n fo i v s : in_table i → ino_set n fo i v s = Done tt (set_disk (poke n fo i v) s).
Proof. intros Hi. unfold ino_set, upd_blk. rewrite ino_blk_3 by done. done. Qed.

Section Poke.
Context (n fo : nat) (i v : Z) (V : store) (Hi : in_table i) (Hf : (fo + n ≤ 128)%nat) (Hl : length (V 3) = BSIZE_nat).

Lemma poke_room : (dinode_off i + fo + n ≤ length (V 3))%nat.
Proof. rewrite Hl, dinode_off_table by done. unfold in_table, BSIZE_nat in *. lia. Qed.
Lemma poke_length b : (∀ b, length (V b) = BSIZE_nat) → length (poke n fo i v V b) = BSIZE_nat.
Proof.
  intros H. unfold poke. destruct (decide (b = 3)) as [->|]; [|by rewrite fn_lookup_insert_ne].
  rewrite fn_lookup_insert, set_le_length; [done|]. apply poke_room.
Qed.
Lemma poke_blk b : b ≠ 3 → poke n fo i v V b = V b.
Proof. intros H. unfold poke. by rewrite fn_lookup_insert_ne. Qed.
Lemma poke_dnode j : in_table j → j ≠ i → dnode (poke n fo i v V) j = dnode V j.
Proof.
  intros Hj Hne. unfold dnode, poke. rewrite ino_blk_3, fn_lookup_insert by done. unfold set_le.
  pose proof (dinode_off_inj i j Hi Hj ltac:(done)). pose proof poke_room.
  apply slice_splice_ne; rewrite le_put_length; lia.
Qed.
Lemma poke_field : ifield n fo (poke n fo i v V) i = v mod 256 ^ Z.of_nat n.
Proof. unfold ifield, poke. rewrite ino_blk_3, fn_lookup_insert by done. apply get_set_le_eq, poke_room. Qed.
Lemma poke_field_ne n' fo' : (fo' + n' ≤ fo ∨ fo + n ≤ fo')%nat → ifield n' fo' (poke n fo i v V) i = ifield n' fo' V i.
Proof. intros H. unfold ifield, poke. rewrite ino_blk_3, fn_lookup_insert by done. apply get_set_le_ne; [apply poke_room|lia]. Qed.
Lemma poke_addrs_ne : (fo + n ≤ 16)%nat → iaddrs (poke n fo i v V) i = iaddrs V i.
Proof.
  intros H. unfold iaddrs, dip_addrs. apply list_fmap_ext. intros k j Hk. apply lookup_seq in Hk as [-> Hk].
  pose proof (poke_field_ne 8 (16 + 8 * k) ltac:(lia)) as E. unfold ifield in E.
  replace (dinode_off i + 16 + 8 * (0 + k))%nat with (dinode_off i + (16 + 8 * k))%nat by lia. exact E.
Qed.
End Poke.

Lemma poke_addr k i a V : in_table i → (k < 14)%nat → 0 ≤ a < 2 ^ 64 → length (V 3) = BSIZE_nat →
  iaddrs (poke 8 (16 + 8 * k) i a V) i = <[k := a]> (iaddrs V i).
Proof.
  intros Hi Hk Ha Hl. unfold iaddrs at 1, dip_addrs. apply list_eq. intros j. rewrite list_lookup_fmap.
  destruct (decide (j < 14)%nat) as [Hj|Hj].
  - rewrite lookup_seq_lt by done. cbn [fmap option_fmap option_map].
    replace (dinode_off i + 16 + 8 * (0 + j))%nat with (dinode_off i + (16 + 8 * j))%nat by lia.
    destruct (decide (j = k)) as [->|Hne].
    + rewrite list_lookup_insert_eq by (by rewrite iaddrs_length). f_equal.
      pose proof (poke_field 8 (16 + 8 * k) i a V Hi ltac:(lia) Hl) as E. unfold ifield in E. rewrite E.
      change (256 ^ Z.of_nat 8) with (2 ^ 64). by apply Z.mod_small.
    + rewrite list_lookup_insert_ne by done. unfold iaddrs, dip_addrs. rewrite list_lookup_fmap, lookup_seq_lt by done. cbn [fmap option_fmap option_map].
      f_equal. pose proof (poke_field_ne 8 (16 + 8 * k) i a V Hi ltac:(lia) Hl 8 (16 + 8 * j) ltac:(lia)) as E. unfold ifield in E.
      replace (dinode_off i + 16 + 8 * (0 + j))%nat with (dinode_off i + (16 + 8 * j))%nat by lia. exact E.
  - rewrite lookup_seq_ge by lia. symmetry. apply lookup_ge_None_2. rewrite length_insert, iaddrs_length. lia.
Qed.

(** ** The block map *)
Section Slot.
Context (i : Z) (s : mkfs) (O : image_ok s) (Hi : in_table i) (Hal : i < dialloc_bump s) (Hb : balloc_bump s < NBLOCKS).
Let V := disk s.
Let A := iaddrs V i.
Let a := balloc_bump s.
Let V1 := allocated a 2 V.

Lemma bump_range : 6 ≤ a < 2 ^ 64.
Proof. pose proof (ok_bump _ O). subst a. change NBLOCKS with 4096 in *. lia. Qed.
Lemma alloc_blk b : b ≠ a → b ≠ 2 → V1 b = V b.
Proof. intros. subst V1. unfold allocated. by rewrite !fn_lookup_insert_ne. Qed.
Lemma alloc_len b : length (V1 b) = BSIZE_nat.
Proof. apply (fresh_len NBLOCKS 2 3 V a (bump_fresh s O Hb)), (ok_len _ O). Qed.
Lemma alloc_dnode j : in_table j → dnode V1 j = dnode V j.
Proof. intros Hj. unfold dnode. rewrite ino_blk_3 by done. rewrite alloc_blk; [done|pose proof bump_range; lia|done]. Qed.
Lemma alloc_above b : a < b → V1 b = zero_block.
Proof. intros H. pose proof bump_range. rewrite alloc_blk by lia. apply (ok_zero _ O). subst a. lia. Qed.
Lemma A_file : file_ok NBLOCKS 2 3 V A.
Proof. by apply (ok_file _ O). Qed.
Lemma owned_ne x : owned V A x → x ≠ a ∧ x ≠ 2 ∧ x ≠ 3.
Proof. intros H. pose proof (owned_bump _ _ _ O Hi H). subst a. lia. Qed.

(** [ip->addrs[k] = balloc()]. *)
Lemma slot_ok k (A1 := <[k := a]> A) (V2 := poke 8 (16 + 8 * k) i a V1) : (k < 14)%nat →
  file_ok NBLOCKS 2 3 V1 A1 → (∀ x, owned V1 A1 x → owned V A x ∨ x = a) →
  on_file i s (set_disk (λ _, V2) (with_block s)) ∧ iaddrs V2 i = A1 ∧
  (∀ bn, blkno V2 A1 bn = blkno V1 A1 bn) ∧ (∀ b, b ≠ 3 → V2 b = V1 b) ∧
  ∀ n fo, (fo + n ≤ 16)%nat → ifield n fo V2 i = ifield n fo V i.
Proof.
  intros Hk F1 Ho. pose proof bump_range as Ha.
  assert (EA : iaddrs V2 i = A1).
  { unfold V2. rewrite poke_addr by (done || apply alloc_len || lia). unfold A1, A. by rewrite !iaddrs_dnode, alloc_dnode. }
  assert (E2 : ∀ b, b ≠ 3 → V2 b = V1 b) by (intros b Hb3; by apply poke_blk).
  assert (H13 : A1 !!! 13%nat ≠ 0 → V2 (A1 !!! 13%nat) = V1 (A1 !!! 13%nat)).
  { intros Hne. apply E2. by destruct (fo_ind _ _ _ _ _ F1 Hne) as (_ & _ & ? & _). }
  assert (Eb : ∀ bn, blkno V2 A1 bn = blkno V1 A1 bn) by (intros bn; by apply blkno_ext).
  split_and?; [|done|done|done|].
  - apply (grow_ok i s V2); try done; fold V a.
    + intros b. apply poke_length; [done|lia|apply alloc_len|apply alloc_len].
    + rewrite E2 by done. apply alloc_blk; lia.
    + intros b Hb0. unfold used. rewrite E2 by done. apply (fr_used _ _ _ _ _ (bump_fresh s O Hb) b Hb0).
    + intros b Hba. rewrite E2 by lia. by apply alloc_above.
    + intros j Hj Hne. unfold V2. rewrite poke_dnode by (done || apply alloc_len || lia). by apply alloc_dnode.
    + rewrite EA. apply (file_ok_ext V1); [done|done|]. intros x Hx. pose proof (owned_data _ _ _ F1 Hx) as (_ & _ & Hx3 & Hu & Hlx).
      split; [|by rewrite E2]. unfold used. by rewrite E2.
    + intros x. rewrite EA. rewrite (owned_ext' V1) by done. apply Ho.
    + intros b Hbr _. rewrite E2 by lia. apply alloc_blk; lia.
  - intros n fo Hf. unfold V2. rewrite poke_field_ne by (done || apply alloc_len || lia).
    rewrite !ifield_dnode by lia. by rewrite alloc_dnode.
Qed.

(** [a[bn] = balloc()] in the indirect block. *)
Lemma entry_ok bn (ind := A !!! 13%nat) (V2 := <[ind := set_le 8 (8 * Z.to_nat (bn - NDIRECT)) a (V1 ind)]> V1) :
  NDIRECT ≤ bn < MAXFILEBLK → ind ≠ 0 → blkno V A bn = 0 →
  on_file i s (set_disk (λ _, V2) (with_block s)) ∧ iaddrs V2 i = A ∧
  (∀ b, bn_ok b → blkno V2 A b = if decide (b = bn) then a else blkno V A b) ∧
  (∀ b, b ≠ a → b ≠ 2 → b ≠ ind → V2 b = V b) ∧ V2 a = zero_block.
Proof.
  intros Hbn Hne H0. pose proof bump_range as Ha.
  assert (Hind : owned V A ind) by (split; [done|by left]). destruct (owned_ne _ Hind) as (Hi1 & Hi2 & Hi3).
  pose proof (owned_bump _ _ _ O Hi Hind) as Hib. fold a in Hib.
  pose proof (extend_entry NBLOCKS 2 3 V A a A_file (bump_fresh s O Hb) bn Hbn Hne H0) as E. cbv zeta in E.
  change (splice (8 * Z.to_nat (bn - NDIRECT)) (le_put 8 a)) with (set_le 8 (8 * Z.to_nat (bn - NDIRECT)) a) in E.
  fold V1 ind V2 in E. destruct E as (F2 & Hblk & Hkeep & Hza & Hu).
  assert (E2 : ∀ b, b ≠ ind → V2 b = V1 b) by (intros b Hbi; unfold V2; by rewrite fn_lookup_insert_ne).
  assert (Ed : ∀ j, in_table j → dnode V2 j = dnode V j).
  { intros j Hj. unfold dnode. rewrite ino_blk_3 by done. rewrite E2 by done. rewrite alloc_blk; [done|lia|done]. }
  assert (EA : iaddrs V2 i = A) by (unfold A; by rewrite !iaddrs_dnode, Ed).
  split_and?; try done. apply (grow_ok i s V2); try done; fold V a.
  - intros b. unfold V2. destruct (decide (b = ind)) as [->|]; [|rewrite fn_lookup_insert_ne by done; apply alloc_len].
    rewrite fn_lookup_insert, set_le_length; [apply alloc_len|]. rewrite alloc_len. ksize. lia.
  - rewrite E2 by lia. apply alloc_blk; lia.
  - intros b Hb0. rewrite Hu. apply (fr_used _ _ _ _ _ (bump_fresh s O Hb) b Hb0).
  - intros b Hba. rewrite E2 by lia. by apply alloc_above.
  - intros j Hj _. by apply Ed.
  - by rewrite EA.
  - intros x. rewrite EA. intros (Hx & [->|(b & Hb0 & <-)]); [left; by split; [|left]|]. rewrite Hblk in Hx |- * by done.
    case_decide; [by right|]. left. split; [done|]. right. by exists b.
  - intros b Hbr Hno. rewrite E2 by (intros ->; by apply Hno). apply alloc_blk; lia.
Qed.
End Slot.

(** More blocks for file [i], none of them changed. *)
Record extends (i : Z) (s s' : mkfs) : Prop := {
  ex_on : on_file i s s';
  ex_head : ∀ n fo, (fo + n ≤ 16)%nat → ifield n fo (disk s') i = ifield n fo (disk s) i;
  ex_keep : ∀ bn, bn_ok bn → blkno (disk s) (iaddrs (disk s) i) bn ≠ 0 →
    blkno (disk s') (iaddrs (disk s') i) bn = blkno (disk s) (iaddrs (disk s) i) bn ∧
    disk s' (blkno (disk s) (iaddrs (disk s) i) bn) = disk s (blkno (disk s) (iaddrs (disk s) i) bn);
  ex_new : ∀ bn, bn_ok bn → blkno (disk s) (iaddrs (disk s) i) bn = 0 →
    blkno (disk s') (iaddrs (disk s') i) bn ≠ 0 → disk s' (blkno (disk s') (iaddrs (disk s') i) bn) = zero_block
}.
Lemma extends_refl i s : image_ok s → extends i s s.
Proof. intros O. split; [by apply on_file_refl|done|done|]. intros bn _ -> H. done. Qed.
Lemma extends_trans i s1 s2 s3 : extends i s1 s2 → extends i s2 s3 → extends i s1 s3.
Proof.
  intros [A1 B1 C1 D1] [A2 B2 C2 D2]. split.
  - by eapply on_file_trans.
  - intros n fo H. by rewrite B2, B1.
  - intros bn Hb H. destruct (C1 bn Hb H) as [E1 F1]. destruct (C2 bn Hb) as [E2 F2]; [by rewrite E1|]. rewrite E1 in E2, F2. by rewrite E2, F2, F1.
  - intros bn Hb H Hn. destruct (decide (blkno (disk s2) (iaddrs (disk s2) i) bn = 0)) as [E|E]; [by apply D2|].
    destruct (C2 bn Hb E) as [-> ->]. by apply D1.
Qed.

Lemma in_disk_data s i a : image_ok s → in_table i → owned (disk s) (iaddrs (disk s) i) a → in_disk a = true.
Proof.
  intros O Hi Ha. pose proof (owned_bump _ _ _ O Hi Ha). pose proof (ok_bump _ O). unfold in_disk. rewrite !bool_decide_true by lia. done.
Qed.

Section Bmap.
Context (i : Z) (s : mkfs) (O : image_ok s) (Hi : in_table i) (Hal : i < dialloc_bump s).

(** [addrs[k]] gets a block; block [bn] of the file is in slot [k] or nowhere. *)
Lemma slot_extends k (A := iaddrs (disk s) i) (a := balloc_bump s) (s' := set_disk (poke 8 (16 + 8 * k) i a) (with_block s)) :
  a < NBLOCKS → (k < 14)%nat → A !!! k = 0 →
  extends i s s' ∧ iaddrs (disk s') i !!! k = a ∧ balloc_bump s' = a + 1.
Proof.
  intros Hb Hk H0. pose proof (bump_range s O) as Ha. set (V1 := allocated a 2 (disk s)). set (A1 := <[k := a]> A).
  assert (HA1 : A1 !!! k = a) by (apply list_lookup_total_insert_eq; unfold A; rewrite iaddrs_length; lia).
  assert (Hext : file_ok NBLOCKS 2 3 V1 A1 ∧ (∀ x, owned V1 A1 x → owned (disk s) A x ∨ x = a) ∧
    (∀ bn, bn_ok bn → blkno V1 A1 bn = blkno (disk s) A bn ∨ blkno (disk s) A bn = 0 ∧ blkno V1 A1 bn = a)).
  { destruct (decide (k = 13%nat)) as [->|Hk13].
    - destruct (extend_ind NBLOCKS 2 3 (disk s) A a (A_file i s O Hi) (bump_fresh s O Hb) H0) as [F Hbl]. fold V1 A1 in F, Hbl.
      split_and?; [done| |intros bn Hbn; left; by apply Hbl].
      intros x (Hx & [->|(b & Hb0 & E)]); [right; exact HA1|]. left. rewrite Hbl in E by done. subst x. split; [done|right; by exists b].
    - destruct (extend_direct NBLOCKS 2 3 (disk s) A a (A_file i s O Hi) (bump_fresh s O Hb) (Z.of_nat k)) as [F Hbl]; [ksize; lia|by rewrite Nat2Z.id|].
      rewrite Nat2Z.id in F, Hbl. fold V1 A1 in F, Hbl.
      assert (E13 : A1 !!! 13%nat = A !!! 13%nat) by (apply list_lookup_total_insert_ne; done).
      split_and?; [done| |].
      + intros x (Hx & [->|(b & Hb0 & E)]); [left; rewrite E13 in Hx |- *; by split; [|left]|].
        rewrite Hbl in E by done. case_decide; [by right|]. left. subst x. split; [done|right; by exists b].
      + intros bn Hbn. rewrite Hbl by done. case_decide as E; [|by left]. right. subst bn. split; [|done].
        unfold blkno. rewrite decide_True by (ksize; lia). by rewrite Nat2Z.id. }
  destruct Hext as (F & Hown & Hbl). destruct (slot_ok i s O Hi Hal Hb k Hk F Hown) as (S & EA & Eb & E2 & Hh). fold a in S, EA, Eb, E2, Hh. fold V1 A in S, EA, Eb, E2, Hh. fold A1 in S, EA, Eb, E2, Hh.
  split; [|split; [|done]].
  2:{ change (iaddrs (poke 8 (16 + 8 * k) i a V1) i !!! k = a). by rewrite EA. }
  assert (Hza : V1 a = zero_block) by (apply fn_lookup_insert).
  split; [exact S|exact Hh|..]; change (disk s') with (poke 8 (16 + 8 * k) i a V1); fold A.
  - intros bn Hbn Hne. rewrite EA, Eb. destruct (Hbl bn Hbn) as [->|[? _]]; [|done].
    assert (Ho : owned (disk s) A (blkno (disk s) A bn)) by (split; [done|right; by exists bn]).
    destruct (owned_ne i s O Hi _ Ho) as (? & ? & ?). split; [done|]. rewrite E2 by done. by apply alloc_blk.
  - intros bn Hbn H. rewrite EA, Eb. destruct (Hbl bn Hbn) as [->|[_ ->]]; [by rewrite H|]. intros _. rewrite E2 by (unfold a; lia). done.
Qed.

Lemma entry_extends bn (A := iaddrs (disk s) i) (a := balloc_bump s)
    (s' := set_disk (λ V, <[A !!! 13%nat := set_le 8 (8 * Z.to_nat (bn - NDIRECT)) a (V (A !!! 13%nat))]> V) (with_block s)) :
  a < NBLOCKS → NDIRECT ≤ bn < MAXFILEBLK → A !!! 13%nat ≠ 0 → blkno (disk s) A bn = 0 →
  extends i s s' ∧ blkno (disk s') (iaddrs (disk s') i) bn = a ∧ balloc_bump s' = a + 1.
Proof.
  intros Hb Hbn Hne H0. destruct (entry_ok i s O Hi Hal Hb bn Hbn Hne H0) as (S & EA & Hbl & E2 & Hza). fold A a in S, EA, Hbl, E2, Hza.
  set (V2 := <[A !!! 13%nat := _]> _) in S, EA, Hbl, E2, Hza. change (disk s') with V2. rewrite EA.
  assert (bn_ok bn) as Hok by (unfold bn_ok; ksize; lia).
  split; [|split; [rewrite Hbl by done; by rewrite decide_True|done]].
  split; [exact S| | |]; change (disk s') with V2; fold A; rewrite ?EA.
  - intros n fo Hf. rewrite !ifield_dnode by lia. f_equal. unfold dnode. rewrite ino_blk_3 by done. rewrite E2; [done|pose proof (bump_range s O); unfold a; lia|done|].
    assert (Ho : owned (disk s) A (A !!! 13%nat)) by (split; [done|by left]). destruct (owned_ne i s O Hi _ Ho) as (_ & _ & ?). congruence.
  - intros b Hb0 Hnb. rewrite Hbl by done. rewrite decide_False by (intros ->; done). split; [done|].
    assert (Ho : owned (disk s) A (blkno (disk s) A b)) by (split; [done|right; by exists b]). destruct (owned_ne i s O Hi _ Ho) as (? & ? & ?).
    apply E2; [done|done|]. by apply (fo_ind_ne _ _ _ _ _ (A_file i s O Hi)).
  - intros b Hb0 H. rewrite Hbl by done. case_decide; [by intros _|by rewrite H].
Qed.
End Bmap.

Lemma ind_run i s (A := iaddrs (disk s) i) : image_ok s → in_table i → i < dialloc_bump s →
  (A !!! 13%nat = 0 → balloc_bump s < NBLOCKS) →
  wp ((let! addr := ino_get 8 (F_addr NDIRECT) i in
       if bool_decide (addr = 0) then
         let! addr := balloc in
         ino_set 8 (F_addr NDIRECT) i addr ;;;
         ret addr
       else ret addr) s)
    (λ ind s', extends i s s' ∧ ind ≠ 0 ∧ ind = iaddrs (disk s') i !!! 13%nat ∧
       balloc_bump s' = balloc_bump s + (if decide (A !!! 13%nat = 0) then 1 else 0)).
Proof.
  intros O Hi Hal Hb. rewrite (bind_done _ _ _ _ _ (ino_get_run 8 (F_addr NDIRECT) i s Hi)).
  rewrite <- (iaddrs_lookup _ _ NDIRECT) by (ksize; lia). change (Z.to_nat NDIRECT) with 13%nat. fold A.
  case_bool_decide as E.
  - specialize (Hb E). rewrite (bind_done _ _ _ _ _ (balloc_run s O Hb)). rewrite (bind_done _ _ _ _ _ (ino_set_run 8 (F_addr NDIRECT) i _ _ Hi)).
    ksteps. change (F_addr NDIRECT) with (16 + 8 * 13)%nat.
    destruct (slot_extends i s O Hi Hal 13 Hb ltac:(lia) E) as (X & E13 & Eb). pose proof (ok_bump _ O).
    split_and?; [done|lia|done|]. by rewrite decide_True.
  - ksteps. split_and?; [by apply extends_refl|done|done|]. rewrite decide_False by done. lia.
Qed.

Lemma entry_run i bn s (A := iaddrs (disk s) i) : image_ok s → in_table i → i < dialloc_bump s →
  NDIRECT ≤ bn < MAXFILEBLK → A !!! 13%nat ≠ 0 → (blkno (disk s) A bn = 0 → balloc_bump s < NBLOCKS) →
  wp ((let! a := get_blk (A !!! 13%nat) in
       let entry := get_le 8 (8 * Z.to_nat (bn - NDIRECT)) a in
       if bool_decide (entry = 0) then
         let! entry := balloc in
         upd_blk (A !!! 13%nat) (set_le 8 (8 * Z.to_nat (bn - NDIRECT)) entry) ;;;
         ret entry
       else ret entry) s)
    (λ a s', extends i s s' ∧ a ≠ 0 ∧ a = blkno (disk s') (iaddrs (disk s') i) bn ∧
       balloc_bump s' = balloc_bump s + (if decide (blkno (disk s) A bn = 0) then 1 else 0)).
Proof.
  intros O Hi Hal Hbn H13 Hb.
  assert (Hind : in_disk (A !!! 13%nat) = true) by (apply (in_disk_data s i); [done|done|split; [done|by left]]).
  assert (Eblk : blkno (disk s) A bn = get_le 8 (8 * Z.to_nat (bn - NDIRECT)) (disk s (A !!! 13%nat))).
  { unfold blkno. rewrite decide_False by lia. by rewrite decide_False. }
  unfold bind at 1, get_blk. rewrite Hind. cbn [rbind]. cbv zeta. rewrite <- Eblk. case_bool_decide as E.
  - specialize (Hb E). rewrite (bind_done _ _ _ _ _ (balloc_run s O Hb)). unfold bind at 1, upd_blk. rewrite Hind. cbn [rbind]. ksteps.
    destruct (entry_extends i s O Hi Hal bn Hb Hbn H13 E) as (X & En & Eb). pose proof (ok_bump _ O).
    split_and?; [exact X|lia|symmetry; exact En|]. by rewrite decide_True.
  - ksteps. split_and?; [by apply extends_refl|done|done|]. rewrite decide_False by done. lia.
Qed.

Lemma bmap_run i bn s (A := iaddrs (disk s) i) : image_ok s → in_table i → i < dialloc_bump s → bn_ok bn →
  (blkno (disk s) A bn = 0 → balloc_bump s + 2 ≤ NBLOCKS) →
  wp (bmap i bn s) (λ a s', extends i s s' ∧ a ≠ 0 ∧ a = blkno (disk s') (iaddrs (disk s') i) bn ∧
    balloc_bump s' ≤ balloc_bump s + (if decide (blkno (disk s) A bn = 0) then 2 else 0)).
Proof.
  intros O Hi Hal Hbn Hroom. pose proof (ok_bump _ O). unfold bmap. case_bool_decide as Hd.
  - assert (Hk : (Z.to_nat bn < 14)%nat) by (unfold bn_ok in Hbn; ksize; lia).
    rewrite (bind_done _ _ _ _ _ (ino_get_run 8 (F_addr bn) i s Hi)).
    rewrite <- (iaddrs_lookup _ _ bn) by (unfold bn_ok in Hbn; ksize; lia). fold A.
    assert (Eblk : ∀ V B, blkno V B bn = B !!! Z.to_nat bn) by (intros; unfold blkno; by rewrite decide_True).
    rewrite Eblk in Hroom |- *. case_bool_decide as E.
    + assert (Hb : balloc_bump s < NBLOCKS) by (specialize (Hroom E); lia).
      rewrite (bind_done _ _ _ _ _ (balloc_run s O Hb)). rewrite (bind_done _ _ _ _ _ (ino_set_run 8 (F_addr bn) i _ _ Hi)).
      ksteps. destruct (slot_extends i s O Hi Hal (Z.to_nat bn) Hb Hk E) as (X & Ek & Eb).
      split_and?; [exact X|lia|rewrite Eblk; symmetry; exact Ek|]. rewrite decide_True by done. change (balloc_bump s + 1 ≤ balloc_bump s + 2). lia.
    + ksteps. split_and?; [by apply extends_refl|done|by rewrite Eblk|]. rewrite decide_False by done. lia.
  - assert (Hbn' : NDIRECT ≤ bn < MAXFILEBLK) by (unfold bn_ok in Hbn; ksize; lia).
    rewrite bool_decide_true by (ksize; lia). cbv zeta.
    assert (H13 : A !!! 13%nat = 0 → blkno (disk s) A bn = 0) by (intros E; unfold blkno; by rewrite decide_False, decide_True).
    pose proof (ind_run i s O Hi Hal ltac:(intros E; specialize (Hroom (H13 E)); lia)) as R.
    rewrite (bind_done _ _ _ _ _ (ino_get_run 8 (F_addr NDIRECT) i s Hi)) in R.
    rewrite (bind_done _ _ _ _ _ (ino_get_run 8 (F_addr NDIRECT) i s Hi)).
    apply wp_bind. eapply wp_mono; [exact R|]. fold A. cbv beta. intros ind s1 (X1 & Hne & -> & Eb1).
    assert (Hkeep : blkno (disk s) A bn ≠ 0 → blkno (disk s1) (iaddrs (disk s1) i) bn ≠ 0).
    { intros Hnz. by rewrite (proj1 (ex_keep _ _ _ X1 bn Hbn Hnz)). }
    eapply wp_mono; [apply (entry_run i bn s1)|]; try done.
    + apply (of_ok _ _ _ (ex_on _ _ _ X1)).
    + by rewrite (of_inos _ _ _ (ex_on _ _ _ X1)).
    + intros E. destruct (decide (blkno (disk s) A bn = 0)) as [E'|E']; [|by destruct (Hkeep E')].
      specialize (Hroom E'). destruct (decide (A !!! 13%nat = 0)); lia.
    + cbv beta. intros a s2 (X2 & Ha & Ea & Eb2). split_and?; [by eapply extends_trans|done|done|].
      destruct (decide (blkno (disk s) A bn = 0)) as [E'|E'].
      * destruct (decide (A !!! 13%nat = 0)), (decide (blkno (disk s1) (iaddrs (disk s1) i) bn = 0)); lia.
      * rewrite (decide_False (P := blkno (disk s1) _ bn = 0)) in Eb2 by auto.
        rewrite (decide_False (P := A !!! 13%nat = 0)) in Eb1 by (intros E; apply E', H13, E). lia.
Qed.

(** ** Writing *)
Lemma mk_store_run i s bn d (A := iaddrs (disk s) i) (a := blkno (disk s) A bn) (s' := set_disk (λ V, <[a := d]> V) s) :
  image_ok s → in_table i → bn_ok bn → a ≠ 0 → length d = BSIZE_nat →
  on_file i s s' ∧ iaddrs (disk s') i = A ∧ (∀ b, blkno (disk s') A b = blkno (disk s) A b) ∧
  (∀ n fo, (fo + n ≤ 16)%nat → ifield n fo (disk s') i = ifield n fo (disk s) i).
Proof.
  intros O Hi Hbn Ha Hd. pose proof (A_file i s O Hi) as F. assert (Ho : owned (disk s) A a) by (split; [done|right; by exists bn]).
  pose proof (owned_bump _ _ _ O Hi Ho) as Hr.
  assert (E : ∀ b, b ≠ a → disk s' b = disk s b) by (intros b Hb; unfold s'; simpl; by rewrite fn_lookup_insert_ne).
  assert (Ed : ∀ j, in_table j → dnode (disk s') j = dnode (disk s) j) by (intros j Hj; unfold dnode; rewrite ino_blk_3, E by (done || lia); done).
  assert (EA : ∀ j, in_table j → iaddrs (disk s') j = iaddrs (disk s) j) by (intros j Hj; by rewrite !iaddrs_dnode, Ed).
  assert (H13 : ∀ j, in_table j → iaddrs (disk s) j !!! 13%nat ≠ 0 → disk s' (iaddrs (disk s) j !!! 13%nat) = disk s (iaddrs (disk s) j !!! 13%nat)).
  { intros j Hj Hne. apply E. intros Eq. assert (Hoj : owned (disk s) (iaddrs (disk s) j) (iaddrs (disk s) j !!! 13%nat)) by (split; [done|by left]).
    assert (j = i) as ->. { eapply (ok_apart _ O); [done|done|exact Hoj|]. by rewrite Eq. }
    apply (fo_ind_ne _ _ _ _ _ F Hne bn Hbn). done. }
  assert (Eb : ∀ j b, in_table j → blkno (disk s') (iaddrs (disk s) j) b = blkno (disk s) (iaddrs (disk s) j) b) by (intros j b Hj; by apply blkno_ext, H13).
  assert (Hown : ∀ j x, in_table j → owned (disk s') (iaddrs (disk s') j) x ↔ owned (disk s) (iaddrs (disk s) j) x) by (intros j x Hj; rewrite EA by done; apply owned_ext'; intros b; by apply Eb).
  assert (Hlen : ∀ b, length (disk s' b) = BSIZE_nat).
  { intros b. destruct (decide (b = a)) as [->|Hne]; [unfold s'; simpl; by rewrite fn_lookup_insert|]. rewrite E by done. apply (ok_len _ O). }
  assert (Hu : ∀ b, used 2 (disk s') b = used 2 (disk s) b) by (intros b; unfold used; rewrite E by lia; done).
  split_and?; [|by apply EA|intros b; by apply Eb|intros n fo Hf; rewrite !ifield_dnode by lia; by rewrite Ed].
  split; try done; [|intros j Hj _; by apply Ed|intros b _ Hno; apply E; intros ->; done|intros x; rewrite Hown by done; by left].
  split.
  - done.
  - rewrite E by lia. apply O.
  - apply O.
  - intros b Hb. rewrite Hu. by apply (ok_used _ O).
  - intros b Hb. change (balloc_bump s ≤ b) in Hb. rewrite E by lia. by apply (ok_zero _ O).
  - apply O.
  - intros j Hj. change (dialloc_bump s ≤ j < 32) in Hj. pose proof (ok_inos _ O). rewrite Ed by (unfold in_table; lia). by apply (ok_new _ O).
  - intros j Hj. rewrite EA by done. apply (file_ok_ext (disk s)); [by apply ok_file|by apply H13|].
    intros x Hx. rewrite Hu. split; [|done]. by destruct (owned_data _ _ _ (ok_file _ O j Hj) Hx) as (_ & _ & _ & ? & _).
  - intros j x Hj Hx. rewrite Hown in Hx by done. by apply (ok_own _ O j).
  - intros j1 j2 x Hj1 Hj2 Hx1 Hx2. rewrite Hown in Hx1 by done. rewrite Hown in Hx2 by done. by eapply (ok_apart _ O).
Qed.

(** [bytes] written at [off] of file [i]. *)
Record wrote_at (i off : Z) (bytes : list byte) (s s' : mkfs) : Prop := {
  wa_on : on_file i s s';
  wa_head : ∀ n fo, (fo + n ≤ 16)%nat → ifield n fo (disk s') i = ifield n fo (disk s) i;
  wa_in : ∀ x, off ≤ x < off + Z.of_nat (length bytes) → blkno (disk s') (iaddrs (disk s') i) (x / BSIZE) ≠ 0 ∧
    fbyte (disk s') (iaddrs (disk s') i) x = default x00 (bytes !! Z.to_nat (x - off));
  wa_out : ∀ x, 0 ≤ x < MAXFILEBLK * BSIZE → blkno (disk s) (iaddrs (disk s) i) (x / BSIZE) ≠ 0 →
    ¬ (off ≤ x < off + Z.of_nat (length bytes)) → blkno (disk s') (iaddrs (disk s') i) (x / BSIZE) ≠ 0 ∧
    fbyte (disk s') (iaddrs (disk s') i) x = fbyte (disk s) (iaddrs (disk s) i) x
}.

Lemma wrote_at_nil i off s : image_ok s → wrote_at i off [] s s.
Proof. intros O. split; [by apply on_file_refl|done|simpl; lia|done]. Qed.

Lemma wrote_at_app i off b1 b2 s1 s2 s3 : 0 ≤ off → off + Z.of_nat (length b1) ≤ MAXFILEBLK * BSIZE →
  wrote_at i off b1 s1 s2 → wrote_at i (off + Z.of_nat (length b1)) b2 s2 s3 → wrote_at i off (b1 ++ b2) s1 s3.
Proof.
  intros H0 Hmax [A1 B1 C1 D1] [A2 B2 C2 D2]. split.
  - by eapply on_file_trans.
  - intros n fo Hf. by rewrite B2, B1.
  - rewrite length_app, Nat2Z.inj_add. intros x Hx. destruct (decide (x < off + Z.of_nat (length b1))) as [Hlt|Hge].
    + destruct (C1 x ltac:(lia)) as [Hb E]. destruct (D2 x) as [Hb' E']; [lia|done|lia|]. split; [done|]. rewrite E', E.
      rewrite lookup_app_l by lia. done.
    + destruct (C2 x ltac:(lia)) as [Hb E]. split; [done|]. rewrite E, lookup_app_r by lia. do 2 f_equal. lia.
  - rewrite length_app, Nat2Z.inj_add. intros x Hx Hb Hno. destruct (D1 x Hx Hb ltac:(lia)) as [Hb1 E1].
    destruct (D2 x Hx Hb1 ltac:(lia)) as [Hb2 E2]. split; [done|]. by rewrite E2.
Qed.

(** One turn of the loop: a chunk inside one block. *)
Lemma chunk_run i off bytes s : image_ok s → in_table i → i < dialloc_bump s → 0 ≤ off →
  (0 < length bytes)%nat → off `mod` BSIZE + Z.of_nat (length bytes) ≤ BSIZE → off + Z.of_nat (length bytes) ≤ MAXFILEBLK * BSIZE →
  balloc_bump s + 2 ≤ NBLOCKS →
  wp ((let! a := bmap i (off / BSIZE) in upd_blk a (splice (Z.to_nat (off `mod` BSIZE)) bytes)) s)
     (λ _ s', wrote_at i off bytes s s' ∧ balloc_bump s' ≤ balloc_bump s + 2).
Proof.
  intros O Hi Hal Ho Hl Hm Hmax Hroom. destruct (blk_div_mod off Ho) as (Hq & Eoff & Hr).
  assert (Hbn : bn_ok (off / BSIZE)) by (apply bn_ok_div; lia).
  apply wp_bind. eapply wp_mono; [apply (bmap_run i (off / BSIZE) s O Hi Hal Hbn); intros; lia|]. cbv beta.
  intros a s1 (X & Ha & Ea & Eb). pose proof (of_ok _ _ _ (ex_on _ _ _ X)) as O1.
  set (bn := off / BSIZE) in *. set (V1 := disk s1) in *. set (A1 := iaddrs V1 i) in *.
  assert (Hown : owned V1 A1 a) by (split; [done|right; exists bn; by split]).
  unfold upd_blk. rewrite (in_disk_data s1 i a O1 Hi Hown). apply (wp_ret tt).
  set (d := splice (Z.to_nat (off mod BSIZE)) bytes (V1 a)).
  assert (Hlen : length (V1 a) = BSIZE_nat) by apply (ok_len _ O1).
  assert (Hd : length d = BSIZE_nat) by (unfold d; rewrite splice_length; [done|rewrite Hlen; ksize; lia]).
  pose proof (mk_store_run i s1 bn d O1 Hi Hbn) as S. fold V1 A1 in S. rewrite <- Ea in S. destruct (S Ha Hd) as (S1 & SA & Sb & Sh). clear S.
  set (s2 := set_disk _ s1) in *.
  assert (E2 : ∀ b, b ≠ a → disk s2 b = V1 b) by (intros b Hb; unfold s2; simpl; by rewrite fn_lookup_insert_ne).
  assert (E2a : disk s2 a = d) by (unfold s2; simpl; by rewrite fn_lookup_insert).
  split; [|destruct (decide (blkno (disk s) (iaddrs (disk s) i) bn = 0)); change (balloc_bump s2) with (balloc_bump s1); lia].
  split.
  - eapply on_file_trans; [apply X|exact S1].
  - intros n fo Hf. rewrite Sh by done. by apply (ex_head _ _ _ X).
  - intros x Hx. rewrite SA. replace x with (off + (x - off)) at 1 2 by lia. unfold fbyte at 1.
    destruct (blk_add off (x - off)) as [-> ->]; [lia..|]. fold bn. rewrite Sb, <- Ea. split; [done|].
    rewrite E2a. unfold d. rewrite splice_lookup_in by (rewrite ?Hlen; ksize; lia). do 2 f_equal. lia.
  - intros x Hx Hb Hno. pose proof (bn_ok_div x ltac:(lia) ltac:(lia)) as Hxb. destruct (ex_keep _ _ _ X _ Hxb Hb) as [K1 K2]. fold V1 A1 in K1, K2.
    rewrite SA, Sb, K1. split; [done|]. unfold fbyte. rewrite Sb, K1. destruct (decide (x / BSIZE = bn)) as [Ex|Ex].
    + rewrite Ex in *. assert (Eq : blkno (disk s) (iaddrs (disk s) i) bn = a) by congruence. rewrite Eq in *. rewrite E2a, <- K2.
      unfold d. rewrite splice_lookup_out; [done|rewrite Hlen; ksize; lia|].
      destruct (blk_div_mod x) as (_ & Exx & Hxr); [lia|]. rewrite Ex in Exx. clear - Hno Exx Eoff Hr Hxr Ho. lia.
    + rewrite E2, K2; [done|]. rewrite Ea, <- K1. intros Eq. apply Ex. apply (fo_inj _ _ _ _ _ (A_file i s1 O1 Hi)); [done|done|fold V1 A1; by rewrite K1|done].
Qed.

Lemma wp_seq2 {A B C} (m : M mkfs A) (u : A → M mkfs B) (k : M mkfs C) s Q :
  wp (bind m u s) (λ _ s', wp (k s') Q) → wp (bind m (λ a, u a ;;; k) s) Q.
Proof.
  intros H. apply wp_bind. apply wp_bind_inv in H. eapply wp_mono; [exact H|]. intros a s1 H1. by apply wp_bind.
Qed.

(** Blocks that [r] bytes at [off] touch. *)
Definition touched (off r : Z) : Z := if decide (r ≤ 0) then 0 else (off `mod` BSIZE + r + (BSIZE - 1)) / BSIZE.

Lemma touched_pos off r : 0 ≤ off → 0 < r → 1 ≤ touched off r.
Proof.
  intros Ho Hr. unfold touched. rewrite decide_False by lia. pose proof (Z.mod_pos_bound off BSIZE ltac:(done)).
  apply Z.div_le_lower_bound; [done|]. lia.
Qed.
Lemma touched_nonneg off r : 0 ≤ off → 0 ≤ touched off r.
Proof. intros Ho. destruct (decide (r ≤ 0)); [unfold touched; by rewrite decide_True|]. pose proof (touched_pos off r Ho). lia. Qed.
Lemma touched_step off r (m := Z.min r (BSIZE - off `mod` BSIZE)) : 0 ≤ off → 0 < r → touched (off + m) (r - m) = touched off r - 1.
Proof.
  intros Ho Hr. destruct (blk_div_mod off Ho) as (_ & Eoff & Hm). unfold touched. rewrite (decide_False (P := r ≤ 0)) by lia.
  destruct (decide (r ≤ BSIZE - off `mod` BSIZE)) as [Hs|Hs].
  - rewrite decide_True by lia. apply Z.sub_move_0_r. symmetry. apply Z.sub_move_0_r.
    symmetry. apply Z.sub_move_0_r. enough ((off `mod` BSIZE + r + (BSIZE - 1)) / BSIZE = 1) by lia.
    symmetry. apply Z.div_unique with (r := off `mod` BSIZE + r - 1); lia.
  - subst m. rewrite Z.min_r, decide_False by lia.
    replace (off + (BSIZE - off `mod` BSIZE)) with ((off / BSIZE + 1) * BSIZE) by lia. rewrite Z.mod_mul by done.
    replace (off `mod` BSIZE + r + (BSIZE - 1)) with (0 + (r - (BSIZE - off `mod` BSIZE)) + (BSIZE - 1) + 1 * BSIZE) by lia.
    rewrite Z.div_add by done. lia.
Qed.

Lemma writei_loop_run i src n fuel : ∀ s off tot,
  image_ok s → in_table i → i < dialloc_bump s → 0 ≤ off → Z.of_nat (length src) = n → 0 ≤ tot ≤ n →
  off + (n - tot) ≤ MAXFILEBLK * BSIZE → touched off (n - tot) ≤ Z.of_nat fuel →
  balloc_bump s + 2 * touched off (n - tot) ≤ NBLOCKS →
  wp (writei_loop fuel i src off n tot s) (λ r s', r = (n, off + (n - tot)) ∧
    wrote_at i off (drop (Z.to_nat tot) src) s s' ∧ balloc_bump s' ≤ balloc_bump s + 2 * touched off (n - tot)).
Proof.
  induction fuel as [|fuel IH]; intros s off tot O Hi Hal Ho Hn Ht Hmax Hf Hroom; cbn [writei_loop].
  - case_bool_decide as E; [pose proof (touched_pos off (n - tot) Ho); lia|]. apply wp_ret.
    replace (n - tot) with 0 by lia. split_and?; [f_equal; lia|rewrite drop_ge by lia; by apply wrote_at_nil|].
    pose proof (touched_nonneg off 0 Ho). lia.
  - case_bool_decide as E.
    2:{ apply wp_ret. replace (n - tot) with 0 by lia. split_and?; [f_equal; lia|rewrite drop_ge by lia; by apply wrote_at_nil|].
        pose proof (touched_nonneg off 0 Ho). lia. }
    set (m := Z.min (n - tot) (BSIZE - off `mod` BSIZE)). pose proof (blk_div_mod off Ho) as (_ & _ & Hmr).
    assert (Hm : 0 < m ≤ n - tot ∧ off `mod` BSIZE + m ≤ BSIZE) by lia.
    pose proof (touched_pos off (n - tot) Ho ltac:(lia)). pose proof (touched_step off (n - tot) Ho ltac:(lia)) as Hts. fold m in Hts.
    set (bytes := slice (Z.to_nat tot) (Z.to_nat m) src).
    assert (Hl : Z.of_nat (length bytes) = m) by (unfold bytes; rewrite slice_length by lia; lia).
    apply wp_seq2. eapply wp_mono; [apply (chunk_run i off bytes s O Hi Hal Ho); lia|].
    intros _ s1 [W1 B1]. pose proof (wa_on _ _ _ _ _ W1) as S1.
    eapply wp_mono; [apply (IH s1 (off + m) (tot + m)); try done; try lia|].
    { apply (of_ok _ _ _ S1). }
    { by rewrite (of_inos _ _ _ S1). }
    { replace (n - (tot + m)) with (n - tot - m) by lia. lia. }
    { replace (n - (tot + m)) with (n - tot - m) by lia. lia. }
    intros r s2 (-> & W2 & B2). replace (n - (tot + m)) with (n - tot - m) in * by lia.
    split_and?; [f_equal; lia| |lia].
    replace (drop (Z.to_nat tot) src) with (bytes ++ drop (Z.to_nat (tot + m)) src).
    + eapply wrote_at_app; [done|lia|exact W1|]. by rewrite Hl.
    + unfold bytes, slice. rewrite Z2Nat.inj_add, <- drop_drop by lia. apply take_drop.
Qed.

(** ** Appending to a file *)
Section Head.
Context (n fo : nat) (i v : Z) (s : mkfs) (O : image_ok s) (Hi : in_table i) (Hf : (fo + n ≤ 16)%nat).
Let V' := poke n fo i v (disk s).

Lemma head_blk b : b ≠ 3 → V' b = disk s b.
Proof. intros Hb. by apply poke_blk. Qed.
Lemma head_addrs j : in_table j → iaddrs V' j = iaddrs (disk s) j.
Proof.
  intros Hj. destruct (decide (j = i)) as [->|Hne]; [apply poke_addrs_ne; [done|lia|apply (ok_len _ O)|done]|].
  rewrite !iaddrs_dnode. f_equal. apply poke_dnode; [done|lia|apply (ok_len _ O)|done|done].
Qed.
Lemma head_owned j a : in_table j → owned (disk s) (iaddrs (disk s) j) a → V' a = disk s a.
Proof. intros Hj Ha. pose proof (owned_bump _ _ _ O Hj Ha). apply head_blk. lia. Qed.
Lemma head_blkno j bn : in_table j → blkno V' (iaddrs V' j) bn = blkno (disk s) (iaddrs (disk s) j) bn.
Proof. intros Hj. rewrite head_addrs by done. apply blkno_ext. intros H. apply (head_owned j); [done|]. split; [done|by left]. Qed.
Lemma head_own j a : in_table j → owned V' (iaddrs V' j) a ↔ owned (disk s) (iaddrs (disk s) j) a.
Proof. intros Hj. unfold owned. setoid_rewrite head_blkno; [|done]. by rewrite head_addrs. Qed.
Lemma head_fbyte j x : in_table j → (blkno (disk s) (iaddrs (disk s) j) (x / BSIZE) ≠ 0) → bn_ok (x / BSIZE) →
  fbyte V' (iaddrs V' j) x = fbyte (disk s) (iaddrs (disk s) j) x.
Proof.
  intros Hj Hne Hb. unfold fbyte. rewrite head_blkno by done. rewrite (head_owned j); [done|done|]. split; [done|right; by eexists].
Qed.

Lemma head_image ib : dialloc_bump s ≤ ib ≤ 32 → i < ib → image_ok (mk_mkfs V' (balloc_bump s) ib).
Proof.
  intros Hib Hlt. pose proof (ok_inos _ O). split; cbn [disk balloc_bump dialloc_bump].
  - intros b. apply poke_length; [done|lia|apply (ok_len _ O)|apply (ok_len _ O)].
  - rewrite head_blk by done. apply O.
  - apply O.
  - intros b Hb. unfold used. rewrite head_blk by done. by apply (ok_used _ O).
  - intros b Hb. pose proof (ok_bump _ O). rewrite head_blk by lia. by apply (ok_zero _ O).
  - lia.
  - intros j Hj. unfold V'. rewrite poke_dnode; [apply (ok_new _ O); lia|done|lia|apply (ok_len _ O)|unfold in_table; lia|lia].
  - intros j Hj. rewrite head_addrs by done. apply (file_ok_ext (disk s)); [by apply ok_file| |].
    + intros H13. apply (head_owned j); [done|]. split; [done|by left].
    + intros a Ha. unfold used. rewrite head_blk by done. split; [by destruct (owned_data _ _ _ (ok_file _ O j Hj) Ha) as (_ & _ & _ & ? & _)|].
      apply poke_length; [done|lia|apply (ok_len _ O)|apply (ok_len _ O)].
  - intros j a Hj Ha. rewrite head_own in Ha by done. by apply (ok_own _ O j).
  - intros j1 j2 a Hj1 Hj2 Ha1 Ha2. rewrite head_own in Ha1 by done. rewrite head_own in Ha2 by done. by eapply (ok_apart _ O).
Qed.

Lemma head_run : i < dialloc_bump s → on_file i s (set_disk (poke n fo i v) s).
Proof.
  intros Hal. split; [apply head_image; [pose proof (ok_inos _ O); lia|done]|done|done| | |].
  - intros j Hj Hne. apply poke_dnode; [done|lia|apply (ok_len _ O)|done|done].
  - intros b Hb _. apply head_blk. lia.
  - intros a Ha. left. by apply head_own.
Qed.
End Head.

Lemma content_length V i : 0 ≤ isize V i → length (content V i) = Z.to_nat (isize V i).
Proof. intros H. unfold content, fbytes. by rewrite length_fmap, length_seqZ. Qed.

(** A file that is complete up to its size. *)
Record whole (V : store) (i : Z) : Prop := {
  wh_size : 0 ≤ isize V i ≤ MAXFILEBLK * BSIZE;
  wh_map : mapped V (iaddrs V i) (isize V i)
}.

Record appended (i : Z) (src : list byte) (k : Z) (s s' : mkfs) : Prop := {
  ap_on : on_file i s s';
  ap_head : ∀ n fo, (fo + n ≤ 8)%nat → ifield n fo (disk s') i = ifield n fo (disk s) i;
  ap_whole : whole (disk s') i;
  ap_content : content (disk s') i = content (disk s) i ++ src;
  ap_bump : balloc_bump s' ≤ balloc_bump s + k
}.

Lemma append_run i src s (size := isize (disk s) i) (n := Z.of_nat (length src)) :
  image_ok s → in_table i → i < dialloc_bump s → whole (disk s) i → 0 < n →
  size + n ≤ MAXFILEBLK * BSIZE → balloc_bump s + 2 * touched size n ≤ NBLOCKS →
  wp (writei i src size n s) (λ r s', r = n ∧ appended i src (2 * touched size n) s s').
Proof.
  intros O Hi Hal [Hs Hm] Hn Hmax Hroom. fold size in Hs, Hm. assert (Hbig : MAXFILEBLK * BSIZE < 2 ^ 64) by reflexivity.
  unfold writei. rewrite (bind_done _ _ _ _ _ (ino_get_run 8 F_size i s Hi)). fold (isize (disk s) i). fold size.
  rewrite u64_small by lia. rewrite !bool_decide_false by (lia || (change ((NDIRECT + NINDIRECT) * BSIZE) with (MAXFILEBLK * BSIZE); lia)). cbn [orb].
  apply wp_bind. eapply wp_mono; [apply (writei_loop_run i src n (rw_fuel n) s size 0 O Hi Hal); try (replace (n - 0) with n by lia); try lia; try done|].
  { unfold touched. rewrite decide_False by lia. destruct (blk_div_mod size ltac:(lia)) as (_ & _ & Hr).
    unfold rw_fuel. rewrite !Nat2Z.inj_succ, Z2Nat.id by (apply Z.div_pos; [lia|done]). apply Z.lt_succ_r, Z.div_lt_upper_bound; [done|].
    destruct (blk_div_mod n ltac:(lia)) as (_ & En & Hnr). lia. }
  cbv beta. replace (n - 0) with n by lia. rewrite drop_0. intros r s1 (-> & W & B). cbv beta iota. pose proof (wa_on _ _ _ _ _ W) as S1.
  pose proof (of_ok _ _ _ S1) as O1. rewrite !bool_decide_true by lia. cbn [andb].
  apply wp_bind. rewrite (ino_set_run 8 F_size i (size + n) s1 Hi). apply (wp_ret tt). ksteps. split; [done|].
  assert (Hf : (F_size + 8 ≤ 16)%nat) by (unfold F_size; lia). assert (Hal1 : i < dialloc_bump s1) by (by rewrite (of_inos _ _ _ S1)).
  set (s2 := set_disk _ s1). assert (Es : isize (disk s2) i = size + n).
  { change (ifield 8 F_size (poke 8 F_size i (size + n) (disk s1)) i = size + n). rewrite (poke_field 8 F_size i (size + n) (disk s1) Hi ltac:(lia) (ok_len _ O1 3)). apply Z.mod_small. change (256 ^ Z.of_nat 8) with (2 ^ 64). lia. }
  assert (Hin : ∀ x, 0 ≤ x < size + n → blkno (disk s1) (iaddrs (disk s1) i) (x / BSIZE) ≠ 0 ∧
    fbyte (disk s1) (iaddrs (disk s1) i) x = if decide (x < size) then fbyte (disk s) (iaddrs (disk s) i) x else default x00 (src !! Z.to_nat (x - size))).
  { intros x Hx. destruct (blk_div_mod x ltac:(lia)) as (Hq & Ex & Hxr). case_decide as Hlt.
    - apply (wa_out _ _ _ _ _ W); [lia|apply Hm; [done|lia]|lia].
    - apply (wa_in _ _ _ _ _ W). fold n. lia. }
  split.
  - eapply on_file_trans; [exact S1|]. by apply head_run.
  - intros k fo Hk. change (disk s2) with (poke 8 F_size i (size + n) (disk s1)). rewrite poke_field_ne by (apply (ok_len _ O1) || done || (unfold F_size; lia)).
    apply (wa_head _ _ _ _ _ W). lia.
  - split; rewrite Es; [lia|]. intros bn H0 Hlt. change (disk s2) with (poke 8 F_size i (size + n) (disk s1)).
    rewrite head_blkno by done. assert (0 ≤ bn * BSIZE) by (unfold BSIZE; lia). destruct (Hin (bn * BSIZE) ltac:(lia)) as [Hb _]. by rewrite Z.div_mul in Hb by done.
  - unfold content at 1. rewrite Es. rewrite fbytes_app by lia. rewrite Z.add_0_l. f_equal.
    + unfold content, fbytes. fold size. apply list_fmap_ext. intros k x Hk. apply lookup_seqZ in Hk as [-> Hk].
      destruct (Hin (0 + Z.of_nat k) ltac:(lia)) as [Hb E]. rewrite decide_True in E by lia. rewrite <- E.
      apply (head_fbyte 8 F_size i (size + n) s1 O1 Hi Hf i); [done|done|apply bn_ok_div; lia].
    + apply list_eq. intros k. unfold fbytes. rewrite list_lookup_fmap. destruct (decide (k < length src)%nat) as [Hk|Hk].
      * rewrite (proj2 (lookup_seqZ size n k (size + Z.of_nat k))) by lia. cbn [fmap option_fmap option_map].
        destruct (Hin (size + Z.of_nat k) ltac:(lia)) as [Hb E]. rewrite decide_False in E by lia.
        change (disk s2) with (poke 8 F_size i (size + n) (disk s1)). rewrite (head_fbyte 8 F_size i (size + n) s1 O1 Hi Hf i); [|done|done|apply bn_ok_div; lia].
        rewrite E. replace (Z.to_nat (size + Z.of_nat k - size)) with k by lia. by destruct (lookup_lt_is_Some_2 src k Hk) as [c ->].
      * rewrite lookup_seqZ_ge by lia. symmetry. apply lookup_ge_None_2. lia.
  - change (balloc_bump s2) with (balloc_bump s1). exact B.
Qed.

Lemma appended_trans i l1 l2 k1 k2 s1 s2 s3 : appended i l1 k1 s1 s2 → appended i l2 k2 s2 s3 → appended i (l1 ++ l2) (k1 + k2) s1 s3.
Proof.
  intros [A1 B1 C1 D1 E1] [A2 B2 C2 D2 E2]. split.
  - by eapply on_file_trans.
  - intros n fo Hf. by rewrite B2, B1.
  - done.
  - by rewrite D2, D1, app_assoc.
  - lia.
Qed.

(** ** Reading an entry *)
Lemma bmap_mapped_run i bn s : image_ok s → in_table i → bn_ok bn → blkno (disk s) (iaddrs (disk s) i) bn ≠ 0 →
  bmap i bn s = Done (blkno (disk s) (iaddrs (disk s) i) bn) s.
Proof.
  intros O Hi Hbn. unfold bmap, blkno. case_bool_decide as Hd.
  - rewrite decide_True by done. intros Hne. rewrite (bind_done _ _ _ _ _ (ino_get_run 8 (F_addr bn) i s Hi)).
    rewrite <- (iaddrs_lookup _ _ bn) by (unfold bn_ok in Hbn; ksize; lia). by rewrite bool_decide_false.
  - rewrite decide_False by done. rewrite bool_decide_true by (unfold bn_ok in Hbn; ksize; lia).
    case_decide as E; [done|]. intros Hne. rewrite (bind_done _ _ _ _ _ (ino_get_run 8 (F_addr NDIRECT) i s Hi)).
    rewrite <- (iaddrs_lookup _ _ NDIRECT) by (ksize; lia). change (Z.to_nat NDIRECT) with 13%nat.
    rewrite bool_decide_false, bind_ret_l by done. unfold bind at 1, get_blk. rewrite (in_disk_data s i) by (done || (split; [done|by left])).
    cbn [rbind]. by rewrite bool_decide_false.
Qed.

Lemma readi_run i off n s : image_ok s → in_table i → whole (disk s) i → 0 ≤ off → 0 < n → off + n ≤ isize (disk s) i →
  off `mod` BSIZE + n ≤ BSIZE → readi i off n s = Done (n, slice (Z.to_nat off) (Z.to_nat n) (content (disk s) i)) s.
Proof.
  intros O Hi [Hs Hm] Ho Hn Hle Hch. assert (Hbig : MAXFILEBLK * BSIZE < 2 ^ 64) by reflexivity. destruct (blk_div_mod off Ho) as (_ & Eo & Hr).
  unfold readi. rewrite (bind_done _ _ _ _ _ (ino_get_run 8 F_size i s Hi)). fold (isize (disk s) i).
  rewrite u64_small by lia. rewrite !bool_decide_false by lia. cbn [orb]. unfold rw_fuel. cbn [readi_loop].
  rewrite bool_decide_true by lia. assert (Hbn : bn_ok (off / BSIZE)) by (apply bn_ok_div; lia).
  assert (Hb : blkno (disk s) (iaddrs (disk s) i) (off / BSIZE) ≠ 0) by (apply Hm; [apply Hbn|lia]).
  rewrite (bind_done _ _ _ _ _ (bmap_mapped_run i _ s O Hi Hbn Hb)).
  unfold bind at 1, get_blk. rewrite (in_disk_data s i) by (done || (split; [done|right; by eexists])). cbn [rbind].
  replace (Z.min (n - 0) (BSIZE - off `mod` BSIZE)) with n by lia. rewrite Z.add_0_l. rewrite fbytes_chunk by (lia || done || apply (ok_len _ O)).
  rewrite bool_decide_false by lia. unfold ret. cbn [app]. do 2 f_equal.
  unfold content. apply (fbytes_slice _ _ (isize (disk s) i)); lia.
Qed.

(** ** Directories *)

(** A directory without free entries. *)
Definition full_dir (V : store) (i : Z) (es : list (list byte)) : Prop :=
  content V i = concat es ∧ Forall (λ e, length e = 32%nat ∧ de_inum e ≠ 0) es.

Lemma concat_slice (es : list (list byte)) k e : Forall (λ e, length e = 32%nat ∧ de_inum e ≠ 0) es → es !! k = Some e → slice (32 * k) 32 (concat es) = e.
Proof.
  intros H. revert k. induction H as [|x es [Hx _] _ IH]; intros k; [done|]. destruct k as [|k]; simpl concat.
  - intros [= ->]. unfold slice. rewrite Nat.mul_0_r, drop_0. by apply take_app_length'.
  - intros Hk. rewrite <- (IH k Hk). unfold slice. replace (32 * S k)%nat with (length x + 32 * k)%nat by lia. by rewrite drop_app_add.
Qed.
Lemma concat_length32 (es : list (list byte)) : Forall (λ e, length e = 32%nat ∧ de_inum e ≠ 0) es → length (concat es) = (32 * length es)%nat.
Proof. induction 1 as [|x es [Hx _] _ IH]; [done|]. simpl. rewrite length_app, Hx, IH. lia. Qed.

Lemma full_dir_size V i es : whole V i → full_dir V i es → isize V i = 32 * Z.of_nat (length es).
Proof.
  intros [Hs _] [Ec Hes]. pose proof (content_length V i ltac:(lia)) as Hl. rewrite Ec, concat_length32 in Hl by done. lia.
Qed.

Lemma dir_slot_run i es s fuel : ∀ k, image_ok s → in_table i → whole (disk s) i → full_dir (disk s) i es →
  (k ≤ length es ≤ k + fuel)%nat → dir_slot fuel i (32 * Z.of_nat k) s = Done (isize (disk s) i) s.
Proof.
  intros k O Hi W D Hk. pose proof (full_dir_size _ _ _ W D) as Es. destruct D as [Ec Hes]. revert k Hk.
  induction fuel as [|fuel IH]; intros k Hk; cbn [dir_slot]; rewrite (bind_done _ _ _ _ _ (ino_get_run 8 F_size i s Hi)); fold (isize (disk s) i); rewrite Es.
  - rewrite bool_decide_false by lia. unfold ret. do 2 f_equal. lia.
  - case_bool_decide as E; [|unfold ret; do 2 f_equal; lia].
    destruct (lookup_lt_is_Some_2 es k ltac:(lia)) as [e He]. pose proof (proj1 (Forall_lookup _ _) Hes k e He) as [Hl Hne].
    change DIRENT_SIZE with 32 in *. assert (Hch : (32 * Z.of_nat k) `mod` BSIZE + 32 ≤ BSIZE).
    { change BSIZE with (32 * 128). rewrite Z.mul_mod_distr_l by lia. pose proof (Z.mod_pos_bound (Z.of_nat k) 128). lia. }
    assert (R := readi_run i (32 * Z.of_nat k) 32 s O Hi W ltac:(lia) ltac:(lia) ltac:(lia) Hch).
    rewrite (bind_done _ _ _ _ _ R). cbn [fst snd]. rewrite bool_decide_false by (intros Hc; by apply Hc).
    rewrite Ec. replace (Z.to_nat (32 * Z.of_nat k)) with (32 * k)%nat by lia. change (Z.to_nat 32) with 32%nat.
    rewrite (concat_slice es k e Hes He). rewrite bool_decide_false by done. replace (32 * Z.of_nat k + 32) with (32 * Z.of_nat (S k)) by lia.
    rewrite IH by lia. by rewrite Es.
Qed.

Lemma de_inum_bytes inum nm : 0 ≤ inum < 2 ^ 64 → de_inum (dirent_bytes inum nm) = inum.
Proof.
  intros H. unfold de_inum, dirent_bytes, get_le, slice. rewrite drop_0, take_app_length' by (by rewrite le_put_length).
  rewrite le_get_put. change (256 ^ Z.of_nat 8) with (2 ^ 64). by apply Z.mod_small.
Qed.

Lemma mk_dir_link_run i name nm inum es s : image_ok s → in_table i → i < dialloc_bump s → whole (disk s) i → full_dir (disk s) i es →
  strncpy name DIRSIZ = Some nm → 0 < inum < 2 ^ 64 → (length es < 100)%nat → balloc_bump s + 2 ≤ NBLOCKS →
  wp (dir_link i name inum s) (λ _ s', appended i (dirent_bytes inum nm) 2 s s' ∧ full_dir (disk s') i (es ++ [dirent_bytes inum nm])).
Proof.
  intros O Hi Hal W D En Hin Hes Hroom. pose proof (full_dir_size _ _ _ W D) as Es. pose proof (strncpy_length _ _ _ En) as Hnl.
  assert (Hl : length (dirent_bytes inum nm) = 32%nat) by (unfold dirent_bytes; by rewrite length_app, le_put_length, Hnl).
  unfold dir_link. rewrite (bind_done _ _ _ _ _ (ino_get_run 8 F_size i s Hi)). fold (isize (disk s) i).
  assert (R : dir_slot (S (Z.to_nat (isize (disk s) i / DIRENT_SIZE))) i 0 s = Done (isize (disk s) i) s).
  { apply (dir_slot_run i es s _ 0); [done..|]. rewrite Es. change DIRENT_SIZE with 32. rewrite Z.mul_comm, Z.div_mul by lia. lia. }
  rewrite (bind_done _ _ _ _ _ R), En.
  assert (Hch : touched (isize (disk s) i) 32 = 1).
  { unfold touched. rewrite Es, decide_False by lia. assert (Hc : (32 * Z.of_nat (length es)) `mod` BSIZE + 32 ≤ BSIZE).
    { change BSIZE with (32 * 128). rewrite Z.mul_mod_distr_l by lia. pose proof (Z.mod_pos_bound (Z.of_nat (length es)) 128). lia. }
    pose proof (Z.mod_pos_bound (32 * Z.of_nat (length es)) BSIZE ltac:(done)). symmetry.
    apply Z.div_unique with (r := (32 * Z.of_nat (length es)) `mod` BSIZE + 31); lia. }
  apply wp_bind. change DIRENT_SIZE with 32.
  pose proof (append_run i (dirent_bytes inum nm) s O Hi Hal W) as A. rewrite Hl in A. change (Z.of_nat 32) with 32 in A. rewrite Hch in A.
  eapply wp_mono; [apply A|]; [lia|rewrite Es; change (MAXFILEBLK * BSIZE) with 2150400; lia|lia|].
  intros r s' [-> AP]. cbv beta. rewrite bool_decide_false by (intros Hc; by apply Hc). apply wp_ret. split; [exact AP|].
  destruct D as [Ec HF]. split.
  - rewrite (ap_content _ _ _ _ _ AP), Ec, concat_app. simpl. by rewrite app_nil_r.
  - apply Forall_app. split; [done|]. apply Forall_singleton. split; [done|]. rewrite de_inum_bytes by lia. lia.
Qed.

(** ** Copying a file of the host *)
Definition file_blocks (l : list byte) : Z := 2 * (Z.of_nat (length l) / BSIZE + 1).

Lemma appended_nil i s : image_ok s → whole (disk s) i → appended i [] 0 s s.
Proof. intros O W. split; [by apply on_file_refl|done|done|by rewrite app_nil_r|lia]. Qed.
Lemma appended_more i l k k' s s' : k ≤ k' → appended i l k s s' → appended i l k' s s'.
Proof. intros Hk [A B C D E]. split; [done..|lia]. Qed.
Lemma appended_size i l k s s' : 0 ≤ isize (disk s) i → appended i l k s s' → isize (disk s') i = isize (disk s) i + Z.of_nat (length l).
Proof.
  intros H0 AP. pose proof (wh_size _ _ (ap_whole _ _ _ _ _ AP)) as [Hs _].
  pose proof (content_length (disk s') i Hs) as E. rewrite (ap_content _ _ _ _ _ AP), length_app, content_length in E by done. lia.
Qed.

(** One [fread] and its [writei]. *)
Lemma file_chunk_run i buf off s (n := Z.of_nat (length buf)) : image_ok s → in_table i → i < dialloc_bump s → whole (disk s) i →
  off = isize (disk s) i → off `mod` BSIZE = 0 → n ≤ BSIZE → off + n ≤ MAXFILEBLK * BSIZE → balloc_bump s + 2 ≤ NBLOCKS →
  wp ((if bool_decide (0 < n) then let! r := writei i buf off n in ret (bool_decide (r = n)) else ret true) s)
     (λ ok s', ok = true ∧ appended i buf 2 s s').
Proof.
  intros O Hi Hal W -> Hm Hn Hmax Hroom. case_bool_decide as E.
  - assert (Et : touched (isize (disk s) i) n = 1).
    { unfold touched. rewrite decide_False, Hm by lia. symmetry. apply Z.div_unique with (r := n - 1); lia. }
    apply wp_bind. pose proof (append_run i buf s O Hi Hal W) as A. cbv zeta in A. fold n in A. rewrite Et in A.
    eapply wp_mono; [apply A; lia|]. intros r s' [-> AP]. apply wp_ret. split; [by apply bool_decide_eq_true|exact AP].
  - apply wp_ret. split; [done|]. assert (buf = []) as -> by (apply nil_length_inv; lia). eapply appended_more; [|by apply appended_nil]. lia.
Qed.

Lemma file2i_loop_run i fuel : ∀ rest off s, image_ok s → in_table i → i < dialloc_bump s → whole (disk s) i →
  off = isize (disk s) i → off `mod` BSIZE = 0 → Z.of_nat (length rest) < (Z.of_nat fuel + 1) * BSIZE →
  off + Z.of_nat (length rest) ≤ MAXFILEBLK * BSIZE → balloc_bump s + file_blocks rest ≤ NBLOCKS →
  wp (file2i_loop fuel i rest off s) (λ r s', r = 0 ∧ appended i rest (file_blocks rest) s s').
Proof.
  induction fuel as [|fuel IH]; intros rest off s O Hi Hal W Eo Hm Hf Hmax Hroom; cbn [file2i_loop];
    assert (Hb : Z.of_nat BSIZE_nat = BSIZE) by done; assert (HB : BSIZE = 4096) by done; set (buf := take BSIZE_nat rest); set (n := Z.of_nat (length buf));
    assert (En : n = Z.min BSIZE (Z.of_nat (length rest))) by (unfold n, buf; rewrite length_take, Nat2Z.inj_min; lia);
    assert (0 ≤ Z.of_nat (length rest) / BSIZE) by (apply Z.div_pos; lia);
    apply wp_bind; (eapply wp_mono; [apply (file_chunk_run i buf off s); (done || (fold n; lia) || (unfold file_blocks in Hroom; lia))|]);
    intros ok s1 [-> AP]; cbn [negb].
  - rewrite bool_decide_true by lia. apply wp_ret. split; [done|].
    assert (Eb : buf = rest) by (apply take_ge; lia). rewrite Eb in AP. eapply appended_more; [|exact AP]. unfold file_blocks. rewrite Z.div_small; lia.
  - case_bool_decide as E.
    + apply wp_ret. split; [done|].
      assert (Eb : buf = rest) by (apply take_ge; lia). rewrite Eb in AP. eapply appended_more; [|exact AP]. unfold file_blocks. rewrite Z.div_small; lia.
    + set (rest' := drop BSIZE_nat rest). assert (El : Z.of_nat (length rest) = Z.of_nat (length rest') + 1 * BSIZE) by (unfold rest'; rewrite length_drop; lia).
      assert (Ef : file_blocks rest = 2 + file_blocks rest') by (unfold file_blocks; rewrite El, Z.div_add; lia).
      pose proof (wh_size _ _ W) as [Hs _]. pose proof (appended_size _ _ _ _ _ Hs AP) as Es. fold n in Es. pose proof (ap_bump _ _ _ _ _ AP).
      eapply wp_mono; [apply (IH rest' (off + n) s1); try done|].
      * apply (of_ok _ _ _ (ap_on _ _ _ _ _ AP)).
      * by rewrite (of_inos _ _ _ (ap_on _ _ _ _ _ AP)).
      * apply (ap_whole _ _ _ _ _ AP).
      * lia.
      * replace (off + n) with (off + 1 * BSIZE) by lia. by rewrite Z.mod_add.
      * lia.
      * lia.
      * lia.
      * intros r s2 [-> AP2]. split; [done|]. rewrite Ef. replace rest with (buf ++ rest') by apply take_drop. by eapply appended_trans.
Qed.
