(* ===== verification/MkfsSpec.v ===== *)
(** * The image that mkfs builds

    What tools/mkfs.c leaves on the disk is what the kernel's file system
    expects: the superblock, a bitmap of exactly the blocks in use, a root
    directory that lists the console and the programs, and each program's
    bytes in its file. *)
From S2P Require Import Prelude State CString Ring Bio Balloc Inode Dir FileMap InodeSpec FileSpec DirSpec Mkfs MkfsFile.

(** The words of an inode before its size: type (word 0), major, minor, nlink. *)
Definition MAJOR : nat := 1.
Definition MINOR : nat := 2.
Definition NLINK : nat := 3.
Record file_is (V : store) (i : Z) (h : list Z) (c : list byte) : Prop := {
  fl_words : length h = 4%nat;
  fl_head : ∀ k, (k < 4)%nat → ifield 2 (2 * k) V i = h !!! k;
  fl_whole : whole V i;
  fl_content : content V i = c
}.

(** Inodes 1, 2, … hold the files [fs]. *)
Record built (fs : list (list Z * list byte)) (s : mkfs) : Prop := {
  bt_ok : image_ok s;
  bt_inos : dialloc_bump s = 1 + Z.of_nat (length fs);
  bt_file : ∀ k h c, fs !! k = Some (h, c) → file_is (disk s) (1 + Z.of_nat k) h c
}.

Lemma built_table fs s k x : built fs s → fs !! k = Some x → in_table (1 + Z.of_nat k) ∧ 1 + Z.of_nat k < dialloc_bump s.
Proof.
  intros B Hk%lookup_lt_Some. pose proof (bt_inos _ _ B). pose proof (ok_inos _ (bt_ok _ _ B)). unfold in_table. lia.
Qed.

(** A file whose inode and blocks stay. *)
Lemma file_is_ext V V' i h c : file_is V i h c → dnode V' i = dnode V i → (∀ a, owned V (iaddrs V i) a → V' a = V a) → file_is V' i h c.
Proof.
  intros [Hl Hh [Hs Hm] <-] Ed Ho. assert (EA : iaddrs V' i = iaddrs V i) by (by rewrite !iaddrs_dnode, Ed).
  assert (Es : isize V' i = isize V i) by (unfold isize; rewrite !ifield_dnode by (unfold F_size; lia); by rewrite Ed).
  assert (Eb : ∀ bn, blkno V' (iaddrs V i) bn = blkno V (iaddrs V i) bn).
  { intros bn. apply blkno_ext. intros H. apply Ho. split; [done|by left]. }
  split; [done| | |].
  - intros k Hk. rewrite <- Hh by done. rewrite !ifield_dnode by lia. by rewrite Ed.
  - split; rewrite Es; [done|]. rewrite EA. intros bn H0 Hlt. rewrite Eb. by apply Hm.
  - unfold content, fbytes. rewrite Es, EA. apply list_fmap_ext. intros k x Hx. apply lookup_seqZ in Hx as [-> Hx].
    unfold fbyte. rewrite Eb. rewrite Ho; [done|]. destruct (blk_div_mod (0 + Z.of_nat k)) as (? & ? & ?); [lia|].
    split; [apply Hm; lia|]. right. eexists. split; [|done]. apply bn_ok_div; lia.
Qed.

Lemma built_on fs s s' k x h c : built fs s → fs !! k = Some x → on_file (1 + Z.of_nat k) s s' →
  file_is (disk s') (1 + Z.of_nat k) h c → built (<[k := (h, c)]> fs) s'.
Proof.
  intros B Hk S F. destruct (built_table _ _ _ _ B Hk) as [Hi _]. pose proof (bt_ok _ _ B) as O. split.
  - apply (of_ok _ _ _ S).
  - rewrite length_insert, (of_inos _ _ _ S). apply B.
  - intros j hj cj Hj. destruct (decide (j = k)) as [->|Hne].
    + rewrite list_lookup_insert_eq in Hj by (by eapply lookup_lt_Some). by injection Hj as [= <- <-].
    + rewrite list_lookup_insert_ne in Hj by done. destruct (built_table _ _ _ _ B Hj) as [Hjt _].
      apply (file_is_ext (disk s)); [by apply (bt_file _ _ B)|apply (of_dnode _ _ _ S); [done|lia]|].
      apply (on_file_other (1 + Z.of_nat k)); done || lia.
Qed.

(** ** The steps of [main] *)
Lemma set_run fs s k f h c v : built fs s → fs !! k = Some (h, c) → (f < 4)%nat → 0 ≤ v < 65536 →
  wp (ino_set 2 (2 * f) (1 + Z.of_nat k) v s)
     (λ _ s', built (<[k := (<[f := v]> h, c)]> fs) s' ∧ balloc_bump s' = balloc_bump s).
Proof.
  intros B Hk Hf Hv. destruct (built_table _ _ _ _ B Hk) as [Hi Hal]. pose proof (bt_ok _ _ B) as O. set (i := 1 + Z.of_nat k) in *.
  destruct (bt_file _ _ B _ _ _ Hk) as [Hl Hh [Hs Hm] Hc]. fold i in Hh, Hs, Hm, Hc. pose proof (ok_len _ O 3) as Hl3.
  rewrite ino_set_run by done. apply (wp_ret tt). split; [|done].
  assert (Es : isize (poke 2 (2 * f) i v (disk s)) i = isize (disk s) i) by (unfold isize; apply poke_field_ne; unfold F_size; done || lia).
  eapply built_on; [exact B|exact Hk|apply head_run; done || lia|]. fold i. cbn [disk set_disk]. split.
  - by rewrite length_insert.
  - intros j Hj. destruct (decide (j = f)) as [->|Hne].
    + rewrite poke_field by (done || lia). rewrite list_lookup_total_insert_eq by lia. by apply Z.mod_small.
    + rewrite poke_field_ne by (done || lia). rewrite list_lookup_total_insert_ne by done. by apply Hh.
  - split; rewrite Es; [done|]. intros bn H0 Hlt. rewrite head_blkno by (done || lia). by apply Hm.
  - rewrite <- Hc. unfold content, fbytes. rewrite Es. apply list_fmap_ext. intros j x Hx. apply lookup_seqZ in Hx as [-> Hx].
    destruct (blk_div_mod (0 + Z.of_nat j)) as (? & ? & ?); [lia|].
    apply head_fbyte; [done|done|lia|done|apply Hm; lia|apply bn_ok_div; lia].
Qed.

Lemma append_built fs s s' k h c l n : built fs s → fs !! k = Some (h, c) → appended (1 + Z.of_nat k) l n s s' →
  built (<[k := (h, c ++ l)]> fs) s'.
Proof.
  intros B Hk [S Hh W Hc _]. eapply built_on; [done|done|done|]. destruct (bt_file _ _ B _ _ _ Hk) as [Hl Hh0 _ E]. split; [done| |done|].
  - intros j Hj. rewrite Hh by lia. by apply Hh0.
  - by rewrite Hc, E.
Qed.

Lemma zero_dnode_file V i : in_table i → dnode V i = replicate 128 x00 → file_is V i [0; 0; 0; 0] [] ∧ iaddrs V i = replicate 14 0.
Proof.
  intros Hi Ed. assert (Ef : ∀ n fo, (fo + n ≤ 128)%nat → ifield n fo V i = get_le n fo (replicate 128 x00)) by (intros; rewrite ifield_dnode by done; by rewrite Ed).
  assert (Es : isize V i = 0) by (unfold isize; rewrite Ef by (unfold F_size; lia); reflexivity).
  split; [split|].
  - done.
  - intros k Hk. rewrite Ef by lia. destruct k as [|[|[|[|]]]]; [reflexivity..|lia].
  - split; rewrite Es; [split; [lia|by apply Z.leb_le]|]. intros bn H0 Hlt. unfold BSIZE in Hlt. lia.
  - unfold content. by rewrite Es.
  - rewrite iaddrs_dnode, Ed. reflexivity.
Qed.

Lemma dialloc_run fs s ty : built fs s → (length fs < 31)%nat → 0 ≤ ty < 65536 →
  wp (dialloc ty s) (λ i s', i = 1 + Z.of_nat (length fs) ∧ built (fs ++ [([ty; 0; 0; 0], [])]) s' ∧ balloc_bump s' = balloc_bump s).
Proof.
  intros B Hfs Hty. pose proof (bt_ok _ _ B) as O. pose proof (bt_inos _ _ B) as Ei. pose proof (ok_len _ O 3) as Hl3.
  set (i := dialloc_bump s) in *. assert (Hi : in_table i) by (unfold in_table; lia).
  unfold dialloc. rewrite bind_gets. fold i. rewrite (bind_done _ _ _ _ _ (ino_set_run 2 F_type i ty s Hi)), bind_modify. apply wp_ret.
  split; [done|split; [|done]]. set (V' := poke 2 F_type i ty (disk s)).
  assert (F : file_is (mk_mkfs V' (balloc_bump s) (i + 1)).(disk) i [ty; 0; 0; 0] []).
  { destruct (zero_dnode_file (disk s) i Hi) as [[Hl Hh [Hs Hm] Hc] EA]; [apply (ok_new _ O); lia|]. cbn [disk].
    assert (Es : isize V' i = isize (disk s) i) by (unfold isize; apply poke_field_ne; unfold F_size, F_type; done || lia). split.
    - done.
    - intros k Hk. destruct (decide (k = 0%nat)) as [->|Hne].
      + unfold V'. rewrite (poke_field 2 F_type) by (unfold F_type; done || lia). by apply Z.mod_small.
      + unfold V'. rewrite poke_field_ne by (unfold F_type; done || lia). rewrite Hh by done. by destruct k.
    - split; rewrite Es; [done|]. intros bn H0 Hlt. unfold V'. rewrite head_blkno by (unfold F_type; done || lia). by apply Hm.
    - assert (E0 : isize (disk s) i = 0). { pose proof (content_length (disk s) i ltac:(lia)) as E. rewrite Hc in E. simpl in E. lia. }
      unfold content. by rewrite Es, E0. }
  split.
  - change (image_ok (mk_mkfs V' (balloc_bump s) (i + 1))). apply head_image; unfold F_type; done || lia.
  - cbn [dialloc_bump set_dialloc_bump]. rewrite length_app. simpl. lia.
  - intros k h c Hk. change (file_is V' (1 + Z.of_nat k) h c). destruct (decide (k < length fs)%nat) as [Hlt|Hge].
    + rewrite lookup_app_l in Hk by done. destruct (built_table _ _ _ _ B Hk) as [Hj Hlt'].
      apply (file_is_ext (disk s)); [by apply (bt_file _ _ B)|apply poke_dnode; unfold F_type; done || lia|].
      intros a Ha. apply (head_owned 2 F_type i ty s O ltac:(unfold F_type; lia) (1 + Z.of_nat k)); done.
    + rewrite lookup_app_r in Hk by lia. apply list_lookup_singleton_Some in Hk as [? [= <- <-]].
      replace (1 + Z.of_nat k) with i by lia. exact F.
Qed.

(** The directory with the entries [es]. *)
Definition dir_bytes (es : list (list byte * Z)) : list byte := concat ((λ e, new_entry e.1 e.2) <$> es).
Definition entry_good (e : list byte * Z) : Prop := name_ok e.1 ∧ 0 < e.2 < 2 ^ 64.
Definition root (es : list (list byte * Z)) : list Z * list byte := ([T_DIR; 0; 0; 1], dir_bytes es).

Lemma dir_bytes_full V es : Forall entry_good es → content V 1 = dir_bytes es → full_dir V 1 ((λ e, new_entry e.1 e.2) <$> es).
Proof.
  intros He E. split; [done|]. apply Forall_fmap. eapply Forall_impl; [exact He|]. intros e [_ Hi]. simpl.
  split; [exact (new_entry_length e.1 e.2)|]. unfold new_entry. rewrite (de_inum_bytes e.2); lia.
Qed.
Lemma name_ok_strncpy name : name_ok name → strncpy name DIRSIZ = Some (pad DIRSIZ (cstr name)).
Proof. intros [w E]. by rewrite E, (strncpy_pad _ _ _ E). Qed.

Lemma link_run es fs name inum s : built (root es :: fs) s → Forall entry_good es → entry_good (name, inum) →
  (length es < 100)%nat → balloc_bump s + 2 ≤ NBLOCKS →
  wp (dir_link 1 name inum s) (λ _ s', built (root (es ++ [(name, inum)]) :: fs) s' ∧ balloc_bump s' ≤ balloc_bump s + 2).
Proof.
  intros B Hes [Hn Hi] Hl Hroom. assert (Hk : (root es :: fs) !! 0%nat = Some (root es)) by done.
  destruct (built_table _ _ _ _ B Hk) as [H1 Hal]. destruct (bt_file _ _ B _ _ _ Hk) as [_ _ W Ec].
  eapply wp_mono; [apply (mk_dir_link_run 1 name (pad DIRSIZ (cstr name)) inum ((λ e, new_entry e.1 e.2) <$> es) s)|]; try done.
  - apply B.
  - by apply dir_bytes_full.
  - by apply name_ok_strncpy.
  - by rewrite length_fmap.
  - intros _ s' [AP _]. split; [|apply (ap_bump _ _ _ _ _ AP)].
    pose proof (append_built _ _ _ 0 _ _ _ _ B Hk AP) as B'. simpl in B'. unfold root, dir_bytes. rewrite fmap_app, concat_app. simpl. by rewrite app_nil_r.
Qed.

Section Host.
Context (host : list byte → option (list byte)).

Definition file_blocks_sum (ls : list (list byte)) : Z := foldr (λ l acc, file_blocks l + acc) 0 ls.
Definition fits (l : list byte) : Prop := Z.of_nat (length l) ≤ MAXFILEBLK * BSIZE.
Definition T_FILE_node (l : list byte) : list Z * list byte := ([T_FILE; 0; 0; 1], l).

Lemma file2i_run fs s k l path : built fs s → fs !! k = Some (T_FILE_node []) → host path = Some l → fits l →
  balloc_bump s + file_blocks l ≤ NBLOCKS →
  wp (file2i host (1 + Z.of_nat k) path s) (λ r s', r = 0 ∧ built (<[k := T_FILE_node l]> fs) s' ∧ balloc_bump s' ≤ balloc_bump s + file_blocks l).
Proof.
  intros B Hk Hp Hfit Hroom. destruct (built_table _ _ _ _ B Hk) as [Hi Hal]. destruct (bt_file _ _ B _ _ _ Hk) as [_ Hh W Ec].
  unfold file2i. rewrite (bind_done _ _ _ _ _ (ino_get_run 2 F_type _ s Hi)). change F_type with (2 * 0)%nat. rewrite (Hh 0%nat) by lia.
  rewrite bool_decide_false by (intros Hc; by apply Hc). rewrite Hp.
  assert (Es : isize (disk s) (1 + Z.of_nat k) = 0).
  { pose proof (content_length (disk s) (1 + Z.of_nat k) ltac:(apply W)) as E. rewrite Ec in E. simpl in E. pose proof (wh_size _ _ W). lia. }
  eapply wp_mono; [apply file2i_loop_run; try done|].
  - apply B.
  - rewrite Nat2Z.inj_succ, Nat2Z.inj_div. change (Z.of_nat BSIZE_nat) with BSIZE.
    destruct (blk_div_mod (Z.of_nat (length l))) as (_ & E & Hr); [lia|]. unfold BSIZE in *. lia.
  - intros r s' [-> AP]. split; [done|]. split; [|apply (ap_bump _ _ _ _ _ AP)]. apply (append_built _ _ _ _ _ _ _ _ B Hk AP).
Qed.

Lemma add_file_run es fs name l s : built (root es :: fs) s → Forall entry_good es → name_ok name →
  (length es < 100)%nat → (length fs < 30)%nat → host (host_path name) = Some l → fits l →
  balloc_bump s + (2 + file_blocks l) ≤ NBLOCKS →
  wp (add_file host 1 name s) (λ _ s', built (root (es ++ [(name, 2 + Z.of_nat (length fs))]) :: fs ++ [T_FILE_node l]) s' ∧
    balloc_bump s' ≤ balloc_bump s + (2 + file_blocks l)).
Proof.
  intros B Hes Hn Hel Hfl Hp Hfit Hroom. set (k := S (length fs)). assert (Hfb : 0 ≤ file_blocks l).
  { unfold file_blocks. pose proof (Z.div_pos (Z.of_nat (length l)) BSIZE ltac:(lia) ltac:(done)). lia. }
  unfold add_file. apply wp_bind. kuse (dialloc_run (root es :: fs) s T_FILE B); [simpl; lia|done|].
  intros i s1 (-> & B1 & E1). cbn [length]. fold k. set (fs1 := (root es :: fs) ++ [([T_FILE; 0; 0; 0], [])]) in B1.
  assert (Hk1 : fs1 !! k = Some ([T_FILE; 0; 0; 0], [])) by (unfold fs1; rewrite lookup_app_r by (simpl; lia); simpl; by rewrite Nat.sub_diag).
  apply wp_bind. change F_nlink with (2 * NLINK)%nat. kuse (set_run fs1 s1 k NLINK _ _ 1 B1 Hk1); [unfold NLINK; lia|lia|].
  intros _ s2 [B2 E2]. assert (Ek : ∀ x y, <[k := x]> ((root es :: fs) ++ [y]) = root es :: fs ++ [x]).
  { intros x y. unfold k. simpl. f_equal. replace (length fs) with (length fs + 0)%nat by lia. by rewrite insert_app_r. }
  unfold fs1 in B2. rewrite Ek in B2. change (<[NLINK := 1]> [T_FILE; 0; 0; 0]) with [T_FILE; 0; 0; 1] in B2.
  apply wp_bind. kuse (file2i_run (root es :: fs ++ [T_FILE_node []]) s2 k l (host_path name)); try done.
  { simpl. by rewrite lookup_app_r, Nat.sub_diag by lia. }
  { lia. }
  intros r s3 (-> & B3 & E3). rewrite bool_decide_false by lia. change (root es :: fs ++ [T_FILE_node []]) with ((root es :: fs) ++ [T_FILE_node []]) in B3.
  rewrite Ek in B3. replace (2 + Z.of_nat (length fs)) with (1 + Z.of_nat k) by lia.
  kuse (link_run es (fs ++ [T_FILE_node l]) name (1 + Z.of_nat k) s3 B3 Hes); [|done|lia|].
  - split; [done|]. simpl. lia.
  - intros _ s4 [B4 E4]. split; [done|lia].
Qed.

Fixpoint number (i : Z) (names : list string) : list (list byte * Z) :=
  match names with [] => [] | n :: ns => (str0 n, i) :: number (i + 1) ns end.
Definition host_has (n : string) (l : list byte) : Prop := host (host_path (str0 n)) = Some l ∧ fits l.

Lemma add_files_run names ls : Forall2 host_has names ls → Forall (λ n, name_ok (str0 n)) names → ∀ es fs s,
  built (root es :: fs) s → Forall entry_good es → (length es + length names < 100)%nat → (length fs + length names ≤ 30)%nat →
  balloc_bump s + (2 * Z.of_nat (length names) + file_blocks_sum ls) ≤ NBLOCKS →
  wp (for_each names (λ name, add_file host 1 (str0 name)) s)
     (λ _ s', built (root (es ++ number (2 + Z.of_nat (length fs)) names) :: fs ++ (T_FILE_node <$> ls)) s').
Proof.
  induction 1 as [|n l names ls [Hp Hfit] _ IH]; intros Hn es fs s B Hes Hel Hfl Hroom; cbn [for_each number].
  - apply wp_ret. simpl. by rewrite !app_nil_r.
  - apply Forall_cons in Hn as [Hn Hns]. cbn [file_blocks_sum foldr length] in Hroom, Hel, Hfl. fold (file_blocks_sum ls) in Hroom.
    assert (Hsum : 0 ≤ file_blocks_sum ls).
    { clear. induction ls as [|x ls IH]; [done|]. simpl. unfold file_blocks at 1. pose proof (Z.div_pos (Z.of_nat (length x)) BSIZE ltac:(lia) ltac:(done)).
      fold (file_blocks_sum ls). lia. }
    apply wp_bind. kuse (add_file_run es fs (str0 n) l s B Hes Hn); [lia|lia|done|done|lia|]. intros _ s1 [B1 E1].
    kuse (IH Hns (es ++ [(str0 n, 2 + Z.of_nat (length fs))]) (fs ++ [T_FILE_node l]) s1 B1).
    + apply Forall_app. split; [done|]. apply Forall_singleton. split; [done|]. simpl. lia.
    + rewrite length_app. simpl. lia.
    + rewrite length_app. simpl. lia.
    + lia.
    + intros _ s2 B2. rewrite <- !app_assoc, length_app in B2. cbn [app length] in B2.
      replace (2 + Z.of_nat (length fs + 1)) with (2 + Z.of_nat (length fs) + 1) in B2 by lia. exact B2.
Qed.
End Host.

(** ** The formatted disk *)
Lemma slice_zero off n : (off + n ≤ BSIZE_nat)%nat → slice off n zero_block = replicate n x00.
Proof. intros H. unfold slice, zero_block. rewrite drop_replicate, take_replicate. f_equal. lia. Qed.
Lemma blkno_zero V bn : blkno V (replicate 14 0) bn = 0.
Proof.
  unfold blkno. case_decide; [|done]. apply lookup_total_replicate_2. unfold NDIRECT in *. lia.
Qed.
Definition first_bitmap : list byte := splice 0 [z2b 63] zero_block.
Lemma first_bitmap_used b : 0 ≤ b → bit_get b first_bitmap = bool_decide (b < 6).
Proof.
  intros Hb. destruct (decide (b < 8)) as [Hlt|Hge].
  - assert (Hall : forallb (λ b, Bool.eqb (bit_get b first_bitmap) (bool_decide (b < 6))) (seqZ 0 8) = true) by (vm_compute; reflexivity).
    rewrite forallb_forall in Hall. apply Bool.eqb_prop, Hall. apply list_elem_of_In, elem_of_seqZ. lia.
  - rewrite bool_decide_false by lia. unfold bit_get.
    assert (E : dbyte (b / 8) first_bitmap = 0); [|by rewrite E, Z.testbit_0_l].
    pose proof (Z.div_le_lower_bound b 8 1). unfold dbyte, first_bitmap. rewrite splice_lookup_out by (simpl; lia).
    unfold zero_block. destruct (replicate BSIZE_nat x00 !! Z.to_nat (b / 8)) eqn:E; [|done]. by apply lookup_replicate in E as [-> _].
Qed.
Lemma format_run : wp (format mkfs0) (λ _ s', built [] s' ∧ balloc_bump s' = 6).
Proof.
  set (sb := splice 0 (sb_bytes mkfs_sb) zero_block). set (bm := first_bitmap).
  assert (Esb : sb_of_bytes sb = mkfs_sb) by (vm_compute; reflexivity).
  assert (E : format mkfs0 = Done tt (mk_mkfs (<[2 := bm]> (<[1 := sb]> (λ _, zero_block))) 6 1)).
  { unfold format. unfold bind at 1, upd_blk at 1. change (in_disk 1) with true. cbn [rbind].
    unfold bind at 1, get_blk. change (in_disk 1) with true. cbn [rbind]. unfold set_disk at 1. cbn [disk mkfs0]. rewrite fn_lookup_insert.
    fold sb. rewrite Esb. reflexivity. }
  rewrite E. apply (wp_ret tt). split; [|done]. split; [|done|done].
  set (V := <[2 := bm]> (<[1 := sb]> (λ _, zero_block))).
  assert (Ez : ∀ b, b ≠ 1 → b ≠ 2 → V b = zero_block) by (intros b H1 H2; unfold V; by rewrite !fn_lookup_insert_ne).
  assert (Hd : ∀ i, in_table i → dnode V i = replicate 128 x00).
  { intros i Hi. unfold dnode. rewrite ino_blk_3, Ez by done. apply slice_zero. rewrite dinode_off_table by done. unfold in_table, BSIZE_nat in *. lia. }
  assert (HA : ∀ i, in_table i → iaddrs V i = replicate 14 0) by (intros i Hi; by apply zero_dnode_file, Hd).
  assert (Hno : ∀ i a, in_table i → ¬ owned V (iaddrs V i) a).
  { intros i a Hi (Hne & H). rewrite HA in H by done. destruct H as [->|(bn & Hb & E')]; [done|]. apply Hne. rewrite <- E'. by apply blkno_zero. }
  split; cbn [disk balloc_bump dialloc_bump].
  - intros b. unfold V. destruct (decide (b = 2)) as [->|H2]; [by rewrite fn_lookup_insert|]. rewrite fn_lookup_insert_ne by done.
    destruct (decide (b = 1)) as [->|H1]; [by rewrite fn_lookup_insert|]. by rewrite fn_lookup_insert_ne.
  - unfold V. by rewrite fn_lookup_insert_ne, fn_lookup_insert.
  - done.
  - intros b Hb. unfold used, V. rewrite fn_lookup_insert. by apply first_bitmap_used.
  - intros b Hb. apply Ez; lia.
  - done.
  - intros i Hi. apply Hd. unfold in_table. lia.
  - intros i Hi. rewrite HA by done. split; [done|..]; intros; rewrite ?blkno_zero in *; done.
  - intros i a Hi Ho. by destruct (Hno i a Hi).
  - intros i j a Hi Hj Ho. by destruct (Hno i a Hi).
Qed.

(** ** The whole run *)
Definition image_entries : list (list byte * Z) :=
  [(str0 ".", 1); (str0 "..", 1); (str0 "console", 2)] ++ number 3 image_files.
Definition image (ls : list (list byte)) : list (list Z * list byte) :=
  root image_entries :: ([T_DEV; 1; 1; 1], []) :: (T_FILE_node <$> ls).

Lemma names_ok : Forall (λ n, name_ok (str0 n)) image_files ∧ Forall entry_good image_entries.
Proof.
  split; repeat constructor; try (vm_compute; eexists; reflexivity); done.
Qed.

Ltac entries_good := repeat first [exact (Forall_nil_2 _) | apply Forall_cons_2; [assumption|]].

Lemma main_run host ls : Forall2 (host_has host) image_files ls → 26 + file_blocks_sum ls ≤ NBLOCKS →
  wp (main host mkfs0) (λ _ s', built (image ls) s').
Proof.
  intros Hhost Hroom. destruct names_ok as [Hnames Hgood]. unfold main.
  pose proof (Forall_inv Hgood) as G1. pose proof (Forall_inv (Forall_inv_tail Hgood)) as G2.
  pose proof (Forall_inv (Forall_inv_tail (Forall_inv_tail Hgood))) as G3.
  assert (Hs : 0 ≤ file_blocks_sum ls).
  { clear. induction ls as [|x ls IH]; [done|]. simpl. unfold file_blocks at 1. pose proof (Z.div_pos (Z.of_nat (length x)) BSIZE ltac:(lia) ltac:(done)). lia. }
  apply wp_bind. kuse format_run. intros _ s0 [B0 E0].
  apply wp_bind. kuse (dialloc_run [] s0 T_DIR B0); [simpl; lia|done|]. cbn [app length]. intros i s1 (-> & B1 & E1). change (1 + Z.of_nat 0) with 1.
  apply wp_bind. change F_nlink with (2 * NLINK)%nat. kuse (set_run _ s1 0 NLINK _ _ 1 B1); [done|unfold NLINK; lia|lia|]. intros _ s2 [B2 E2].
  change (built [root []] s2) in B2. change ROOTINO with 1.
  apply wp_bind. kuse (link_run [] [] (str0 ".") 1 s2 B2); [done|done|simpl; lia|lia|]. intros _ s3 [B3 E3]. cbn [app] in B3.
  apply wp_bind. kuse (link_run _ [] (str0 "..") 1 s3 B3); [by entries_good|done|simpl; lia|lia|]. intros _ s4 [B4 E4]. cbn [app] in B4.
  apply wp_bind. kuse (dialloc_run _ s4 T_DEV B4); [simpl; lia|done|]. cbn [app length]. intros i s5 (-> & B5 & E5). change (1 + Z.of_nat 1) with 2.
  apply wp_bind. kuse (set_run _ s5 1 NLINK _ _ 1 B5); [done|unfold NLINK; lia|lia|]. intros _ s6 [B6 E6].
  apply wp_bind. change F_major with (2 * MAJOR)%nat. kuse (set_run _ s6 1 MAJOR _ _ 1 B6); [done|unfold MAJOR; lia|lia|]. intros _ s7 [B7 E7].
  apply wp_bind. change F_minor with (2 * MINOR)%nat. kuse (set_run _ s7 1 MINOR _ _ 1 B7); [done|unfold MINOR; lia|lia|]. intros _ s8 [B8 E8].
  cbn [list_insert insert NLINK MAJOR MINOR] in B8.
  apply wp_bind. kuse (link_run _ _ (str0 "console") 2 s8 B8); [by entries_good|done|simpl; lia|lia|]. intros _ s9 [B9 E9]. cbn [app] in B9.
  kuse (add_files_run host image_files ls Hhost Hnames _ _ s9 B9); [by entries_good|simpl; lia|simpl; lia|simpl; lia|].
  intros _ s' B. exact B.
Qed.

(** The kernel's reading of the directory. *)
Lemma entries_app l e : (length l `mod` 32 = 0)%nat → length e = 32%nat →
  DirSpec.entries (l ++ e) = DirSpec.entries l ++ match live e with Some x => [x] | None => [] end.
Proof.
  intros Hl He. pose proof (Nat.div_mod_eq (length l) 32) as El. rewrite Hl in El. set (n := (length l / 32)%nat) in *.
  unfold DirSpec.entries. rewrite length_app, He. replace (length l + 32)%nat with (length l + 1 * 32)%nat by lia. rewrite Nat.div_add by lia. fold n.
  rewrite Nat.add_1_r, seq_S, omap_app, Nat.add_0_l. f_equal.
  - apply list_omap_ext, Forall2_same_length_lookup. split; [done|]. intros j k k' Hk Hk'. rewrite Hk in Hk'. injection Hk' as <-.
    apply lookup_seq in Hk as [-> Hk]. f_equal. unfold dirent, slice. rewrite drop_app_le by lia. by rewrite take_app_le by (rewrite length_drop; lia).
  - simpl. unfold dirent, slice. replace (32 * n)%nat with (length l) by lia. rewrite drop_app_length, take_ge by lia. by destruct (live e).
Qed.

Lemma entries_dir_bytes es : Forall entry_good es → DirSpec.entries (dir_bytes es) = (λ e, (dkey e.1, e.2)) <$> es.
Proof.
  induction es as [|e es IH] using rev_ind; [done|]. intros [Hes He]%Forall_app. apply Forall_singleton in He as [Hn Hi].
  unfold dir_bytes. rewrite !fmap_app, concat_app. change (concat ((λ e, new_entry e.1 e.2) <$> [e])) with (new_entry e.1 e.2 ++ []). rewrite app_nil_r, entries_app.
  - rewrite (live_new_entry e.1 e.2 Hi). fold (dir_bytes es). by rewrite (IH Hes).
  - rewrite (concat_length32 (_ <$> es)); [by rewrite Nat.mul_comm, Nat.Div0.mod_mul|].
    apply Forall_fmap. eapply Forall_impl; [exact Hes|]. intros x [_ Hx]. split; [exact (new_entry_length x.1 x.2)|].
    unfold compose, new_entry. rewrite (de_inum_bytes x.2); lia.
  - exact (new_entry_length e.1 e.2).
Qed.

(** C16. The image is a well-formed file system, whatever the programs are, as
    long as they fit: the superblock describes the layout, the bitmap marks
    exactly the blocks handed out (the six of the metadata among them), the
    blocks above are zero, every inode's block map names distinct allocated
    data blocks, and no block belongs to two inodes. *)
Theorem mkfs_well_formed host ls :
  Forall2 (host_has host) image_files ls → 26 + file_blocks_sum ls ≤ NBLOCKS →
  wp (main host mkfs0) (λ _ s', image_ok s').
Proof. intros Hh Hr. eapply wp_mono; [exact (main_run host ls Hh Hr)|]. cbv beta. intros _ s' B. apply B. Qed.

(** C17. The kernel finds in the image what was put in: the root directory lists
    itself twice, the console and the programs in order, the console is device
    1/1, and inode [3 + k] is a file that holds byte for byte the [k]th
    program's contents. *)
Theorem mkfs_contents host ls :
  Forall2 (host_has host) image_files ls → 26 + file_blocks_sum ls ≤ NBLOCKS →
  wp (main host mkfs0) (λ _ s',
    (∃ c, file_is (disk s') ROOTINO [T_DIR; 0; 0; 1] c ∧
      DirSpec.entries c = (λ e, (String.list_byte_of_string e.1, e.2)) <$>
        [("."%string, 1); (".."%string, 1); ("console"%string, 2); ("init"%string, 3); ("cat"%string, 4); ("mkdir"%string, 5);
         ("ls"%string, 6); ("rm"%string, 7); ("nsh"%string, 8); ("echo"%string, 9)]) ∧
    file_is (disk s') 2 [T_DEV; 1; 1; 1] [] ∧
    ∀ k l, ls !! k = Some l → file_is (disk s') (3 + Z.of_nat k) [T_FILE; 0; 0; 1] l).
Proof.
  intros Hh Hr. eapply wp_mono; [exact (main_run host ls Hh Hr)|]. cbv beta. intros _ s' B. split_and!.
  - exists (dir_bytes image_entries). split; [by apply (bt_file _ _ B 0)|]. rewrite entries_dir_bytes by apply names_ok. vm_compute. reflexivity.
  - by apply (bt_file _ _ B 1).
  - intros k l Hk. replace (3 + Z.of_nat k) with (1 + Z.of_nat (S (S k))) by lia. apply (bt_file _ _ B).
    simpl. by rewrite list_lookup_fmap, Hk.
Qed.

(** A host whose files hold their own paths. *)
Definition demo_files : list (list byte) := (λ n, host_path (str0 n)) <$> image_files.
Lemma demo_host : Forall2 (host_has Some) image_files demo_files.
Proof. repeat constructor; done. Qed.

Lemma mkfs_well_formed_witness : wp (main Some mkfs0) (λ _ s', image_ok s').
Proof. apply (mkfs_well_formed Some demo_files); [exact demo_host|by vm_compute]. Defined.

Lemma mkfs_contents_witness : wp (main Some mkfs0) (λ _ s',
  file_is (disk s') 2 [T_DEV; 1; 1; 1] [] ∧
  file_is (disk s') 3 [T_FILE; 0; 0; 1] (String.list_byte_of_string "user/init") ∧
  file_is (disk s') 9 [T_FILE; 0; 0; 1] (String.list_byte_of_string "user/echo")).
Proof.
  eapply wp_mono; [apply (mkfs_contents Some demo_files); [exact demo_host|by vm_compute]|].
  intros _ s' (_ & H2 & Hf). split; [exact H2|split; [exact (Hf 0%nat _ eq_refl)|exact (Hf 6%nat _ eq_refl)]].
Defined.
