(* ===== verification/ImageBoot.v ===== *)
(** * From the image builder to the running kernel

    The image that [tools/mkfs.c] saves is the ram disk the kernel is linked
    with: after [rd_init], [bcache_init] and [fs_init] the kernel resolves the
    path of a program and reads the program's bytes. *)
From S2P Require Import Prelude State Mkfs MkfsFile MkfsSpec Spinlock Sched Sleeplock Ring Bio BioSpec Balloc CString.
From S2P Require Import Inode Dir FileMap InodeSpec FileSpec InodeCache FileRead DirSpec.

(** ** The image as a ram disk *)

Lemma save_img_block m b sz : 0 ≤ b < NBLOCKS → disk_block (mk_disk (save_img m) sz) b = Mkfs.disk m b.
Proof.
  intros Hb. unfold disk_block. cbn [d_blocks]. unfold save_img.
  set (l := (λ b, (b, Mkfs.disk m b)) <$> seqZ 0 NBLOCKS).
  assert (list_to_map (M := gmap Z (list byte)) l !! b = Some (Mkfs.disk m b)) as ->; [|done]. apply elem_of_list_to_map_1; subst l.
  - rewrite <- list_fmap_compose. change (NoDup (id <$> seqZ 0 NBLOCKS)). rewrite list_fmap_id. apply NoDup_seqZ.
  - apply list_elem_of_fmap. exists b. split; [done|]. apply elem_of_seqZ. lia.
Qed.

#[local] Opaque save_img.

Section Image.
Context (m : Mkfs.mkfs) (fs : list (list Z * list byte)) (B : built fs m).
Definition img_store (m : Mkfs.mkfs) : store := disk_block (mk_disk (save_img m) IMG_SIZE).
Let W := img_store m.

Lemma img_block b : 0 ≤ b < NBLOCKS → W b = Mkfs.disk m b.
Proof. apply save_img_block. Qed.

Lemma img_len b : 0 ≤ b < NBLOCKS → length (W b) = BSIZE_nat.
Proof. intros Hb. rewrite img_block by done. apply (ok_len _ (bt_ok _ _ B)). Qed.

Lemma img_used b : 0 ≤ b < 6 → used 2 W b = true.
Proof.
  intros Hb. unfold used. rewrite img_block by done. pose proof (ok_bump _ (bt_ok _ _ B)).
  pose proof (ok_used _ (bt_ok _ _ B) b ltac:(lia)) as E. unfold used in E. rewrite E, bool_decide_true; [done|lia].
Qed.

Lemma img_dnode i : in_table i → dnode W i = dnode (Mkfs.disk m) i.
Proof. intros Hi. unfold dnode. rewrite ino_blk_3 by done. by rewrite img_block. Qed.

(** The files of the image are on the ram disk. *)
Lemma img_file k h c (i := 1 + Z.of_nat k) : fs !! k = Some (h, c) →
  in_table i ∧ file_is W i h c ∧ file_ok NBLOCKS 2 3 W (iaddrs W i).
Proof.
  intros Hk. destruct (built_table _ _ _ _ B Hk) as [Hi _]. fold i in Hi. pose proof (bt_ok _ _ B) as O.
  pose proof (ok_bump _ O) as Hb.
  assert (∀ a, owned (Mkfs.disk m) (iaddrs (Mkfs.disk m) i) a → 6 ≤ a < NBLOCKS) as Hr.
  { intros a Ha. pose proof (owned_bump _ _ _ O Hi Ha). lia. }
  split; [done|]. split.
  - apply (file_is_ext (Mkfs.disk m)); [by apply (bt_file _ _ B)|by apply img_dnode|].
    intros a Ha%Hr. apply img_block. lia.
  - rewrite iaddrs_dnode, img_dnode, <- iaddrs_dnode by done.
    apply (file_ok_ext (Mkfs.disk m)); [by apply (ok_file _ O)|..].
    + intros Hne. apply img_block. pose proof (Hr _ (conj Hne (or_introl eq_refl))). lia.
    + intros a Ha. pose proof (Hr a Ha). pose proof (owned_bump _ _ _ O Hi Ha). split; [|apply img_len; lia].
      unfold used. rewrite img_block by done. pose proof (ok_used _ O a ltac:(lia)) as E. unfold used in E.
      rewrite E. apply bool_decide_eq_true_2. lia.
Qed.
End Image.

(** ** Mounting it *)

(** The file system of the image is in place. *)
Record mounted (V : store) (s : kstate) : Prop := {
  mt_bio : bio_inv V ∅ s;
  mt_sb : k_sb s = mkfs_sb;
  mt_size : d_size (k_disk s) = IMG_SIZE;
  mt_len : length (k_inodes s) = NINODE
}.
Lemma mounted_frame i V s s' : mounted V s → bio_inv V ∅ s' → ino_frame i s s' → mounted V s'.
Proof. intros [] I F. split; rewrite ?(if_sb _ _ _ F), ?(if_size _ _ _ F), ?(if_len _ _ _ F); done. Qed.
Lemma mounted_calm V s : mounted V s → calm s ∧ length (k_procs s) = NPROC.
Proof. intros [[L I] _ _ _]. apply (bi_kinv _ _ _ _ I). Qed.
Lemma mounted_nblk V s : mounted V s → nblk s = NBLOCKS.
Proof. intros M. unfold nblk. by rewrite (mt_size _ _ M). Qed.

(** The inode cache before the first process runs: nothing is referenced, or
    the root, by the current directory [user_init] gave that process; nothing
    is loaded or locked. *)
Record quiet (s : kstate) : Prop := {
  qt_cache : icache_ok s;
  qt_ref : ∀ i, 0 < i_ref (the_inode i s) →
    i_dev (the_inode i s) = 0 ∧ i_inum (the_inode i s) = ROOTINO ∧ i_valid (the_inode i s) = 0;
  qt_few : ∀ i, i_ref (the_inode i s) < 2 ^ 63;
  qt_unlocked : ∀ i, sl_locked (i_lock (the_inode i s)) = 0
}.
Lemma quiet_inodes s s' : k_inodes s' = k_inodes s → quiet s → quiet s'.
Proof. intros E [[? ? ?] ? ? ?]. split; [split|..]; unfold the_inode in *; rewrite E; done. Qed.
Lemma quiet_slk i f s : sl_locked (f (i_lock (the_inode i s))) = 0 → quiet s → quiet (upd_slk (SlInode i) f s).
Proof.
  intros Hf [[Hl Hr Hu] Hq Hw Hk]. unfold upd_slk.
  assert (∀ j, ∃ l, the_inode j (upd_inode i (λ ip, set_i_lock (f (i_lock ip)) ip) s) = set_i_lock l (the_inode j s) ∧ sl_locked l = 0) as E.
  { intros j. destruct (decide (j = i)) as [->|Hne].
    - destruct (decide (i < length (k_inodes s))%nat) as [Hi|Hi].
      + eexists. by rewrite the_inode_upd_eq.
      + exists (i_lock (the_inode i s)). split; [|done]. unfold the_inode, upd_inode. ksimpl.
        rewrite list_lookup_alter, decide_True by done. rewrite lookup_ge_None_2 by lia. done.
    - exists (i_lock (the_inode j s)). split; [|done]. rewrite the_inode_upd_ne by done. by destruct (the_inode j s). }
  assert (∀ j, let x := the_inode j (upd_inode i (λ ip, set_i_lock (f (i_lock ip)) ip) s) in
    i_ref x = i_ref (the_inode j s) ∧ i_dev x = i_dev (the_inode j s) ∧ i_inum x = i_inum (the_inode j s) ∧
    i_valid x = i_valid (the_inode j s) ∧ sl_locked (i_lock x) = 0) as G.
  { intros j. destruct (E j) as (l & -> & ?). done. }
  split; [split|..].
  - unfold upd_inode. ksimpl. by rewrite length_alter.
  - intros j. by rewrite (proj1 (G j)).
  - intros j k. destruct (G j) as (-> & -> & -> & _), (G k) as (-> & -> & -> & _). apply Hu.
  - intros j. destruct (G j) as (-> & -> & -> & -> & _). apply Hq.
  - intros j. by rewrite (proj1 (G j)).
  - intros j. apply G.
Qed.

Lemma bio_inv_sb V H f s : bio_inv V H s → bio_inv V H (set_k_sb f s).
Proof. intros [L [[Hc ?]]]. exists L. by split. Qed.

Section Mount.
Context {wf : WakeFuel} {dsw : DevSw}.

(** Initialising a lock that nobody holds. *)
Lemma init_lock_run l s : k_locks s = ∅ → init_lock l s = Done tt s.
Proof.
  intros E. unfold init_lock, modify, put_lock. f_equal. kext. rewrite E. case_decide; [apply delete_empty|done].
Qed.

Lemma iinit_ok V s : bio_inv V ∅ s → quiet s →
  wp (iinit s) (λ _ s', bio_inv V ∅ s' ∧ quiet s' ∧ d_size (k_disk s') = d_size (k_disk s)).
Proof.
  intros I Q. assert (∀ s', bio_inv V ∅ s' → k_locks s' = ∅) as Hl by (intros s' [L I']; apply (bi_kinv _ _ _ _ I')).
  unfold iinit. rewrite (bind_done _ _ _ _ _ (init_lock_run LkIcache s (Hl s I))).
  apply (wp_for_each (λ s', bio_inv V ∅ s' ∧ quiet s' ∧ d_size (k_disk s') = d_size (k_disk s))); [done|].
  intros i s1 _ (I1 & Q1 & E1). unfold init_sleep_lock.
  rewrite (bind_done _ _ _ _ _ (init_lock_run (LkSleep (SlInode i)) s1 (Hl s1 I1))), bind_modify. apply wp_modify.
  split_and!; [by do 2 apply bio_inv_upd_slk| |done].
  apply quiet_slk; [|apply quiet_slk; [done|done]].
  assert (Q2 : quiet (upd_slk (SlInode i) (set_sl_locked 0) s1)) by (apply quiet_slk; done).
  apply (qt_unlocked _ Q2).
Qed.

Lemma read_sb_ok V s : bio_inv V ∅ s → 1 < nblk s →
  wp (read_sb 0 s) (λ _ s', bio_inv V ∅ s' ∧ k_sb s' = sb_of_bytes (V 1) ∧ d_size (k_disk s') = d_size (k_disk s) ∧
    k_inodes s' = k_inodes s).
Proof.
  intros I Hn. unfold read_sb. apply (wp_bread V ∅); [done|by apply can_read_free; lia|].
  intros bp s1 I1 HH Hdat _ F1. rewrite bind_gets, bind_modify, Hdat.
  kuse brelse_ok; [by apply bio_inv_sb|apply lookup_insert_eq|]. intros _ s2 (I2 & _ & F2).
  rewrite delete_insert_id in I2 by done. split_and!; [done|..].
  - by rewrite (bf_sb _ _ F2).
  - rewrite (bf_size _ _ F2). apply F1.
  - rewrite (bf_inodes _ _ F2). apply F1.
Qed.

(** The initialisation of [main] that concerns the disk. *)
Lemma disk_init_ok m fs s : built fs m → kinv s → k_bufs s = zero_bufs → quiet s →
  wp ((rd_init (save_img m) IMG_SIZE ;;; bcache_init ;;; fs_init ROOTDEV) s) (λ _ s', mounted (img_store m) s' ∧ quiet s').
Proof.
  intros B Hk Eb Q. unfold rd_init. rewrite bind_modify. set (s1 := set_k_disk _ s).
  assert (Ed : k_disk s1 = mk_disk (save_img m) IMG_SIZE) by (subst s1; by ksimpl).
  assert (En : nblk s1 = NBLOCKS) by (unfold nblk; by rewrite Ed).
  apply wp_bind. kuse (bcache_init_establishes s1); [exact Hk|exact Eb|by rewrite En| |]; rewrite ?En, Ed.
  { exact (img_len m fs B). }
  fold (img_store m). intros _ s2 [I2 F2].
  assert (quiet s2) as Q2 by (apply (quiet_inodes s); [exact (bf_inodes _ _ F2)|exact Q]).
  assert (d_size (k_disk s2) = IMG_SIZE) as E2 by (rewrite (bf_size _ _ F2); by rewrite Ed).
  unfold fs_init. apply wp_bind. kuse (iinit_ok _ s2 I2 Q2). intros _ s3 (I3 & Q3 & E3). rewrite E2 in E3.
  kuse (read_sb_ok _ s3 I3); [unfold nblk; rewrite E3; done|]. intros _ s4 (I4 & Hsb & E4 & Ei4).
  pose proof (quiet_inodes _ _ Ei4 Q3) as Q4. split; [|done]. split; [done| | |apply Q4].
  - assert (E1 : img_store m 1 = Mkfs.disk m 1) by (apply (img_block m); split; [lia|by apply Z.ltb_lt]).
    rewrite Hsb, E1. apply (ok_sb _ (bt_ok _ _ B)).
  - by rewrite E4.
Qed.

(** ** References *)

(** A reference to an inode that is still to be loaded. *)
Record entry_new (i : nat) (inum : Z) (s : kstate) : Prop := {
  en_cached : cached 0 inum i s;
  en_valid : i_valid (the_inode i s) = 0;
  en_unlocked : sl_locked (i_lock (the_inode i s)) = 0
}.
Lemma entry_new_same i inum s s' : the_inode i s' = the_inode i s → entry_new i inum s → entry_new i inum s'.
Proof. intros E [[? ?] ? ?]. split; rewrite ?E; [|done..]. unfold cached. by rewrite E. Qed.

Lemma iget_shape dev inum s : calm s → ∀ i s', iget dev inum s = Done i s' →
  ∃ f, s' = upd_inode i f s ∧ ∀ ip, i_lock (f ip) = i_lock ip ∧ (i_valid (f ip) = i_valid ip ∨ i_valid (f ip) = 0).
Proof.
  intros Hc i s'. destruct (split_first (λ j, igettable dev inum (the_inode j s) = true) (seq 0 NINODE))
    as [(l1 & k & l2 & El & Hi & Hl1)|Hn].
  - rewrite (iget_hit_run s dev inum l1 k l2); [|done|done| |done].
    2:{ intros j Hj. by apply not_true_is_false, Hl1. }
    intros [= <- <-]. eexists. split; [done|]. intros ip. split; [done|by left].
  - rewrite iget_miss_run; [|done|].
    2:{ intros j Hj. apply not_true_is_false, Hn, elem_of_seq. lia. }
    destruct (find_map _ _) as [k|]; [|done]. intros [= <- <-]. eexists. split; [done|]. intros ip. split; [done|by right].
Qed.

Lemma iget_new V inum s : mounted V s → icache_ok s → (∀ i, i_ref (the_inode i s) < 2 ^ 64 - 1) →
  (∃ j, (j < NINODE)%nat ∧ (cached 0 inum j s ∨ i_ref (the_inode j s) = 0)) →
  (∀ i, cached 0 inum i s ∨ i_ref (the_inode i s) = 0 → sl_locked (i_lock (the_inode i s)) = 0) →
  (∀ i, cached 0 inum i s → i_valid (the_inode i s) = 0) →
  wp (iget 0 inum s) (λ i s', mounted V s' ∧ icache_ok s' ∧ ino_frame i s s' ∧ entry_new i inum s' ∧
    i_ref (the_inode i s') ≤ i_ref (the_inode i s) + 1 ∧ (cached 0 inum i s ∨ i_ref (the_inode i s) = 0)).
Proof.
  intros M Hic Hrefs Hroom Hun Hval. destruct (mounted_calm _ _ M) as [Hc _].
  destruct (wp_done _ _ (iget_ok s 0 inum Hc Hic Hrefs Hroom)) as (i & s' & E & Hca & Hic' & _ & Hcase).
  destruct (iget_shape _ _ _ Hc _ _ E) as (f & Es & Hf). rewrite E. cbn [wp].
  assert (F : ino_frame i s s') by (subst s'; apply upd_ino_frame).
  assert (Hi : (i < length (k_inodes s))%nat) by (rewrite (mt_len _ _ M); apply Hca).
  assert (Ei : the_inode i s' = f (the_inode i s)) by (subst s'; by apply the_inode_upd_eq).
  destruct (Hf (the_inode i s)) as [Hlk Hv]. rewrite <- Ei in Hlk, Hv.
  assert (Hold : cached 0 inum i s ∨ i_ref (the_inode i s) = 0) by (destruct Hcase as [[? _]|(_ & ? & _)]; auto).
  split_and!; [|done|done| |destruct Hcase as [[_ ?]|(_ & ? & ? & _)]; lia|done].
  - eapply (mounted_frame i); [exact M| |exact F]. rewrite Es. apply bio_inv_upd_inode, M.
  - split; [done| |rewrite Hlk; by apply Hun]. destruct Hcase as [[Hc0 _]|(_ & _ & _ & ?)]; [|done].
    destruct Hv as [->| ->]; [by apply Hval|done].
Qed.

(** Dropping a reference to an inode that keeps a link. *)
Lemma wake_ino_frame i c s : ino_frame i s (set_k_procs (fmap (wake_proc c)) s).
Proof. split; try done. apply woken_wake. Qed.

Lemma iput_linked V i s : mounted V s → (i < NINODE)%nat → sl_locked (i_lock (the_inode i s)) = 0 →
  i_nlink (the_inode i s) ≠ 0 →
  wp (iput i s) (λ _ s', mounted V s' ∧ ∀ j, j ≠ i → the_inode j s' = the_inode j s).
Proof.
  intros M Hi Hk Hn. destruct (mounted_calm _ _ M) as [[Hl Hc] Hp].
  assert (Hli : (i < length (k_inodes s))%nat) by (by rewrite (mt_len _ _ M)).
  unfold iput. rewrite (bind_done _ _ _ _ _ (acquire_sleep_run (SlInode i) s Hc ltac:(by rewrite Hl) Hk)).
  set (s1 := upd_slk _ _ s). rewrite bind_gets. subst s1. rewrite the_inode_upd_slk by done. cbn [i_nlink set_i_lock].
  rewrite (bool_decide_false (i_nlink _ = 0)) by done. rewrite andb_false_r. cbn [when]. rewrite bind_ret_l.
  set (s1 := upd_slk _ _ s).
  assert (Hl1 : k_locks s1 = ∅) by exact Hl.
  rewrite (bind_done _ _ _ _ _ (release_sleep_run (SlInode i) s1 Hc ltac:(by rewrite Hl1) ltac:(by rewrite Hl1) Hp)).
  set (s2 := set_k_procs _ _).
  rewrite (bind_done _ _ _ _ _ (acquire_icache_run s2 (conj Hl Hc))), bind_modify.
  change (upd_inode i ?f (icache_locked s2)) with (set_k_inodes (alter f i) (icache_locked s2)).
  rewrite (release_icache_run s2 _ (conj Hl Hc)). apply (wp_ret tt).
  assert (F : ino_frame i s (upd_inode i (λ ip, set_i_ref (u64 (i_ref ip - 1)) ip) s2)).
  { etrans; [|apply upd_ino_frame]. etrans; [|apply wake_ino_frame]. etrans; apply upd_ino_frame. }
  split; [|apply F]. eapply mounted_frame; [exact M| |exact F].
  apply bio_inv_upd_inode, bio_inv_procs; [do 2 apply bio_inv_upd_slk; apply M|]. by rewrite length_fmap.
Qed.

Lemma iunlock_mounted V i s : mounted V s → (i < NINODE)%nat → sl_locked (i_lock (the_inode i s)) ≠ 0 → 1 ≤ i_ref (the_inode i s) →
  wp (iunlock (Some i) s) (λ _ s', mounted V s' ∧ ino_frame i s s' ∧
    the_inode i s' = set_i_lock (mk_sleep 0 0) (the_inode i s)).
Proof.
  intros M Hi Hk Hr. destruct (mounted_calm _ _ M) as [Hc Hp]. rewrite iunlock_run by done. apply (wp_ret tt).
  set (s1 := upd_slk _ _ s). assert (F : ino_frame i s (set_k_procs (fmap (wake_proc (ChSleep (SlInode i)))) s1)).
  { etrans; [|apply wake_ino_frame]. apply upd_ino_frame. }
  split; [|split; [done|]].
  - eapply mounted_frame; [exact M| |exact F]. apply bio_inv_procs; [apply bio_inv_upd_slk, M|]. by rewrite length_fmap.
  - change (the_inode i s1 = set_i_lock (mk_sleep 0 0) (the_inode i s)). apply the_inode_upd_slk. by rewrite (mt_len _ _ M).
Qed.

(** ** Loading an inode of the image *)
Section Load.
Context (m : Mkfs.mkfs) (fs : list (list Z * list byte)) (B : built fs m).
Let W := img_store m.

(** Inode [i] of the cache holds the file [h], [c] and is locked. *)
Record loaded_file (i : nat) (h : list Z) (c : list byte) (s : kstate) : Prop := {
  ld_inv : file_inv W ∅ s i;
  ld_size : wf_size s i W;
  ld_contents : contents W i s = c;
  ld_type : i_type (the_inode i s) = s16 (h !!! 0%nat);
  ld_nlink : i_nlink (the_inode i s) = s16 (h !!! NLINK);
  ld_ref : 1 ≤ i_ref (the_inode i s);
  ld_locked : sl_locked (i_lock (the_inode i s)) = 1
}.

Lemma mounted_alloc s : mounted W s → alloc_inv W ∅ s.
Proof.
  intros M. split.
  - apply M.
  - split; rewrite ?(mounted_nblk _ _ M), (mt_sb _ _ M); [split; [done|by apply Z.leb_le]|done|split; [done|by apply Z.ltb_lt]].
  - unfold bmap_blk. rewrite (mt_sb _ _ M). by apply (img_used m fs B).
  - done.
Qed.

Lemma ilock_image s i k h c : fs !! k = Some (h, c) → mounted W s → entry_new i (1 + Z.of_nat k) s → s16 (h !!! 0%nat) ≠ 0 →
  wp (ilock (Some i) s) (λ _ s', mounted W s' ∧ ino_frame i s s' ∧ loaded_file i h c s' ∧
    cached 0 (1 + Z.of_nat k) i s' ∧ i_ref (the_inode i s') = i_ref (the_inode i s)).
Proof.
  intros Hk M [(Hi & Hr & Hd & Hn) Hv Hu] Ht.
  destruct (img_file m fs B k h c Hk) as (Hin & [Hlh Hh [Hws Hwm] Hcont] & Hok). fold W in Hh, Hws, Hwm, Hcont, Hok.
  set (ino := 1 + Z.of_nat k) in *.
  assert (Hli : (i < length (k_inodes s))%nat) by (by rewrite (mt_len _ _ M)).
  assert (Eb : iblk i s = 3).
  { unfold iblk, IBLOCK. rewrite Hn, (mt_sb _ _ M). pose proof (ino_blk_3 ino Hin) as E. unfold ino_blk in E.
    change (sb_inode_start mkfs_sb) with 3. lia. }
  set (ip' := loaded_inode (W (iblk i s)) (the_inode i s)).
  assert (Eld : ∀ n fo, get_le n (dinode_off (i_inum (the_inode i s)) + fo) (W (iblk i s)) = ifield n fo W ino).
  { intros n fo. unfold ifield. by rewrite Hn, Eb, ino_blk_3. }
  assert (Ety : i_type ip' = s16 (h !!! 0%nat)).
  { rewrite <- (Hh 0%nat), <- Eld by lia. cbn. unfold dip_type. by rewrite Nat.add_0_r. }
  assert (Enl : i_nlink ip' = s16 (h !!! NLINK)).
  { rewrite <- (Hh NLINK), <- Eld by (unfold NLINK; lia). done. }
  assert (Esz : i_size ip' = isize W ino) by (unfold isize; rewrite <- Eld; done).
  assert (Ead : i_addrs ip' = iaddrs W ino) by (unfold iaddrs; rewrite ino_blk_3 by done; rewrite <- Hn, <- Eb; done).
  destruct (ilock_load W ∅ s i) as [HW _]; [apply M|done|lia|done|done|done|rewrite Eb; apply can_read_free; by rewrite (mounted_nblk _ _ M)|].
  fold ip' in HW. eapply wp_mono; [apply HW; by rewrite Ety|]. cbv beta. intros _ s' (I' & E' & F').
  pose proof (mounted_frame i W s s' M I' F') as M'. split; [done|]. split; [done|].
  assert (Eb' : iblk i s' = 3) by (unfold iblk; rewrite (if_sb _ _ _ F'), E'; exact Eb).
  split; [|split; [|by rewrite E']]; [|unfold cached; rewrite E'; split_and!; done].
  split; rewrite ?E'; [| |by unfold contents; rewrite E', Esz, Ead|done|done|exact (Zlt_le_succ _ _ Hr)|done].
  - assert (Ebm : bmap_blk s' = 2) by (unfold bmap_blk; by rewrite (mt_sb _ _ M')).
    split; rewrite ?Eb', ?Ebm, ?(mt_sb _ _ M'), ?E', ?Ead.
    + by apply mounted_alloc.
    + apply M'.
    + exact Hi.
    + exact Hd.
    + cbn. rewrite Hn. unfold in_table in Hin. lia.
    + by apply (img_used m fs B).
    + split; [split; [lia|by apply Z.ltb_lt]|split; [lia|by apply (img_used m fs B)]].
    + intros ? ? ?%lookup_empty_Some. done.
    + exact Hok.
    + intros a _ ? ? ?%lookup_empty_Some. done.
  - unfold wf_size. rewrite E', Esz, Ead. done.
Qed.
End Load.

(** ** The path of a program *)
Definition prog (name : string) : list byte := String.list_byte_of_string name.

Lemma program_entry k name : image_files !! k = Some name →
  dir_map (dir_bytes image_entries) !! prog name = Some (3 + Z.of_nat k) ∧
  components (slash :: prog name) = [prog name] ∧ (length (prog name) < DIRSIZ)%nat ∧ x00 ∉ prog name.
Proof.
  unfold dir_map. rewrite entries_dir_bytes by apply names_ok. intros Hk.
  assert (Hall : ∀ j n, image_files !! j = Some n →
    bool_decide (list_to_map (M := gmap (list byte) Z) ((λ e, (dkey e.1, e.2)) <$> image_entries) !! prog n = Some (3 + Z.of_nat j)) &&
    bool_decide (components (slash :: prog n) = [prog n]) && bool_decide (length (prog n) < DIRSIZ)%nat &&
    bool_decide (x00 ∉ prog n) = true).
  { intros j n. do 7 (destruct j as [|j]; [intros [= <-]; vm_compute; reflexivity|]). done. }
  specialize (Hall k name Hk). rewrite !andb_true_iff, !bool_decide_eq_true in Hall. tauto.
Qed.

Lemma cstr_elem e r : x00 ∉ e → cstr (e ++ x00 :: r) = e.
Proof.
  induction e as [|c e IH]; intros He; [done|]. rewrite not_elem_of_cons in He. cbn. rewrite decide_False by naive_solver.
  f_equal. apply IH, He.
Qed.

(** A short component in the [name] array. *)
Lemma put_elem_name e name0 : x00 ∉ e → (length e < DIRSIZ)%nat → length name0 = DIRSIZ →
  name_ok (put_elem e name0) ∧ dkey (put_elem e name0) = e.
Proof.
  intros He Hl Hn. unfold put_elem. rewrite decide_False by lia. split.
  - apply strncpy_Some. rewrite splice_length; [by rewrite Hn|]. rewrite length_app; simpl; lia.
  - unfold splice, dkey. rewrite take_0, <- app_assoc. cbn [app]. rewrite cstr_elem by done. apply take_ge. lia.
Qed.

Lemma ref_in_cache s i : length (k_inodes s) = NINODE → i_ref (the_inode i s) ≠ 0 → (i < NINODE)%nat.
Proof.
  intros Hl Hr. destruct (decide (i < NINODE)%nat) as [|Hi]; [done|]. exfalso. apply Hr. unfold the_inode.
  by rewrite lookup_ge_None_2 by lia.
Qed.

(** One entry of the cache is referenced. *)
Lemma one_ref_ok dev inum i s : cached dev inum i s → length (k_inodes s) = NINODE →
  (∀ j, j ≠ i → i_ref (the_inode j s) = 0) → icache_ok s.
Proof.
  intros (Hi & Hr & _) Hl H0. split; [done|..].
  - intros j. destruct (decide (j = i)) as [->|Hne]; [lia|]. by rewrite H0.
  - intros j k _ _ Hj Hk _ _. destruct (decide (j = i)) as [->|Hne]; [|by rewrite H0 in Hj].
    destruct (decide (k = i)) as [->|Hne]; [done|by rewrite H0 in Hk].
Qed.

Lemma root_dir_inv m i es s : Forall entry_good es → loaded_file m i [T_DIR; 0; 0; 1] (dir_bytes es) s →
  dir_inv (img_store m) ∅ s i.
Proof.
  intros Hes [Fi Sz Co Ty _ _ _]. split; [done| |by rewrite Ty|done|].
  - rewrite map_size_empty. unfold NBUF. lia.
  - pose proof (contents_length (img_store m) i s) as El. rewrite Co in El.
    assert (El' : length (dir_bytes es) = (32 * length es)%nat).
    { unfold dir_bytes. rewrite (concat_length32 (_ <$> es)), length_fmap; [done|].
      apply Forall_fmap. eapply Forall_impl; [exact Hes|]. intros x [_ Hx]. split; [exact (new_entry_length x.1 x.2)|].
      unfold compose, new_entry. rewrite (de_inum_bytes x.2); lia. }
    destruct Sz as [[Hs0 _] _]. replace (i_size (the_inode i s)) with (Z.of_nat (length es) * DIRENT_SIZE) by (unfold DIRENT_SIZE; lia).
    by apply Z.mod_mul.
Qed.

Section Path.
Context (m : Mkfs.mkfs) (ls : list (list byte)) (B : built (image ls) m).
Let W := img_store m.

(** The walk from the root along one component. *)
Lemma walk_program k name l name0 s : image_files !! k = Some name → ls !! k = Some l → length name0 = DIRSIZ →
  mounted W s → quiet s →
  wp ((let! ip := walk_from true in walk [prog name] ip false name0) s) (λ r s', ∃ ip,
    fst r = Some ip ∧ mounted W s' ∧ entry_new ip (3 + Z.of_nat k) s').
Proof.
  intros Hname Hl Hn0 M Q. destruct (program_entry k name Hname) as (Hent & _ & Hlen & Hz).
  destruct (put_elem_name (prog name) name0 Hz Hlen Hn0) as [Hok Hkey].
  assert (Hpow : 2 ^ 63 < 2 ^ 64 - 1) by done.
  assert (Huniq : ∀ i, i_ref (the_inode i s) ≠ 0 → i_ref (the_inode i s) > 0 ∧ i_dev (the_inode i s) = 0 ∧ i_inum (the_inode i s) = ROOTINO ∧
    i_valid (the_inode i s) = 0).
  { intros i Hi. pose proof (ic_ref _ (qt_cache _ Q) i). pose proof (qt_ref _ Q i). split; [lia|]. apply (qt_ref _ Q). lia. }
  cbn [walk_from]. apply wp_bind. change ROOTDEV with 0.
  kuse (iget_new W ROOTINO s M (qt_cache _ Q)).
  - intros i. pose proof (qt_few _ Q i). lia.
  - exists 0%nat. split; [unfold NINODE; lia|]. destruct (decide (i_ref (the_inode 0 s) = 0)) as [|Hne]; [by right|left].
    destruct (Huniq _ Hne) as (? & ? & ? & _). split; [unfold NINODE; lia|]. split_and!; done || lia.
  - intros i _. apply Q.
  - intros i Hc. apply (qt_ref _ Q). apply Hc.
  - intros r s1 (M1 & C1 & F1 & N1 & R1 & _). cbn [walk]. set (nm := put_elem _ _).
    apply wp_bind. kuse (ilock_image m (image ls) B s1 r 0 _ _ eq_refl M1 N1); [done|].
    intros _ s2 (M2 & F2 & L2 & C2 & R2).
    rewrite bind_gets, (ld_type _ _ _ _ _ L2), bool_decide_false by (intros X; by apply X). cbn [andb].
    assert (Hfree : ∀ i, i ≠ r → i_ref (the_inode i s2) = 0 ∧ sl_locked (i_lock (the_inode i s2)) = 0).
    { intros i Hne. rewrite (if_other _ _ _ F2), (if_other _ _ _ F1) by done. split; [|apply Q].
      destruct (decide (i_ref (the_inode i s) = 0)) as [|H0]; [done|]. exfalso. apply Hne.
      pose proof (if_other _ _ _ F1 i Hne) as Ei. destruct (Huniq _ H0) as (? & ? & ? & _), (en_cached _ _ _ N1) as (? & ? & ? & ?).
      apply (ic_unique _ C1); rewrite ?Ei; [exact (ref_in_cache s i (mt_len _ _ M) H0)|done|lia|done|congruence|congruence]. }
    assert (I2 : icache_ok s2).
    { apply (one_ref_ok _ _ _ _ C2 (mt_len _ _ M2)). apply Hfree. }
    assert (D2 : dir_inv W ∅ s2 r).
    { apply (root_dir_inv m r image_entries s2 (proj2 names_ok) L2). }
    pose proof (ld_contents _ _ _ _ _ L2) as Ec. fold W in Ec.
    apply wp_bind. apply (dir_lookup_run W ∅ nm _ r s2 D2 Hok); rewrite Ec; unfold nm; rewrite Hkey, Hent; [done|].
    intros s3 inum j [= <-] _ _ I3 F3. pose proof (bio_the_inode r _ _ F3) as E3.
    assert (M3 : mounted W s3) by (apply (mounted_frame r _ _ _ M2 I3), bio_ino_frame, F3).
    assert (C3 : cached 0 ROOTINO r s3) by (unfold cached; rewrite E3; exact C2).
    assert (Hfree3 : ∀ i, i ≠ r → i_ref (the_inode i s3) = 0 ∧ sl_locked (i_lock (the_inode i s3)) = 0).
    { intros i Hi. rewrite (bio_the_inode i _ _ F3). by apply Hfree. }
    assert (Hother : ∀ i, cached 0 (3 + Z.of_nat k) i s3 ∨ i_ref (the_inode i s3) = 0 → i ≠ r).
    { intros i Hi ->. destruct C3 as (_ & Hr & _ & Hn). destruct Hi as [(_ & _ & _ & Hn')|Hz0]; [|lia].
      rewrite Hn in Hn'. change ROOTINO with 1 in Hn'. lia. }
    kuse (iget_new W (3 + Z.of_nat k) s3 M3).
    + apply (one_ref_ok _ _ _ _ C3 (mt_len _ _ M3)), Hfree3.
    + intros i. destruct (decide (i = r)) as [->|Hi]; [|rewrite (proj1 (Hfree3 i Hi)); lia].
      rewrite E3, R2. pose proof (qt_few _ Q r). lia.
    + exists (if decide (r = 0)%nat then 1%nat else 0%nat). unfold NINODE. split; [case_decide; lia|right].
      apply Hfree3. case_decide; lia.
    + intros i Hi. by apply Hfree3, Hother.
    + intros i Hi. pose proof (Hother i (or_introl Hi)) as Hir. destruct Hi as (_ & Hr & _). by rewrite (proj1 (Hfree3 i Hir)) in Hr.
    + intros ip s4 (M4 & _ & F4 & N4 & _ & Hold). cbv beta.
      pose proof (Hother ip Hold) as Hne.
      assert (E4 : the_inode r s4 = the_inode r s2) by (by rewrite (if_other _ _ _ F4)).
      apply wp_bind. kuse (iunlock_mounted W r s4 M4); rewrite ?E4; [apply C2|by rewrite (ld_locked _ _ _ _ _ L2)|apply L2|].
      intros _ s5 (M5 & F5 & E5).
      apply wp_bind. kuse (iput_linked W r s5 M5); rewrite ?E5; [apply C2|done|cbn [i_nlink set_i_lock]; by rewrite (ld_nlink _ _ _ _ _ L2)|].
      intros _ s6 [M6 E6]. apply wp_ret. exists ip. split; [done|]. split; [done|].
      apply (entry_new_same _ _ s4); [|done]. rewrite E6 by done. by rewrite (if_other _ _ _ F5).
Qed.

(** Once the disk is there, the program's path leads to the program's bytes. *)
Lemma program_read k name l name0 s off n : image_files !! k = Some name → ls !! k = Some l → length name0 = DIRSIZ →
  mounted W s → quiet s → 0 ≤ off ≤ Z.of_nat (length l) → 0 ≤ n → off + n < 2 ^ 64 →
  wp ((let! r := namei (slash :: str0 name) name0 in
       let! ip := deref r in
       ilock (Some ip) ;;;
       readi ip off n) s)
    (λ r _, r = (Z.min n (Z.of_nat (length l) - off), slice (Z.to_nat off) (Z.to_nat n) l)).
Proof.
  intros Hname Hl Hn0 M Q Hoff Hn Hov. destruct (program_entry k name Hname) as (_ & Hcomp & _ & Hz).
  apply wp_bind. unfold namei.
  assert (Hw : wp (namex (slash :: str0 name) false name0 s) (λ r s', ∃ ip,
    fst r = Some ip ∧ mounted W s' ∧ entry_new ip (3 + Z.of_nat k) s')).
  { unfold namex. cbn [head in_bounds]. rewrite bind_ret_l, bool_decide_true by done.
    pose proof (walk_program k name l name0 s Hname Hl Hn0 M Q) as Hwalk. apply wp_bind_inv in Hwalk.
    apply wp_bind. eapply wp_mono; [exact Hwalk|]. cbv beta. intros ip s1 W1.
    pose proof (namex_loop_walk false [] (length (slash :: str0 name)) (slash :: prog name) ip name0) as Hloop.
    assert (E : slash :: str0 name = (slash :: prog name) ++ x00 :: []) by done. rewrite E.
    rewrite Hcomp in Hloop. apply (wp_req _ _ _ (Hloop ltac:(by rewrite not_elem_of_cons) ltac:(rewrite E, length_app; lia) s1)).
    exact W1. }
  apply wp_bind. eapply wp_mono; [exact Hw|]. cbv beta. intros r s1 (ip & Er & M1 & N1). apply wp_ret. rewrite Er. cbn [deref].
  rewrite bind_ret_l. apply wp_bind.
  assert (Hk : image ls !! S (S k) = Some (T_FILE_node l)) by (change (image ls !! S (S k)) with ((T_FILE_node <$> ls) !! k); by rewrite list_lookup_fmap, Hl).
  kuse (ilock_image m (image ls) B s1 ip (S (S k)) _ _ Hk M1); [|done|].
  { replace (1 + Z.of_nat (S (S k))) with (3 + Z.of_nat k) by lia. exact N1. }
  intros _ s2 (M2 & _ & [Fi Sz Co Ty _ _ _] & _ & _).
  pose proof (contents_length (img_store m) ip s2) as El. rewrite Co in El. destruct Sz as [[Hs0 Hs1] Hmap].
  kuse (readi_ok (img_store m) ∅ s2 ip off n Fi); [unfold NBUF; rewrite map_size_empty; lia|by rewrite Ty|by split|lia|lia|].
  intros x s3 (-> & _). rewrite decide_True by lia. replace (i_size (the_inode ip s2)) with (Z.of_nat (length l)) by lia. f_equal.
  rewrite (fbytes_slice _ _ (i_size (the_inode ip s2))) by lia. fold (contents (img_store m) ip s2). rewrite Co.
  destruct (decide (n ≤ Z.of_nat (length l) - off)) as [Hle|Hgt]; [by rewrite Z.min_l|].
  unfold slice. rewrite !firstn_all2; [done|rewrite length_drop; lia..].
Qed.
End Path.

(** C18. What the image builder put in, the running kernel finds: whatever
    bytes the programs on the build host consist of, as long as they fit, the
    image that mkfs makes of them, linked in as the ram disk and initialised
    as [main] does, lets the kernel resolve [/name] for each of the programs,
    through the buffer cache, the inode cache and the root directory, and read
    from the inode it finds exactly the program's bytes at any offset. *)
Theorem image_boots host ls k name l name0 s off n :
  Forall2 (host_has host) image_files ls → 26 + file_blocks_sum ls ≤ NBLOCKS →
  image_files !! k = Some name → ls !! k = Some l → length name0 = DIRSIZ →
  kinv s → k_bufs s = zero_bufs → quiet s →
  0 ≤ off ≤ Z.of_nat (length l) → 0 ≤ n → off + n < 2 ^ 64 →
  wp (Mkfs.main host mkfs0) (λ _ m,
    wp ((rd_init (save_img m) IMG_SIZE ;;;
         bcache_init ;;;
         fs_init ROOTDEV ;;;
         let! r := namei (slash :: str0 name) name0 in
         let! ip := deref r in
         ilock (Some ip) ;;;
         readi ip off n) s)
      (λ r _, r = (Z.min n (Z.of_nat (length l) - off), slice (Z.to_nat off) (Z.to_nat n) l))).
Proof.
  intros Hh Hroom Hname Hl Hn0 Hk Eb Q Hoff Hn Hov.
  eapply wp_mono; [exact (main_run host ls Hh Hroom)|]. cbv beta. intros _ m B. apply wp_assoc3.
  eapply wp_mono; [exact (disk_init_ok m (image ls) s B Hk Eb Q)|]. cbv beta. intros _ s1 [M1 Q1].
  exact (program_read m ls B k name l name0 s1 off n Hname Hl Hn0 M1 Q1 Hoff Hn Hov).
Qed.
End Mount.

(** Booting the zeroed kernel on an image whose programs hold their own paths. *)
Lemma kstate0_quiet : quiet kstate0.
Proof.
  assert (E : ∀ i, the_inode i kstate0 = inode0).
  { intros i. unfold the_inode. destruct (k_inodes kstate0 !! i) eqn:Ei; [|done]. by apply lookup_replicate in Ei as [-> _]. }
  split; [split|..].
  - apply length_replicate.
  - intros i. by rewrite E.
  - intros i j _ _. by rewrite E.
  - intros i. by rewrite E.
  - intros i. by rewrite E.
  - intros i. by rewrite E.
Qed.

Lemma image_boots_witness :
  wp (Mkfs.main Some mkfs0) (λ _ m,
    wp ((rd_init (save_img m) IMG_SIZE ;;; bcache_init ;;; @fs_init 1%nat ROOTDEV ;;;
         let! r := @namei 1%nat no_devs (slash :: str0 "nsh") (replicate DIRSIZ x00) in
         let! ip := deref r in
         @ilock 1%nat (Some ip) ;;;
         @readi 1%nat no_devs ip 5 100) kstate0)
      (λ r _, r = (3, prog "nsh"))).
Proof.
  apply (@image_boots 1%nat no_devs Some demo_files 5 "nsh" (String.list_byte_of_string "user/nsh")).
  - exact demo_host.
  - by vm_compute.
  - reflexivity.
  - reflexivity.
  - reflexivity.
  - exact kstate0_kinv.
  - reflexivity.
  - exact kstate0_quiet.
  - by vm_compute.
  - lia.
  - lia.
Defined.
