(* ===== verification/Seg.v ===== *)
(** * Segments and interrupt gates (kernel/seg.h, vm.c, trap.c, mmu.h)

    The descriptor tables as [seg_init], [tv_init] and [idt_init] fill them in:
    the words of a processor's GDT, its task state segment, the interrupt gates
    and the registers that point the processor at them.  Addresses of the
    kernel's objects are parameters. *)
From S2P Require Import Prelude Vm.

Definition SEG_KCODE : Z := 1.
Definition SEG_KDATA : Z := 2.
Definition SEG_UDATA32 : Z := 3.
Definition SEG_UDATA : Z := 4.
Definition SEG_UCODE : Z := 5.
Definition SEG_TSS : Z := 6.
Definition NSEGS : Z := 8.

Definition LONG_MODE_SEG_DESC (access flag : Z) : Z :=
  Z.lor (Z.shiftl access 40) (Z.shiftl (Z.land flag 0xFF) 48).

(** [struct task_state], packed; the reserved words stay 0. *)
Record task_state := mk_ts { ts_rsp : list Z; ts_ist : list Z; ts_iopb : Z }.
Definition TS_SIZE : Z := 104.

Record gate_desc := mk_gate {
  gd_off_15_0 : Z; gd_cs : Z; gd_ist : Z; gd_type : Z; gd_off_mid : Z; gd_off_hi : Z; gd_reserved : Z
}.
Definition GATE_SIZE : Z := 16.

Record tables := mk_tables {
  t_gdt : list Z;             (** [mycpu()->gdt] *)
  t_ts : task_state;          (** [mycpu()->ts] *)
  t_idt : list gate_desc;
  t_gdtr : Z * Z;             (** limit and base of [lgdt] *)
  t_idtr : Z * Z;
  t_tr : Z
}.
Definition set_t_gdt (f : list Z → list Z) (t : tables) : tables := mk_tables (f (t_gdt t)) (t_ts t) (t_idt t) (t_gdtr t) (t_idtr t) (t_tr t).
Definition set_t_ts (f : task_state → task_state) (t : tables) : tables := mk_tables (t_gdt t) (f (t_ts t)) (t_idt t) (t_gdtr t) (t_idtr t) (t_tr t).
Definition set_t_idt (f : list gate_desc → list gate_desc) (t : tables) : tables := mk_tables (t_gdt t) (t_ts t) (f (t_idt t)) (t_gdtr t) (t_idtr t) (t_tr t).
Definition set_t_gdtr (v : Z * Z) (t : tables) : tables := mk_tables (t_gdt t) (t_ts t) (t_idt t) v (t_idtr t) (t_tr t).
Definition set_t_idtr (v : Z * Z) (t : tables) : tables := mk_tables (t_gdt t) (t_ts t) (t_idt t) (t_gdtr t) v (t_tr t).
Definition set_t_tr (v : Z) (t : tables) : tables := mk_tables (t_gdt t) (t_ts t) (t_idt t) (t_gdtr t) (t_idtr t) v.
Definition gdt_set (i v : Z) : M tables unit := modify (set_t_gdt (<[Z.to_nat i := v]>)).

Definition wgdt (p size : Z) : M tables unit := modify (set_t_gdtr ((size - 1) mod 2 ^ 16, p)).
Definition widt (p size : Z) : M tables unit := modify (set_t_idtr ((size - 1) mod 2 ^ 16, p)).
Definition wtr (selector : Z) : M tables unit := modify (set_t_tr selector).

Definition set_tss_desc (slot tss_base limit flags access : Z) : M tables unit :=
  let low := Z.land limit 0xFFFF in
  let low := Z.lor low (Z.shiftl (Z.land tss_base 0xFFFFFF) 16) in
  let low := Z.lor low (Z.shiftl access 40) in
  let low := Z.lor low (Z.shiftl (Z.land (Z.shiftr limit 16) 0xF) 48) in
  let low := Z.lor low (Z.shiftl (Z.land flags 0xF) 52) in
  let low := Z.lor low (Z.shiftl (Z.land (Z.shiftr tss_base 24) 0xFF) 56) in
  let high := Z.land (Z.shiftr tss_base 32) 0xFFFFFFFF in
  gdt_set slot low ;;;
  gdt_set (slot + 1) high.

(** [seg_init] on the processor whose [gdt] and [ts] are at these addresses,
    [ist0] ending at [ist0_end]. *)
Definition seg_init (gdt ts ist0_end : Z) : M tables unit :=
  gdt_set SEG_KCODE (LONG_MODE_SEG_DESC 0x9A 0xAF) ;;;
  gdt_set SEG_KDATA (LONG_MODE_SEG_DESC 0x92 0xCF) ;;;
  gdt_set SEG_UDATA32 (LONG_MODE_SEG_DESC 0 0) ;;;
  gdt_set SEG_UDATA (LONG_MODE_SEG_DESC 0xF2 0xCF) ;;;
  gdt_set SEG_UCODE (LONG_MODE_SEG_DESC 0xFA 0xAF) ;;;
  modify (set_t_ts (λ _, mk_ts (replicate 3 0) (replicate 7 0) 0)) ;;;
  modify (set_t_ts (λ t, mk_ts (ts_rsp t) (<[0%nat := ist0_end]> (ts_ist t)) (ts_iopb t))) ;;;
  modify (set_t_ts (λ t, mk_ts (ts_rsp t) (ts_ist t) TS_SIZE)) ;;;
  set_tss_desc SEG_TSS ts (TS_SIZE - 1) 0 0x89 ;;;
  wgdt gdt (8 * NSEGS) ;;;
  wtr (Z.shiftl SEG_TSS 3).

Definition SETGATE (istrap : bool) (m_ist sel off dpl : Z) : gate_desc :=
  mk_gate (Z.land off 0xFFFF) (sel mod 2 ^ 16) (u8 m_ist)
    (Z.lor (Z.lor 0x80 (Z.shiftl dpl 5)) (if istrap then 0xF else 0xE))
    (Z.land (Z.shiftr off 16) 0xFFFF) (Z.land (Z.shiftr off 32) 0xFFFFFFFF) 0.

(** [vectors]: the addresses of the entry points in vectors.asm. *)
Definition tv_init (vectors : list Z) : M tables unit :=
  for_each (seq 0 256) (λ i,
    modify (set_t_idt (<[i := SETGATE false 0 (Z.shiftl SEG_KCODE 3) (vectors !!! i) 0]>))) ;;;
  modify (set_t_idt (<[8%nat := SETGATE true 1 (Z.shiftl SEG_KCODE 3) (vectors !!! 8%nat) 0]>)).
Definition idt_init (idt : Z) : M tables unit := widt idt (256 * GATE_SIZE).

Definition tables0 : tables :=
  mk_tables (replicate 8 0) (mk_ts (replicate 3 0) (replicate 7 0) 0) (replicate 256 (mk_gate 0 0 0 0 0 0 0)) (0, 0) (0, 0) 0.
