(* ===== verification/SegSpec.v ===== *)
(** * What the processor reads in the descriptor tables

    The fields of a descriptor as the processor decodes them (Intel SDM 3,
    3.4.5, 6.14.1 and 7.2.3), and the selectors that [syscall] and [sysret]
    derive from STAR. *)
From S2P Require Import Prelude Vm Seg.

Definition bits (v lo n : Z) : Z := Z.land (Z.shiftr v lo) (Z.ones n).

(** Of a code, data or system segment descriptor. *)
Definition d_access (w : Z) : Z := bits w 40 8.
Definition d_dpl (w : Z) : Z := bits w 45 2.
Definition d_present (w : Z) : bool := Z.testbit w 47.
Definition d_segment (w : Z) : bool := Z.testbit w 44.      (** code or data, not system *)
Definition d_code (w : Z) : bool := Z.testbit w 43.
Definition d_writable (w : Z) : bool := Z.testbit w 41.     (** data; readable for code *)
Definition d_long (w : Z) : bool := Z.testbit w 53.
Definition d_flags (w : Z) : Z := bits w 52 4.
Definition d_limit (w : Z) : Z := Z.lor (bits w 0 16) (Z.shiftl (bits w 48 4) 16).
Definition d_base64 (low high : Z) : Z :=
  Z.lor (Z.lor (bits low 16 24) (Z.shiftl (bits low 56 8) 24)) (Z.shiftl high 32).

Definition g_offset (g : gate_desc) : Z :=
  Z.lor (Z.lor (gd_off_15_0 g) (Z.shiftl (gd_off_mid g) 16)) (Z.shiftl (gd_off_hi g) 32).
Definition g_present (g : gate_desc) : bool := Z.testbit (gd_type g) 7.
Definition g_dpl (g : gate_desc) : Z := bits (gd_type g) 5 2.
Definition g_trap (g : gate_desc) : bool := bool_decide (bits (gd_type g) 0 4 = 0xF).

(** ** Bit by bit *)
Lemma testbit_high v n k : 0 ≤ v < 2 ^ n → n ≤ k → Z.testbit v k = false.
Proof.
  intros Hv Hk. destruct (decide (v = 0)) as [->|]; [by rewrite Z.bits_0|].
  apply Z.bits_above_log2; [lia|]. apply Z.log2_lt_pow2; [lia|]. apply Z.lt_le_trans with (2 ^ n); [lia|]. apply Z.pow_le_mono_r; lia.
Qed.

Ltac ltb_cases := repeat match goal with
  | |- context [Z.ltb ?a ?b] => destruct (Z.ltb_spec a b); cbn [andb orb negb]; try lia
  | |- context [Z.leb ?a ?b] => destruct (Z.leb_spec a b); cbn [andb orb negb]; try lia
  end.
Lemma lor_bit a b k : Z.testbit (Z.lor a b) k = Z.testbit a k || Z.testbit b k.
Proof. apply Z.lor_spec. Qed.
Lemma ones_bit v n k : 0 ≤ n → 0 ≤ k → Z.testbit (Z.land v (Z.ones n)) k = Z.testbit v k && (k <? n).
Proof. intros Hn Hk. rewrite Z.land_spec, Z.testbit_ones by lia. ltb_cases; by rewrite ?andb_true_r, ?andb_false_r. Qed.
Lemma shl_bit v n k : 0 ≤ n → 0 ≤ k → Z.testbit (Z.shiftl v n) k = (n <=? k) && Z.testbit v (k - n).
Proof.
  intros Hn Hk. rewrite Z.shiftl_spec by lia. destruct (Z.leb_spec n k); [done|]. by rewrite Z.testbit_neg_r by lia.
Qed.
Lemma shr_bit v n k : 0 ≤ k → Z.testbit (Z.shiftr v n) k = Z.testbit v (k + n).
Proof. intros Hk. by apply Z.shiftr_spec. Qed.
Lemma bits_bit v lo n k : 0 ≤ n → 0 ≤ k → Z.testbit (bits v lo n) k = Z.testbit v (k + lo) && (k <? n).
Proof. intros Hn Hk. unfold bits. by rewrite ones_bit, shr_bit by lia. Qed.

(** The masks of the source. *)
Lemma mask_4 : 0xF = Z.ones 4. Proof. done. Qed.
Lemma mask_8 : 0xFF = Z.ones 8. Proof. done. Qed.
Lemma mask_16 : 0xFFFF = Z.ones 16. Proof. done. Qed.
Lemma mask_24 : 0xFFFFFF = Z.ones 24. Proof. done. Qed.
Lemma mask_32 : 0xFFFFFFFF = Z.ones 32. Proof. done. Qed.
Ltac spread := repeat first [rewrite lor_bit | rewrite ones_bit by lia | rewrite bits_bit by lia | rewrite shl_bit by lia | rewrite shr_bit by lia].

Section Tss.
Context (base limit flags access : Z).
Context (Hb : 0 ≤ base < 2 ^ 64) (Hl : 0 ≤ limit < 2 ^ 20) (Hf : 0 ≤ flags < 2 ^ 4) (Ha : 0 ≤ access < 2 ^ 8).
Definition tss_low : Z :=
  Z.lor (Z.lor (Z.lor (Z.lor (Z.lor (Z.land limit 0xFFFF) (Z.shiftl (Z.land base 0xFFFFFF) 16)) (Z.shiftl access 40))
    (Z.shiftl (Z.land (Z.shiftr limit 16) 0xF) 48)) (Z.shiftl (Z.land flags 0xF) 52)) (Z.shiftl (Z.land (Z.shiftr base 24) 0xFF) 56).
Definition tss_high : Z := Z.land (Z.shiftr base 32) 0xFFFFFFFF.

Ltac known_zero := repeat match goal with
  | |- context [Z.testbit base ?k] => rewrite (testbit_high base 64 k) by (done || lia)
  | |- context [Z.testbit limit ?k] => rewrite (testbit_high limit 20 k) by (done || lia)
  | |- context [Z.testbit flags ?k] => rewrite (testbit_high flags 4 k) by (done || lia)
  | |- context [Z.testbit access ?k] => rewrite (testbit_high access 8 k) by (done || lia)
  end.
Ltac field := apply Z.bits_inj'; intros k Hk; unfold tss_low, tss_high, d_base64, d_limit, d_access, d_flags; rewrite ?mask_4, ?mask_8, ?mask_16, ?mask_24, ?mask_32;
  repeat progress (spread; ltb_cases; known_zero; rewrite ?orb_false_r, ?andb_true_r, ?andb_false_r, ?orb_false_l); try done; try (f_equal; lia).
Lemma tss_access : d_access tss_low = access.
Proof. field. Qed.
Lemma tss_flags : d_flags tss_low = flags.
Proof. field. Qed.
Lemma tss_limit : d_limit tss_low = limit.
Proof. field. Qed.
Lemma tss_base : d_base64 tss_low tss_high = base.
Proof. field. Qed.
End Tss.

(** ** The task state segment *)
Lemma gdt_set_run i v t : gdt_set i v t = Done tt (set_t_gdt (<[Z.to_nat i := v]>) t).
Proof. done. Qed.

(** The descriptor written in two words of the table reads back as the base,
    the limit, the flags and the access byte it was given, for a limit of 20
    bits; no other word of the table changes. *)
Lemma set_tss_desc_decodes slot base limit flags access t :
  0 ≤ slot → slot + 1 < Z.of_nat (length (t_gdt t)) →
  0 ≤ base < 2 ^ 64 → 0 ≤ limit < 2 ^ 20 → 0 ≤ flags < 2 ^ 4 → 0 ≤ access < 2 ^ 8 →
  wp (set_tss_desc slot base limit flags access t) (λ _ t', ∃ low high,
    t' = set_t_gdt (λ g, <[Z.to_nat (slot + 1) := high]> (<[Z.to_nat slot := low]> g)) t ∧
    d_base64 low high = base ∧ d_limit low = limit ∧ d_flags low = flags ∧ d_access low = access).
Proof.
  intros Hs Hlen Hb Hl Hf Ha. exists (tss_low base limit flags access), (tss_high base).
  split_and!; [done|by apply tss_base|by apply tss_limit|by apply tss_flags|by apply tss_access].
Qed.

(** ** Gates *)
Section Gate.
Context (istrap : bool) (ist sel off dpl : Z) (Ho : 0 ≤ off < 2 ^ 64) (Hd : 0 ≤ dpl < 4).
Ltac off_zero := repeat match goal with |- context [Z.testbit off ?k] => rewrite (testbit_high off 64 k) by (done || lia) end.
Lemma gate_offset : g_offset (SETGATE istrap ist sel off dpl) = off.
Proof.
  apply Z.bits_inj'. intros k Hk. unfold g_offset, SETGATE. cbn [gd_off_15_0 gd_off_mid gd_off_hi]. rewrite mask_16, mask_32.
  repeat progress (spread; ltb_cases; off_zero; rewrite ?orb_false_r, ?andb_true_r, ?andb_false_r, ?orb_false_l); try done; try (f_equal; lia).
Qed.
Lemma gate_type : g_present (SETGATE istrap ist sel off dpl) = true ∧ g_dpl (SETGATE istrap ist sel off dpl) = dpl ∧
  g_trap (SETGATE istrap ist sel off dpl) = istrap.
Proof. assert (dpl = 0 ∨ dpl = 1 ∨ dpl = 2 ∨ dpl = 3) as [->|[->|[->| ->]]] by lia; by destruct istrap. Qed.
End Gate.

Definition vectors_ok (vectors : list Z) : Prop := length vectors = 256%nat ∧ Forall (λ v, 0 ≤ v < 2 ^ 64) vectors.

Lemma fill_idt (f : nat → gate_desc) n : ∀ t, (n ≤ length (t_idt t))%nat →
  wp (for_each (seq 0 n) (λ i, modify (set_t_idt (<[i := f i]>))) t)
     (λ _ t', ∃ l, t' = set_t_idt (λ _, l) t ∧ length l = length (t_idt t) ∧ ∀ i, (i < n)%nat → l !! i = Some (f i)).
Proof.
  intros t. induction n as [|n IH]; intros Hn.
  - apply wp_ret. exists (t_idt t). destruct t. split_and!; [done|done|lia].
  - rewrite seq_S. apply wp_for_each_app. kuse IH; [lia|]. intros _ t1 (l & -> & Hl & Hf). cbn [for_each]. apply wp_bind, wp_modify, (wp_ret tt).
    exists (<[n := f n]> l). split_and!; [done|by rewrite length_insert|]. intros i Hi. destruct (decide (i = n)) as [->|Hne].
    + apply list_lookup_insert_eq. lia.
    + rewrite list_lookup_insert_ne by done. apply Hf. lia.
Qed.

(** After [tv_init] every interrupt enters the kernel at its vector: the gates
    are present, reachable from the kernel only, in the kernel's code segment,
    with interrupts off; the double fault alone is a trap gate and has a stack
    of its own. *)
Lemma tv_init_gates vectors t : vectors_ok vectors → length (t_idt t) = 256%nat →
  wp (tv_init vectors t) (λ _ t', length (t_idt t') = 256%nat ∧
    ∀ i v, vectors !! i = Some v → ∃ g, t_idt t' !! i = Some g ∧
      g_offset g = v ∧ gd_cs g = 8 * SEG_KCODE ∧ g_present g = true ∧ g_dpl g = 0 ∧
      g_trap g = bool_decide (i = 8%nat) ∧ gd_ist g = if decide (i = 8%nat) then 1 else 0).
Proof.
  intros [Hv Hr] Hl. unfold tv_init. apply wp_bind. kuse (fill_idt (λ i, SETGATE false 0 (Z.shiftl SEG_KCODE 3) (vectors !!! i) 0) 256 t); [lia|].
  intros _ t1 (l & -> & Hl1 & Hf). apply wp_modify. cbn [t_idt set_t_idt]. split; [rewrite length_insert; lia|].
  intros i v Hi. assert (Hlt : (i < 256)%nat) by (rewrite <- Hv; by eapply lookup_lt_Some).
  pose proof (list_lookup_total_correct _ _ _ Hi) as Ev. pose proof (proj1 (Forall_lookup _ _) Hr i v Hi) as Hv64.
  destruct (decide (i = 8%nat)) as [->|Hne].
  - exists (SETGATE true 1 (Z.shiftl SEG_KCODE 3) v 0). split; [rewrite list_lookup_insert_eq by lia; by rewrite Ev|].
    split; [by apply gate_offset|]. destruct (gate_type true 1 (Z.shiftl SEG_KCODE 3) v 0) as (E1 & E2 & E3); [lia|]. by rewrite E1, E2, E3.
  - exists (SETGATE false 0 (Z.shiftl SEG_KCODE 3) v 0). split; [rewrite list_lookup_insert_ne by done; rewrite Hf by done; by rewrite Ev|].
    split; [by apply gate_offset|]. destruct (gate_type false 0 (Z.shiftl SEG_KCODE 3) v 0) as (E1 & E2 & E3); [lia|]. rewrite E1, E2, E3.
    by rewrite bool_decide_false.
Qed.

(** ** The segments *)

(** [seg_init] on an empty table: what each selector names. *)
Definition code_segment (dpl w : Z) : Prop :=
  d_present w = true ∧ d_segment w = true ∧ d_code w = true ∧ d_long w = true ∧ d_dpl w = dpl.
Definition data_segment (dpl w : Z) : Prop :=
  d_present w = true ∧ d_segment w = true ∧ d_code w = false ∧ d_writable w = true ∧ d_dpl w = dpl.
Definition available_tss (low high ts : Z) : Prop :=
  d_present low = true ∧ d_segment low = false ∧ bits low 40 4 = 9 ∧ d_dpl low = 0 ∧
  d_limit low = TS_SIZE - 1 ∧ d_base64 low high = ts.

(** The descriptor at a selector. *)
Definition at_selector (sel : Z) (t : tables) : Z := t_gdt t !!! Z.to_nat (sel / 8).

Definition segments_ready (gdt ts ist0_end : Z) (t : tables) : Prop :=
  t_gdtr t = (8 * NSEGS - 1, gdt) ∧
  code_segment 0 (at_selector (8 * SEG_KCODE) t) ∧ data_segment 0 (at_selector (8 * SEG_KDATA) t) ∧
  code_segment 3 (at_selector (8 * SEG_UCODE) t) ∧ data_segment 3 (at_selector (8 * SEG_UDATA) t) ∧
  t_tr t = 8 * SEG_TSS ∧ available_tss (at_selector (t_tr t) t) (at_selector (t_tr t + 8) t) ts ∧
  ts_ist (t_ts t) !!! 0%nat = ist0_end ∧ ts_iopb (t_ts t) = TS_SIZE.

Lemma access_bit w k : 0 ≤ k < 8 → Z.testbit (d_access w) k = Z.testbit w (k + 40).
Proof. intros Hk. unfold d_access. spread. ltb_cases. by rewrite andb_true_r. Qed.
Lemma access_present w : d_present w = Z.testbit (d_access w) 7.
Proof. by rewrite access_bit. Qed.
Lemma access_segment w : d_segment w = Z.testbit (d_access w) 4.
Proof. by rewrite access_bit. Qed.
Lemma access_field w lo n : 0 ≤ lo → 0 ≤ n → lo + n ≤ 8 → bits w (40 + lo) n = bits (d_access w) lo n.
Proof.
  intros Hlo Hn Hle. apply Z.bits_inj'. intros k Hk. rewrite !bits_bit by lia. destruct (Z.ltb_spec k n); [|by rewrite !andb_false_r].
  rewrite access_bit by lia. do 2 f_equal. lia.
Qed.
Lemma access_type w : bits w 40 4 = bits (d_access w) 0 4.
Proof. by rewrite <- access_field. Qed.
Lemma access_dpl w : d_dpl w = bits (d_access w) 5 2.
Proof. by rewrite <- access_field. Qed.

Lemma seg_init_ready gdt ts ist0_end t : length (t_gdt t) = 8%nat → 0 ≤ ts < 2 ^ 64 →
  wp (seg_init gdt ts ist0_end t) (λ _ t', segments_ready gdt ts ist0_end t').
Proof.
  intros Hl Hts. destruct t as [g ? ? ? ? ?]. cbn [t_gdt] in Hl. do 8 (destruct g as [|? g]; [done|]). destruct g; [|done].
  pose proof (tss_base ts 103 0 0x89 Hts ltac:(lia) ltac:(lia) ltac:(lia)) as Eb.
  pose proof (tss_limit ts 103 0 0x89 ltac:(lia) ltac:(lia)) as El.
  pose proof (tss_access ts 103 0 0x89 ltac:(lia) ltac:(lia)) as Ea.
  set (T := mk_tables [z; LONG_MODE_SEG_DESC 0x9A 0xAF; LONG_MODE_SEG_DESC 0x92 0xCF; LONG_MODE_SEG_DESC 0 0; LONG_MODE_SEG_DESC 0xF2 0xCF; LONG_MODE_SEG_DESC 0xFA 0xAF; tss_low ts 103 0 0x89; tss_high ts]
    (mk_ts (replicate 3 0) (<[0%nat := ist0_end]> (replicate 7 0)) TS_SIZE) t_idt (63, gdt) t_idtr 48).
  change (segments_ready gdt ts ist0_end T).
  unfold segments_ready. split; [done|]. do 4 (split; [by vm_compute|]). split; [done|]. split; [|by vm_compute].
  change (at_selector (Seg.t_tr T) T) with (tss_low ts 103 0 0x89). change (at_selector (Seg.t_tr T + 8) T) with (tss_high ts).
  unfold available_tss. rewrite Eb, El, access_present, access_segment, access_type, access_dpl, Ea. by vm_compute.
Qed.
