(* ===== verification/Dev.v ===== *)
(** * Devices (kernel/driver/uart.c, debug.c, lapic.c, ioapic.c, cpu.c, and the
      start of driver/kbd.c and syscall.c)

    Code that talks to devices is an interaction tree: its events are accesses
    to ports, to model specific registers and to memory-mapped registers, and
    what a device answers is not up to the kernel.  [DGet] and [DSet] reach the
    static variables of this code. *)
From S2P Require Import Usys Prelude State Kalloc Vm Console Seg.

(** [lapic] of lapic.c, [ioapic] of ioapic.c, [mycpu()->lapic_id],
    [mycpu()->self] and [reserved_mb2_info]. *)
Inductive var := VLapic | VIoapic | VLapicId | VSelf | VMb2.
#[export] Instance var_eq_dec : EqDecision var.
Proof. solve_decision. Defined.

Inductive devE : Type → Type :=
| DIn (port : Z) : devE Z
| DOut (port v : Z) : devE unit
| DRdmsr (msr : Z) : devE Z
| DWrmsr (msr v : Z) : devE unit
| DLoad (a : Z) : devE Z            (** 32 bits at an address of a device *)
| DStore (a v : Z) : devE unit
| DGet (x : var) : devE Z
| DSet (x : var) (v : Z) : devE unit
| DHlt : devE unit
| DFault : devE void                (** reading past the end of a string *)
| DKernel {A} (m : M kstate A) : devE A      (** code on the kernel's own state *)
| DTables {A} (m : M tables A) : devE A.     (** and on the descriptor tables *)
Definition dev := itree devE.
Definition act {R} (e : devE R) : dev R := ITree.trigger e.
Definition bad {R} : dev R := do v <- act DFault; match (v : void) with end.

Definition outb (port val : Z) : dev unit := act (DOut port val).
Definition inb (port : Z) : dev Z := act (DIn port).
Definition rdmsr (msr : Z) : dev Z := act (DRdmsr msr).
Definition wrmsr (msr val : Z) : dev unit := act (DWrmsr msr val).

(** [while(cond) ;] *)
Definition spin_while (cond : dev bool) : dev unit :=
  ITree.iter (λ _ : unit, do b <- cond; Ret (if (b : bool) then inl tt else inr tt)) tt.

(** ** The serial line (driver/uart.c) *)
Definition COM1 : Z := 0x3F8.

Definition init_serial : dev Z :=
  do! outb (COM1 + 1) 0x00;
  do! outb (COM1 + 3) 0x80;
  do! outb (COM1 + 0) 0x03;
  do! outb (COM1 + 1) 0x00;
  do! outb (COM1 + 3) 0x03;
  do! outb (COM1 + 2) 0xC7;
  do! outb (COM1 + 4) 0x0B;
  do! outb (COM1 + 4) 0x1E;
  do! outb (COM1 + 0) 0xAE;
  do r <- inb (COM1 + 0);
  if bool_decide (r ≠ 0xAE) then Ret 1 else
  do! outb (COM1 + 4) 0x0F;
  Ret 0.

Definition is_transmit_empty : dev Z := do r <- inb (COM1 + 5); Ret (Z.land r 0x20).
Definition serial_putc (a : byte) : dev unit :=
  do! spin_while (do r <- is_transmit_empty; Ret (bool_decide (r = 0)));
  outb COM1 (b2z a).
Fixpoint serial_puts (s : list byte) : dev unit :=
  match s with
  | [] => bad
  | c :: s => if bool_decide (c = x00) then Ret tt else do! serial_putc c; serial_puts s
  end.

(** [buf[i] = ...; v >>= 4] for the next [n] positions down from [i], before
    the bytes already there. *)
Fixpoint hex_loop (n : nat) (v : Z) (acc : list byte) : list byte :=
  match n with
  | O => acc
  | S n => hex_loop n (Z.shiftr v 4) (default x00 (digits !! Z.to_nat (Z.land v 0xf)) :: acc)
  end.
Definition serial_hex (v : Z) : dev unit := serial_puts (hex_loop 16 v [x00]).

(** ** debug.c *)
Definition halt : dev void := ITree.iter (λ _ : unit, do! act DHlt; Ret (inl tt)) tt.
Definition panic (str : list byte) : dev void := do! serial_puts str; halt.

Inductive sarg := SInt (n : Z) | SU64 (n : Z) | SStr (s : option (list byte)).

(** The digits in [buf], in the order stored; [None] when the array of 32
    overflows. *)
Fixpoint uint_loop (room : nat) (x base : Z) : option (list byte) :=
  match room with
  | O => None
  | S room =>
    let d := default x00 (digits !! Z.to_nat (x mod base)) in
    if bool_decide (x / base ≠ 0) then cons d <$> uint_loop room (x / base) base else Some [d]
  end.
Fixpoint serial_chars (l : list byte) : dev unit :=
  match l with [] => Ret tt | c :: l => do! serial_putc c; serial_chars l end.
Definition print_uint (x base : Z) (sign : bool) : dev unit :=
  let neg := sign && bool_decide (s64 x < 0) in
  do! (if neg then serial_putc x2d else Ret tt);
  let x := if neg then u64 (- s64 x) else x in
  match uint_loop 32 x base with
  | None => bad
  | Some buf => serial_chars (rev buf)
  end.

Fixpoint printf_loop (fmt : list byte) (args : list sarg) : dev unit :=
  match fmt with
  | [] => bad
  | c :: fmt =>
    if bool_decide (c = x00) then Ret tt else
    if bool_decide (c ≠ x25) then do! serial_putc c; printf_loop fmt args else
    match fmt with
    | [] => bad
    | c :: fmt =>
      if bool_decide (c = x00) then Ret tt else
      if bool_decide (c = x64) then
        match args with SInt n :: args => do! print_uint (u64 n) 10 true; printf_loop fmt args | _ => bad end
      else if bool_decide (c = x78) then
        match args with SU64 n :: args => do! print_uint n 16 false; printf_loop fmt args | _ => bad end
      else if bool_decide (c = x70) then
        match args with SU64 n :: args => do! print_uint n 16 false; printf_loop fmt args | _ => bad end
      else if bool_decide (c = x25) then do! serial_putc x25; printf_loop fmt args
      else if bool_decide (c = x73) then
        match args with SStr s :: args => do! serial_chars (default null_str s); printf_loop fmt args | _ => bad end
      else do! serial_putc x25; do! serial_putc c; printf_loop fmt args
    end
  end.
Definition serial_printf (fmt : option (list byte)) (args : list sarg) : dev unit :=
  match fmt with
  | None => do v <- panic (String.list_byte_of_string "null fmt" ++ [x00]); match (v : void) with end
  | Some fmt => printf_loop fmt args
  end.

(** ** Processor setup (cpu.c, syscall.c) *)
Definition MSR_EFER : Z := 0xC0000080.
Definition EFER_SCE : Z := 1.
Definition MSR_STAR : Z := 0xC0000081.
Definition MSR_LSTAR : Z := 0xC0000082.
Definition MSR_FMASK : Z := 0xC0000084.
Definition MSR_GS_BASE : Z := 0xC0000101.
Definition MSR_KERNEL_GS_BASE : Z := 0xC0000102.
Definition FL_IF : Z := Z.shiftl 1 9.

Definition per_cpu_init (c : Z) : dev unit :=
  do! act (DSet VSelf c);
  do! wrmsr MSR_GS_BASE c;
  wrmsr MSR_KERNEL_GS_BASE c.
(** [cpus]: the address of the array. *)
Definition cpu_init (cpus : Z) : dev unit := per_cpu_init cpus.

Definition syscall_init (syscall_entry : Z) : dev unit :=
  do efer <- rdmsr MSR_EFER;
  let efer := Z.lor efer EFER_SCE in
  do! wrmsr MSR_EFER efer;
  let star := Z.lor (Z.shiftl 0x0018 48) (Z.shiftl 0x0008 32) in
  do! wrmsr MSR_STAR star;
  do! wrmsr MSR_LSTAR syscall_entry;
  wrmsr MSR_FMASK FL_IF.

(** ** The local APIC (lapic.c) *)
Definition T_IRQ0 : Z := 32.
Definition IRQ_TIMER : Z := 0.
Definition IRQ_KBD : Z := 1.
Definition IRQ_ERROR : Z := 19.
Definition IRQ_SPURIOUS : Z := 31.
Definition IA32_APIC_BASE_MSR : Z := 0x1B.
Definition IA32_APIC_BASE_MSR_ENABLE : Z := 0x800.
Definition ID : Z := 0x0020 / 4.
Definition VER : Z := 0x0030 / 4.
Definition TPR : Z := 0x0080 / 4.
Definition EOI : Z := 0x00B0 / 4.
Definition SVR : Z := 0x00F0 / 4.
Definition ENABLE : Z := 0x100.
Definition ESR : Z := 0x0280 / 4.
Definition TIMER : Z := 0x0320 / 4.
Definition X1 : Z := 0x0B.
Definition PERIODIC : Z := 0x20000.
Definition PCINT : Z := 0x0340 / 4.
Definition LINT0 : Z := 0x0350 / 4.
Definition LINT1 : Z := 0x0360 / 4.
Definition ERROR : Z := 0x0370 / 4.
Definition MASKED : Z := 0x10000.
Definition TICR : Z := 0x0380 / 4.
Definition TDCR : Z := 0x03E0 / 4.

(** [lapic[index]], a volatile read. *)
Definition lapicr (index : Z) : dev Z := do l <- act (DGet VLapic); act (DLoad (u64 (l + 4 * index))).
Definition lapicw (index value : Z) : dev unit :=
  do l <- act (DGet VLapic);
  do! act (DStore (u64 (l + 4 * index)) (u32 value));
  do _ <- lapicr ID;
  Ret tt.
Definition lapic_id : dev Z :=
  do l <- act (DGet VLapic);
  if bool_decide (l = 0) then Ret 0 else
  do id <- lapicr ID;
  Ret (Z.shiftr id 24).

Definition lapic_init : dev unit :=
  do apic_base <- rdmsr IA32_APIC_BASE_MSR;
  do! (if bool_decide (Z.land apic_base IA32_APIC_BASE_MSR_ENABLE = 0)
       then wrmsr IA32_APIC_BASE_MSR (Z.lor apic_base IA32_APIC_BASE_MSR_ENABLE) else Ret tt);
  let apic_base := Z.ldiff apic_base 0xFFF in
  do l <- act (DKernel (io_remap apic_base PGSIZE_4KB));
  do! act (DSet VLapic l);
  do id <- lapic_id;
  do! act (DSet VLapicId (u8 id));
  do! lapicw SVR (Z.lor ENABLE (T_IRQ0 + IRQ_SPURIOUS));
  do! lapicw TDCR X1;
  do! lapicw TIMER (Z.lor PERIODIC (T_IRQ0 + IRQ_TIMER));
  do! lapicw TICR 10000000;
  do! lapicw LINT0 MASKED;
  do! lapicw LINT1 MASKED;
  do ver <- lapicr VER;
  do! (if bool_decide (4 ≤ Z.land (Z.shiftr ver 16) 0xFF) then lapicw PCINT MASKED else Ret tt);
  do! lapicw ERROR (T_IRQ0 + IRQ_ERROR);
  do! lapicw ESR 0;
  do! lapicw ESR 0;
  do! lapicw EOI 0;
  lapicw TPR 0.
Definition lapic_eoi : dev unit :=
  do l <- act (DGet VLapic);
  if bool_decide (l ≠ 0) then lapicw EOI 0 else Ret tt.

(** ** The I/O APIC (ioapic.c) *)
Definition IOAPIC : Z := 0xFEC00000.
Definition REG_VER : Z := 1.
Definition REG_TABLE : Z := 0x10.
Definition INT_DISABLED : Z := 0x10000.
(** The offsets of [reg] and [data] in [struct ioapic]. *)
Definition IO_REG : Z := 0.
Definition IO_DATA : Z := 16.

Definition ioapic_read (reg : Z) : dev Z :=
  do io <- act (DGet VIoapic);
  do! act (DStore (io + IO_REG) reg);
  act (DLoad (io + IO_DATA)).
Definition ioapic_write (reg data : Z) : dev unit :=
  do io <- act (DGet VIoapic);
  do! act (DStore (io + IO_REG) reg);
  act (DStore (io + IO_DATA) (u32 data)).
(** The loop over the entries from [i] on, [n] of them. *)
Fixpoint ioapic_clear (i : Z) (n : nat) : dev unit :=
  match n with
  | O => Ret tt
  | S n =>
    do! ioapic_write (REG_TABLE + 2 * i) (Z.lor INT_DISABLED (T_IRQ0 + i));
    do! ioapic_write (REG_TABLE + 2 * i + 1) 0;
    ioapic_clear (i + 1) n
  end.
Definition ioapic_init : dev unit :=
  do io <- act (DKernel (io_remap IOAPIC PGSIZE_4KB));
  do! act (DSet VIoapic io);
  do ver <- ioapic_read REG_VER;
  let maxintr := Z.land (Z.shiftr ver 16) 0xFF in
  ioapic_clear 0 (Z.to_nat (maxintr + 1)).
Definition ioapic_enable (irq apic_id : Z) : dev unit :=
  do! ioapic_write (REG_TABLE + 2 * irq) (T_IRQ0 + irq);
  ioapic_write (REG_TABLE + 2 * irq + 1) (Z.shiftl (u32 apic_id) 24).

(** ** The keyboard controller (driver/kbd.c) *)
Definition PS2_CONTROL_REG : Z := 0x64.
Definition PS2_STATUS_REG : Z := 0x64.
Definition KBD_W_REG : Z := 0x60.
Definition KBD_R_REG : Z := 0x60.

Definition is_output_buf_full : dev bool := do st <- inb PS2_STATUS_REG; Ret (bool_decide (Z.land st 0x01 ≠ 0)).
Definition is_input_buf_full : dev bool := do st <- inb PS2_STATUS_REG; Ret (bool_decide (Z.land st 0x02 ≠ 0)).
(** [while(!is_output_buf_full() && timeout--);] from [timeout] on. *)
Fixpoint wait_output (timeout : nat) : dev unit :=
  do full <- is_output_buf_full;
  if (full : bool) then Ret tt else
  match timeout with O => Ret tt | S timeout => wait_output timeout end.
Fixpoint await_ack (n : nat) : dev Z :=
  match n with
  | O => Ret (-1)
  | S n =>
    do! wait_output (Z.to_nat 0xFFFF);
    do sc <- inb KBD_R_REG;
    if bool_decide (sc = 0xFA) then Ret 0 else await_ack n
  end.
Definition activate_kbd : dev Z :=
  do! spin_while is_input_buf_full;
  do! outb PS2_CONTROL_REG 0xAE;
  do! spin_while is_input_buf_full;
  do! outb KBD_W_REG 0xF4;
  await_ack 100.
Definition kbd_init : dev unit :=
  do _ <- activate_kbd;
  do id <- act (DGet VLapicId);
  ioapic_enable IRQ_KBD id.
