(* ===== verification/DevSpec.v ===== *)
(** * What the drivers do to their devices

    Devices are given by their documented behaviour: the serial port becomes
    ready after every byte, the keyboard controller takes what is written to
    it, the I/O APIC is a window on its registers.  Against any such device the
    busy-waiting loops end, and the device is left as intended. *)
From S2P Require Import Prelude State Kalloc Vm Usys Console ConsoleSpec Ulib UlibSpec Seg SegSpec Dev.

(** ** Waiting *)
Section Spin.
Context {D : Type} (h : devE ~> Monads.stateT D (itree devE)) (cond : dev bool).

(** [cond] becomes false after finitely many tries, the device then being in
    state [d']. *)
Inductive stops_spinning : D → D → Prop :=
| stop_now d d' : interp_state h cond d ≈ Ret (d', false) → stops_spinning d d'
| stop_later d d1 d' : interp_state h cond d ≈ Ret (d1, true) → stops_spinning d1 d' → stops_spinning d d'.

Lemma spin_while_run d d' : stops_spinning d d' → interp_state h (spin_while cond) d ≈ Ret (d', tt).
Proof.
  unfold spin_while. induction 1 as [d d' H|d d1 d' H _ IH]; rewrite unfold_iter, bind_bind, interp_state_bind, H, bind_ret_l; cbn [fst snd]; rewrite bind_ret_l.
  - rewrite interp_state_ret. reflexivity.
  - rewrite tau_eutt. exact IH.
Qed.
End Spin.

(** ** The serial port *)

(** Reading the line status register, writing a byte to the port, and the bytes
    sent; a byte counts only when the status just read said empty. *)
Class Uart (U : Type) := {
  u_status : U → Z * U;
  u_send : Z → U → U;
  u_sent : U → list Z
}.
(** The transmitter becomes empty if one keeps looking. *)
Inductive becomes_ready `{Uart U} : U → Prop :=
| ready_now u : Z.land (u_status u).1 0x20 ≠ 0 → becomes_ready u
| ready_later u : Z.land (u_status u).1 0x20 = 0 → becomes_ready (u_status u).2 → becomes_ready u.
Class UartLaws (U : Type) `{Uart U} : Prop := {
  u_ready u : becomes_ready u;
  u_sent_status u : u_sent (u_status u).2 = u_sent u;
  u_sent_send v u : Z.land (u_status u).1 0x20 ≠ 0 → u_sent (u_send v (u_status u).2) = u_sent u ++ [v]
}.

Definition uart {U} `{Uart U} : devE ~> Monads.stateT U (itree devE) := λ _ e u,
  match e in devE R return itree devE (U * R) with
  | DIn port => if decide (port = COM1 + 5) then Ret ((u_status u).2, (u_status u).1) else do r <- act (DIn port); Ret (u, r)
  | DOut port v => if decide (port = COM1) then Ret (u_send v u, tt) else do r <- act (DOut port v); Ret (u, r)
  | e => do r <- act e; Ret (u, r)
  end.

Lemma dev_call {D R A} (h : devE ~> Monads.stateT D (itree devE)) (e : devE R) (k : R → dev A) d :
  interp_state h (ITree.bind (act e) k) d ≈ ITree.bind (h _ e d) (λ p, interp_state h (k p.2) p.1).
Proof. unfold act. rewrite interp_state_bind, interp_state_trigger. reflexivity. Qed.

(** The text of a number and of a format. *)
Definition uint_text (x base : Z) (sign : bool) : list byte :=
  let neg := sign && bool_decide (s64 x < 0) in
  (if neg then [x2d] else []) ++ rev (print_digits 32 (if neg then u64 (- s64 x) else x) base).
Fixpoint sformat (fmt : list byte) (args : list sarg) : option (list byte) :=
  match fmt with
  | [] => Some []
  | c :: fmt =>
    if decide (c = x25) then
      match fmt with
      | [] => Some []
      | d :: fmt =>
        if decide (d = x64) then match args with SInt n :: args => (uint_text (u64 n) 10 true ++.) <$> sformat fmt args | _ => None end
        else if decide (d = x78) then match args with SU64 n :: args => if decide (0 ≤ n < 2 ^ 64) then (uint_text n 16 false ++.) <$> sformat fmt args else None | _ => None end
        else if decide (d = x70) then match args with SU64 n :: args => if decide (0 ≤ n < 2 ^ 64) then (uint_text n 16 false ++.) <$> sformat fmt args else None | _ => None end
        else if decide (d = x25) then ([x25] ++.) <$> sformat fmt args
        else if decide (d = x73) then match args with SStr t :: args => (default null_str t ++.) <$> sformat fmt args | _ => None end
        else ([x25; d] ++.) <$> sformat fmt args
      end
    else ([c] ++.) <$> sformat fmt args
  end.

Section Serial.
Context {U : Type} `{UartLaws U}.

(** [t] sends [text] and comes back. *)
Definition transmits (t : dev unit) (text : list byte) : Prop :=
  ∀ u, ∃ u', interp_state uart t u ≈ Ret (u', tt) ∧ u_sent u' = u_sent u ++ (b2z <$> text).

Lemma transmits_nil : transmits (Ret tt) [].
Proof. intros u. exists u. rewrite interp_state_ret, app_nil_r. by split. Qed.
Lemma transmits_seq t k l1 l2 : transmits t l1 → transmits k l2 → transmits (do! t; k) (l1 ++ l2).
Proof.
  intros H1 H2 u. destruct (H1 u) as (u1 & E1 & S1). destruct (H2 u1) as (u2 & E2 & S2). exists u2.
  rewrite interp_state_bind, E1, bind_ret_l. cbn [fst snd]. split; [exact E2|]. by rewrite S2, S1, fmap_app, app_assoc.
Qed.

Definition port_ready (u' : U) (sent : list Z) : Prop :=
  ∃ u, Z.land (u_status u).1 0x20 ≠ 0 ∧ u' = (u_status u).2 ∧ u_sent u = sent.
Lemma transmit_wait u : ∃ u',
  interp_state uart (spin_while (do r <- is_transmit_empty; Ret (bool_decide (r = 0)))) u ≈ Ret (u', tt) ∧ port_ready u' (u_sent u).
Proof.
  enough (∃ u', stops_spinning uart (do r <- is_transmit_empty; Ret (bool_decide (r = 0))) u u' ∧ port_ready u' (u_sent u)) as (u' & R & E).
  { exists u'. split; [by apply spin_while_run|done]. }
  assert (Hc : ∀ u, interp_state uart (do r <- is_transmit_empty; Ret (bool_decide (r = 0))) u ≈
    Ret ((u_status u).2, bool_decide (Z.land (u_status u).1 0x20 = 0))).
  { intros v. unfold is_transmit_empty, inb. rewrite bind_bind, dev_call. unfold uart at 1. rewrite decide_True by done.
    rewrite bind_ret_l. cbn [fst snd]. rewrite bind_ret_l, interp_state_ret. reflexivity. }
  pose proof (u_ready u) as R. induction R as [u Hr|u Hr _ IH].
  - exists (u_status u).2. split; [|by exists u]. apply stop_now. rewrite Hc, bool_decide_false by done. reflexivity.
  - destruct IH as (u' & R & E). rewrite u_sent_status in E. exists u'. split; [|exact E].
    eapply stop_later; [|exact R]. rewrite Hc, bool_decide_true by done. reflexivity.
Qed.

Lemma transmits_char c : transmits (serial_putc c) [c].
Proof.
  intros u. destruct (transmit_wait u) as (u1 & E & u0 & Hr & -> & S0). exists (u_send (b2z c) (u_status u0).2). unfold serial_putc, outb.
  rewrite interp_state_bind, E, bind_ret_l. cbn [fst snd]. unfold act. rewrite interp_state_trigger. unfold uart at 1. rewrite decide_True by done.
  split; [reflexivity|]. by rewrite u_sent_send, S0.
Qed.
Lemma transmits_chars l : transmits (serial_chars l) l.
Proof. induction l as [|c l IH]; [apply transmits_nil|]. apply (transmits_seq _ _ [c]); [apply transmits_char|exact IH]. Qed.
Lemma transmits_puts l : Forall (λ c, c ≠ x00) l → transmits (serial_puts (l ++ [x00])) l.
Proof.
  induction 1 as [|c l Hc _ IH]; [apply transmits_nil|]. cbn [app serial_puts]. rewrite bool_decide_false by done.
  apply (transmits_seq _ _ [c]); [apply transmits_char|exact IH].
Qed.

Lemma transmits_uint x base sign : base = 10 ∨ base = 16 → 0 ≤ x < 2 ^ 64 → transmits (Dev.print_uint x base sign) (uint_text x base sign).
Proof.
  intros Hb Hx. unfold Dev.print_uint, uint_text. set (neg := sign && bool_decide (s64 x < 0)).
  apply transmits_seq; [destruct neg; [apply transmits_char|apply transmits_nil]|]. cbv zeta.
  set (y := if neg then u64 (- s64 x) else x). assert (Hy : 0 ≤ y < 2 ^ 64) by (unfold y; destruct neg; [apply u64_range|done]).
  change (uint_loop 32 y base) with (Ulib.digit_loop 32 y base).
  rewrite (digit_loop_ok base 32 ltac:(lia) y 32); [apply transmits_chars| |lia|lia].
  destruct Hb as [-> | ->]; [assert (2 ^ 64 < 10 ^ Z.of_nat 32) by (vm_compute; reflexivity)|assert (2 ^ 64 < 16 ^ Z.of_nat 32) by (vm_compute; reflexivity)]; lia.
Qed.

Lemma printf_loop_transmits fmt : ∀ args text, Forall (λ c, c ≠ x00) fmt → sformat fmt args = Some text →
  transmits (Dev.printf_loop (fmt ++ [x00]) args) text.
Proof.
  induction fmt as [|c fmt IH1 IH2] using list_ind2; intros args text Hz; [intros [= <-]; apply transmits_nil|].
  inversion Hz as [|?? Hc Hz']; subst. cbn [sformat app Dev.printf_loop]. rewrite bool_decide_false by done.
  case_decide as E; [rewrite bool_decide_false by (by intros [])|rewrite bool_decide_true by done].
  2:{ intros (text' & Ht & ->)%fmap_Some. apply (transmits_seq _ _ [c] text'); [apply transmits_char|by apply IH1]. }
  destruct fmt as [|d fmt]; [intros [= <-]; apply transmits_nil|]. inversion Hz' as [|?? Hd Hz'']; subst.
  specialize (IH2 d fmt eq_refl). cbn [app]. rewrite bool_decide_false by done.
  repeat (case_decide; [rewrite bool_decide_true by done|rewrite bool_decide_false by done]).
  - destruct args as [|[n| |] args]; try done. intros (text' & Ht & ->)%fmap_Some.
    apply transmits_seq; [apply transmits_uint; [by left|apply u64_range]|by apply IH2].
  - destruct args as [|[|n|] args]; try done. case_decide as Hn; [|done]. intros (text' & Ht & ->)%fmap_Some.
    apply transmits_seq; [apply transmits_uint; [by right|done]|by apply IH2].
  - destruct args as [|[|n|] args]; try done. case_decide as Hn; [|done]. intros (text' & Ht & ->)%fmap_Some.
    apply transmits_seq; [apply transmits_uint; [by right|done]|by apply IH2].
  - intros (text' & Ht & ->)%fmap_Some. apply (transmits_seq _ _ [x25] text'); [apply transmits_char|by apply IH2].
  - destruct args as [|[| |t] args]; try done. intros (text' & Ht & ->)%fmap_Some.
    apply transmits_seq; [apply transmits_chars|by apply IH2].
  - intros (text' & Ht & ->)%fmap_Some.
    apply (transmits_seq _ _ [x25] ([d] ++ text')); [apply transmits_char|]. apply (transmits_seq _ _ [d] text'); [apply transmits_char|by apply IH2].
Qed.
End Serial.

(** C15. [serial_printf] puts on the line exactly the text of the format and its
    arguments, in order: a signed 32-bit number in decimal, an unsigned 64-bit
    one in hexadecimal, a string, [[null]] for the null pointer, and
    unknown directives as they are.  It ends on every port that becomes ready
    after finitely many looks at its status. *)
Theorem serial_printf_transmits {U} `{UartLaws U} fmt args text u :
  Forall (λ c, c ≠ x00) fmt → sformat fmt args = Some text →
  ∃ u', interp_state uart (serial_printf (Some (fmt ++ [x00])) args) u ≈ Ret (u', tt) ∧ u_sent u' = u_sent u ++ (b2z <$> text).
Proof. intros Hz Hf. by apply printf_loop_transmits. Qed.

(** A port that takes [busy] looks to become ready after every byte, and loses
    what is written before. *)
Definition slow_uart : Type := nat * nat * list Z.
#[export] Instance slow_uart_ops : Uart slow_uart := {
  u_status u := let '(busy, more, sent) := u in (if decide (more = 0%nat) then 0x60 else 0, (busy, pred more, sent));
  u_send v u := let '(busy, more, sent) := u in if decide (more = 0%nat) then (busy, busy, sent ++ [v]) else u;
  u_sent u := u.2
}.
#[export] Instance slow_uart_laws : UartLaws slow_uart.
Proof.
  split.
  - intros [[busy more] sent]. induction more as [|more IH]; [by apply ready_now|by apply ready_later].
  - by intros [[busy more] sent].
  - by intros v [[busy [|more]] sent].
Qed.

Lemma serial_printf_transmits_witness :
  ∃ u' : slow_uart,
    interp_state uart (serial_printf (Some (String.list_byte_of_string "%d %x%c" ++ [x00])) [SInt (-7); SU64 0xFFFFFFFFFFFFFFFE]) ((3%nat, 0%nat, []) : slow_uart) ≈ Ret (u', tt) ∧
    u_sent u' = b2z <$> String.list_byte_of_string "-7 fffffffffffffffe%c".
Proof.
  exact (serial_printf_transmits (U := slow_uart) (String.list_byte_of_string "%d %x%c") [SInt (-7); SU64 0xFFFFFFFFFFFFFFFE]
    (String.list_byte_of_string "-7 fffffffffffffffe%c") (3%nat, 0%nat, []) ltac:(repeat constructor; done) ltac:(vm_compute; reflexivity)).
Defined.

(** ** The keyboard controller *)

(** Its status, the byte read from its data port, and writes to its ports. *)
Class Ps2 (K : Type) := { k_status : K → Z * K; k_data : K → Z * K; k_write : Z → Z → K → K }.
Inductive drains `{Ps2 K} : K → Prop :=
| drained k : Z.land (k_status k).1 0x02 = 0 → drains k
| drains_later k : Z.land (k_status k).1 0x02 ≠ 0 → drains (k_status k).2 → drains k.

Definition ps2 {K} `{Ps2 K} : devE ~> Monads.stateT K (itree devE) := λ _ e k,
  match e in devE R return itree devE (K * R) with
  | DIn port =>
    if decide (port = PS2_STATUS_REG) then Ret ((k_status k).2, (k_status k).1)
    else if decide (port = KBD_R_REG) then Ret ((k_data k).2, (k_data k).1) else do r <- act (DIn port); Ret (k, r)
  | DOut port v =>
    if decide (port = PS2_CONTROL_REG ∨ port = KBD_W_REG) then Ret (k_write port v k, tt) else do r <- act (DOut port v); Ret (k, r)
  | e => do r <- act e; Ret (k, r)
  end.

Section Keyboard.
Context {K : Type} `{Ps2 K}.

Lemma ps2_status k : interp_state ps2 is_input_buf_full k ≈ Ret ((k_status k).2, bool_decide (Z.land (k_status k).1 0x02 ≠ 0)).
Proof. unfold is_input_buf_full, inb. rewrite dev_call. unfold ps2 at 1. rewrite decide_True by done. rewrite bind_ret_l. cbn [fst snd]. rewrite interp_state_ret. reflexivity. Qed.
Lemma ps2_full k : interp_state ps2 is_output_buf_full k ≈ Ret ((k_status k).2, bool_decide (Z.land (k_status k).1 0x01 ≠ 0)).
Proof. unfold is_output_buf_full, inb. rewrite dev_call. unfold ps2 at 1. rewrite decide_True by done. rewrite bind_ret_l. cbn [fst snd]. rewrite interp_state_ret. reflexivity. Qed.

Lemma input_wait k : drains k → ∃ k', interp_state ps2 (spin_while is_input_buf_full) k ≈ Ret (k', tt).
Proof.
  intros Hd. enough (∃ k', stops_spinning ps2 is_input_buf_full k k') as (k' & R) by (exists k'; by apply spin_while_run).
  induction Hd as [k E|k E _ [k' IH]].
  - exists (k_status k).2. apply stop_now. rewrite ps2_status, bool_decide_false by (by intros []). reflexivity.
  - exists k'. eapply stop_later; [|exact IH]. rewrite ps2_status, bool_decide_true by done. reflexivity.
Qed.

Lemma output_wait n : ∀ k, ∃ k', interp_state ps2 (wait_output n) k ≈ Ret (k', tt).
Proof.
  induction n as [|n IH]; intros k; cbn [wait_output]; setoid_rewrite interp_state_bind; setoid_rewrite ps2_full; setoid_rewrite bind_ret_l; cbn [fst snd].
  all: case_bool_decide; [eexists; rewrite interp_state_ret; reflexivity|].
  - eexists. rewrite interp_state_ret. reflexivity.
  - apply IH.
Qed.

(** The first byte that is 0xFA ends the wait. *)
Lemma ack_wait n : ∀ k, ∃ k' r, interp_state ps2 (await_ack n) k ≈ Ret (k', r) ∧ (r = 0 ∨ r = -1).
Proof.
  induction n as [|n IH]; intros k; cbn [await_ack].
  - exists k, (-1). rewrite interp_state_ret. split; [reflexivity|by right].
  - destruct (output_wait (Z.to_nat 0xFFFF) k) as [k1 E1]. setoid_rewrite interp_state_bind. setoid_rewrite E1. setoid_rewrite bind_ret_l. cbn [fst snd].
    unfold inb. setoid_rewrite dev_call. unfold ps2 at 1. rewrite decide_False, decide_True by done. setoid_rewrite bind_ret_l. cbn [fst snd].
    case_bool_decide; [|apply IH]. exists (k_data k1).2, 0. rewrite interp_state_ret. split; [reflexivity|by left].
Qed.

(** [activate_kbd] ends, with 0 or -1, whatever the keyboard sends or does not
    send, as long as the controller takes the bytes written to it. *)
Lemma activate_kbd_ends k : (∀ k, drains k) → ∃ k' r, interp_state ps2 activate_kbd k ≈ Ret (k', r) ∧ (r = 0 ∨ r = -1).
Proof.
  intros Hd. destruct (input_wait k (Hd k)) as [k1 E1]. set (k2 := k_write PS2_CONTROL_REG 0xAE k1).
  destruct (input_wait k2 (Hd k2)) as [k3 E3]. set (k4 := k_write KBD_W_REG 0xF4 k3).
  destruct (ack_wait 100 k4) as (k5 & r & E5 & Hr). exists k5, r. split; [|done]. unfold activate_kbd, outb.
  rewrite interp_state_bind, E1, bind_ret_l. cbn [fst snd]. rewrite dev_call. unfold ps2 at 1. rewrite decide_True by (by left).
  rewrite bind_ret_l. cbn [fst snd]. fold k2. rewrite interp_state_bind, E3, bind_ret_l. cbn [fst snd]. rewrite dev_call. unfold ps2 at 1.
  rewrite decide_True by (by right). rewrite bind_ret_l. cbn [fst snd]. fold k4. exact E5.
Qed.
End Keyboard.
