(* ===== verification/ApicSpec.v ===== *)
(** * Interrupt routing

    The I/O APIC is reached through a window of two registers.  After
    [ioapic_init] it forwards nothing, and [kbd_init] lets the keyboard
    through, to this processor and to nothing else.  The selectors in STAR name
    the segments that [seg_init] has set up. *)
From S2P Require Import Prelude State Kalloc Vm Usys Console Seg SegSpec Dev DevSpec.

(** ** The I/O APIC *)

(** The pointer [ioapic], the register selected, and the registers; those below
    0x10 are not written here. *)
Record ioapic_state := mk_ioapic { ia_ptr : Z; ia_sel : Z; ia_regs : Z → Z }.
Definition io_select (r : Z) (d : ioapic_state) : ioapic_state := mk_ioapic (ia_ptr d) r (ia_regs d).
Definition io_write (v : Z) (d : ioapic_state) : ioapic_state :=
  mk_ioapic (ia_ptr d) (ia_sel d) (if decide (REG_TABLE ≤ ia_sel d) then <[ia_sel d := v]> (ia_regs d) else ia_regs d).

Definition window : devE ~> Monads.stateT ioapic_state (itree devE) := λ _ e d,
  match e in devE R return itree devE (ioapic_state * R) with
  | DGet x => if decide (x = VIoapic) then Ret (d, ia_ptr d) else do r <- act (DGet x); Ret (d, r)
  | DSet x v => if decide (x = VIoapic) then Ret (mk_ioapic v (ia_sel d) (ia_regs d), tt) else do r <- act (DSet x v); Ret (d, r)
  | DStore a v =>
    if decide (a = ia_ptr d + IO_REG) then Ret (io_select v d, tt)
    else if decide (a = ia_ptr d + IO_DATA) then Ret (io_write v d, tt) else do r <- act (DStore a v); Ret (d, r)
  | DLoad a => if decide (a = ia_ptr d + IO_DATA) then Ret (d, ia_regs d (ia_sel d)) else do r <- act (DLoad a); Ret (d, r)
  | e => do r <- act e; Ret (d, r)
  end.

Definition after_write (reg v : Z) (d : ioapic_state) : ioapic_state := io_write (u32 v) (io_select reg d).
Fixpoint after_clear (i : Z) (n : nat) (d : ioapic_state) : ioapic_state :=
  match n with
  | O => d
  | S n => after_clear (i + 1) n (after_write (REG_TABLE + 2 * i + 1) 0 (after_write (REG_TABLE + 2 * i) (Z.lor INT_DISABLED (T_IRQ0 + i)) d))
  end.

Lemma act_window {R} (e : devE R) d : interp_state window (act e) d ≈ window _ e d.
Proof. unfold act. rewrite interp_state_trigger. reflexivity. Qed.

Lemma ioapic_write_run reg v d : interp_state window (ioapic_write reg v) d ≈ Ret (after_write reg v d, tt).
Proof.
  unfold ioapic_write. rewrite dev_call. unfold window at 1. rewrite decide_True by done. rewrite bind_ret_l. cbn [fst snd].
  rewrite dev_call. unfold window at 1. rewrite decide_True by done. rewrite bind_ret_l. cbn [fst snd].
  rewrite act_window. unfold window. rewrite decide_False by (cbn; unfold IO_DATA, IO_REG; lia). rewrite decide_True by done. reflexivity.
Qed.

Lemma ioapic_read_run reg d : interp_state window (ioapic_read reg) d ≈ Ret (io_select reg d, ia_regs d reg).
Proof.
  unfold ioapic_read. rewrite dev_call. unfold window at 1. rewrite decide_True by done. rewrite bind_ret_l. cbn [fst snd].
  rewrite dev_call. unfold window at 1. rewrite decide_True by done. rewrite bind_ret_l. cbn [fst snd].
  rewrite act_window. unfold window. rewrite decide_True by done. reflexivity.
Qed.

Lemma ioapic_clear_run n : ∀ i d, interp_state window (ioapic_clear i n) d ≈ Ret (after_clear i n d, tt).
Proof.
  induction n as [|n IH]; intros i d; cbn [ioapic_clear after_clear]; [rewrite interp_state_ret; reflexivity|].
  rewrite interp_state_bind, ioapic_write_run, bind_ret_l. cbn [fst snd].
  rewrite interp_state_bind, ioapic_write_run, bind_ret_l. cbn [fst snd]. apply IH.
Qed.

Lemma ioapic_enable_run irq id d : interp_state window (ioapic_enable irq id) d ≈
  Ret (after_write (REG_TABLE + 2 * irq + 1) (Z.shiftl (u32 id) 24) (after_write (REG_TABLE + 2 * irq) (T_IRQ0 + irq) d), tt).
Proof.
  unfold ioapic_enable. rewrite interp_state_bind, ioapic_write_run, bind_ret_l. cbn [fst snd]. apply ioapic_write_run.
Qed.

(** The last entry, from the version register. *)
Definition max_entry (d : ioapic_state) : Z := bits (ia_regs d REG_VER) 16 8.
Definition initialised (io : Z) (d : ioapic_state) : ioapic_state :=
  after_clear 0 (Z.to_nat (max_entry d + 1)) (io_select REG_VER (mk_ioapic io (ia_sel d) (ia_regs d))).

Lemma ioapic_init_run d : interp_state window ioapic_init d ≈
  (do io <- act (DKernel (io_remap IOAPIC PGSIZE_4KB)); Ret (initialised io d, tt)).
Proof.
  unfold ioapic_init. rewrite dev_call. cbn [window]. rewrite bind_bind. apply eutt_eq_bind. intros io. rewrite bind_ret_l. cbn [fst snd].
  rewrite dev_call. unfold window at 1. rewrite decide_True by done. rewrite bind_ret_l. cbn [fst snd].
  rewrite interp_state_bind, ioapic_read_run, bind_ret_l. cbn [fst snd]. apply ioapic_clear_run.
Qed.

(** ** The entries *)
Definition masked (i : Z) (d : ioapic_state) : bool := Z.testbit (ia_regs d (REG_TABLE + 2 * i)) 16.
Definition vector (i : Z) (d : ioapic_state) : Z := bits (ia_regs d (REG_TABLE + 2 * i)) 0 8.
Definition destination (i : Z) (d : ioapic_state) : Z := bits (ia_regs d (REG_TABLE + 2 * i + 1)) 24 8.

Lemma after_write_regs reg v d r : REG_TABLE ≤ reg → ia_regs (after_write reg v d) r = if decide (r = reg) then u32 v else ia_regs d r.
Proof.
  intros Hr. unfold after_write, io_write. cbn [ia_sel ia_regs io_select]. rewrite decide_True by done.
  case_decide as E; [subst; apply fn_lookup_insert|by apply fn_lookup_insert_ne].
Qed.
Lemma after_clear_ptr n : ∀ i d, ia_ptr (after_clear i n d) = ia_ptr d.
Proof. induction n as [|n IH]; intros i d; [done|]. cbn [after_clear]. by rewrite IH. Qed.
Lemma after_clear_regs n : ∀ i d r, 0 ≤ i →
  ia_regs (after_clear i n d) r =
    if decide (REG_TABLE + 2 * i ≤ r < REG_TABLE + 2 * (i + Z.of_nat n)) then
      if decide (r mod 2 = 0) then u32 (Z.lor INT_DISABLED (T_IRQ0 + (r - REG_TABLE) / 2)) else 0
    else ia_regs d r.
Proof.
  induction n as [|n IH]; intros i d r Hi; cbn [after_clear].
  - rewrite decide_False by lia. done.
  - rewrite IH by lia. unfold REG_TABLE in *. rewrite !after_write_regs by (unfold REG_TABLE; lia).
    destruct (decide (16 + 2 * (i + 1) ≤ r < 16 + 2 * (i + 1 + Z.of_nat n))) as [Hin|Hout]; [by rewrite (decide_True (P := 16 + 2 * i ≤ r < _)) by lia|].
    destruct (decide (r = 16 + 2 * i + 1)) as [->|H1].
    { rewrite (decide_True (P := 16 + 2 * i ≤ _ < _)) by lia. rewrite decide_False; [done|]. replace (16 + 2 * i + 1) with (1 + (8 + i) * 2) by lia. by rewrite Z.mod_add. }
    destruct (decide (r = 16 + 2 * i)) as [->|H2]; [|by rewrite (decide_False (P := 16 + 2 * i ≤ r < _)) by lia].
    rewrite (decide_True (P := 16 + 2 * i ≤ _ < _)) by lia. rewrite decide_True by (replace (16 + 2 * i) with (0 + (8 + i) * 2) by lia; by rewrite Z.mod_add).
    do 3 f_equal. replace (16 + 2 * i - 16) with (i * 2) by lia. by rewrite Z.div_mul.
Qed.

Lemma entry_bits_masked i : 0 ≤ i < 256 → Z.testbit (u32 (Z.lor INT_DISABLED (T_IRQ0 + i))) 16 = true.
Proof. intros Hi. unfold u32. rewrite Z.mod_pow2_bits_low by lia. by rewrite Z.lor_spec. Qed.
Lemma entry_bits_enabled i : 0 ≤ i < 224 → Z.testbit (u32 (T_IRQ0 + i)) 16 = false ∧ bits (u32 (T_IRQ0 + i)) 0 8 = T_IRQ0 + i.
Proof.
  intros Hi. unfold T_IRQ0. rewrite u32_small by lia. split; [by apply (testbit_high (32 + i) 8); lia|].
  unfold bits. rewrite Z.shiftr_0_r, Z.land_ones by lia. apply Z.mod_small. lia.
Qed.
Lemma dest_bits id : 0 ≤ id < 256 → bits (u32 (Z.shiftl (u32 id) 24)) 24 8 = id.
Proof.
  intros Hid. rewrite (u32_small id), Z.shiftl_mul_pow2 by lia. rewrite u32_small by lia. unfold bits.
  rewrite Z.shiftr_div_pow2, Z.div_mul, Z.land_ones by lia. by apply Z.mod_small.
Qed.

(** Where an enabled interrupt goes. *)
Definition routed (irq id : Z) (d : ioapic_state) : Prop :=
  masked irq d = false ∧ vector irq d = T_IRQ0 + irq ∧ destination irq d = id.

Lemma initialised_masked io d i : 0 ≤ i ≤ max_entry d → masked i (initialised io d) = true.
Proof.
  intros Hi. unfold masked, initialised. assert (Hm : 0 ≤ max_entry d < 256).
  { unfold max_entry, bits. rewrite Z.land_ones by lia. by apply Z.mod_pos_bound. }
  rewrite after_clear_regs by lia. unfold REG_TABLE. rewrite decide_True by lia.
  rewrite decide_True by (replace (16 + 2 * i) with (0 + (8 + i) * 2) by lia; by rewrite Z.mod_add).
  replace (16 + 2 * i - 16) with (i * 2) by lia. rewrite Z.div_mul by lia. apply entry_bits_masked. lia.
Qed.

(** C14. Interrupts reach the processor only where the kernel asked for them:
    [ioapic_init], whatever the registers held, masks every entry that the
    chip's version register announces, and enabling [irq] for the processor
    [id] then unmasks that entry alone, with its vector and its destination;
    the registers outside the table are never written. *)
Theorem ioapic_routes_only d irq id :
  0 ≤ irq < 224 → irq ≤ max_entry d → 0 ≤ id < 256 →
  ∃ after : Z → ioapic_state,
    interp_state window (do! ioapic_init; ioapic_enable irq id) d ≈
      (do io <- act (DKernel (io_remap IOAPIC PGSIZE_4KB)); Ret (after io, tt)) ∧
    ∀ io, ia_ptr (after io) = io ∧ routed irq id (after io) ∧
      (∀ i, 0 ≤ i ≤ max_entry d → i ≠ irq → masked i (after io) = true) ∧
      (∀ r, r < REG_TABLE ∨ REG_TABLE + 2 * (max_entry d + 1) ≤ r → ia_regs (after io) r = ia_regs d r).
Proof.
  intros Hirq Hmax Hid. set (last io := after_write (REG_TABLE + 2 * irq + 1) (Z.shiftl (u32 id) 24) (after_write (REG_TABLE + 2 * irq) (T_IRQ0 + irq) (initialised io d))).
  exists last. split.
  { rewrite interp_state_bind, ioapic_init_run, bind_bind. apply eutt_eq_bind. intros io. rewrite bind_ret_l. apply ioapic_enable_run. }
  assert (Hregs : ∀ io r, ia_regs (last io) r = if decide (r = REG_TABLE + 2 * irq + 1) then u32 (Z.shiftl (u32 id) 24) else
    if decide (r = REG_TABLE + 2 * irq) then u32 (T_IRQ0 + irq) else ia_regs (initialised io d) r).
  { intros io r. unfold last. rewrite after_write_regs by (unfold REG_TABLE; lia). case_decide; [done|]. by rewrite after_write_regs by (unfold REG_TABLE; lia). }
  intros io. destruct (entry_bits_enabled irq Hirq) as [E1 E2]. split; [|split; [|split]].
  - unfold last, initialised. cbn [ia_ptr after_write io_write io_select]. by rewrite after_clear_ptr.
  - unfold routed, masked, vector, destination. rewrite !Hregs. rewrite !(decide_False (P := REG_TABLE + 2 * irq = _)) by lia.
    rewrite !decide_True by done. by rewrite dest_bits.
  - intros i Hi Hne. unfold masked. rewrite Hregs, !decide_False by lia. by apply initialised_masked.
  - intros r Hr. rewrite Hregs. rewrite !decide_False by lia. unfold initialised. rewrite after_clear_regs by lia.
    unfold REG_TABLE in *. rewrite decide_False by lia. done.
Qed.

(** A chip of 24 entries whose registers hold garbage. *)
Definition garbage_ioapic : ioapic_state := mk_ioapic 0 7 (λ r, if decide (r = REG_VER) then 0x170011 else 0x1234).
Lemma ioapic_routes_only_witness : ∃ after : Z → ioapic_state,
  interp_state window (do! ioapic_init; ioapic_enable IRQ_KBD 0) garbage_ioapic ≈
    (do io <- act (DKernel (io_remap IOAPIC PGSIZE_4KB)); Ret (after io, tt)) ∧
  masked 4 (after 0xFEC00000) = true ∧ routed IRQ_KBD 0 (after 0xFEC00000).
Proof.
  destruct (ioapic_routes_only garbage_ioapic IRQ_KBD 0 ltac:(vm_compute; done) ltac:(vm_compute; done) ltac:(done)) as (after & E & H).
  exists after. split; [exact E|]. destruct (H 0xFEC00000) as (_ & R & Hm & _). split; [|exact R].
  apply Hm; [vm_compute; split; intros Hc; discriminate Hc|done].
Defined.

(** ** System call entry *)
Definition msr_file : devE ~> Monads.stateT (Z → Z) (itree devE) := λ _ e m,
  match e in devE R return itree devE ((Z → Z) * R) with
  | DRdmsr r => Ret (m, m r)
  | DWrmsr r v => Ret (<[r := v]> m, tt)
  | e => do r <- act e; Ret (m, r)
  end.
Definition after_syscall_init (entry : Z) (m : Z → Z) : Z → Z :=
  <[MSR_FMASK := FL_IF]> (<[MSR_LSTAR := entry]> (<[MSR_STAR := 0x0018000800000000]> (<[MSR_EFER := Z.lor (m MSR_EFER) EFER_SCE]> m))).

Lemma syscall_init_run entry m : interp_state msr_file (syscall_init entry) m ≈ Ret (after_syscall_init entry m, tt).
Proof.
  unfold syscall_init, rdmsr, wrmsr. repeat (rewrite dev_call; cbn [msr_file]; rewrite bind_ret_l; cbn [fst snd]).
  unfold act. rewrite interp_state_trigger. reflexivity.
Qed.

(** The selectors that [syscall] and a 64-bit [sysret] load. *)
Definition syscall_cs (star : Z) : Z := bits star 32 16.
Definition syscall_ss (star : Z) : Z := bits star 32 16 + 8.
Definition sysret_cs (star : Z) : Z := bits star 48 16 + 16.
Definition sysret_ss (star : Z) : Z := bits star 48 16 + 8.

(** [syscall_init] and [seg_init] fit together: with the descriptor table
    and STAR as they leave them, a system call switches to the kernel's 64-bit
    code and its data segment, and the return to the user's, at privilege
    level 3; the call instruction is enabled, enters at [syscall_entry] and
    does so with interrupts off. *)
Theorem syscall_segments gdt ts ist0_end entry t m : length (t_gdt t) = 8%nat → 0 ≤ ts < 2 ^ 64 →
  ∃ m', interp_state msr_file (syscall_init entry) m ≈ Ret (m', tt) ∧
    wp (seg_init gdt ts ist0_end t) (λ _ t',
      code_segment 0 (at_selector (syscall_cs (m' MSR_STAR)) t') ∧ data_segment 0 (at_selector (syscall_ss (m' MSR_STAR)) t') ∧
      code_segment 3 (at_selector (sysret_cs (m' MSR_STAR)) t') ∧ data_segment 3 (at_selector (sysret_ss (m' MSR_STAR)) t')) ∧
    Z.testbit (m' MSR_EFER) 0 = true ∧ m' MSR_LSTAR = entry ∧ Z.testbit (m' MSR_FMASK) 9 = true.
Proof.
  intros Hl Hts. exists (after_syscall_init entry m). split; [apply syscall_init_run|]. split; [|split; [|done]].
  - kuse (seg_init_ready gdt ts ist0_end t Hl Hts). intros _ t' (_ & H1 & H2 & H3 & H4 & _). done.
  - change (after_syscall_init entry m MSR_EFER) with (Z.lor (m MSR_EFER) EFER_SCE). rewrite Z.lor_spec. apply orb_true_r.
Qed.

Lemma syscall_segments_witness : ∃ m', interp_state msr_file (syscall_init 0x1000) (λ _, 0) ≈ Ret (m', tt) ∧
  wp (seg_init 0x2000 0x3000 0x4000 tables0) (λ _ t', code_segment 3 (at_selector (sysret_cs (m' MSR_STAR)) t')).
Proof.
  destruct (syscall_segments 0x2000 0x3000 0x4000 0x1000 tables0 (λ _, 0) ltac:(done) ltac:(done)) as (m' & E & W & _).
  exists m'. split; [exact E|]. eapply wp_mono; [exact W|]. cbv beta. intros _ t' (_ & _ & H & _). exact H.
Defined.

(** ** The local APIC *)
Record lapic_state := mk_lapic { la_ptr : Z; la_regs : Z → Z }.
Definition la_index (a : Z) (d : lapic_state) : Z := u64 (a - la_ptr d) / 4.
Definition lapic_page : devE ~> Monads.stateT lapic_state (itree devE) := λ _ e d,
  match e in devE R return itree devE (lapic_state * R) with
  | DGet x => if decide (x = VLapic) then Ret (d, la_ptr d) else do r <- act (DGet x); Ret (d, r)
  | DSet x v => if decide (x = VLapic) then Ret (mk_lapic v (la_regs d), tt) else do r <- act (DSet x v); Ret (d, r)
  | DStore a v => if decide (u64 (a - la_ptr d) < PGSIZE_4KB) then Ret (mk_lapic (la_ptr d) (<[la_index a d := v]> (la_regs d)), tt) else do r <- act (DStore a v); Ret (d, r)
  | DLoad a => if decide (u64 (a - la_ptr d) < PGSIZE_4KB) then Ret (d, la_regs d (la_index a d)) else do r <- act (DLoad a); Ret (d, r)
  | e => do r <- act e; Ret (d, r)
  end.

Lemma la_offset p i : 0 ≤ i < 1024 → u64 (u64 (p + 4 * i) - p) = 4 * i.
Proof.
  intros Hi. unfold u64. rewrite Zminus_mod_idemp_l. replace (p + 4 * i - p) with (4 * i) by lia. apply Z.mod_small. lia.
Qed.

Lemma lapicr_run {R} i (k : Z → dev R) d : 0 ≤ i < 1024 →
  interp_state lapic_page (do v <- lapicr i; k v) d ≈ interp_state lapic_page (k (la_regs d i)) d.
Proof.
  intros Hi. unfold lapicr. rewrite bind_bind, dev_call. unfold lapic_page at 1. rewrite decide_True by done. rewrite bind_ret_l. cbn [fst snd].
  rewrite dev_call. unfold lapic_page at 1. rewrite la_offset by done. rewrite decide_True by (unfold PGSIZE_4KB; lia).
  rewrite bind_ret_l. cbn [fst snd]. unfold la_index. rewrite la_offset by done. rewrite Z.mul_comm, Z.div_mul by done. reflexivity.
Qed.
Definition la_set (i v : Z) (d : lapic_state) : lapic_state := mk_lapic (la_ptr d) (<[i := u32 v]> (la_regs d)).
Lemma lapicw_run {R} i v (k : unit → dev R) d : 0 ≤ i < 1024 →
  interp_state lapic_page (do x <- lapicw i v; k x) d ≈ interp_state lapic_page (k tt) (la_set i v d).
Proof.
  intros Hi. unfold lapicw. rewrite bind_bind, dev_call. unfold lapic_page at 1. rewrite decide_True by done. rewrite bind_ret_l. cbn [fst snd].
  rewrite bind_bind, dev_call. unfold lapic_page at 1. rewrite la_offset by done. rewrite decide_True by (unfold PGSIZE_4KB; lia).
  rewrite bind_ret_l. cbn [fst snd]. unfold la_index. rewrite la_offset by done. rewrite Z.mul_comm, Z.div_mul by done.
  rewrite bind_bind. rewrite lapicr_run by done. rewrite bind_ret_l. reflexivity.
Qed.

(** The timer is periodic on the kernel's timer vector, errors and spurious
    interrupts have theirs, the local pins are masked, and no interrupt is
    held back by the task priority. *)
Record lapic_ready (d : lapic_state) : Prop := {
  lr_svr : la_regs d SVR = Z.lor ENABLE (T_IRQ0 + IRQ_SPURIOUS);
  lr_timer : la_regs d TIMER = Z.lor PERIODIC (T_IRQ0 + IRQ_TIMER);
  lr_count : la_regs d TICR = 10000000;
  lr_divide : la_regs d TDCR = X1;
  lr_lint0 : la_regs d LINT0 = MASKED;
  lr_lint1 : la_regs d LINT1 = MASKED;
  lr_error : la_regs d ERROR = T_IRQ0 + IRQ_ERROR;
  lr_tpr : la_regs d TPR = 0
}.

Definition lapic_boot : dev Z :=
  do base <- rdmsr IA32_APIC_BASE_MSR;
  do! (if bool_decide (Z.land base IA32_APIC_BASE_MSR_ENABLE = 0)
       then wrmsr IA32_APIC_BASE_MSR (Z.lor base IA32_APIC_BASE_MSR_ENABLE) else Ret tt);
  act (DKernel (io_remap (Z.ldiff base 0xFFF) PGSIZE_4KB)).

(** The rest of [lapic_init], after the page is mapped at [l]. *)
Definition lapic_program (l : Z) : dev unit :=
  do! act (DSet VLapic l);
  do id <- lapic_id;
  do! act (DSet VLapicId (u8 id));
  do! lapicw SVR (Z.lor ENABLE (T_IRQ0 + IRQ_SPURIOUS));
  do! lapicw TDCR X1;
  do! lapicw TIMER (Z.lor PERIODIC (T_IRQ0 + IRQ_TIMER));
  do! lapicw TICR 10000000;
  do! lapicw LINT0 MASKED;
  do! lapicw LINT1 MASKED;
  do ver <- lapicr VER;
  do! (if bool_decide (4 ≤ Z.land (Z.shiftr ver 16) 0xFF) then lapicw PCINT MASKED else Ret tt);
  do! lapicw ERROR (T_IRQ0 + IRQ_ERROR);
  do! lapicw ESR 0;
  do! lapicw ESR 0;
  do! lapicw EOI 0;
  lapicw TPR 0.
Lemma lapic_init_steps : lapic_init ≅ ITree.bind lapic_boot lapic_program.
Proof.
  unfold lapic_init, lapic_boot. rewrite bind_bind. apply eqit_bind; [reflexivity|]. intros base. rewrite bind_bind. reflexivity.
Qed.

Lemma lapic_program_ready l d : l ≠ 0 → ∃ d', lapic_ready d' ∧ la_ptr d' = l ∧
  interp_state lapic_page (lapic_program l) d ≈ (do! act (DSet VLapicId (u8 (Z.shiftr (la_regs d ID) 24))); Ret (d', tt)).
Proof.
  intros Hl. set (d1 := mk_lapic l (la_regs d)).
  set (d2 := la_set LINT1 MASKED (la_set LINT0 MASKED (la_set TICR 10000000 (la_set TIMER (Z.lor PERIODIC (T_IRQ0 + IRQ_TIMER)) (la_set TDCR X1 (la_set SVR (Z.lor ENABLE (T_IRQ0 + IRQ_SPURIOUS)) d1)))))).
  set (b := bool_decide (4 ≤ Z.land (Z.shiftr (la_regs d2 VER) 16) 0xFF)).
  set (d3 := if b then la_set PCINT MASKED d2 else d2).
  exists (la_set TPR 0 (la_set EOI 0 (la_set ESR 0 (la_set ESR 0 (la_set ERROR (T_IRQ0 + IRQ_ERROR) d3))))).
  split; [|split; [by destruct b|]].
  { split; destruct b; reflexivity. }
  unfold lapic_program. rewrite dev_call. unfold lapic_page at 1. rewrite decide_True by done. rewrite bind_ret_l. cbn [fst snd]. fold d1.
  unfold lapic_id. rewrite bind_bind, dev_call. unfold lapic_page at 1. rewrite decide_True by done. rewrite bind_ret_l. cbn [fst snd la_ptr d1].
  rewrite bool_decide_false by done. rewrite bind_bind. rewrite lapicr_run by done. rewrite bind_ret_l. change (la_regs d1 ID) with (la_regs d ID).
  rewrite dev_call. unfold lapic_page at 1. rewrite decide_False by done. rewrite bind_bind. apply eutt_eq_bind. intros []. rewrite bind_ret_l. cbn [fst snd].
  do 6 (rewrite lapicw_run by done). rewrite lapicr_run by done. fold d2. fold b.
  assert (E : ∀ k : unit → dev unit, interp_state lapic_page (do x <- (if b then lapicw PCINT MASKED else Ret tt); k x) d2 ≈ interp_state lapic_page (k tt) d3).
  { intros k. unfold d3. destruct b; [by rewrite lapicw_run by done|]. rewrite bind_ret_l. reflexivity. }
  rewrite E. do 4 (rewrite lapicw_run by done). rewrite <- (bind_ret_r (lapicw TPR 0)). rewrite lapicw_run by done.
  rewrite interp_state_ret. reflexivity.
Qed.
