(* ===== verification/Boot.v ===== *)
(** * Booting (kernel/main.c, mb2.c)

    [main]: the components brought up one after the other, on the devices, the
    descriptor tables and the kernel's own state. *)
From S2P Require Import Usys Prelude State Spinlock Sched Sleeplock Ring Bio Balloc CString Inode Dir Kalloc Vm Font Gop Kbd Console Proc Seg Dev.

(** ** The boot information (mb2.c), bytes of physical memory *)
Definition mem_byte (pa : Z) (s : kstate) : byte :=
  default x00 (page (ROUNDDOWN pa PGSIZE_4KB) (k_kmem s) !! Z.to_nat (pa mod PGSIZE_4KB)).
Definition mem_set (pa : Z) (b : byte) : kstate → kstate :=
  put_page (ROUNDDOWN pa PGSIZE_4KB) (splice (Z.to_nat (pa mod PGSIZE_4KB)) [b]).
(** A number of [n] bytes. *)
Definition mem_le (n pa : Z) (s : kstate) : Z := le_get ((λ i, mem_byte (pa + i) s) <$> seqZ 0 n).
(** [info->total_size], the first four bytes. *)
Definition total_size (pa : Z) (s : kstate) : Z := mem_le 4 pa s.

(** Pages for the bytes of the information after the first 4096. *)
Fixpoint reserve_loop (fuel : nat) (info alloc : Z) : M kstate unit :=
  let! size := gets (total_size info) in
  if bool_decide (alloc < size) then
    match fuel with
    | O => no_fuel
    | S fuel' => let! _ := bump_alloc_page_4kb in reserve_loop fuel' info (u32 (alloc + PGSIZE_4KB))
    end
  else ret tt.
(** The new value of [reserved_mb2_info]. *)
Definition preserve_mb2 (mb2_info_phys : Z) : M kstate Z :=
  let! reserved := bump_alloc_page_4kb in
  let! size := gets (total_size mb2_info_phys) in
  reserve_loop (S (Z.to_nat (size / PGSIZE_4KB))) mb2_info_phys PGSIZE_4KB ;;;
  let! size := gets (total_size mb2_info_phys) in
  for_each (seqZ 0 size) (λ i,
    let! b := gets (mem_byte (mb2_info_phys + i)) in
    modify (mem_set (V2P_KERN reserved + i) b)) ;;;
  ret reserved.

(** [MB2_FOREACH_TAG]: the addresses of the tags from [tag] up to the one of
    type 0; a tag of size 0 is met for ever. *)
Fixpoint tags_from (fuel : nat) (tag : Z) (s : kstate) : option (list Z) :=
  if bool_decide (mem_le 4 (kva_pa tag) s = 0) then Some [] else
  match fuel with
  | O => None
  | S fuel' => cons tag <$> tags_from fuel' (u64 (Z.ldiff (tag + mem_le 4 (kva_pa (tag + 4)) s + 7) 7)) s
  end.
(** [info] is a virtual address. *)
Definition foreach_tag (info : Z) (s : kstate) : option (list Z) :=
  tags_from (S (Z.to_nat (total_size (kva_pa info) s / 8))) (info + 8) s.
Definition MB2_TAG_MMAP : Z := 6.
Definition MB2_TAG_FB : Z := 8.
Definition tag_type (tag : Z) (s : kstate) : Z := mem_le 4 (kva_pa tag) s.

(** [struct mb2_tag_fb] at [tag]. *)
Definition fb_at (tag : Z) (s : kstate) : mb2_tag_fb :=
  let f off n := mem_le n (kva_pa (tag + off)) s in
  mk_tag_fb (f 8 8) (f 16 4) (f 20 4) (f 24 4) (f 28 1) (f 29 1).
(** The entries of a [struct mb2_tag_mm]. *)
Definition mmap_at (tag : Z) (s : kstate) : list mmap_entry :=
  let size := mem_le 4 (kva_pa (tag + 4)) s in
  let entry_size := mem_le 4 (kva_pa (tag + 8)) s in
  (λ i, let e := tag + 16 + i * entry_size in
        mk_mmap (mem_le 8 (kva_pa e) s) (mem_le 8 (kva_pa (e + 8)) s) (mem_le 4 (kva_pa (e + 16)) s))
  <$> seqZ 0 (u64 (size - 16) / entry_size).

(** [kinit] and [gop_init] on the tags of [reserved_mb2_info]; the pages that
    [kinit] frees lie above it, so it may be read beforehand. *)
Definition kinit_boot (info : Z) : M kstate unit :=
  let! tags := gets (foreach_tag info) in
  match tags with
  | None => no_fuel
  | Some tags =>
    let! map := gets (λ s, concat ((λ t, if bool_decide (tag_type t s = MB2_TAG_MMAP) then mmap_at t s else []) <$> tags)) in
    kinit map
  end.
Definition gop_init_boot (info : Z) : M kstate unit :=
  let! tags := gets (foreach_tag info) in
  match tags with
  | None => no_fuel
  | Some tags =>
    let! fbs := gets (λ s, omap (λ t, if bool_decide (tag_type t s = MB2_TAG_FB) then Some (fb_at t s) else None) tags) in
    gop_init fbs
  end.

(** ** main.c *)

(** What the linker, the assembler and the boot loader provide: addresses of
    kernel objects and of the boot information, the code of the first process
    and the image of the ram disk. *)
Record boot_env := mk_boot {
  bt_kernel_phys_end : Z; bt_mb2_info : Z;
  bt_cpus : Z; bt_gdt : Z; bt_ts : Z; bt_ist0_end : Z; bt_idt : Z; bt_vectors : list Z; bt_syscall_entry : Z;
  bt_initcode : list byte; bt_image : gmap Z (list byte); bt_image_size : Z
}.

Section Main.
Context {wf : WakeFuel} {dsw : DevSw} {kt : KernelText}.
Context (name0 : list byte) (e : boot_env).

Definition c_str (s : string) : list byte := String.list_byte_of_string s ++ [x00].
Definition nl : string := String (Ascii.ascii_of_nat 10) EmptyString.

(** Three threads for trying out the scheduler; nothing starts them. *)
Definition draw_forever (color : Z) (c : byte) : dev void :=
  ITree.iter (λ _ : unit, do! act (DKernel (gop_draw_rect 300 300 50 50 color)); do! serial_putc c; Ret (inl tt)) tt.
Definition GOP_RED : Z := 0x00FF0000.
Definition GOP_GRN : Z := 0x0000FF00.
Definition GOP_BLU : Z := 0x000000FF.
Definition proc_a : dev void := draw_forever GOP_BLU x41.
Definition proc_b : dev void := draw_forever GOP_GRN x42.
Definition proc_c : dev void := draw_forever GOP_RED x43.

(** [turns] turns of the scheduler, which does not return. *)
Definition main (turns : nat) : dev unit :=
  do _ <- init_serial;
  do! serial_puts (c_str ("Hello" ++ nl));
  do! act (DKernel (bump_init (bt_kernel_phys_end e)));
  do info <- act (DKernel (preserve_mb2 (bt_mb2_info e)));
  do! act (DSet VMb2 info);
  do! act (DKernel kvmalloc);
  do! serial_puts (c_str "kinit...");
  do! act (DKernel (kinit_boot info));
  do! serial_puts (c_str ("done" ++ nl));
  do! cpu_init (bt_cpus e);
  do! act (DTables (seg_init (bt_gdt e) (bt_ts e) (bt_ist0_end e)));
  do! act (DTables (tv_init (bt_vectors e)));
  do! act (DTables (idt_init (bt_idt e)));
  do! act (DKernel (gop_init_boot info));
  do! lapic_init;
  do! ioapic_init;
  do! act (DKernel process_init);
  do! act (DKernel (user_init name0 (bt_initcode e)));
  do! syscall_init (bt_syscall_entry e);
  do! act (DKernel (rd_init (bt_image e) (bt_image_size e)));
  do! act (DKernel bcache_init);
  do! act (DKernel console_init);
  do! kbd_init;
  do! act (DKernel (cprintf (c_str ("--- Console Testing ---" ++ nl)) []));
  do! act (DKernel (cprintf (c_str ("Magic Num: 0x%x" ++ nl)) [AInt (s32 0xDEADBEAF)]));
  do! act (DKernel (cprintf (c_str ("Hello %s" ++ nl)) [AStr (Some (String.list_byte_of_string "World from amd64"))]));
  do! serial_puts (c_str ("Bye" ++ nl));
  do! act (DKernel (fs_init ROOTDEV));
  act (DKernel (scheduler turns)).
End Main.
