(* ===== verification/BootSpec.v ===== *)
(** * The boot information is preserved

    [preserve_mb2] moves the information the boot loader left into pages of
    its own, provided that those pages, which are cleared first, do not
    overlap it. *)
From S2P Require Import Prelude State Spinlock Sched Sleeplock Ring Bio Balloc CString Inode Dir Kalloc Vm Font Gop Kbd Console Proc Boot.

Definition pages_full (s : kstate) : Prop := ∀ pa, length (page pa (k_kmem s)) = page_nat.

Lemma page_of_put pa q f s : page q (k_kmem (put_page pa f s)) = if decide (q = pa) then f (page pa (k_kmem s)) else page q (k_kmem s).
Proof.
  unfold put_page, page at 1. ksimpl. simpl. case_decide as E; [subst; by rewrite lookup_insert_eq|by rewrite lookup_insert_ne].
Qed.

(** A byte is found at its page and its place in the page. *)
Lemma place_inj p q : ROUNDDOWN p PGSIZE_4KB = ROUNDDOWN q PGSIZE_4KB → p mod PGSIZE_4KB = q mod PGSIZE_4KB → p = q.
Proof. unfold ROUNDDOWN, PGSIZE_4KB. intros H1 H2. rewrite (Z.div_mod p 4096), (Z.div_mod q 4096) by lia. lia. Qed.

Lemma page_off p : 0 ≤ p mod PGSIZE_4KB < 4096.
Proof. by apply Z.mod_pos_bound. Qed.
Lemma mem_set_byte p b q s : pages_full s → mem_byte q (mem_set p b s) = if decide (q = p) then b else mem_byte q s.
Proof.
  intros Hp. unfold mem_byte, mem_set. rewrite page_of_put. pose proof (page_off p) as Hm. pose proof (page_off q) as Hq.
  case_decide as E.
  - destruct (decide (q = p)) as [->|Hne].
    + rewrite splice_lookup_in; [|rewrite (Hp _); unfold page_nat; simpl; lia|simpl; lia]. by rewrite Nat.sub_diag.
    + rewrite splice_lookup_out; [by rewrite E|rewrite (Hp _); unfold page_nat; simpl; lia|].
      destruct (decide (q mod PGSIZE_4KB = p mod PGSIZE_4KB)) as [Em|Em]; [destruct Hne; by apply place_inj|]. simpl. lia.
  - rewrite decide_False; [done|]. intros ->. done.
Qed.
Lemma mem_set_full p b s : pages_full s → pages_full (mem_set p b s).
Proof.
  intros Hp q. unfold mem_set. rewrite page_of_put. case_decide; [|apply Hp]. pose proof (page_off p).
  rewrite splice_length; [apply Hp|]. rewrite (Hp _). unfold page_nat. simpl. lia.
Qed.

(** A cleared page. *)
Definition cleared (p : Z) (s : kstate) : kstate := put_page p (λ _, zero_page) s.
Lemma cleared_full p s : pages_full s → pages_full (cleared p s).
Proof. intros Hp q. unfold cleared. rewrite page_of_put. case_decide; [done|apply Hp]. Qed.
Lemma cleared_byte p q s : p mod PGSIZE_4KB = 0 → ¬ p ≤ q < p + 4096 → mem_byte q (cleared p s) = mem_byte q s.
Proof.
  intros Ha Hq. unfold mem_byte, cleared. rewrite page_of_put, decide_False; [done|]. intros E. apply Hq. unfold ROUNDDOWN, PGSIZE_4KB in *.
  pose proof (Z.div_mod q 4096 ltac:(done)). pose proof (Z.mod_pos_bound q 4096 ltac:(done)). lia.
Qed.

Lemma bump_run s : m_bump_enable (k_kmem s) = true → 0 ≤ m_bump_ptr (k_kmem s) → m_bump_ptr (k_kmem s) + 4096 < 2 ^ 64 →
  ∃ s', bump_alloc_page_4kb s = Done (P2V_KERN (m_bump_ptr (k_kmem s))) s' ∧
    k_kmem s' = k_kmem (cleared (m_bump_ptr (k_kmem s)) (set_k_kmem (set_m_bump_ptr (m_bump_ptr (k_kmem s) + 4096)) s)).
Proof.
  intros He H0 Hb. unfold bump_alloc_page_4kb. rewrite bind_gets, He. cbn [negb]. rewrite bind_modify, bind_modify. unfold ret.
  eexists. split; [reflexivity|]. unfold PGSIZE_4KB. by rewrite u64_small by lia.
Qed.

Section Preserve.
Context (info bump : Z) (s0 : kstate).
Let size := total_size info s0.
(** Pages taken: at least one, and one for every 4096 bytes begun. *)
Definition mb2_pages : Z := Z.max 1 ((size + 4095) / 4096).
Context (Hfull : pages_full s0) (Hen : m_bump_enable (k_kmem s0) = true) (Hptr : m_bump_ptr (k_kmem s0) = bump).
Context (Hal : bump mod PGSIZE_4KB = 0) (Hb0 : 0 ≤ bump) (Hb1 : bump + 4096 * mb2_pages < 2 ^ 64) (Hsize : size ≤ 2 ^ 32 - 4096).
(** The information, its length word included, is outside the pages. *)
Context (Hout : ∀ i, 0 ≤ i < Z.max 4 size → ¬ bump ≤ info + i < bump + 4096 * mb2_pages).

Record reserved (k : Z) (s : kstate) : Prop := {
  rs_full : pages_full s;
  rs_en : m_bump_enable (k_kmem s) = true;
  rs_ptr : m_bump_ptr (k_kmem s) = bump + 4096 * k;
  rs_mem : ∀ q, ¬ bump ≤ q < bump + 4096 * k → mem_byte q s = mem_byte q s0
}.

Lemma reserved_size k s : k ≤ mb2_pages → reserved k s → total_size info s = size.
Proof.
  intros Hk R. unfold size, total_size, mem_le. f_equal. apply list_fmap_ext. intros j i Hi. apply lookup_seqZ in Hi as [-> Hi].
  apply (rs_mem _ _ R). pose proof (Hout (0 + Z.of_nat j) ltac:(lia)). lia.
Qed.

Lemma reserved_step k s : 0 ≤ k < mb2_pages → reserved k s →
  ∃ s', bump_alloc_page_4kb s = Done (P2V_KERN (bump + 4096 * k)) s' ∧ reserved (k + 1) s'.
Proof.
  intros Hk [Hp He Hptr' Hm]. destruct (bump_run s He) as (s' & E & Ek); [lia|lia|]. rewrite Hptr' in E, Ek. exists s'. split; [exact E|].
  assert (Hmb : ∀ q, mem_byte q s' = mem_byte q (cleared (bump + 4096 * k) s)).
  { intros q. unfold mem_byte. rewrite Ek. unfold cleared. rewrite !page_of_put. reflexivity. }
  split.
  - intros q. rewrite Ek. unfold cleared. rewrite page_of_put. case_decide; [done|]. apply Hp.
  - by rewrite Ek.
  - rewrite Ek. change (bump + 4096 * k + 4096 = bump + 4096 * (k + 1)). lia.
  - intros q Hq. rewrite Hmb. rewrite cleared_byte; [apply Hm; lia| |lia].
    unfold PGSIZE_4KB in *. rewrite Z.mul_comm. by rewrite Z.mod_add.
Qed.

Lemma reserve_run fuel : ∀ k s, 1 ≤ k ≤ mb2_pages → mb2_pages - k ≤ Z.of_nat fuel → reserved k s →
  wp (reserve_loop fuel info (4096 * k) s) (λ _ s', reserved mb2_pages s').
Proof.
  assert (Hsz : size ≤ 4096 * mb2_pages).
  { unfold mb2_pages. pose proof (Z.div_mod (size + 4095) 4096 ltac:(done)). pose proof (Z.mod_pos_bound (size + 4095) 4096 ltac:(done)). lia. }
  assert (Hin : ∀ k, 4096 * k < size → k < mb2_pages).
  { intros k Hk. unfold mb2_pages. apply Z.lt_le_trans with ((size + 4095) / 4096); [|lia]. apply Z.lt_le_trans with (k + 1); [lia|]. apply Z.div_le_lower_bound; lia. }
  induction fuel as [|fuel IH]; intros k s Hk Hf R; cbn [reserve_loop]; rewrite bind_gets, (reserved_size k s ltac:(lia) R).
  - assert (k = mb2_pages) as -> by lia. rewrite bool_decide_false by lia. exact R.
  - case_bool_decide as E.
    + specialize (Hin k E). destruct (reserved_step k s ltac:(lia) R) as (s' & Eb & R'). rewrite (bind_done _ _ _ _ _ Eb).
      replace (u32 (4096 * k + PGSIZE_4KB)) with (4096 * (k + 1)) by (unfold PGSIZE_4KB; rewrite u32_small; lia). apply IH; [lia|lia|done].
    + assert (k = mb2_pages) as ->; [|exact R]. destruct (decide (size ≤ 4096)) as [Hs|Hs].
      * assert (mb2_pages = 1) as E1; [|lia]. unfold mb2_pages. assert ((size + 4095) / 4096 < 2) by (apply Z.div_lt_upper_bound; lia). lia.
      * assert (mb2_pages ≤ k); [|lia]. unfold mb2_pages. apply Z.max_lub; [lia|]. enough ((size + 4095) / 4096 < k + 1) by lia. apply Z.div_lt_upper_bound; lia.
Qed.

Lemma copy_run s n : 0 ≤ n ≤ size → n ≤ 4096 * mb2_pages → pages_full s →
  wp (for_each (seqZ 0 n) (λ i, let! b := gets (mem_byte (info + i)) in modify (mem_set (bump + i) b)) s)
     (λ _ s', pages_full s' ∧ ∀ i, 0 ≤ i < n → mem_byte (bump + i) s' = mem_byte (info + i) s).
Proof.
  intros Hn Hle Hp. eapply wp_mono; [apply (wp_for_each_seqZ (λ i s', pages_full s' ∧
    ∀ q, mem_byte q s' = if decide (bump ≤ q < bump + i) then mem_byte (info + (q - bump)) s else mem_byte q s) 0 n); [lia| |]|].
  - split; [done|]. intros q. by rewrite decide_False by lia.
  - intros i s1 Hi [Hp1 H1]. rewrite bind_gets. apply wp_modify. split; [by apply mem_set_full|]. intros q.
    rewrite mem_set_byte by done. rewrite !H1. rewrite (decide_False (P := bump ≤ info + i < _)) by (pose proof (Hout i ltac:(lia)); lia).
    repeat case_decide; try lia; do 2 f_equal; lia.
  - cbv beta. intros _ s' [Hp' H']. split; [done|]. intros i Hi. rewrite H', decide_True by lia. do 2 f_equal. lia.
Qed.
End Preserve.

Lemma v2p_p2v_kern p : 0 ≤ p < 2 ^ 64 → V2P_KERN (P2V_KERN p) = p.
Proof. intros Hp. unfold V2P_KERN, P2V_KERN, u64. rewrite Zminus_mod_idemp_l. replace (p + KERN_BASE - KERN_BASE) with p by lia. by apply Z.mod_small. Qed.

(** What [preserve_mb2] returns points to a copy, byte for byte, of the boot
    information, in whole pages that the bump allocator has handed out; the
    information must end before those pages or begin after them, for they are
    cleared before it is copied. *)
Theorem preserve_mb2_copies info s (size := total_size info s) (bump := m_bump_ptr (k_kmem s)) (n := Z.max 1 ((size + 4095) / 4096)) :
  pages_full s → m_bump_enable (k_kmem s) = true → bump mod PGSIZE_4KB = 0 → 0 ≤ bump → bump + 4096 * n < 2 ^ 64 →
  size ≤ 2 ^ 32 - 4096 → info + Z.max 4 size ≤ bump ∨ bump + 4096 * n ≤ info →
  wp (preserve_mb2 info s) (λ r s', V2P_KERN r = bump ∧ m_bump_ptr (k_kmem s') = bump + 4096 * n ∧
    ∀ i, 0 ≤ i < size → mem_byte (bump + i) s' = mem_byte (info + i) s).
Proof.
  intros Hfull Hen Hal Hb0 Hb1 Hsize Hout. assert (Hs0 : 0 ≤ size) by apply le_get_range.
  assert (Hout' : ∀ i, 0 ≤ i < Z.max 4 size → ¬ bump ≤ info + i < bump + 4096 * n) by lia.
  assert (Hsz : size ≤ 4096 * n).
  { unfold n. pose proof (Z.div_mod (size + 4095) 4096 ltac:(done)). pose proof (Z.mod_pos_bound (size + 4095) 4096 ltac:(done)). lia. }
  assert (R0 : reserved bump s 0 s) by (split; [done|done|fold bump; lia|done]).
  destruct (reserved_step info bump s Hal Hb0 Hb1 0 s ltac:(unfold mb2_pages; fold size; lia) R0) as (s1 & E1 & R1).
  unfold preserve_mb2. rewrite (bind_done _ _ _ _ _ E1), bind_gets.
  rewrite (reserved_size info bump s Hout' 1 s1 ltac:(unfold mb2_pages; lia) R1). fold size.
  assert (Ef : mb2_pages info s - 1 ≤ Z.of_nat (S (Z.to_nat (size / PGSIZE_4KB)))).
  { unfold mb2_pages. fold size. rewrite Nat2Z.inj_succ, Z2Nat.id by (apply Z.div_pos; [lia|done]). unfold PGSIZE_4KB.
    pose proof (Z.div_pos size 4096 ltac:(lia) ltac:(done)). enough ((size + 4095) / 4096 ≤ size / 4096 + 1) by lia.
    replace (size / 4096 + 1) with ((size + 1 * 4096) / 4096) by (by rewrite Z.div_add). apply Z.div_le_mono; lia. }
  apply wp_bind. change PGSIZE_4KB with (4096 * 1) at 2. eapply wp_mono.
  { apply (reserve_run info bump s Hal Hb0 Hb1 Hsize Hout' _ 1 s1); [unfold mb2_pages; lia|exact Ef|exact R1]. }
  cbv beta. intros _ s2 R2. rewrite bind_gets, (reserved_size info bump s Hout' _ s2 ltac:(reflexivity) R2). fold size.
  apply wp_bind. replace (bump + 4096 * 0) with bump by lia. rewrite v2p_p2v_kern by lia.
  pose proof (copy_run info bump s Hout' s2 size ltac:(fold size; lia) Hsz ltac:(apply R2)) as C.
  assert (D : wp (for_each (seqZ 0 size) (λ i, let! b := gets (mem_byte (info + i)) in modify (mem_set (bump + i) b)) s2)
    (λ _ s', m_bump_ptr (k_kmem s') = bump + 4096 * n)).
  { apply (wp_for_each (λ s', m_bump_ptr (k_kmem s') = bump + 4096 * n)); [apply (rs_ptr _ _ _ _ R2)|].
    intros i s' _ Hp. rewrite bind_gets. apply wp_modify. exact Hp. }
  eapply wp_mono; [exact (wp_and _ _ _ C D)|].
  cbv beta. intros _ s3 [[_ Hc] Hp3]. apply wp_ret. split; [apply v2p_p2v_kern; lia|]. split; [exact Hp3|]. intros i Hi. rewrite Hc by done.
  apply (rs_mem _ _ _ _ R2). apply Hout'. lia.
Qed.

(** ** The tags *)
Definition in_kernel (a : Z) (n : nat) : Prop := KERN_BASE ≤ a ∧ a + Z.of_nat n < 2 ^ 64.
Definition holds (a : Z) (l : list byte) (s : kstate) : Prop :=
  ∀ i b, l !! i = Some b → mem_byte (kva_pa (a + Z.of_nat i)) s = b.

Lemma kva_add a i : KERN_BASE ≤ a → 0 ≤ i → a + i < 2 ^ 64 → kva_pa (a + i) = kva_pa a + i.
Proof.
  intros Ha Hi Hw. unfold kva_pa. rewrite !bool_decide_true by lia. unfold V2P_KERN. assert (0 < KERN_BASE) by done. rewrite !u64_small by lia. lia.
Qed.
Lemma holds_app a l1 l2 s : holds a (l1 ++ l2) s → holds a l1 s ∧ holds (a + Z.of_nat (length l1)) l2 s.
Proof.
  intros H. split; intros i b Hi.
  - apply H. by apply lookup_app_l_Some.
  - replace (a + Z.of_nat (length l1) + Z.of_nat i) with (a + Z.of_nat (length l1 + i)) by lia. apply H.
    rewrite lookup_app_r by lia. by replace (length l1 + i - length l1)%nat with i by lia.
Qed.
Lemma holds_le n a v s : holds a (le_put n v) s → in_kernel a n → mem_le (Z.of_nat n) (kva_pa a) s = v mod 256 ^ Z.of_nat n.
Proof.
  intros H [Ha Hw]. unfold mem_le. rewrite <- le_get_put. f_equal. apply list_eq. intros i. rewrite list_lookup_fmap.
  destruct (le_put n v !! i) as [b|] eqn:E.
  - pose proof (lookup_lt_Some _ _ _ E) as Hl. rewrite le_put_length in Hl. rewrite (proj2 (lookup_seqZ 0 _ i (Z.of_nat i))) by lia. simpl. f_equal.
    rewrite <- kva_add by lia. by apply H.
  - apply lookup_ge_None in E. rewrite le_put_length in E. by rewrite lookup_seqZ_ge by lia.
Qed.

(** A tag: its type, its size, its contents, and zeros up to a multiple of 8. *)
Definition tag_pad (p : list byte) : nat := Z.to_nat ((- Z.of_nat (length p)) mod 8).
Definition tag_bytes (t : Z * list byte) : list byte :=
  le_put 4 t.1 ++ le_put 4 (8 + Z.of_nat (length t.2)) ++ t.2 ++ replicate (tag_pad t.2) x00.
Definition info_bytes (ts : list (Z * list byte)) : list byte := concat (tag_bytes <$> ts) ++ le_put 4 0.
Definition tag_good (t : Z * list byte) : Prop := 0 < t.1 < 2 ^ 32 ∧ 8 + Z.of_nat (length t.2) < 2 ^ 32.
Fixpoint tag_addrs (a : Z) (ts : list (Z * list byte)) : list Z :=
  match ts with [] => [] | t :: ts => a :: tag_addrs (a + Z.of_nat (length (tag_bytes t))) ts end.

Lemma tag_bytes_length t : Z.of_nat (length (tag_bytes t)) = 8 * ((8 + Z.of_nat (length t.2) + 7) / 8).
Proof.
  unfold tag_bytes. rewrite !length_app, !le_put_length, length_replicate, !Nat2Z.inj_add. unfold tag_pad.
  set (n := Z.of_nat (length t.2)). pose proof (Z.mod_pos_bound (- n) 8 ltac:(done)). rewrite Z2Nat.id by lia.
  pose proof (Z.div_mod (- n) 8 ltac:(done)) as E1. pose proof (Z.div_mod (8 + n + 7) 8 ltac:(done)) as E2. pose proof (Z.mod_pos_bound (8 + n + 7) 8 ltac:(done)). lia.
Qed.
(** [(tag + size + 7) & ~7]. *)
Lemma tag_next a sz : a mod 8 = 0 → Z.ldiff (a + sz + 7) 7 = a + 8 * ((sz + 7) / 8).
Proof.
  intros Ha. change 7 with (Z.ones 3) at 2. rewrite Z.ldiff_ones_r, Z.shiftr_div_pow2, Z.shiftl_mul_pow2 by lia. change (2 ^ 3) with 8.
  pose proof (Z.div_mod a 8 ltac:(done)) as E. rewrite Ha in E. replace (a + sz + 7) with (sz + 7 + a / 8 * 8) by lia. rewrite Z.div_add by done. lia.
Qed.

(** Walking the tags of a well-formed boot information visits each of them
    once, in order, and ends; the type found at each address is the tag's. *)
Lemma tags_from_spec ts : ∀ a s fuel, Forall tag_good ts → a mod 8 = 0 → in_kernel a (length (info_bytes ts)) →
  holds a (info_bytes ts) s → (length ts ≤ fuel)%nat →
  tags_from fuel a s = Some (tag_addrs a ts) ∧ Forall2 (λ a t, tag_type a s = t.1 ∧ holds (a + 8) t.2 s) (tag_addrs a ts) ts.
Proof.
  induction ts as [|t ts IH]; intros a s fuel Hg Ha Hk Hh Hf.
  - pose proof (holds_le 4 a 0 s Hh Hk) as E. change (Z.of_nat 4) with 4 in E. destruct fuel; cbn [tags_from]; rewrite bool_decide_true by exact E; by split.
  - apply Forall_cons in Hg as [[Ht Hs] Hg]. destruct fuel as [|fuel]; [simpl in Hf; lia|].
    assert (El : info_bytes (t :: ts) = tag_bytes t ++ info_bytes ts) by (unfold info_bytes; simpl; by rewrite app_assoc).
    rewrite El in Hk, Hh. unfold in_kernel in Hk. rewrite length_app in Hk. apply holds_app in Hh as [Ht1 Hrest].
    pose proof (tag_bytes_length t) as Htl. assert (8 ≤ Z.of_nat (length (tag_bytes t))).
    { rewrite Htl. pose proof (Z.div_le_lower_bound (8 + Z.of_nat (length t.2) + 7) 8 1). lia. }
    unfold tag_bytes in Ht1. apply holds_app in Ht1 as [Hty Ht1]. rewrite le_put_length in Ht1. apply holds_app in Ht1 as [Hsz Ht1]. rewrite le_put_length in Ht1.
    apply holds_app in Ht1 as [Hp _].
    pose proof (holds_le 4 a _ s Hty ltac:(unfold in_kernel; lia)) as E1. pose proof (holds_le 4 (a + 4) _ s Hsz ltac:(unfold in_kernel; lia)) as E2.
    change (Z.of_nat 4) with 4 in *. change (256 ^ 4) with (2 ^ 32) in *. rewrite Z.mod_small in E1, E2 by lia.
    cbn [tags_from tag_addrs]. rewrite E1, bool_decide_false by lia. rewrite E2.
    replace (a + (8 + Z.of_nat (length t.2)) + 7) with (a + (8 + Z.of_nat (length t.2)) + 7) by lia. rewrite tag_next by done. rewrite <- Htl.
    rewrite u64_small by (pose proof (proj1 Hk); assert (0 < KERN_BASE) by done; lia).
    destruct (IH (a + Z.of_nat (length (tag_bytes t))) s fuel) as [-> F]; [done| | |done|simpl in Hf; lia|].
    + rewrite Htl, Z.mul_comm. by rewrite Z.mod_add.
    + unfold in_kernel. lia.
    + split; [done|]. constructor; [|exact F]. split; [exact E1|]. replace (a + 8) with (a + 4 + 4) by lia. exact Hp.
Qed.
